(* ===== verification/_CoqProject ===== *)
-Q . S2P
Prelude.v
Regex.v
RegexFacts.v
RegexSteps.v
PahoBase.v
Utf8.v
Wire.v
WireFacts.v
WireTheorems.v
Client.v
ClientKeeps.v
Deframe.v
Storage.v
Identifiers.v
Ready.v
Delivery.v
Session.v
Failover.v
Keepalive.v
ClientExamples.v
Unsendable.v
Typing.v
Strings.v
Locale.v
Language.v
Json.v
DataTable.v
JsonView.v
JsonViewFacts.v
Trace.v
Dates.v
Console.v
ConsoleFacts.v
DataTableFacts.v
Pager.v
Validator.v
Forms.v
FormsFacts.v
ConsoleForms.v
Callbacks.v
Deferred.v
DeferredFacts.v
Ajax.v
AjaxFacts.v
AjaxPromise.v
AjaxAnswered.v
Modal.v
ModalFacts.v
Remote.v
RemoteFacts.v
RemoteSent.v
Accounts.v
AccountsFacts.v
AccountsTheorems.v
Acl.v
AclFacts.v
Monitor.v
MonitorFacts.v
Methods.v
MethodsFacts.v
CalendarFacts.v
Api.v
ApiFacts.v
ApiUri.v
WebSocket.v
WebSocketFacts.v
