(* ===== verification/Prelude.v ===== *)
(** * Stuart: the web console and its MQTT client

    Stuart is an MQTT broker with a web console.  The broker is Java; what runs
    in the browser is JavaScript, and is what this development models: the MQTT
    client the console uses (Paho), the console's own scripts and pages, the form
    validator, the JSON viewer, what the pages need of the table library, the
    requests of jQuery and the dialogs of Bootstrap.
    Paths below are relative to src/src/main/resources/webroot/.

    ** The parts and how they interact

    The frame (ui/js/index.js) loads a page into itself, sends the chosen node as
    a header of every request, and holds the alert dialog.  A page (ui/page/)
    uses the common functions (ui/js/common.js), the messages of the chosen
    language (language.js, i18n/), the validator with the console's rules
    (jquery.validate.js, ui/js/validation.js), tables (jquery.dataTables.js) and
    requests to the broker.  The page websocket.html talks MQTT to the broker
    through the client's public interface, which checks its arguments and calls
    the implementation (mqttws31.js).

    ** Files

    Shared: Prelude (JavaScript strings as 16-bit code units, numbers, lemmas on
    lists and maps, automation), Regex with RegexFacts and RegexSteps (regular
    expressions of the language: a parser of patterns, the backtracking matcher,
    its declarative reading, stepping it), Json (JSON values and their text).

    MQTT client (static/components/paho-mqtt/mqttws31.js):
    - PahoBase, Utf8, Wire: constants and errors; UTF-8, 16-bit and multi-byte
      integers; [encode] and [decodeMessage] on every packet.  WireFacts and
      WireTheorems: layouts and round trips.
    - Client: [ClientImpl], [Pinger] and [Timeout] as functions in a
      state-and-exception monad over one record; [step] is one event (a call of
      the application, data or a close from the socket, a timer), [reachable]
      what the constructor and events lead to.
    - ClientKeeps, Deframe, Storage, Identifiers, Ready, Delivery, Session,
      Failover, Keepalive, Typing, Unsendable: what the methods leave alone, the
      byte stream, the local storage, packet identifiers, the exchange of
      messages as a refinement of a protocol automaton, resuming, trying other
      servers, silence, and the sequences of events that break a client.
      ClientExamples: concrete clients.
    - Api, ApiFacts, ApiUri: the public [Client] over JavaScript values, and what
      each of its calls asks of the client behind it, always a reachable one.
      Trace: the trace buffer.

    Console:
    - Strings (string.js), Locale (i18n tables), Language (language.js), Dates
      (ui/js/date.ext.js), Console with ConsoleFacts (login.js, ui/js/common.js,
      ui/js/index.js).
    - Validator, Forms with FormsFacts and ConsoleForms (jquery.validate.js and
      ui/js/validation.js): what a form is checked against and shows.  Remote with
      RemoteFacts and RemoteSent: the rule that asks the server, its requests and
      answers, and the handler of submit (one form, any order of events).
    - Methods with MethodsFacts and CalendarFacts (additional-methods.js).
    - DataTable with DataTableFacts (jquery.dataTables.js, tables filled by the
      server: drawing, asking, answers out of order, replacing a table).  Pager
      (jquery.dataTables.js and dataTables.bootstrap.js): the line that counts the
      rows and the buttons of the pages, drawn and clicked.
    - Accounts with AccountsFacts and AccountsTheorems (ui/page/admin.html and
      user.html), Acl with AclFacts (ui/page/acl.html and
      dataTables.rowReorder.js), WebSocket with WebSocketFacts
      (ui/page/websocket.html), Monitor with MonitorFacts (ui/page/console.html,
      connect.html, session.html, topic.html, subscribe.html and listener.html):
      pages as state machines over the clicks, the
      typing, the timers and the answers of the broker in any order.
    - JsonView with JsonViewFacts (jquery.jsonview.js): the HTML of a value and
      the buttons and names that fold it.

    Dialogs (static/components/bootstrap/dist/js/bootstrap.js and ui/js/index.js):
    Modal, the dialogs of the pages and of the frame with their backdrops, timers
    and transitions; ModalFacts, the phases of a dialog and what goes wrong.

    Requests (static/components/jquery/dist/jquery.js, which the console changed):
    - Callbacks: one list of callbacks and the pieces of its operations.  Deferred:
      the three lists of a deferred and those behind them, on a stack of functions
      that run inside each other; a function may do anything, return or throw.
      DeferredFacts: the life of a list that is fired once, and what follows.
    - Ajax: an answer and its conversion, [ajax], [done], [abort] and the
      transport, with the console's test for sessions that have ended.  AjaxFacts:
      conversions and what happens to the stack.  AjaxPromise: a request waits,
      is answered, is handled, whatever happens to it.  AjaxAnswered: what it was
      given is called when it is answered, with the console's own function.

    ** What the theorems show

    - Wire: packets and texts survive a round trip; the length field is in
      bounds; packets cut into chunks are the same packets.
    - Client: in every reachable state messages in flight are well formed, under
      free identifiers, and stored (those whose payload can be); a reload and an
      accepted reconnection resume them, in order when no subscription is in
      flight; qos 2 messages arrive exactly once; while only publications are in
      flight the handlers refine the exchange of the protocol, on packets it
      expects; servers and versions are tried in order; silence ends a connection.
      The errors found are theorems too: sequences after which a client is stuck,
      a text that blocks a session, a packet that outlives its connection.
    - Interface: each call is exactly the one request to the implementation that
      its arguments describe, with sound options and messages, or throws and
      leaves the client as it was.
    - Forms: a form is valid exactly when its rules hold, and shows for each field
      the first rule that fails; the console's forms accept exactly the lengths
      they ask for; check digits, dates and patterns are equivalent to their
      definitions.
    - Forms that ask: in whatever order answers come, a form is sent only with
      values the server has accepted; submitted in order, it is sent once when the
      server accepts all it asks about; a request that fails leaves it stuck.
    - Tables: the buttons below a table are in order and without a hole, and each
      leads to the page it names; numbers are written in groups of three; a page
      that lists something shows the answer to its last query, and the line below
      says rightly which rows these are.
    - Pages: a dialog deletes what it shows and sends what is typed when it is
      well formed; a table shows the answer to its last request; a dragged rule
      leaves the priorities in their places; a message typed into one page is the
      row another page shows.
    - Requests: a deferred settles once and calls each function of its side once,
      in order, with one value; a request calls nothing before it has completed,
      then one side only, and leaves no function out unless one throws; after the
      end of a session it is never completed; conversions end.
    - Dialogs: shown and hidden in any order they come to rest with exactly the
      dialogs shown last on the screen, unless one is shown while it closes or a
      page is loaded while the alert opens, and what then happens.
    - Viewer: the HTML reads back as the JSON text and is well nested; clicks and
      methods refine a tree of folded flags, and nothing throws but a click on a
      quotation mark of a name.

    ** Conventions, bounds and fuel

    A JavaScript number is an exact integer [Z] where the code counts, and the
    places where a machine width matters (bytes, 16-bit fields, the four-byte
    length, the identifier 65536, the multiplier of the length that overflows a
    double) are written out.  An object used as a map is a
    [gmap] when its order cannot be seen and a list of pairs when it can.  An
    exception is a value ([Throw], [None] of [form], the flag [faulted] of a
    page).  A loop that is not structural has fuel taken from its input (the
    bytes left, the characters of the text, the nodes of a pattern times the
    length of the text), and a theorem says that it is enough: the loop over
    received bytes ends with one result, [test_spec] makes the matcher agree with
    its declarative reading, and the identifier search finds one among as many
    candidates as there are messages plus one.  Answers of the broker, timers and
    events come in any order the browser allows; what a browser computes that is
    not in the scripts (local time, the text of an HTML fragment, case tables
    beyond ASCII) is a parameter.

    ** Not modelled

    The broker (Java).  The vendored libraries apart from what is named above
    (the rest of jQuery and Bootstrap, Select2, AdminLTE): the models of the scripts contain
    what they rely on of them.  The styling of pages and animation; of the tables,
    sorting, searching and scrolling, which the pages switch off.  Of the
    validator: radio buttons, check boxes and lists, rules with dependencies,
    groups of fields.  The page of the programming interface (api.html), which
    shows and hides constants.  Of jQuery: selectors, elements, events, effects;
    of its deferreds [then], [pipe] and [when]; of its requests the filters, the
    headers other than the type of the answer, and other transports. *)

From stdpp Require Import base tactics list strings gmap numbers countable.
From Stdlib Require Import ZArith Lia.

(** ** JavaScript strings

    A JavaScript string is a sequence of 16-bit code units.  [js] turns a
    literal of this file (its bytes are UTF-8) into the string the script
    contains. *)
Abbreviation jsstr := (list Z).

Declare Scope js_scope.
Delimit Scope js_scope with js.

Local Open Scope Z_scope.

Fixpoint string_bytes (s : string) : list Z :=
  match s with
  | EmptyString => []
  | String.String a s' => Z.of_N (Ascii.N_of_ascii a) :: string_bytes s'
  end.

(** The code units of one code point. *)
Definition utf16_units (c : Z) : jsstr :=
  if c <=? 0xFFFF then [c]
  else let d := c - 0x10000 in
       [0xD800 + Z.shiftr d 10; 0xDC00 + Z.land d 0x3FF].

Fixpoint literal_units (fuel : nat) (bs : list Z) : jsstr :=
  match fuel, bs with
  | S n, b1 :: r1 =>
      if b1 <? 0x80 then b1 :: literal_units n r1
      else match r1 with
      | b2 :: r2 =>
          if b1 <? 0xE0 then
            utf16_units (64 * (b1 - 0xC0) + (b2 - 0x80)) ++ literal_units n r2
          else match r2 with
          | b3 :: r3 =>
              if b1 <? 0xF0 then
                utf16_units (4096 * (b1 - 0xE0) + 64 * (b2 - 0x80) + (b3 - 0x80))
                  ++ literal_units n r3
              else match r3 with
              | b4 :: r4 =>
                  utf16_units (262144 * (b1 - 0xF0) + 4096 * (b2 - 0x80)
                               + 64 * (b3 - 0x80) + (b4 - 0x80))
                    ++ literal_units n r4
              | [] => []
              end
          | [] => []
          end
      | [] => []
      end
  | _, _ => []
  end.

Definition js (s : string) : jsstr :=
  let bs := string_bytes s in literal_units (length bs) bs.
#[global] Arguments js : simpl never.

(** The code of a one-character literal. *)
Definition chr (s : string) : Z := default 0 (head (js s)).

(** ** Numbers

    The numbers the modelled code computes with are integers, or the [NaN]
    that reading past the end of an array or parsing a non-number gives. *)
Inductive jsnum := Num (z : Z) | NaN.

#[export] Instance jsnum_eq_dec : EqDecision jsnum.
Proof. solve_decision. Defined.

#[export] Program Instance jsnum_countable : Countable jsnum :=
  inj_countable' (λ n, match n with Num z => Some z | NaN => None end)
                 (λ o, match o with Some z => Num z | None => NaN end) _.
Next Obligation. by intros []. Qed.

(** Signed 32-bit conversion, as the bitwise operators do it. *)
Definition toInt32 (z : Z) : Z :=
  let m := z mod 2 ^ 32 in if m <? 2 ^ 31 then m else m - 2 ^ 32.

Lemma toInt32_id z : - 2 ^ 31 <= z < 2 ^ 31 -> toInt32 z = z.
Proof.
  unfold toInt32. intros H. change (2 ^ 31) with 2147483648 in *.
  change (2 ^ 32) with 4294967296.
  destruct (decide (0 <= z)).
  - rewrite Z.mod_small by lia. case_match eqn:E; lia.
  - replace (z mod 4294967296) with (z + 4294967296).
    + case_match eqn:E; lia.
    + apply Z.mod_unique with (-1); lia.
Qed.

(** [Number.prototype.toString(base)] on integers. *)
Definition digit_char (d : Z) : Z := if d <? 10 then 48 + d else 87 + d.

Fixpoint digits (base : Z) (fuel : nat) (z : Z) (acc : jsstr) : jsstr :=
  match fuel with
  | O => acc
  | S n =>
      let acc' := digit_char (z mod base) :: acc in
      if z <? base then acc' else digits base n (z / base) acc'
  end.

Definition to_base (base z : Z) : jsstr :=
  if z <? 0 then 45 :: digits base (S (Z.to_nat (Z.log2 (- z)))) (- z) []
  else digits base (S (Z.to_nat (Z.log2 z))) z [].

Definition dec (z : Z) : jsstr := to_base 10 z.

(** The value of a digit character, when it is one below [base]. *)
Definition digit_val (base c : Z) : option Z :=
  let v := if (48 <=? c) && (c <=? 57) then c - 48
           else if (97 <=? c) && (c <=? 122) then c - 87
           else if (65 <=? c) && (c <=? 90) then c - 55
           else base in
  if v <? base then Some v else None.

Definition is_digit (c : Z) : bool := (48 <=? c) && (c <=? 57).

(** White space and line terminators, what [\s] and [trim] use. *)
Definition is_space (c : Z) : bool :=
  ((9 <=? c) && (c <=? 13)) || (c =? 32) || (c =? 0xA0) || (c =? 0x1680)
  || ((0x2000 <=? c) && (c <=? 0x200A)) || (c =? 0x2028) || (c =? 0x2029)
  || (c =? 0x202F) || (c =? 0x205F) || (c =? 0x3000) || (c =? 0xFEFF).

Fixpoint drop_while (p : Z -> bool) (s : jsstr) : jsstr :=
  match s with
  | [] => []
  | c :: s' => if p c then drop_while p s' else s
  end.

(** [$.trim] and [String.prototype.trim]. *)
Definition trim (s : jsstr) : jsstr :=
  rev (drop_while is_space (rev (drop_while is_space s))).

(** [parseInt(s, base)]: leading space, sign, longest run of digits. *)
Fixpoint parse_digits (base : Z) (s : jsstr) (acc : option Z) : option Z :=
  match s with
  | [] => acc
  | c :: s' =>
      match digit_val base c with
      | Some d => parse_digits base s' (Some (base * default 0 acc + d))
      | None => acc
      end
  end.

Definition parseInt (base : Z) (s : jsstr) : jsnum :=
  let s := drop_while is_space s in
  let '(sign, s) := match s with
                    | 45 :: s' => (-1, s')
                    | 43 :: s' => (1, s')
                    | _ => (1, s)
                    end in
  match parse_digits base s None with
  | Some z => Num (sign * z)
  | None => NaN
  end.

(** ** String operations of the standard library *)

(** [s.substring(a, b)]: indices clamped and swapped. *)
Definition clamp (lo hi z : Z) : Z := Z.max lo (Z.min z hi).

Definition substring (s : jsstr) (a b : Z) : jsstr :=
  let n := Z.of_nat (length s) in
  let a := clamp 0 n a in let b := clamp 0 n b in
  let i := Z.to_nat (Z.min a b) in let j := Z.to_nat (Z.max a b) in
  take (j - i) (drop i s).

(** [s.slice(a, b)]: a negative index counts from the end. *)
Definition slice_index (n z : Z) : Z :=
  if z <? 0 then Z.max 0 (n + z) else Z.min z n.

Definition slice (s : jsstr) (a b : Z) : jsstr :=
  let n := Z.of_nat (length s) in
  let i := Z.to_nat (slice_index n a) in let j := Z.to_nat (slice_index n b) in
  take (j - i) (drop i s).

(** [s.substr(a)] (no length): a negative start counts from the end. *)
Definition substr_from (s : jsstr) (a : Z) : jsstr :=
  drop (Z.to_nat (slice_index (Z.of_nat (length s)) a)) s.

(** [s.substr(a, len)]. *)
Definition substr (s : jsstr) (a len : Z) : jsstr :=
  take (Z.to_nat len) (substr_from s a).

(** [s.charAt(i)]: empty outside the string. *)
Definition charAt (s : jsstr) (i : Z) : jsstr :=
  if i <? 0 then []
  else match s !! Z.to_nat i with Some c => [c] | None => [] end.

Fixpoint is_prefix (p s : jsstr) : bool :=
  match p, s with
  | [], _ => true
  | a :: p', b :: s' => (a =? b) && is_prefix p' s'
  | _ :: _, [] => false
  end.

(** [s.indexOf(p, from)]. *)
Fixpoint index_at (p s : jsstr) (i : Z) : Z :=
  if is_prefix p s then i
  else match s with [] => -1 | _ :: s' => index_at p s' (i + 1) end.

Definition indexOf_from (s p : jsstr) (from : Z) : Z :=
  let i := clamp 0 (Z.of_nat (length s)) from in
  index_at p (drop (Z.to_nat i) s) i.

Definition indexOf (s p : jsstr) : Z := index_at p s 0.

(** ASCII case mapping.  [toLowerCase] of the few strings the console maps. *)
Definition upper_ascii (c : Z) : Z :=
  if (97 <=? c) && (c <=? 122) then c - 32 else c.
Definition lower_ascii (c : Z) : Z :=
  if (65 <=? c) && (c <=? 90) then c + 32 else c.

(** [s.split(sep)] for a one-character separator, and [parts.join(sep)]. *)
Fixpoint split_on (p : Z -> bool) (s : jsstr) : list jsstr :=
  match s with
  | [] => [[]]
  | c :: s' =>
      if p c then [] :: split_on p s'
      else match split_on p s' with
           | [] => [[c]]
           | w :: ws => (c :: w) :: ws
           end
  end.

Fixpoint join (sep : jsstr) (ws : list jsstr) : jsstr :=
  match ws with
  | [] => []
  | [w] => w
  | w :: ws' => w ++ sep ++ join sep ws'
  end.

Definition jseqb (a b : jsstr) : bool := bool_decide (a = b).

(** ** Results and the state-and-exception monad

    A JavaScript call returns or throws, and the state it has reached when it
    throws is the state the handler that catches it sees. *)
Inductive result (E A : Type) := Ret (a : A) | Throw (e : E).
Arguments Ret {_ _} _.
Arguments Throw {_ _} _.

Definition rbind {E A B} (m : result E A) (f : A -> result E B) : result E B :=
  match m with Ret a => f a | Throw e => Throw e end.

Definition rmap {E A B} (f : A -> B) (m : result E A) : result E B :=
  match m with Ret a => Ret (f a) | Throw e => Throw e end.

Definition St (S E A : Type) := S -> result E A * S.

Section Monad.
Context {S E : Type}.

Definition ret {A} (a : A) : St S E A := λ s, (Ret a, s).
Definition throw {A} (e : E) : St S E A := λ s, (Throw e, s).
Definition bind {A B} (m : St S E A) (f : A -> St S E B) : St S E B :=
  λ s, match m s with
       | (Ret a, s') => f a s'
       | (Throw e, s') => (Throw e, s')
       end.
Definition get {A} (f : S -> A) : St S E A := λ s, (Ret (f s), s).
Definition modify (f : S -> S) : St S E unit := λ s, (Ret tt, f s).
Definition try {A} (m : St S E A) (h : E -> St S E A) : St S E A :=
  λ s, match m s with
       | (Ret a, s') => (Ret a, s')
       | (Throw e, s') => h e s'
       end.
Definition when (b : bool) (m : St S E unit) : St S E unit :=
  if b then m else ret tt.
Definition lift {A} (r : result E A) : St S E A := λ s, (r, s).
Fixpoint iter_ {A} (f : A -> St S E unit) (l : list A) : St S E unit :=
  match l with
  | [] => ret tt
  | a :: l' => bind (f a) (λ _, iter_ f l')
  end.
End Monad.

(** A sequence that returned: its parts did. *)
Lemma bind_ret {S E A B} (m : St S E A) (k : A -> St S E B) s b s'' :
  bind m k s = (Ret b, s'') -> exists a s', m s = (Ret a, s') /\ k a s' = (Ret b, s'').
Proof. unfold bind. destruct (m s) as [[a|e] s']; [eauto|done]. Qed.

Declare Scope st_scope.
Delimit Scope st_scope with st.
Notation "x <- m ;; k" := (bind m (λ x, k))
  (at level 100, m at next level, k at level 200, right associativity) : st_scope.
Notation "m ;; k" := (bind m (λ _, k))
  (at level 100, k at level 200, right associativity) : st_scope.
Notation "x <-? m ;; k" := (rbind m (λ x, k))
  (at level 100, m at next level, k at level 200, right associativity) : st_scope.
Notation "'let*' p := m 'in' k" := (rbind m (λ x, match x with p => k end))
  (at level 10, p pattern, m at level 200, k at level 200) : st_scope.

Create HintDb js.

(** Case analysis on the result of a call inside a goal. *)
Ltac step_result :=
  match goal with
  | |- context [match ?m ?s with (_, _) => _ end] =>
      let r := fresh "r" in let s' := fresh "s" in destruct (m s) as [r s'] eqn:?
  end.

(** Turns boolean comparisons on [Z] and [nat] into propositions. *)
Ltac zbool :=
  repeat match goal with
  | H : andb _ _ = true |- _ => apply andb_prop in H as [? ?]
  | H : orb _ _ = false |- _ => apply orb_false_elim in H as [? ?]
  | H : negb _ = true |- _ => apply negb_true_iff in H
  | H : negb _ = false |- _ => apply negb_false_iff in H
  | H : (_ <? _) = true |- _ => apply Z.ltb_lt in H
  | H : (_ <? _) = false |- _ => apply Z.ltb_ge in H
  | H : (_ <=? _) = true |- _ => apply Z.leb_le in H
  | H : (_ <=? _) = false |- _ => apply Z.leb_gt in H
  | H : (_ =? _) = true |- _ => apply Z.eqb_eq in H
  | H : (_ =? _) = false |- _ => apply Z.eqb_neq in H
  end.

(** Linear arithmetic with boolean comparisons, the flipped ones included. *)
Ltac zlia :=
  repeat match goal with
  | |- context [?a >? ?b] => rewrite (Z.gtb_ltb a b)
  | |- context [?a >=? ?b] => rewrite (Z.geb_leb a b)
  | H : context [?a >? ?b] |- _ => rewrite (Z.gtb_ltb a b) in H
  | H : context [?a >=? ?b] |- _ => rewrite (Z.geb_leb a b) in H
  end;
  try match goal with
  | |- true = _ => symmetry
  | |- false = _ => symmetry
  end;
  try match goal with
  | |- (_ <? _) = true => apply Z.ltb_lt
  | |- (_ <? _) = false => apply Z.ltb_ge
  | |- (_ <=? _) = true => apply Z.leb_le
  | |- (_ <=? _) = false => apply Z.leb_gt
  end; lia.

(** Checking a property of the numbers below a bound by evaluation. *)
Lemma bounded_forall (P : Z -> bool) n :
  forallb (λ i, P (Z.of_nat i)) (seq 0 n) = true ->
  forall z, 0 <= z < Z.of_nat n -> P z = true.
Proof.
  intros H z Hz. rewrite forallb_forall in H.
  rewrite <- (Z2Nat.id z) by lia. apply H, in_seq. lia.
Qed.

(** ** Facts about numerals *)
Lemma digit_val_char base d :
  0 <= d < base -> base <= 36 -> digit_val base (digit_char d) = Some d.
Proof.
  intros. unfold digit_val, digit_char.
  destruct (d <? 10) eqn:E; zbool.
  - replace (48 <=? 48 + d) with true by (symmetry; apply Z.leb_le; lia).
    replace (48 + d <=? 57) with true by (symmetry; apply Z.leb_le; lia).
    cbn. replace (48 + d - 48) with d by lia.
    by replace (d <? base) with true by (symmetry; apply Z.ltb_lt; lia).
  - replace (87 + d <=? 57) with false by (symmetry; apply Z.leb_gt; lia).
    rewrite andb_false_r.
    replace (97 <=? 87 + d) with true by (symmetry; apply Z.leb_le; lia).
    replace (87 + d <=? 122) with true by (symmetry; apply Z.leb_le; lia).
    cbn. replace (87 + d - 87) with d by lia.
    by replace (d <? base) with true by (symmetry; apply Z.ltb_lt; lia).
Qed.


Lemma digits_parse base fuel z acc :
  2 <= base <= 36 -> 0 <= z < 2 ^ Z.of_nat fuel -> fuel <> O ->
  exists k, 0 <= k /\ forall o,
    parse_digits base (digits base fuel z acc) o
    = parse_digits base acc (Some (base ^ k * default 0 o + z)).
Proof.
  intros Hb. revert z acc. induction fuel as [|n IH]; intros z acc Hz Hn; [done|].
  cbn [digits]. destruct (z <? base) eqn:E; zbool.
  - exists 1. split; [lia|]. intros o. cbn [parse_digits].
    rewrite Z.mod_small, digit_val_char by lia. by rewrite Z.pow_1_r.
  - rewrite Nat2Z.inj_succ, Z.pow_succ_r in Hz by lia.
    destruct (decide (n = O)) as [->|Hn'].
    { change (2 ^ Z.of_nat 0) with 1 in Hz. lia. }
    destruct (IH (z / base) (digit_char (z mod base) :: acc)) as (k & Hk & IH'); [|done|].
    { split; [apply Z.div_pos; lia|]. apply Z.div_lt_upper_bound; [lia|].
      assert (0 < 2 ^ Z.of_nat n) by (apply Z.pow_pos_nonneg; lia). nia. }
    exists (k + 1). split; [lia|]. intros o. rewrite IH'. cbn [parse_digits].
    rewrite digit_val_char by (try apply Z.mod_pos_bound; lia). cbn [default].
    f_equal. f_equal. rewrite Z.pow_add_r, Z.pow_1_r by lia.
    pose proof (Z.div_mod z base). unfold id. nia.
Qed.

Lemma digits_head base fuel z acc :
  0 < base -> 0 <= z -> fuel <> O ->
  exists d t, digits base fuel z acc = digit_char d :: t /\ 0 <= d < base.
Proof.
  intros Hb. revert z acc. induction fuel as [|n IH]; intros z acc Hz Hn; [done|].
  pose proof (Z.mod_pos_bound z base Hb).
  cbn [digits]. destruct (z <? base) eqn:E; [eauto|].
  destruct n as [|n]; [cbn; eauto|]. apply IH; [|done]. apply Z.div_pos; lia.
Qed.

Lemma log2_fuel z : 0 <= z -> z < 2 ^ Z.of_nat (S (Z.to_nat (Z.log2 z))).
Proof.
  intros Hz. rewrite Nat2Z.inj_succ, Z2Nat.id by apply Z.log2_nonneg.
  destruct (decide (z = 0)) as [->|]; [done|]. apply Z.log2_spec. lia.
Qed.

Lemma digit_char_range d : 0 <= d < 36 -> 48 <= digit_char d <= 57 \/ 97 <= digit_char d <= 122.
Proof. intros. unfold digit_char. case_match eqn:E; zbool; lia. Qed.

Lemma digit_char_not_space d : 0 <= d < 36 -> is_space (digit_char d) = false.
Proof.
  intros Hd. unfold is_space. pose proof (digit_char_range d Hd). lia.
Qed.

(** Printing a number and reading it back, in any base the language offers. *)
Lemma parseInt_to_base base z :
  2 <= base <= 36 -> parseInt base (to_base base z) = Num z.
Proof.
  intros Hb. unfold to_base. destruct (z <? 0) eqn:E; zbool.
  - destruct (digits_parse base (S (Z.to_nat (Z.log2 (- z)))) (- z) []) as (k & Hk & Hp);
      [done|split; [lia|apply log2_fuel; lia]|done|].
    unfold parseInt.
    match goal with |- context [drop_while is_space (45 :: ?l)] =>
      change (drop_while is_space (45 :: l)) with (45 :: l) end.
    cbv beta iota. rewrite Hp. cbn [parse_digits default]. f_equal. unfold id. lia.
  - destruct (digits_parse base (S (Z.to_nat (Z.log2 z))) z []) as (k & Hk & Hp);
      [done|split; [lia|apply log2_fuel; lia]|done|].
    destruct (digits_head base (S (Z.to_nat (Z.log2 z))) z []) as (d & t & Hd & Hr);
      [lia|lia|done|].
    unfold parseInt. rewrite Hd in *. cbn [drop_while].
    rewrite digit_char_not_space by lia.
    assert (match digit_char d :: t with 45 :: s' => (-1, s') | 43 :: s' => (1, s')
            | _ => (1, digit_char d :: t) end = (1, digit_char d :: t)) as ->.
    { destruct (digit_char_range d) as [?|?]; [lia| |];
        destruct (digit_char d) as [|p|p]; try lia; repeat (destruct p as [p|p|]; try lia; try done). }
    rewrite Hp. cbn [parse_digits default]. f_equal. unfold id. lia.
Qed.

Lemma to_base_inj base a b :
  2 <= base <= 36 -> to_base base a = to_base base b -> a = b.
Proof.
  intros Hb Heq. pose proof (parseInt_to_base base a Hb) as Ha.
  rewrite Heq, (parseInt_to_base base b Hb) in Ha. congruence.
Qed.

Lemma dec_inj a b : dec a = dec b -> a = b.
Proof. apply to_base_inj. lia. Qed.

(** ** Facts about strings *)
Lemma is_prefix_spec p s : is_prefix p s = true <-> exists t, s = p ++ t.
Proof.
  revert s. induction p as [|a p IH]; intros s; cbn.
  { split; [by exists s|done]. }
  destruct s as [|b s]; [split; [done|by intros [t ?]]|].
  rewrite andb_true_iff, Z.eqb_eq, IH. split.
  - intros [-> [t ->]]. by exists t.
  - intros [t [= -> ->]]. split; [done|by exists t].
Qed.

Lemma is_prefix_app p s : is_prefix p (p ++ s) = true.
Proof. apply is_prefix_spec. by exists s. Qed.

#[export] Hint Resolve is_prefix_app : js.

Lemma digits_digits fuel z acc : 0 <= z -> Forall (λ c, is_digit c = true) acc ->
  Forall (λ c, is_digit c = true) (digits 10 fuel z acc).
Proof.
  revert z acc. induction fuel as [|n IH]; intros z acc Hz Ha; cbn; [done|].
  assert (is_digit (digit_char (z mod 10)) = true) as H.
  { pose proof (Z.mod_pos_bound z 10 ltac:(lia)). unfold is_digit, digit_char.
    destruct (z mod 10 <? 10) eqn:E; zbool; lia. }
  destruct (z <? 10); [by constructor|]. apply IH; [apply Z.div_pos; lia|by constructor].
Qed.

Lemma dec_digits z : 0 <= z -> dec z <> [] /\ Forall (λ c, is_digit c = true) (dec z).
Proof.
  intros Hz. unfold dec, to_base. replace (z <? 0) with false by (symmetry; zlia).
  split; [|by apply digits_digits].
  destruct (digits_head 10 (S (Z.to_nat (Z.log2 z))) z []) as (d & t & -> & _); [lia|lia|done|done].
Qed.
