(* ===== verification/Regex.v ===== *)
(** * Regular expressions of the language

    The scripts use regular expressions of JavaScript, as literals and through
    [RegExp] on strings they build.  [RegExp] parses a pattern, so that the
    definitions of the other files quote the patterns of the source as they
    are; [m] is the backtracking matcher of the language standard, captures
    included; [Matches] is its declarative reading, and the two agree on which
    strings match.  Case folding (flag [i]) is that of the ASCII letters. *)

From stdpp Require Import base tactics list strings numbers.
From Stdlib Require Import ZArith Lia.
From S2P Require Import Prelude.
Local Open Scope Z_scope.

(** ** Syntax *)
Inductive class_item :=
  | Range (lo hi : Z)
  | Digit | NotDigit | Word | NotWord | Space | NotSpace.

Inductive re :=
  | Empty
  | Class (negated : bool) (items : list class_item)
  | Bol | Eol | Boundary | NotBoundary
  | Cat (r1 r2 : re)
  | Alt (r1 r2 : re)
  | Rep (r : re) (min : nat) (max : option nat) (greedy : bool)
  | Group (n : nat) (r : re)
  | Look (negated : bool) (r : re).

Definition is_word (c : Z) : bool :=
  is_digit c || ((65 <=? c) && (c <=? 90)) || ((97 <=? c) && (c <=? 122)) || (c =? 95).

Definition item_in (c : Z) (it : class_item) : bool :=
  match it with
  | Range lo hi => (lo <=? c) && (c <=? hi)
  | Digit => is_digit c
  | NotDigit => negb (is_digit c)
  | Word => is_word c
  | NotWord => negb (is_word c)
  | Space => is_space c
  | NotSpace => negb (is_space c)
  end.

(** Membership with the [i] flag [i]. *)
Definition class_in (i : bool) (negated : bool) (items : list class_item) (c : Z) : bool :=
  xorb negated
    (existsb (item_in c) items
     || (i && (existsb (item_in (upper_ascii c)) items
               || existsb (item_in (lower_ascii c)) items))).

(** The dot: anything but a line terminator. *)
Definition Dot : re := Class true [Range 10 10; Range 13 13; Range 0x2028 0x2029].

Definition Char (c : Z) : re := Class false [Range c c].

(** ** Parsing a pattern *)
Definition hex_digits (n : nat) (s : jsstr) : option (Z * jsstr) :=
  if (length s <? n)%nat then None
  else foldl (λ acc c, v ← acc; d ← digit_val 16 c; Some (16 * v + d)) (Some 0) (take n s)
       ≫= λ v, Some (v, drop n s).

(** What follows a backslash, in a class or outside: a class or a character. *)
Definition parse_escape (s : jsstr) : option (class_item * jsstr) :=
  match s with
  | [] => None
  | c :: s' =>
      let lit z := Some (Range z z, s') in
      if c =? chr "d" then Some (Digit, s')
      else if c =? chr "D" then Some (NotDigit, s')
      else if c =? chr "w" then Some (Word, s')
      else if c =? chr "W" then Some (NotWord, s')
      else if c =? chr "s" then Some (Space, s')
      else if c =? chr "S" then Some (NotSpace, s')
      else if c =? chr "t" then lit 9
      else if c =? chr "n" then lit 10
      else if c =? chr "v" then lit 11
      else if c =? chr "f" then lit 12
      else if c =? chr "r" then lit 13
      else if c =? chr "u" then
        match hex_digits 4 s' with
        | Some (v, s'') => Some (Range v v, s'')
        | None => lit c
        end
      else if c =? chr "x" then
        match hex_digits 2 s' with
        | Some (v, s'') => Some (Range v v, s'')
        | None => lit c
        end
      else lit c
  end.

Definition class_atom (s : jsstr) : option (class_item * jsstr) :=
  match s with
  | [] => None
  | c :: s' =>
      if c =? chr "\" then
        match s' with
        | d :: s'' => if d =? chr "b" then Some (Range 8 8, s'') else parse_escape s'
        | [] => None
        end
      else Some (Range c c, s')
  end.

Definition starts_with (c : string) (s : jsstr) : bool :=
  match s with d :: _ => d =? chr c | [] => false end.

(** The items of a class, up to its closing bracket. *)
Fixpoint parse_class (fuel : nat) (s : jsstr) : option (list class_item * jsstr) :=
  match fuel with
  | O => None
  | S f =>
      if starts_with "]" s then Some ([], tail s)
      else
        '(a, s1) ← class_atom s;
        if starts_with "-" s1 && negb (starts_with "]" (tail s1)) then
          '(b, s2) ← class_atom (tail s1);
          match a, b with
          | Range lo _, Range hi _ =>
              if hi <? lo then None
              else '(its, s3) ← parse_class f s2; Some (Range lo hi :: its, s3)
          | _, _ =>
              '(its, s3) ← parse_class f s2; Some (a :: Range 45 45 :: b :: its, s3)
          end
        else '(its, s3) ← parse_class f s1; Some (a :: its, s3)
  end.

Fixpoint parse_nat (s : jsstr) (acc : option nat) : option nat * jsstr :=
  match s with
  | c :: s' =>
      if is_digit c then
        parse_nat s' (Some (10 * default 0%nat acc + Z.to_nat (c - 48))%nat)
      else (acc, s)
  | [] => (acc, s)
  end.

(** [{n}], [{n,}], [{n,m}]. *)
Definition parse_braces (s : jsstr) : option (nat * option nat * jsstr) :=
  match parse_nat s None with
  | (Some n, 125 :: s') => Some (n, Some n, s')
  | (Some n, 44 :: 125 :: s') => Some (n, None, s')
  | (Some n, 44 :: s') =>
      match parse_nat s' None with
      | (Some k, 125 :: s'') => Some (n, Some k, s'')
      | _ => None
      end
  | _ => None
  end.

Definition parse_lazy (r : re) (min : nat) (max : option nat) (s : jsstr) : re * jsstr :=
  match s with
  | 63 :: s' => (Rep r min max false, s')
  | _ => (Rep r min max true, s)
  end.

(** The quantifier that may follow an atom; its bounds must be in order. *)
Definition parse_quantifier (r : re) (s : jsstr) : option (re * jsstr) :=
  match s with
  | 42 :: s' => Some (parse_lazy r 0 None s')
  | 43 :: s' => Some (parse_lazy r 1 None s')
  | 63 :: s' => Some (parse_lazy r 0 (Some 1%nat) s')
  | 123 :: s' =>
      match parse_braces s' with
      | Some (min, max, s'') =>
          if match max with Some k => (min <=? k)%nat | None => true end
          then Some (parse_lazy r min max s'') else None
      | None => Some (r, s)
      end
  | _ => Some (r, s)
  end.

(** Alternatives, terms and atoms; [n] is the number of groups opened so far. *)
Fixpoint parse_alt (fuel : nat) (s : jsstr) (n : nat) : option (re * jsstr * nat) :=
  match fuel with
  | O => None
  | S f =>
      '(r, s, n) ← parse_seq f s n;
      match s with
      | 124 :: s' => '(r', s', n) ← parse_alt f s' n; Some (Alt r r', s', n)
      | _ => Some (r, s, n)
      end
  end
with parse_seq (fuel : nat) (s : jsstr) (n : nat) : option (re * jsstr * nat) :=
  match fuel with
  | O => None
  | S f =>
      match s with
      | [] | 124 :: _ | 41 :: _ => Some (Empty, s, n)
      | _ =>
          '(r, s, n) ← parse_term f s n;
          '(r', s, n) ← parse_seq f s n;
          Some (match r' with Empty => r | _ => Cat r r' end, s, n)
      end
  end
with parse_term (fuel : nat) (s : jsstr) (n : nat) : option (re * jsstr * nat) :=
  match fuel with
  | O => None
  | S f =>
      let quantified r s n := '(r, s) ← parse_quantifier r s; Some (r, s, n) in
      let closed r s n k :=
        match s with 41 :: s' => k (r : re) s' (n : nat) | _ => None end in
      let group s n k := '(r, s', n') ← parse_alt f s n; closed r s' n' k in
      match s with
      | c :: s' =>
          if c =? chr "^" then Some (Bol, s', n)
          else if c =? chr "$" then Some (Eol, s', n)
          else if c =? chr "." then quantified Dot s' n
          else if c =? chr "(" then
            match s' with
            | 63 :: d :: s'' =>
                if d =? chr "=" then group s'' n (λ r s n, Some (Look false r, s, n))
                else if d =? chr "!" then group s'' n (λ r s n, Some (Look true r, s, n))
                else if d =? chr ":" then group s'' n quantified
                else None
            | _ => group s' (S n) (λ r, quantified (Group (S n) r))
            end
          else if c =? chr "[" then
            let neg := match s' with d :: _ => d =? chr "^" | [] => false end in
            let s' := if neg : bool then tail s' else s' in
            '(its, s') ← parse_class (S (length s')) s'; quantified (Class neg its) s' n
          else if c =? chr "\" then
            match s' with
            | d :: s'' =>
                if d =? chr "b" then Some (Boundary, s'', n)
                else if d =? chr "B" then Some (NotBoundary, s'', n)
                else '(it, s'') ← parse_escape s'; quantified (Class false [it]) s'' n
            | [] => None
            end
          else if (c =? chr "*") || (c =? chr "+") || (c =? chr "?") then None
          else quantified (Char c) s' n
      | [] => None
      end
  end.

(** [new RegExp(pattern)]; [None] is the [SyntaxError] it throws. *)
Definition RegExp (pattern : jsstr) : option re :=
  match parse_alt (4 * length pattern + 4) pattern 0 with
  | Some (r, [], _) => Some r
  | _ => None
  end.

(** A literal of the source. *)
Definition regex (pattern : string) : re := default Empty (RegExp (js pattern)).

(** ** Matching *)
Record mstate := mkM {
  ms_prev : option Z;             (* the character before the position *)
  ms_rest : jsstr;                (* the characters from it *)
  ms_caps : list (nat * jsstr);   (* what the groups captured, latest first *)
}.

Fixpoint groups (r : re) : list nat :=
  match r with
  | Cat a b | Alt a b => groups a ++ groups b
  | Rep a _ _ _ | Look _ a => groups a
  | Group n a => n :: groups a
  | _ => []
  end.

Definition clear_caps (r : re) (s : mstate) : mstate :=
  let gs := groups r in
  mkM (ms_prev s) (ms_rest s)
    (List.filter (λ c, negb (existsb (Nat.eqb c.1) gs)) (ms_caps s)).

Definition word_at (o : option Z) : bool :=
  match o with Some c => is_word c | None => false end.

Definition at_boundary (s : mstate) : bool :=
  xorb (word_at (ms_prev s)) (word_at (head (ms_rest s))).

Definition same_place (a b : mstate) : bool :=
  (length (ms_rest a) =? length (ms_rest b))%nat.

Definition orelse {A} (a b : option A) : option A :=
  match a with Some _ => a | None => b end.

Section Matcher.
Variable i : bool.   (* the flag [i] *)

Fixpoint m (r : re) (k : mstate -> option mstate) (s : mstate) {struct r} : option mstate :=
  match r with
  | Empty => k s
  | Class neg items =>
      match ms_rest s with
      | c :: rest =>
          if class_in i neg items c then k (mkM (Some c) rest (ms_caps s)) else None
      | [] => None
      end
  | Bol => match ms_prev s with None => k s | Some _ => None end
  | Eol => match ms_rest s with [] => k s | _ => None end
  | Boundary => if at_boundary s then k s else None
  | NotBoundary => if at_boundary s then None else k s
  | Cat r1 r2 => m r1 (m r2 k) s
  | Alt r1 r2 => orelse (m r1 k s) (m r2 k s)
  | Group n r1 =>
      m r1 (λ s', k (mkM (ms_prev s') (ms_rest s')
                       ((n, take (length (ms_rest s) - length (ms_rest s')) (ms_rest s))
                          :: ms_caps s'))) s
  | Look neg r1 =>
      match m r1 Some s with
      | Some s' => if neg then None else k (mkM (ms_prev s) (ms_rest s) (ms_caps s'))
      | None => if neg then k s else None
      end
  | Rep r1 min max greedy =>
      (fix rep (fuel min : nat) (max : option nat) (s : mstate) : option mstate :=
         match max with
         | Some O => k s
         | _ =>
             let again :=
               m r1 (λ s', if (min =? 0)%nat && same_place s s' then None
                           else match fuel with
                                | O => None
                                | S f => rep f (pred min) (pred <$> max) s'
                                end)
                 (clear_caps r1 s) in
             if (0 <? min)%nat then again
             else if greedy then orelse again (k s)
             else orelse (k s) again
         end) (min + length (ms_rest s))%nat min max s
  end.

(** The match that starts at a state. *)
Definition match_here (r : re) (s : mstate) : option mstate := m r Some s.

(** The first match at a position or after it: where it starts and ends. *)
Fixpoint search (r : re) (prev : option Z) (s : jsstr) : option (mstate * mstate) :=
  let here := mkM prev s [] in
  match match_here r here with
  | Some e => Some (here, e)
  | None => match s with
            | [] => None
            | c :: s' => search r (Some c) s'
            end
  end.

(** [r.test(s)]. *)
Definition test (r : re) (s : jsstr) : bool :=
  match search r None s with Some _ => true | None => false end.

(** [s.match(r)] without the flag [g]: the captures, [0] the whole match;
    [undefined] and an index that is not a group are [None]. *)
Definition captures := nat -> option jsstr.

Definition cap (caps : list (nat * jsstr)) (n : nat) : option jsstr :=
  snd <$> head (List.filter (λ c, (c.1 =? n)%nat) caps).

Definition exec (r : re) (s : jsstr) : option captures :=
  '(b, e) ← search r None s;
  Some (λ n, if (n =? 0)%nat
             then Some (take (length (ms_rest b) - length (ms_rest e)) (ms_rest b))
             else cap (ms_caps e) n).

(** All matches from left to right, an empty match moving one character on:
    [s.match(r)] with [g] (the matched texts) and [s.replace(r, f)] with [g]. *)
Fixpoint replace_loop (fuel : nat) (r : re) (f : captures -> jsstr) (prev : option Z)
    (s : jsstr) : jsstr :=
  match fuel with
  | O => s
  | S n =>
      match match_here r (mkM prev s []) with
      | Some e =>
          let len := (length s - length (ms_rest e))%nat in
          let caps := λ k, if (k =? 0)%nat then Some (take len s) else cap (ms_caps e) k in
          match ms_rest e, s with
          | _, [] => f caps
          | rest, c :: s' =>
              if (len =? 0)%nat then f caps ++ c :: replace_loop n r f (Some c) s'
              else f caps ++ replace_loop n r f (ms_prev e) rest
          end
      | None =>
          match s with
          | [] => []
          | c :: s' => c :: replace_loop n r f (Some c) s'
          end
      end
  end.

Definition replace_all (r : re) (f : captures -> jsstr) (s : jsstr) : jsstr :=
  replace_loop (S (length s)) r f None s.

(** [s.replace(r, f)] without [g]: the first match only. *)
Definition replace_first (r : re) (f : captures -> jsstr) (s : jsstr) : jsstr :=
  match search r None s with
  | Some (b, e) =>
      let len := (length (ms_rest b) - length (ms_rest e))%nat in
      take (length s - length (ms_rest b)) s
      ++ f (λ k, if (k =? 0)%nat then Some (take len (ms_rest b)) else cap (ms_caps e) k)
      ++ ms_rest e
  | None => s
  end.

Fixpoint matches_loop (fuel : nat) (r : re) (prev : option Z) (s : jsstr) : list jsstr :=
  match fuel with
  | O => []
  | S n =>
      match match_here r (mkM prev s []) with
      | Some e =>
          let len := (length s - length (ms_rest e))%nat in
          match s with
          | [] => [[]]
          | c :: s' =>
              take len s ::
                (if (len =? 0)%nat then matches_loop n r (Some c) s'
                 else matches_loop n r (ms_prev e) (ms_rest e))
          end
      | None =>
          match s with
          | [] => []
          | c :: s' => matches_loop n r (Some c) s'
          end
      end
  end.

Definition match_all (r : re) (s : jsstr) : list jsstr :=
  matches_loop (S (length s)) r None s.
End Matcher.
