(* ===== verification/RegexFacts.v ===== *)
(** * What a regular expression matches

    [Matches r p q]: read declaratively, the expression [r] can take the text
    from the position [p] to the position [q].  The backtracking matcher
    succeeds exactly when some reading lets the rest of the pattern succeed
    ([m_spec]), whatever the order of its choices and its fuel, so that [test]
    is membership ([test_spec]). *)

From stdpp Require Import base tactics list strings numbers relations.
From Stdlib Require Import ZArith Lia.
From S2P Require Import Prelude Regex.
Local Open Scope Z_scope.

(** A position: the character before it and the text from it. *)
Abbreviation place := (option Z * jsstr)%type.

Definition place_of (s : mstate) : place := (ms_prev s, ms_rest s).

Definition boundary (p : place) : bool := xorb (word_at p.1) (word_at (head p.2)).

Definition within (max : option nat) (n : nat) : Prop :=
  match max with Some k => (n <= k)%nat | None => True end.

Section Meaning.
Variable i : bool.

Fixpoint Matches (r : re) (p q : place) : Prop :=
  match r with
  | Empty => q = p
  | Class neg items =>
      exists c rest, p.2 = c :: rest /\ class_in i neg items c = true /\ q = (Some c, rest)
  | Bol => p.1 = None /\ q = p
  | Eol => p.2 = [] /\ q = p
  | Boundary => boundary p = true /\ q = p
  | NotBoundary => boundary p = false /\ q = p
  | Cat r1 r2 => exists p', Matches r1 p p' /\ Matches r2 p' q
  | Alt r1 r2 => Matches r1 p q \/ Matches r2 p q
  | Rep r1 min max _ => exists n, (min <= n)%nat /\ within max n /\ nsteps (Matches r1) n p q
  | Group _ r1 => Matches r1 p q
  | Look neg r1 => q = p /\ (if neg then forall p', ~ Matches r1 p p'
                             else exists p', Matches r1 p p')
  end.

(** A match reads a piece of the text. *)
Definition reads (p q : place) : Prop :=
  exists l, p.2 = l ++ q.2 /\ q.1 = match last l with Some c => Some c | None => p.1 end.

Lemma reads_refl p : reads p p.
Proof. by exists []. Qed.

Lemma reads_trans p q o : reads p q -> reads q o -> reads p o.
Proof.
  intros (l & E1 & E2) (l' & E3 & E4). exists (l ++ l'). split.
  - by rewrite E1, E3, app_assoc.
  - rewrite last_app. destruct (last l'); [done|]. by rewrite E4.
Qed.

Lemma nsteps_reads (R : place -> place -> Prop) n p q :
  (forall p q, R p q -> reads p q) -> nsteps R n p q -> reads p q.
Proof.
  intros HR H. induction H; [apply reads_refl|]. eapply reads_trans; eauto.
Qed.

Lemma Matches_reads r : forall p q, Matches r p q -> reads p q.
Proof.
  induction r as [|neg its| | | | |r1 IH1 r2 IH2|r1 IH1 r2 IH2|r1 IH1 min max g|n r1 IH1|neg r1 IH1];
    cbn; intros p q H; destruct_and?; subst; try apply reads_refl.
  - destruct H as (c & rest & E & _ & ->). by exists [c].
  - destruct H as (p' & H1 & H2). eapply reads_trans; eauto.
  - destruct H; eauto.
  - destruct H as (k & _ & _ & H). eapply nsteps_reads; eauto.
  - eauto.
Qed.

Lemma reads_length p q : reads p q -> (length q.2 <= length p.2)%nat.
Proof. intros (l & -> & _). rewrite length_app. lia. Qed.

Lemma reads_same p q : reads p q -> length q.2 = length p.2 -> q = p.
Proof.
  intros (l & E & E') H. rewrite E, length_app in H.
  destruct l; cbn in *; [|lia]. destruct p, q; cbn in *; congruence.
Qed.

(** ** The repetition loop of the matcher, named *)
Definition rep_loop (r1 : re) (k : mstate -> option mstate) (greedy : bool) :=
  fix rep (fuel min : nat) (max : option nat) (s : mstate) : option mstate :=
    match max with
    | Some O => k s
    | _ =>
        let again :=
          m i r1 (λ s', if (min =? 0)%nat && same_place s s' then None
                        else match fuel with
                             | O => None
                             | S f => rep f (pred min) (pred <$> max) s'
                             end)
            (clear_caps r1 s) in
        if (0 <? min)%nat then again
        else if greedy then orelse again (k s)
        else orelse (k s) again
    end.

Lemma m_rep r1 min max g k s :
  m i (Rep r1 min max g) k s = rep_loop r1 k g (min + length (ms_rest s)) min max s.
Proof. reflexivity. Qed.

Lemma orelse_some {A} (a b : option A) : is_Some (orelse a b) <-> is_Some a \/ is_Some b.
Proof.
  destruct a as [a|]; cbn; [split; [by left|by eexists]|].
  split; [by right|intros [H|H]; [destruct H as [? [=]]|done]].
Qed.

Lemma none_iff {A} (P : Prop) : ~ P -> is_Some (@None A) <-> P.
Proof. intros H. split; [by intros [? [=]]|by intros ?]. Qed.

(** A continuation that looks at the position only, for the positions with at
    most [L] characters left. *)
Definition decides (L : nat) (k : mstate -> option mstate) (P : place -> Prop) : Prop :=
  forall s, (length (ms_rest s) <= L)%nat -> is_Some (k s) <-> P (place_of s).

Definition correct (r : re) : Prop := forall L k P, decides L k P ->
  decides L (m i r k) (λ p, exists q, Matches r p q /\ P q).

Definition runs (R : place -> place -> Prop) (min : nat) (max : option nat)
    (P : place -> Prop) (p : place) : Prop :=
  exists n q, (min <= n)%nat /\ within max n /\ nsteps R n p q /\ P q.

Lemma within_pred max n : max <> Some 0%nat -> within max (S n) <-> within (pred <$> max) n.
Proof. destruct max as [[|k]|]; cbn; [done|lia|done]. Qed.

(** One more iteration, the empty ones beyond the minimum left out. *)
Lemma runs_unfold R min max P p :
  (forall p q, R p q -> reads p q) -> max <> Some 0%nat ->
  runs R min max P p <->
  (min = 0%nat /\ P p)
  \/ exists p', R p p' /\ (min = 0%nat -> length p'.2 <> length p.2)
                /\ runs R (pred min) (pred <$> max) P p'.
Proof.
  intros HR Hmax. split.
  - intros (n & q & Hmin & Hw & Hs & HP). revert min max Hmin Hw Hmax.
    induction Hs as [p|n p p' q Hr Hs IH]; intros min max Hmin Hw Hmax.
    { left. split; [lia|done]. }
    destruct (decide (min = 0%nat /\ length p'.2 = length p.2)) as [[-> E]|Hne].
    + apply reads_same in E; [|auto]. subst p'.
      apply (IH HP 0%nat max); [lia| |done]. destruct max; cbn in *; lia.
    + right. exists p'. split; [done|]. split; [intros ->; intros E; apply Hne; auto|].
      exists n, q. split_and!; [lia|by apply within_pred|done|done].
  - intros [[-> HP]|(p' & Hr & _ & n & q & Hmin & Hw & Hs & HP)].
    + exists 0%nat, p. split_and!; [lia|destruct max; cbn; lia|constructor|done].
    + exists (S n), q. split_and!; [lia|by apply within_pred|by econstructor|done].
Qed.

Lemma same_place_spec s s' :
  same_place s s' = true <-> length (place_of s').2 = length (place_of s).2.
Proof. unfold same_place. rewrite Nat.eqb_eq. cbn. lia. Qed.

(** The bounds of every repetition are in order, as the parser checks. *)
Fixpoint well_formed (r : re) : bool :=
  match r with
  | Cat r1 r2 | Alt r1 r2 => well_formed r1 && well_formed r2
  | Rep r1 min max _ =>
      well_formed r1 && match max with Some k => (min <=? k)%nat | None => true end
  | Group _ r1 | Look _ r1 => well_formed r1
  | _ => true
  end.

Lemma within_0 R min P p : within (Some 0%nat) min -> runs R min (Some 0%nat) P p <-> P p.
Proof.
  intros Hw. split.
  - intros (n & q & _ & Hn & Hs & HP). cbn in Hn. assert (n = 0%nat) as -> by lia.
    by inversion Hs; subst.
  - intros HP. exists 0%nat, p. cbn in *. split_and!; [lia|lia|constructor|done].
Qed.

Lemma place_clear r s : place_of (clear_caps r s) = place_of s.
Proof. done. Qed.

Lemma rep_loop_spec r1 L k P g : correct r1 -> decides L k P -> forall fuel min max s,
  (length (ms_rest s) <= L)%nat -> (min + length (ms_rest s) <= fuel)%nat ->
  within max min ->
  is_Some (rep_loop r1 k g fuel min max s) <-> runs (Matches r1) min max P (place_of s).
Proof.
  intros Hr1 Hk. induction fuel as [fuel IH] using lt_wf_ind; intros min max s HL Hf Hw.
  destruct (decide (max = Some 0%nat)) as [->|Hmax].
  { rewrite within_0, <- (Hk s) by done. by destruct fuel. }
  set (next := λ s', if (min =? 0)%nat && same_place s s' then None
                     else match fuel with
                          | O => None
                          | S f => rep_loop r1 k g f (pred min) (pred <$> max) s'
                          end).
  assert (decides (length (ms_rest s)) next
            (λ p', (min = 0%nat -> length p'.2 <> length (ms_rest s))
                   /\ runs (Matches r1) (pred min) (pred <$> max) P p')) as Hnext.
  { intros s' Hs'. unfold next, same_place. cbn.
    destruct (decide (min = 0%nat /\ length (ms_rest s') = length (ms_rest s)))
      as [[-> E]|Hne].
    { rewrite E, !Nat.eqb_refl. cbn [Nat.eqb andb]. refine (none_iff _ _). tauto. }
    replace ((min =? 0)%nat && (length (ms_rest s) =? length (ms_rest s'))%nat) with false
      by (symmetry; apply andb_false_iff; rewrite !Nat.eqb_neq; lia).
    destruct fuel as [|f]; [lia|]. rewrite (IH f) by (try lia; destruct max; cbn in *; lia).
    split; [|by intros [? ?]]. split; [|done]. intros -> E. by apply Hne. }
  set (again := m i r1 next (clear_caps r1 s)).
  assert (rep_loop r1 k g fuel min max s =
          if (0 <? min)%nat then again
          else if g then orelse again (k s) else orelse (k s) again) as ->.
  { destruct fuel, max as [[|?]|]; done. }
  pose proof (Hr1 _ _ _ Hnext (clear_caps r1 s) (Nat.le_refl _)) as Hagain.
  fold again in Hagain. rewrite place_clear in Hagain.
  rewrite runs_unfold by (done || apply Matches_reads).
  destruct min as [|min]; cbn [Nat.ltb Nat.leb].
  - destruct g; rewrite orelse_some, Hagain, (Hk s HL); tauto.
  - rewrite Hagain. split; [by right|]. by intros [[? _]|?].
Qed.

Lemma decides_ext L k P Q : (forall p, P p <-> Q p) -> decides L k P -> decides L k Q.
Proof. intros E H s Hs. by rewrite (H s Hs). Qed.

Lemma ex_guard (A : Prop) (P : place -> Prop) p : (exists q, (A /\ q = p) /\ P q) <-> A /\ P p.
Proof. split; [by intros (q & (? & ->) & ?)|intros [? ?]; eauto]. Qed.

Lemma m_correct r : well_formed r = true -> correct r.
Proof.
  induction r as [|neg its| | | | |r1 IH1 r2 IH2|r1 IH1 r2 IH2|r1 IH1 min max g|n r1 IH1|neg r1 IH1];
    cbn [well_formed]; intros Hwf L k P Hk s Hs; cbn [m Matches].
  - rewrite (Hk s Hs). split; [by eauto|by intros (q & -> & ?)].
  - destruct s as [prev [|c rest] caps]; cbn.
    { refine (none_iff _ _). by intros (q & (? & ? & ? & _) & _). }
    destruct (class_in i neg its c) eqn:Ec.
    + rewrite (Hk (mkM (Some c) rest caps)) by (cbn in *; lia). cbn. split; [by eauto 10|].
      by intros (q & (? & ? & [= -> ->] & _ & ->) & ?).
    + refine (none_iff _ _). intros (q & (? & ? & [= -> ->] & ? & ->) & ?). congruence.
  - rewrite ex_guard. destruct s as [[c|] rest caps]; cbn.
    + refine (none_iff _ _). by intros [? _].
    + rewrite (Hk _ Hs). tauto.
  - rewrite ex_guard. destruct s as [prev [|c rest] caps]; cbn.
    + rewrite (Hk _ Hs). tauto.
    + refine (none_iff _ _). by intros [? _].
  - rewrite ex_guard. change (boundary (place_of s)) with (at_boundary s).
    destruct (at_boundary s); [rewrite (Hk s Hs); tauto|]. refine (none_iff _ _). by intros [? _].
  - rewrite ex_guard. change (boundary (place_of s)) with (at_boundary s).
    destruct (at_boundary s); [|rewrite (Hk s Hs); tauto]. refine (none_iff _ _). by intros [? _].
  - apply andb_prop in Hwf as [H1 H2].
    rewrite (IH1 H1 L _ _ (IH2 H2 L k P Hk) s Hs). naive_solver.
  - apply andb_prop in Hwf as [H1 H2].
    rewrite orelse_some, (IH1 H1 L k P Hk s Hs), (IH2 H2 L k P Hk s Hs). naive_solver.
  - apply andb_prop in Hwf as [H1 H2].
    change (is_Some (rep_loop r1 k g (min + length (ms_rest s)) min max s)
            <-> exists q, (exists n, (min <= n)%nat /\ within max n
                           /\ nsteps (Matches r1) n (place_of s) q) /\ P q).
    rewrite (rep_loop_spec r1 L k P g (IH1 H1) Hk); [unfold runs; naive_solver|done|done|].
    destruct max; cbn in *; [by apply Nat.leb_le|done].
  - apply (IH1 Hwf L _ P); [|done]. intros s' Hs'.
    by rewrite (Hk (mkM (ms_prev s') (ms_rest s') _) Hs').
  - assert (decides (length (ms_rest s)) Some (λ _, True)) as Hsome
      by (intros ??; split; [done|by eexists]).
    pose proof (IH1 Hwf _ _ _ Hsome s (Nat.le_refl _)) as H1.
    destruct (m i r1 Some s) as [s'|]; destruct neg.
    + refine (none_iff _ _). intros (q & (-> & Hn) & _).
      destruct H1 as [H1 _]. destruct H1 as (q & Hq & _); [by eexists|]. by destruct (Hn q).
    + rewrite (Hk (mkM (ms_prev s) (ms_rest s) (ms_caps s')) Hs). cbn.
      destruct H1 as [H1 _]. destruct H1 as (q & Hq & _); [by eexists|]. naive_solver.
    + rewrite (Hk s Hs). split.
      * intros HP. exists (place_of s). split; [|done]. split; [done|]. intros q Hq.
        destruct H1 as [_ H1]. destruct H1 as [? [=]]. eauto.
      * by intros (q & (-> & _) & HP).
    + refine (none_iff _ _). intros (q & (-> & q' & Hq) & _).
      destruct H1 as [_ H1]. destruct H1 as [? [=]]. eauto.
Qed.

(** The matcher against the declarative reading. *)
Lemma match_here_spec r s : well_formed r = true ->
  is_Some (match_here i r s) <-> exists q, Matches r (place_of s) q.
Proof.
  intros Hwf. assert (decides (length (ms_rest s)) Some (λ _, True)) as Hsome
    by (intros ??; split; [done|by eexists]).
  unfold match_here. rewrite (m_correct r Hwf _ _ _ Hsome s (Nat.le_refl _)).
  split; [intros (q & ? & _); eauto|intros (q & ?); eauto].
Qed.

(** The positions of a text. *)
Fixpoint places (prev : option Z) (s : jsstr) : list place :=
  (prev, s) :: match s with [] => [] | c :: s' => places (Some c) s' end.

Lemma search_spec r prev s : well_formed r = true ->
  is_Some (search i r prev s) <-> exists p q, p ∈ places prev s /\ Matches r p q.
Proof.
  intros Hwf. revert prev. induction s as [|c s IH]; intros prev;
    match goal with |- is_Some (search _ _ _ ?t) <-> _ =>
      pose proof (match_here_spec r (mkM prev t []) Hwf) as [H1 H2]; cbn in H1, H2 |- *;
      destruct (match_here i r (mkM prev t [])) as [e|];
      [destruct H1 as [q Hq]; [by eexists|]; split;
       [intros _; exists (prev, t), q; split; [set_solver|done]|by eexists]|]
    end.
  - refine (none_iff _ _). intros (p & q & Hp & Hq).
    apply list_elem_of_singleton in Hp as ->. destruct H2 as [? [=]]. eauto.
  - rewrite IH. split.
    + intros (p & q & Hp & Hq). exists p, q. split; [set_solver|done].
    + intros (p & q & Hp & Hq). apply elem_of_cons in Hp as [->|Hp]; [|eauto].
      destruct H2 as [? [=]]. eauto.
Qed.

Lemma test_spec r s : well_formed r = true ->
  test i r s = true <-> exists p q, p ∈ places None s /\ Matches r p q.
Proof.
  intros Hwf. rewrite <- (search_spec r None s Hwf). unfold test.
  destruct (search i r None s); split; intros H; done || by destruct H as [? [=]].
Qed.

(** An expression between [^] and [$] is matched by the whole text. *)
Definition Whole (r : re) (s : jsstr) : Prop :=
  exists prev, Matches r (None, s) (prev, []).

Lemma places_start p s prev : p ∈ places prev s -> p.1 = None -> prev = None -> p = (None, s).
Proof.
  revert prev. induction s as [|c s IH]; intros prev; cbn; intros Hp Hn ->.
  - by apply list_elem_of_singleton in Hp.
  - apply elem_of_cons in Hp as [->|Hp]; [done|].
    exfalso. clear IH. assert (forall t x, p ∈ places (Some x) t -> False) as H; [|by eapply H].
    intros t. induction t as [|y t IH]; intros x Hx; cbn in Hx.
    + apply list_elem_of_singleton in Hx as ->. done.
    + apply elem_of_cons in Hx as [->|Hx]; [done|]. by eapply IH.
Qed.

Lemma test_whole r s : well_formed r = true ->
  test i (Cat Bol (Cat r Eol)) s = true <-> Whole r s.
Proof.
  intros Hwf. rewrite test_spec by (by cbn; rewrite Hwf). split.
  - intros (p & q & Hp & p' & (Hn & ->) & (prev & t) & Hm & (Ht & ->)). cbn in *. subst t.
    rewrite (places_start p s None) in Hm by done. by exists prev.
  - intros [prev Hm]. exists (None, s), (prev, []). split; [destruct s; set_solver|].
    exists (None, s). split; [done|]. exists (prev, []). done.
Qed.
End Meaning.
