(* ===== verification/RegexSteps.v ===== *)
(** * Stepping the matcher over text that is partly known

    Lemmas that run [m] on symbolic text, one construct at a time: classes,
    greedy and lazy repetitions of a class, optional parts and groups. *)

From stdpp Require Import base tactics strings numbers list.
From Stdlib Require Import ZArith Lia.
From S2P Require Import Prelude Regex RegexFacts.
Local Open Scope Z_scope.

Section Stepping.
Variable i : bool.

Definition prev_of (prev : option Z) (l : jsstr) : option Z :=
  match last l with Some c => Some c | None => prev end.

Lemma prev_of_cons prev c l : prev_of prev (c :: l) = prev_of (Some c) l.
Proof. unfold prev_of. rewrite last_cons. by destruct (last l). Qed.

Lemma m_Cat r1 r2 k s : m i (Cat r1 r2) k s = m i r1 (m i r2 k) s.
Proof. done. Qed.

Lemma m_Class neg its k prev c rest caps : class_in i neg its c = true ->
  m i (Class neg its) k (mkM prev (c :: rest) caps) = k (mkM (Some c) rest caps).
Proof. intros H. cbn. by rewrite H. Qed.

Lemma m_Class_no neg its k prev c rest caps : class_in i neg its c = false ->
  m i (Class neg its) k (mkM prev (c :: rest) caps) = None.
Proof. intros H. cbn. by rewrite H. Qed.

Lemma clear_class neg its s : clear_caps (Class neg its) s = s.
Proof.
  destruct s as [p t caps]. unfold clear_caps. cbn. f_equal.
  induction caps as [|x caps IH]; cbn; [done|by rewrite IH].
Qed.

(** One round of a repeated class. *)
Lemma rep_class neg its k g fuel min prev c rest caps :
  rep_loop i (Class neg its) k g (S fuel) min None (mkM prev (c :: rest) caps)
  = let again := if class_in i neg its c
                 then rep_loop i (Class neg its) k g fuel (pred min) None (mkM (Some c) rest caps)
                 else None in
    if (0 <? min)%nat then again
    else if g then orelse again (k (mkM prev (c :: rest) caps))
    else orelse (k (mkM prev (c :: rest) caps)) again.
Proof.
  cbn [rep_loop]. rewrite !clear_class. cbn [m ms_rest ms_caps].
  destruct (class_in i neg its c); [|done].
  assert (same_place (mkM prev (c :: rest) caps) (mkM (Some c) rest caps) = false) as ->.
  { unfold same_place. apply Nat.eqb_neq. cbn. lia. }
  by rewrite andb_false_r.
Qed.

Lemma rep_class_end neg its k g fuel prev caps :
  rep_loop i (Class neg its) k g fuel 0 None (mkM prev [] caps) = k (mkM prev [] caps).
Proof.
  assert (forall x, orelse None x = x :> option mstate) as Hn by done.
  assert (orelse (k (mkM prev [] caps)) None = k (mkM prev [] caps)) as Ho
    by (by destruct (k (mkM prev [] caps))).
  destruct fuel, g; cbn [rep_loop]; rewrite !clear_class; cbn [m ms_rest]; done.
Qed.

(** A greedy class stops at [l] when nothing longer lets the rest match. *)
Lemma greedy_class neg its k x caps l : forall fuel prev rest,
  (length (l ++ rest) <= fuel)%nat -> Forall (λ c, class_in i neg its c = true) l ->
  k (mkM (prev_of prev l) rest caps) = Some x ->
  (forall t1 t2 p, rest = t1 ++ t2 -> t1 <> [] -> Forall (λ c, class_in i neg its c = true) t1 ->
     k (mkM p t2 caps) = None) ->
  rep_loop i (Class neg its) k true fuel 0 None (mkM prev (l ++ rest) caps) = Some x.
Proof.
  assert (forall rest fuel prev, (length rest <= fuel)%nat ->
    (forall t1 t2 p, rest = t1 ++ t2 -> t1 <> [] ->
       Forall (λ c, class_in i neg its c = true) t1 -> k (mkM p t2 caps) = None) ->
    rep_loop i (Class neg its) k true fuel 0 None (mkM prev rest caps)
    = k (mkM prev rest caps)) as Hstop.
  { intros rest. induction rest as [|c rest IH]; intros fuel prev Hf Hk.
    { apply rep_class_end. }
    destruct fuel as [|fuel]; [cbn in Hf; lia|]. rewrite rep_class. cbn [Nat.ltb Nat.leb].
    destruct (class_in i neg its c) eqn:Ec; [|done]. cbn [pred]. rewrite IH.
    - by rewrite (Hk [c] rest) by (done || by constructor).
    - cbn in Hf. lia.
    - intros t1 t2 p -> Ht Hc. apply (Hk (c :: t1) t2); [done|done|by constructor]. }
  induction l as [|c l IH]; intros fuel prev rest Hf Hl Hx Hk.
  { cbn [app]. by rewrite Hstop. }
  inversion Hl; subst. destruct fuel as [|fuel]; [cbn in Hf; lia|].
  cbn [app]. rewrite rep_class. cbn [Nat.ltb Nat.leb pred].
  rewrite H1. rewrite (IH fuel (Some c) rest); [done|cbn in Hf; lia|done| |done].
  rewrite <- Hx. by rewrite prev_of_cons.
Qed.

(** A lazy class goes as far as the rest needs it to. *)
Lemma lazy_class neg its k x caps l : forall fuel prev rest,
  (length (l ++ rest) <= fuel)%nat -> Forall (λ c, class_in i neg its c = true) l ->
  k (mkM (prev_of prev l) rest caps) = Some x ->
  (forall l1 l2 p, l = l1 ++ l2 -> l2 <> [] -> k (mkM p (l2 ++ rest) caps) = None) ->
  rep_loop i (Class neg its) k false fuel 0 None (mkM prev (l ++ rest) caps) = Some x.
Proof.
  induction l as [|c l IH]; intros fuel prev rest Hf Hl Hx Hk.
  { cbn [app]. destruct rest as [|c rest]; [by rewrite rep_class_end|].
    destruct fuel as [|fuel]; [cbn in Hf; lia|]. rewrite rep_class. cbn.
    unfold prev_of in Hx. cbn in Hx. by rewrite Hx. }
  inversion Hl; subst. destruct fuel as [|fuel]; [cbn in Hf; lia|].
  cbn [app]. rewrite rep_class. cbn [Nat.ltb Nat.leb pred].
  pose proof (Hk [] (c :: l) prev eq_refl ltac:(done)) as H0. cbn [app] in H0. rewrite H0, H1.
  cbn [orelse]. apply IH; [cbn in Hf; lia|done| |].
  - rewrite <- Hx. by rewrite prev_of_cons.
  - intros l1 l2 p -> Hl2. by apply (Hk (c :: l1)).
Qed.
End Stepping.

Lemma captured (l r : jsstr) : take (length (l ++ r) - length r) (l ++ r) = l.
Proof.
  rewrite length_app, Nat.add_sub, take_app_length. done.
Qed.

Lemma in_single a c : item_in c (Range a a) = (c =? a).
Proof.
  cbn. apply eq_true_iff_eq. rewrite andb_true_iff, !Z.leb_le, Z.eqb_eq. lia.
Qed.

Lemma char_in a c : class_in false false [Range a a] c = (c =? a).
Proof.
  unfold class_in. cbn [existsb andb]. rewrite in_single, !orb_false_r.
  by destruct (c =? a).
Qed.

Lemma digit_in c : class_in false false [Digit] c = is_digit c.
Proof. unfold class_in. cbn. by destruct (is_digit c). Qed.

Lemma not_char_in a c : class_in false true [Range a a] c = negb (c =? a).
Proof.
  unfold class_in. cbn [existsb andb]. rewrite in_single, !orb_false_r.
  by destruct (c =? a).
Qed.

(** An optional part that is there, or is not. *)
Lemma optional_present r k s x : clear_caps r s = s ->
  m false r (λ s', if same_place s s' then None else k s') s = Some x -> ms_rest s <> [] ->
  m false (Rep r 0 (Some 1%nat) true) k s = Some x.
Proof.
  intros Hc Hx Hs. rewrite m_rep. destruct (ms_rest s) as [|c t] eqn:E; [done|].
  cbn [rep_loop Nat.add length Nat.eqb andb Nat.ltb Nat.leb]. rewrite Hc.
  match goal with |- orelse ?a _ = _ => replace a with (Some x); [done|] end.
  rewrite <- Hx. by destruct (length t).
Qed.

Lemma optional_absent r k s :
  (forall k', m false r k' (clear_caps r s) = None) ->
  m false (Rep r 0 (Some 1%nat) true) k s = k s.
Proof.
  intros H. rewrite m_rep. destruct (0 + length (ms_rest s))%nat; cbn [rep_loop]; by rewrite H.
Qed.

Lemma m_Group n r k s : m false (Group n r) k s
  = m false r (λ s', k (mkM (ms_prev s') (ms_rest s')
      ((n, take (length (ms_rest s) - length (ms_rest s')) (ms_rest s)) :: ms_caps s'))) s.
Proof. done. Qed.

Lemma m_Char a k prev rest caps :
  m false (Char a) k (mkM prev (a :: rest) caps) = k (mkM (Some a) rest caps).
Proof. apply m_Class. rewrite char_in. by rewrite Z.eqb_refl. Qed.

Lemma m_Char_no a k prev c rest caps : c <> a ->
  m false (Char a) k (mkM prev (c :: rest) caps) = None.
Proof. intros H. apply m_Class_no. rewrite char_in. by apply Z.eqb_neq. Qed.

Lemma m_Bol k rest caps : m false Bol k (mkM None rest caps) = k (mkM None rest caps).
Proof. done. Qed.

(** ** Looking for a run of one character *)
Definition run_of (k : Z) : re := Group 1 (Rep (Char k) 1 None true).

Lemma run_here k n prev post caps : head post <> Some k ->
  m false (run_of k) Some (mkM prev (replicate (S n) k ++ post) caps)
  = Some (mkM (Some k) post ((1%nat, replicate (S n) k) :: caps)).
Proof.
  intros Hp. unfold run_of, Char. rewrite m_Group, m_rep.
  cbn [ms_rest replicate app Nat.add]. rewrite rep_class. cbn [Nat.ltb Nat.leb pred].
  rewrite char_in, Z.eqb_refl.
  apply (greedy_class false false).
  - cbn [length]. lia.
  - apply Forall_replicate. rewrite char_in. apply Z.eqb_refl.
  - cbn [ms_prev ms_rest ms_caps].
    change (k :: replicate n k ++ post) with (replicate (S n) k ++ post). rewrite captured.
    f_equal. f_equal. unfold prev_of. destruct n; [done|]. by rewrite replicate_S_end, last_snoc.
  - intros t1 t2 p E Ht Hall. destruct t1 as [|c t1]; [done|].
    inversion Hall as [|? ? Hc _]. rewrite char_in in Hc. zbool. subst. done.
Qed.

Lemma run_not_here k prev c s : c <> k -> m false (run_of k) Some (mkM prev (c :: s) []) = None.
Proof.
  intros Hc. unfold run_of, Char. rewrite m_Group, m_rep. cbn [ms_rest length Nat.add].
  rewrite rep_class. cbn [Nat.ltb Nat.leb]. rewrite char_in.
  by replace (c =? k) with false by (symmetry; by apply Z.eqb_neq).
Qed.

Lemma search_run k pre n post prev : Forall (λ c, c <> k) pre -> head post <> Some k ->
  exists prev', search false (run_of k) prev (pre ++ replicate (S n) k ++ post)
    = Some (mkM prev' (replicate (S n) k ++ post) [], mkM (Some k) post [(1%nat, replicate (S n) k)]).
Proof.
  intros Hpre Hpost. revert prev. induction Hpre as [|c pre Hc Hpre IH]; intros prev.
  - exists prev. pose proof (run_here k n prev post [] Hpost) as H.
    cbn [app]. cbn [search replicate app] in *. unfold match_here. by rewrite H.
  - destruct (IH (Some c)) as [prev' H]. exists prev'. cbn [app search].
    unfold match_here. by rewrite run_not_here.
Qed.

Lemma search_run_none k s prev : Forall (λ c, c <> k) s -> search false (run_of k) prev s = None.
Proof.
  intros H. revert prev. induction H as [|c s Hc Hs IH]; intros prev.
  - done.
  - cbn [search]. unfold match_here. by rewrite run_not_here.
Qed.

Lemma exec_run k pre n post : Forall (λ c, c <> k) pre -> head post <> Some k ->
  exists caps, exec false (run_of k) (pre ++ replicate (S n) k ++ post) = Some caps
               /\ caps 1%nat = Some (replicate (S n) k).
Proof.
  intros H1 H2. destruct (search_run k pre n post None H1 H2) as [prev' H].
  unfold exec. rewrite H. cbn. eexists. split; [done|]. done.
Qed.

Lemma exec_run_none k s : Forall (λ c, c <> k) s -> exec false (run_of k) s = None.
Proof. intros H. unfold exec. by rewrite search_run_none. Qed.

(** Where a run is found by [indexOf]. *)
Lemma index_run k pre n post i : Forall (λ c, c <> k) pre ->
  index_at (replicate (S n) k) (pre ++ replicate (S n) k ++ post) i = i + Z.of_nat (length pre).
Proof.
  intros H. revert i. induction H as [|c pre Hc Hpre IH]; intros i.
  - cbn [app length]. assert (is_prefix (replicate (S n) k) (replicate (S n) k ++ post) = true) as E
      by apply is_prefix_app.
    cbn [replicate app index_at] in *. rewrite E. lia.
  - cbn [app index_at]. replace (is_prefix (replicate (S n) k) (c :: _)) with false.
    + rewrite IH. cbn [length]. lia.
    + symmetry. cbn. by replace (k =? c) with false by (symmetry; apply Z.eqb_neq; congruence).
Qed.
