(* ===== verification/PahoBase.v ===== *)
(** * Constants, error table and text formatting of the MQTT client
    (mqttws31.js, lines 92-224). *)

From stdpp Require Import base tactics list strings numbers.
From Stdlib Require Import ZArith Lia.
From S2P Require Import Prelude.
Local Open Scope Z_scope.

(** ** Packet types *)
Module MESSAGE_TYPE.
Definition CONNECT := 1.
Definition CONNACK := 2.
Definition PUBLISH := 3.
Definition PUBACK := 4.
Definition PUBREC := 5.
Definition PUBREL := 6.
Definition PUBCOMP := 7.
Definition SUBSCRIBE := 8.
Definition SUBACK := 9.
Definition UNSUBSCRIBE := 10.
Definition UNSUBACK := 11.
Definition PINGREQ := 12.
Definition PINGRESP := 13.
Definition DISCONNECT := 14.
End MESSAGE_TYPE.

(** The table itself, in declaration order. *)
Definition MESSAGE_TYPE_table : list (jsstr * Z) :=
  [(js "CONNECT", MESSAGE_TYPE.CONNECT); (js "CONNACK", MESSAGE_TYPE.CONNACK);
   (js "PUBLISH", MESSAGE_TYPE.PUBLISH); (js "PUBACK", MESSAGE_TYPE.PUBACK);
   (js "PUBREC", MESSAGE_TYPE.PUBREC); (js "PUBREL", MESSAGE_TYPE.PUBREL);
   (js "PUBCOMP", MESSAGE_TYPE.PUBCOMP); (js "SUBSCRIBE", MESSAGE_TYPE.SUBSCRIBE);
   (js "SUBACK", MESSAGE_TYPE.SUBACK); (js "UNSUBSCRIBE", MESSAGE_TYPE.UNSUBSCRIBE);
   (js "UNSUBACK", MESSAGE_TYPE.UNSUBACK); (js "PINGREQ", MESSAGE_TYPE.PINGREQ);
   (js "PINGRESP", MESSAGE_TYPE.PINGRESP); (js "DISCONNECT", MESSAGE_TYPE.DISCONNECT)].

(** ** Errors *)
Inductive ERROR :=
  | OK | CONNECT_TIMEOUT | SUBSCRIBE_TIMEOUT | UNSUBSCRIBE_TIMEOUT | PING_TIMEOUT
  | INTERNAL_ERROR | CONNACK_RETURNCODE | SOCKET_ERROR | SOCKET_CLOSE
  | MALFORMED_UTF | UNSUPPORTED | INVALID_STATE | INVALID_TYPE | INVALID_ARGUMENT
  | UNSUPPORTED_OPERATION | INVALID_STORED_DATA | INVALID_MQTT_MESSAGE_TYPE
  | MALFORMED_UNICODE.

Definition ERROR_entry (e : ERROR) : Z * jsstr :=
  match e with
  | OK => (0, js "AMQJSC0000I OK.")
  | CONNECT_TIMEOUT => (1, js "AMQJSC0001E Connect timed out.")
  | SUBSCRIBE_TIMEOUT => (2, js "AMQJS0002E Subscribe timed out.")
  | UNSUBSCRIBE_TIMEOUT => (3, js "AMQJS0003E Unsubscribe timed out.")
  | PING_TIMEOUT => (4, js "AMQJS0004E Ping timed out.")
  | INTERNAL_ERROR => (5, js "AMQJS0005E Internal error. Error Message: {0}, Stack trace: {1}")
  | CONNACK_RETURNCODE => (6, js "AMQJS0006E Bad Connack return code:{0} {1}.")
  | SOCKET_ERROR => (7, js "AMQJS0007E Socket error:{0}.")
  | SOCKET_CLOSE => (8, js "AMQJS0008I Socket closed.")
  | MALFORMED_UTF => (9, js "AMQJS0009E Malformed UTF data:{0} {1} {2}.")
  | UNSUPPORTED => (10, js "AMQJS0010E {0} is not supported by this browser.")
  | INVALID_STATE => (11, js "AMQJS0011E Invalid state {0}.")
  | INVALID_TYPE => (12, js "AMQJS0012E Invalid type {0} for {1}.")
  | INVALID_ARGUMENT => (13, js "AMQJS0013E Invalid argument {0} for {1}.")
  | UNSUPPORTED_OPERATION => (14, js "AMQJS0014E Unsupported operation.")
  | INVALID_STORED_DATA =>
      (15, js "AMQJS0015E Invalid data in local storage key={0} value={1}.")
  | INVALID_MQTT_MESSAGE_TYPE => (16, js "AMQJS0016E Invalid MQTT message type {0}.")
  | MALFORMED_UNICODE => (17, js "AMQJS0017E Malformed Unicode string:{0} {1}.")
  end.

Definition code (e : ERROR) : Z := fst (ERROR_entry e).
Definition text (e : ERROR) : jsstr := snd (ERROR_entry e).

(** CONNACK return codes; a code outside the table reads as [undefined]. *)
Definition CONNACK_RC (rc : jsnum) : jsstr :=
  match rc with
  | Num 0 => js "Connection Accepted"
  | Num 1 => js "Connection Refused: unacceptable protocol version"
  | Num 2 => js "Connection Refused: identifier rejected"
  | Num 3 => js "Connection Refused: server unavailable"
  | Num 4 => js "Connection Refused: bad user name or password"
  | Num 5 => js "Connection Refused: not authorized"
  | _ => js "undefined"
  end.

(** [format(error, substitutions)]: the first occurrence of [{i}] is replaced
    for each [i], on the text obtained so far, unless it starts the text. *)
Definition format_one (t : jsstr) (i : nat) (sub : jsstr) : jsstr :=
  let field := js "{" ++ dec (Z.of_nat i) ++ js "}" in
  let start := indexOf t field in
  if start >? 0 then
    let part1 := substring t 0 start in
    let part2 := substring t (start + Z.of_nat (length field)) (Z.of_nat (length t)) in
    part1 ++ sub ++ part2
  else t.

Fixpoint format_loop (t : jsstr) (i : nat) (subs : list jsstr) : jsstr :=
  match subs with
  | [] => t
  | sub :: subs' => format_loop (format_one t i sub) (S i) subs'
  end.

Definition format (e : ERROR) (substitutions : list jsstr) : jsstr :=
  format_loop (text e) 0 substitutions.

(** Conversion of a number to text in a message. *)
Definition num_str (n : jsnum) : jsstr :=
  match n with Num z => dec z | NaN => js "NaN" end.

(** What a call can throw: an [Error] with the text the code gives it, a thrown
    string, or an error the engine raises. *)
Inductive exn :=
  | Error (message : jsstr)
  | ThrownString (s : jsstr)
  | TypeError
  | RangeError
  | ReferenceError
  | InvalidStateError.

#[export] Instance exn_eq_dec : EqDecision exn.
Proof. solve_decision. Defined.

(** Protocol names and levels of the two MQTT versions. *)
Definition MqttProtoIdentifierv3 : list Z :=
  [0x00; 0x06; 0x4d; 0x51; 0x49; 0x73; 0x64; 0x70; 0x03].
Definition MqttProtoIdentifierv4 : list Z :=
  [0x00; 0x04; 0x4d; 0x51; 0x54; 0x54; 0x04].

Example format_connack :
  format CONNACK_RETURNCODE [dec 5; CONNACK_RC (Num 5)]
  = js "AMQJS0006E Bad Connack return code:5 Connection Refused: not authorized.".
Proof. vm_compute. reflexivity. Qed.
