(* ===== verification/Utf8.v ===== *)
(** * UTF-8, 16-bit and multi-byte integers of the MQTT client
    (mqttws31.js, lines 524-671). *)

From stdpp Require Import base tactics list strings numbers.
From Stdlib Require Import ZArith Lia.
From S2P Require Import Prelude PahoBase.
Local Open Scope Z_scope.

(** ** Byte buffers

    A [Uint8Array] of fixed length: a store outside it is ignored, a stored
    number is reduced modulo 256, and a read outside it gives [undefined]
    ([NaN] once used as a number). *)
Definition u8set (buf : list Z) (pos : nat) (v : Z) : list Z :=
  <[pos := v mod 256]> buf.

Definition u8get (buf : list Z) (pos : nat) : jsnum :=
  match buf !! pos with Some b => Num b | None => NaN end.

(** [buf.set(src, pos)] throws when [src] does not fit. *)
Fixpoint u8blit (buf src : list Z) (pos : nat) : list Z :=
  match src with
  | [] => buf
  | b :: src' => u8blit (u8set buf pos b) src' (S pos)
  end.

Definition u8setarr (buf src : list Z) (pos : nat) : result exn (list Z) :=
  if (length buf <? pos + length src)%nat then Throw RangeError
  else Ret (u8blit buf src pos).

(** ** 16-bit integers *)
Definition writeUint16 (input : Z) (buffer : list Z) (offset : nat) : list Z * nat :=
  let buffer := u8set buffer offset (Z.shiftr (toInt32 input) 8) in
  let buffer := u8set buffer (offset + 1) (Z.rem input 256) in
  (buffer, (offset + 2)%nat).

Definition num_add (a b : jsnum) : jsnum :=
  match a, b with Num x, Num y => Num (x + y) | _, _ => NaN end.
Definition num_scale (k : Z) (a : jsnum) : jsnum :=
  match a with Num x => Num (k * x) | NaN => NaN end.

Definition readUint16 (buffer : list Z) (offset : nat) : jsnum :=
  num_add (num_scale 256 (u8get buffer offset)) (u8get buffer (offset + 1)).

(** ** Multi-byte integers: at most four bytes, seven bits each *)
Fixpoint encodeMBI_loop (fuel : nat) (number : Z) : list Z :=
  match fuel with
  | O => []
  | S n =>
      let digit := Z.rem number 128 in
      let number := Z.shiftr (toInt32 number) 7 in
      let digit := if number >? 0 then Z.lor digit 0x80 else digit in
      digit :: (if number >? 0 then encodeMBI_loop n number else [])
  end.

Definition encodeMBI (number : Z) : list Z := encodeMBI_loop 4 number.

(** ** UTF-8 *)
Definition is_high_surrogate (c : Z) : bool := (0xD800 <=? c) && (c <=? 0xDBFF).
Definition is_low_surrogate (c : Z) : bool := (0xDC00 <=? c) && (c <=? 0xDFFF).

Fixpoint UTF8Length (input : jsstr) : Z :=
  match input with
  | [] => 0
  | charCode :: rest =>
      if charCode >? 0x7FF then
        if is_high_surrogate charCode then
          4 + match rest with [] => 0 | _ :: rest' => UTF8Length rest' end
        else 3 + UTF8Length rest
      else if charCode >? 0x7F then 2 + UTF8Length rest
      else 1 + UTF8Length rest
  end.

(** The bytes written for one code point. *)
Definition utf8_bytes (charCode : Z) : list Z :=
  if charCode <=? 0x7F then [charCode]
  else if charCode <=? 0x7FF then
    [Z.lor (Z.land (Z.shiftr charCode 6) 0x1F) 0xC0;
     Z.lor (Z.land charCode 0x3F) 0x80]
  else if charCode <=? 0xFFFF then
    [Z.lor (Z.land (Z.shiftr charCode 12) 0x0F) 0xE0;
     Z.lor (Z.land (Z.shiftr charCode 6) 0x3F) 0x80;
     Z.lor (Z.land charCode 0x3F) 0x80]
  else
    [Z.lor (Z.land (Z.shiftr charCode 18) 0x07) 0xF0;
     Z.lor (Z.land (Z.shiftr charCode 12) 0x3F) 0x80;
     Z.lor (Z.land (Z.shiftr charCode 6) 0x3F) 0x80;
     Z.lor (Z.land charCode 0x3F) 0x80].

(** [output[pos++] = b] for each byte in turn. *)
Definition put_bytes (output : list Z) (pos : nat) (bs : list Z) : list Z * nat :=
  (u8blit output bs pos, (pos + length bs)%nat).

Fixpoint stringToUTF8 (input : jsstr) (output : list Z) (pos : nat)
    : result exn (list Z) :=
  match input with
  | [] => Ret output
  | charCode :: rest =>
      if is_high_surrogate charCode then
        match rest with
        | [] => Throw (Error (format MALFORMED_UNICODE [dec charCode; js "NaN"]))
        | lowCharCode :: rest' =>
            let charCode := Z.shiftl (charCode - 0xD800) 10
                            + (lowCharCode - 0xDC00) + 0x10000 in
            let '(output, pos) := put_bytes output pos (utf8_bytes charCode) in
            stringToUTF8 rest' output pos
        end
      else
        let '(output, pos) := put_bytes output pos (utf8_bytes charCode) in
        stringToUTF8 rest output pos
  end.

Definition writeString (input : jsstr) (utf8Length : Z) (buffer : list Z) (offset : nat)
    : result exn (list Z * nat) :=
  let '(buffer, offset) := writeUint16 utf8Length buffer offset in
  match stringToUTF8 input buffer offset with
  | Ret buffer => Ret (buffer, (offset + Z.to_nat utf8Length)%nat)
  | Throw e => Throw e
  end.

(** [String.fromCharCode(n)]. *)
Definition fromCharCode (n : jsnum) : jsstr :=
  match n with Num z => [z mod 65536] | NaN => [0] end.

(** Hexadecimal text of a byte read for an error message. *)
Definition hex_str (n : jsnum) : jsstr :=
  match n with Num z => to_base 16 z | NaN => js "NaN" end.

Definition num_lt (n : jsnum) (z : Z) : bool :=
  match n with Num a => a <? z | NaN => false end.

(** The code of the next character and the position after it.  [byte1] is
    [undefined] past the end of the input, so its [toString] throws. *)
Definition parse_char (input : list Z) (pos : nat) : result exn (jsnum * nat) :=
  let byte1 := u8get input pos in
  let malformed (bs : list jsnum) : result exn (jsnum * nat) :=
    match byte1 with
    | NaN => Throw TypeError
    | Num _ => Throw (Error (format MALFORMED_UTF (hex_str <$> bs)))
    end in
  if num_lt byte1 128 then Ret (byte1, (pos + 1)%nat)
  else
    let byte2 := num_add (u8get input (pos + 1)) (Num (-128)) in
    if num_lt byte2 0 then
      match byte1 with
      | NaN => Throw TypeError
      | Num _ => Throw (Error (format MALFORMED_UTF [hex_str byte1; hex_str byte2; []]))
      end
    else if num_lt byte1 0xE0 then
      Ret (num_add (num_scale 64 (num_add byte1 (Num (-0xC0)))) byte2, (pos + 2)%nat)
    else
      let byte3 := num_add (u8get input (pos + 2)) (Num (-128)) in
      if num_lt byte3 0 then malformed [byte1; byte2; byte3]
      else if num_lt byte1 0xF0 then
        Ret (num_add (num_scale 4096 (num_add byte1 (Num (-0xE0))))
                     (num_add (num_scale 64 byte2) byte3), (pos + 3)%nat)
      else
        let byte4 := num_add (u8get input (pos + 3)) (Num (-128)) in
        if num_lt byte4 0 then malformed [byte1; byte2; byte3; byte4]
        else if num_lt byte1 0xF8 then
          Ret (num_add (num_scale 262144 (num_add byte1 (Num (-0xF0))))
                       (num_add (num_scale 4096 byte2)
                                (num_add (num_scale 64 byte3) byte4)), (pos + 4)%nat)
        else malformed [byte1; byte2; byte3; byte4].

(** The code units appended for a character code. *)
Definition utf16_out (utf16 : jsnum) : jsstr :=
  match utf16 with
  | Num z =>
      if z >? 0xFFFF then
        let z := z - 0x10000 in
        fromCharCode (Num (0xD800 + Z.shiftr (toInt32 z) 10))
        ++ fromCharCode (Num (0xDC00 + Z.land z 0x3FF))
      else fromCharCode utf16
  | NaN => fromCharCode NaN
  end.

(** Every iteration consumes at least one byte, so [length] rounds suffice
    ([stop] is [offset + length] of the source). *)
Fixpoint parseUTF8_loop (fuel : nat) (input : list Z) (pos stop : nat)
    : result exn jsstr :=
  match fuel with
  | O => Ret []
  | S n =>
      if (pos <? stop)%nat then
        match parse_char input pos with
        | Throw e => Throw e
        | Ret (utf16, pos') =>
            match parseUTF8_loop n input pos' stop with
            | Throw e => Throw e
            | Ret output => Ret (utf16_out utf16 ++ output)
            end
        end
      else Ret []
  end.

Definition parseUTF8 (input : list Z) (offset length : nat) : result exn jsstr :=
  parseUTF8_loop length input offset (offset + length)%nat.

(** ** Byte-level facts *)
Lemma lor_disjoint a b k :
  0 <= k -> 0 <= a < 2 ^ k -> b mod 2 ^ k = 0 -> Z.lor a b = a + b.
Proof.
  intros Hk Ha Hb.
  assert (Z.land a b = 0) as Hl.
  { apply Z.bits_inj'. intros n Hn. rewrite Z.land_spec, Z.bits_0.
    destruct (decide (n < k)).
    - rewrite <- (Z.mod_pow2_bits_low b k n), Hb, Z.bits_0 by lia. apply andb_false_r.
    - rewrite <- (Z.mod_small a (2 ^ k)), Z.mod_pow2_bits_high by lia. done. }
  by rewrite <- Z.lxor_lor, <- Z.add_nocarry_lxor.
Qed.

Lemma tag_byte x k tag :
  0 <= k -> tag mod 2 ^ k = 0 -> Z.lor (Z.land x (Z.ones k)) tag = x mod 2 ^ k + tag.
Proof.
  intros Hk Ht. rewrite Z.land_ones by done. apply lor_disjoint with k; [done| |done].
  apply Z.mod_pos_bound, Z.pow_pos_nonneg; lia.
Qed.

(** The bytes of a code point as quotients and remainders. *)
Lemma utf8_bytes_arith c :
  utf8_bytes c =
    if c <=? 0x7F then [c]
    else if c <=? 0x7FF then [(c / 64) mod 32 + 192; c mod 64 + 128]
    else if c <=? 0xFFFF then
      [(c / 4096) mod 16 + 224; (c / 64) mod 64 + 128; c mod 64 + 128]
    else [(c / 262144) mod 8 + 240; (c / 4096) mod 64 + 128;
          (c / 64) mod 64 + 128; c mod 64 + 128].
Proof.
  unfold utf8_bytes. rewrite !Z.shiftr_div_pow2 by lia.
  change 0x1F with (Z.ones 5). change 0x0F with (Z.ones 4).
  change 0x3F with (Z.ones 6). change 0x07 with (Z.ones 3).
  rewrite !tag_byte by done. reflexivity.
Qed.

Definition is_byte (b : Z) : Prop := 0 <= b < 256.

Lemma utf8_bytes_range c : 0 <= c -> Forall is_byte (utf8_bytes c).
Proof.
  intros Hc. rewrite utf8_bytes_arith. unfold is_byte.
  repeat case_match; zbool; repeat constructor; try lia;
    Z.to_euclidean_division_equations; lia.
Qed.

(** Reading is relative to the position. *)
Lemma u8get_shift pre l k : u8get (pre ++ l) (length pre + k) = u8get l k.
Proof.
  unfold u8get. rewrite lookup_app_r by lia.
  by replace (length pre + k - length pre)%nat with k by lia.
Qed.

Definition shift_pos {A} (n : nat) (r : A * nat) : A * nat := (fst r, (n + snd r)%nat).

Lemma parse_char_shift pre l k :
  parse_char (pre ++ l) (length pre + k)
  = rmap (shift_pos (length pre)) (parse_char l k).
Proof.
  unfold parse_char. rewrite <- !Nat.add_assoc, !u8get_shift.
  repeat match goal with |- context [if ?b then _ else _] => destruct b end;
    try done; destruct (u8get l k); done.
Qed.

Lemma parse_char_utf8 c post :
  0 <= c < 0x200000 ->
  parse_char (utf8_bytes c ++ post) 0 = Ret (Num c, length (utf8_bytes c)).
Proof.
  intros Hc. rewrite utf8_bytes_arith. unfold parse_char, u8get.
  repeat case_match; zbool; cbn [app lookup list_lookup length Nat.add num_add num_scale num_lt] in *;
    simplify_eq/=; zbool; try lia; try reflexivity;
    do 3 f_equal; Z.to_euclidean_division_equations; lia.
Qed.

(** ** Strings: the reference encoding and what the loops do

    [utf8 s] is the encoding of [s], surrogate pairs combined. *)
Definition pair_code (hi lo : Z) : Z := Z.shiftl (hi - 0xD800) 10 + (lo - 0xDC00) + 0x10000.

Fixpoint utf8 (s : jsstr) : list Z :=
  match s with
  | [] => []
  | c :: rest =>
      if is_high_surrogate c then
        match rest with
        | [] => []
        | lo :: rest' => utf8_bytes (pair_code c lo) ++ utf8 rest'
        end
      else utf8_bytes c ++ utf8 rest
  end.

(** Well-formed strings: 16-bit units, every high surrogate followed by a low
    one (a low surrogate on its own is accepted). *)
Fixpoint wf_utf16 (s : jsstr) : bool :=
  match s with
  | [] => true
  | c :: rest =>
      (0 <=? c) && (c <=? 0xFFFF) &&
      (if is_high_surrogate c then
         match rest with
         | [] => false
         | lo :: rest' => is_low_surrogate lo && wf_utf16 rest'
         end
       else wf_utf16 rest)
  end.

(** Induction over a string as its decoder walks it. *)
Lemma utf16_ind (P : jsstr -> Prop) :
  P [] ->
  (forall c s, 0 <= c <= 0xFFFF -> is_high_surrogate c = false -> wf_utf16 s = true ->
     P s -> P (c :: s)) ->
  (forall hi lo s, is_high_surrogate hi = true -> is_low_surrogate lo = true ->
     wf_utf16 s = true -> P s -> P (hi :: lo :: s)) ->
  forall s, wf_utf16 s = true -> P s.
Proof.
  intros Hnil Hone Htwo s. remember (length s) as n eqn:Hn. revert s Hn.
  induction (lt_wf n) as [n _ IH]. intros [|c s] -> H; [done|].
  cbn in H. destruct (is_high_surrogate c) eqn:E.
  - destruct s as [|lo s]; [by rewrite andb_false_r in H|]. zbool.
    apply Htwo; [done..|]. eapply IH; [|done|done]. cbn. lia.
  - zbool. apply Hone; [lia|done|done|]. eapply IH; [|done|done]. cbn. lia.
Qed.

Lemma pair_code_range hi lo :
  is_high_surrogate hi = true -> is_low_surrogate lo = true ->
  0x10000 <= pair_code hi lo <= 0x10FFFF.
Proof.
  unfold is_high_surrogate, is_low_surrogate, pair_code. intros. zbool.
  rewrite Z.shiftl_mul_pow2 by lia. lia.
Qed.

Lemma utf8_bytes_length c :
  0 <= c -> Z.of_nat (length (utf8_bytes c)) =
    if c <=? 0x7F then 1 else if c <=? 0x7FF then 2 else if c <=? 0xFFFF then 3 else 4.
Proof. intros. rewrite utf8_bytes_arith. repeat case_match; done. Qed.

Lemma utf8_range s : wf_utf16 s = true -> Forall is_byte (utf8 s).
Proof.
  revert s. refine (utf16_ind _ _ _ _);
    [|intros c s Hc E Hs IH|intros hi lo s E1 E2 Hs IH]; cbn [utf8].
  - constructor.
  - rewrite E. apply Forall_app. split; [apply utf8_bytes_range; lia|done].
  - rewrite E1. apply Forall_app. split; [|done]. apply utf8_bytes_range.
    pose proof (pair_code_range hi lo E1 E2). lia.
Qed.

(** The announced length is the number of bytes of the encoding. *)
Lemma UTF8Length_utf8 s : wf_utf16 s = true -> UTF8Length s = Z.of_nat (length (utf8 s)).
Proof.
  revert s. refine (utf16_ind _ _ _ _);
    [|intros c s Hc E Hs IH|intros hi lo s E1 E2 Hs IH]; cbn [utf8 UTF8Length].
  - done.
  - rewrite E, length_app, Nat2Z.inj_add, utf8_bytes_length, <- IH by lia.
    repeat case_match; zbool; lia.
  - rewrite E1, length_app, Nat2Z.inj_add.
    pose proof (pair_code_range hi lo E1 E2).
    rewrite utf8_bytes_length, <- IH by lia.
    unfold is_high_surrogate in E1. repeat case_match; zbool; lia.
Qed.

(** ** Writing into a buffer *)
Lemma u8blit_app pre mid post src :
  length mid = length src -> Forall is_byte src ->
  u8blit (pre ++ mid ++ post) src (length pre) = pre ++ src ++ post.
Proof.
  revert pre mid. induction src as [|b src IH]; intros pre mid Hl Hb.
  { by destruct mid. }
  destruct mid as [|m mid]; [done|]. apply Forall_cons_1 in Hb as [Hb Hbs].
  cbn [u8blit]. unfold u8set. rewrite Z.mod_small by done.
  pose proof (insert_app_r pre ((m :: mid) ++ post) 0 b) as Hi.
  rewrite Nat.add_0_r in Hi. rewrite Hi. cbn [app insert list_insert].
  replace (S (length pre)) with (length (pre ++ [b])) by (rewrite length_app; cbn; lia).
  replace (pre ++ b :: mid ++ post) with ((pre ++ [b]) ++ mid ++ post)
    by (by rewrite <- app_assoc).
  rewrite IH by (try done; cbn in Hl; lia). by rewrite <- app_assoc.
Qed.

Lemma stringToUTF8_spec s pre mid post :
  wf_utf16 s = true -> length mid = length (utf8 s) ->
  stringToUTF8 s (pre ++ mid ++ post) (length pre) = Ret (pre ++ utf8 s ++ post).
Proof.
  intros Hwf. revert s Hwf pre mid. refine (utf16_ind _ _ _ _);
    [|intros c s Hc E Hs IH|intros hi lo s E1 E2 Hs IH]; intros pre mid Hl;
    cbn [stringToUTF8 utf8] in *.
  - by destruct mid.
  - rewrite E in *. rewrite length_app in Hl. unfold put_bytes.
    rewrite <- (take_drop (length (utf8_bytes c)) mid), <- app_assoc.
    rewrite u8blit_app by (try apply utf8_bytes_range; rewrite ?length_take; lia).
    rewrite app_assoc, <- length_app, IH by (rewrite length_drop; lia).
    by rewrite <- !app_assoc.
  - rewrite E1 in *. rewrite length_app in Hl. unfold put_bytes.
    fold (pair_code hi lo). pose proof (pair_code_range hi lo E1 E2).
    rewrite <- (take_drop (length (utf8_bytes (pair_code hi lo))) mid), <- app_assoc.
    rewrite u8blit_app by (try apply utf8_bytes_range; rewrite ?length_take; lia).
    rewrite app_assoc, <- length_app, IH by (rewrite length_drop; lia).
    by rewrite <- !app_assoc.
Qed.

Definition uint16_bytes (n : Z) : list Z := [n / 256; n mod 256].

Lemma writeUint16_spec n pre mid post :
  0 <= n < 65536 -> length mid = 2%nat ->
  writeUint16 n (pre ++ mid ++ post) (length pre)
  = (pre ++ uint16_bytes n ++ post, (length pre + 2)%nat).
Proof.
  intros Hn Hl. destruct mid as [|a [|b [|]]]; try done.
  unfold writeUint16. rewrite toInt32_id by lia. f_equal.
  pose proof (u8blit_app pre [a; b] post (uint16_bytes n) eq_refl) as H.
  cbn [u8blit uint16_bytes app] in H. rewrite Nat.add_1_r.
  rewrite Z.shiftr_div_pow2, Z.rem_mod_nonneg by lia. apply H.
  repeat constructor; unfold is_byte; Z.to_euclidean_division_equations; lia.
Qed.

(** The field a string becomes: its length on two bytes, then its encoding. *)
Definition string_field (s : jsstr) : list Z :=
  uint16_bytes (Z.of_nat (length (utf8 s))) ++ utf8 s.

(** A string that can be written: well-formed, its length on 16 bits. *)
Definition encodable (s : jsstr) : Prop :=
  wf_utf16 s = true /\ Z.of_nat (length (utf8 s)) < 65536.

Lemma writeString_spec s pre mid post :
  encodable s -> length mid = length (string_field s) ->
  writeString s (UTF8Length s) (pre ++ mid ++ post) (length pre)
  = Ret (pre ++ string_field s ++ post, (length pre + length (string_field s))%nat).
Proof.
  intros [Hwf Hlen] Hl. unfold writeString. rewrite UTF8Length_utf8 by done.
  unfold string_field in *. rewrite length_app in Hl. cbn [length uint16_bytes] in Hl.
  rewrite <- (take_drop 2 mid), <- app_assoc.
  rewrite writeUint16_spec by (rewrite ?length_take; lia).
  rewrite app_assoc.
  replace (length pre + 2)%nat
    with (length (pre ++ uint16_bytes (Z.of_nat (length (utf8 s)))))
    by (by rewrite length_app).
  rewrite stringToUTF8_spec by (rewrite ?length_drop; done || lia).
  rewrite <- !app_assoc, Nat2Z.id, !length_app. cbn [length uint16_bytes].
  f_equal. f_equal. lia.
Qed.

(** ** Reading back *)
Lemma parseUTF8_loop_shift fuel pre l k stop :
  parseUTF8_loop fuel (pre ++ l) (length pre + k) (length pre + stop)
  = parseUTF8_loop fuel l k stop.
Proof.
  revert k. induction fuel as [|n IH]; intros k; [done|]. cbn [parseUTF8_loop].
  rewrite parse_char_shift.
  replace (length pre + k <? length pre + stop)%nat with (k <? stop)%nat
    by (destruct (Nat.ltb_spec k stop); symmetry; [apply Nat.ltb_lt|apply Nat.ltb_ge]; lia).
  case_match; [|done]. destruct (parse_char l k) as [[u p]|e]; [|done].
  cbn. by rewrite IH.
Qed.

Lemma parseUTF8_shift pre l k n :
  parseUTF8 (pre ++ l) (length pre + k) n = parseUTF8 l k n.
Proof.
  unfold parseUTF8. rewrite <- Nat.add_assoc. apply parseUTF8_loop_shift.
Qed.

Lemma utf16_out_bmp c : 0 <= c <= 0xFFFF -> utf16_out (Num c) = [c].
Proof.
  intros. cbn. case_match; zbool; [lia|]. by rewrite Z.mod_small by lia.
Qed.

Lemma utf16_out_pair hi lo :
  is_high_surrogate hi = true -> is_low_surrogate lo = true ->
  utf16_out (Num (pair_code hi lo)) = [hi; lo].
Proof.
  intros E1 E2. pose proof (pair_code_range hi lo E1 E2) as Hr. unfold utf16_out.
  case_match; [|lia]. unfold pair_code in *. rewrite Z.shiftl_mul_pow2 in * by lia.
  unfold is_high_surrogate, is_low_surrogate in *. zbool.
  rewrite toInt32_id, Z.shiftr_div_pow2 by lia. change 0x3FF with (Z.ones 10).
  rewrite Z.land_ones by lia. cbn [fromCharCode app].
  change (2 ^ 10) with 1024 in *.
  f_equal; [|f_equal]; Z.to_euclidean_division_equations; lia.
Qed.

Lemma parseUTF8_loop_done fuel l k : parseUTF8_loop fuel l k k = Ret [].
Proof. destruct fuel; [done|]. cbn [parseUTF8_loop]. by rewrite Nat.ltb_irrefl. Qed.

(** One character read off the front. *)
Lemma parseUTF8_loop_step c s post fuel out :
  0 <= c < 0x200000 ->
  parseUTF8_loop fuel (s ++ post) 0 (length s) = Ret out ->
  parseUTF8_loop (S fuel) (utf8_bytes c ++ s ++ post) 0 (length (utf8_bytes c ++ s))
  = Ret (utf16_out (Num c) ++ out).
Proof.
  intros Hc IH. cbn [parseUTF8_loop]. rewrite parse_char_utf8, length_app by done.
  pose proof (utf8_bytes_length c) as Hl.
  replace (0 <? length (utf8_bytes c) + length s)%nat with true.
  2: { symmetry. apply Nat.ltb_lt. repeat case_match; lia. }
  rewrite <- (Nat.add_0_r (length (utf8_bytes c))) at 1.
  by rewrite parseUTF8_loop_shift, IH.
Qed.

Lemma utf8_bytes_nonempty c : 0 <= c -> (0 < length (utf8_bytes c))%nat.
Proof. intros Hc. pose proof (utf8_bytes_length c Hc). repeat case_match; lia. Qed.

Lemma parseUTF8_loop_utf8 s post fuel :
  wf_utf16 s = true -> (length (utf8 s) <= fuel)%nat ->
  parseUTF8_loop fuel (utf8 s ++ post) 0 (length (utf8 s)) = Ret s.
Proof.
  intros Hwf. revert s Hwf fuel. refine (utf16_ind _ _ _ _);
    [|intros c s Hc E Hs IH|intros hi lo s E1 E2 Hs IH]; intros fuel Hf; cbn [utf8] in *.
  - apply parseUTF8_loop_done.
  - rewrite E in *. rewrite length_app in Hf. pose proof (utf8_bytes_nonempty c).
    destruct fuel as [|fuel]; [lia|]. rewrite <- app_assoc.
    rewrite parseUTF8_loop_step with (out := s); [|lia|apply IH; lia].
    by rewrite utf16_out_bmp.
  - rewrite E1 in *. rewrite length_app in Hf. pose proof (pair_code_range hi lo E1 E2).
    pose proof (utf8_bytes_nonempty (pair_code hi lo)).
    destruct fuel as [|fuel]; [lia|]. rewrite <- app_assoc.
    rewrite parseUTF8_loop_step with (out := s); [|lia|apply IH; lia].
    by rewrite utf16_out_pair.
Qed.

Lemma parseUTF8_utf8 s pre post :
  wf_utf16 s = true ->
  parseUTF8 (pre ++ utf8 s ++ post) (length pre) (length (utf8 s)) = Ret s.
Proof.
  intros Hwf. rewrite <- (Nat.add_0_r (length pre)), parseUTF8_shift.
  by apply parseUTF8_loop_utf8.
Qed.

Lemma readUint16_shift pre l k : readUint16 (pre ++ l) (length pre + k) = readUint16 l k.
Proof. unfold readUint16. by rewrite <- Nat.add_assoc, !u8get_shift. Qed.

Lemma readUint16_bytes n pre post :
  0 <= n < 65536 -> readUint16 (pre ++ uint16_bytes n ++ post) (length pre) = Num n.
Proof.
  intros. rewrite <- (Nat.add_0_r (length pre)), readUint16_shift. cbn.
  f_equal. Z.to_euclidean_division_equations. lia.
Qed.
