(* ===== verification/Wire.v ===== *)
(** * MQTT packets: messages, the wire encoder and the decoder
    (mqttws31.js: WireMessage 226-442, decodeMessage 444-522, Message 2052-2136). *)

From stdpp Require Import base tactics list strings numbers.
From Stdlib Require Import ZArith Lia.
From S2P Require Import Prelude PahoBase Utf8.
Local Open Scope Z_scope.
Local Open Scope st_scope.

(** ** Application messages

    A payload is the string, [Uint8Array] or [ArrayBuffer] the application or
    the decoder gave; the other typed arrays the constructor accepts are not
    modelled. *)
Inductive payload :=
  | PString (s : jsstr)
  | PUint8Array (bytes : list Z)
  | PArrayBuffer (bytes : list Z).

Record Message := mkMessage {
  msg_payload : payload;
  destinationName : option jsstr;
  qos : Z;
  retained : bool;
  duplicate : bool;
}.

#[export] Instance payload_eq_dec : EqDecision payload.
Proof. solve_decision. Defined.
#[export] Instance Message_eq_dec : EqDecision Message.
Proof. solve_decision. Defined.

(** [new Message(payload)]. *)
Definition new_Message (p : payload) : Message := mkMessage p None 0 false false.

Definition getPayloadString (m : Message) : result exn jsstr :=
  match msg_payload m with
  | PString s => Ret s
  | PUint8Array bs => parseUTF8 bs 0 (length bs)
  | PArrayBuffer _ => Ret []   (* an ArrayBuffer has no [length]: nothing is parsed *)
  end.

(** [payloadBytes]: a string is encoded into a fresh buffer of [UTF8Length]
    bytes; any other payload is returned as it is. *)
Inductive byte_view := Uint8Array (bytes : list Z) | ArrayBuffer (bytes : list Z).

Definition getPayloadBytes (m : Message) : result exn byte_view :=
  match msg_payload m with
  | PString s =>
      byteStream <-? stringToUTF8 s (replicate (Z.to_nat (UTF8Length s)) 0) 0 ;;
      Ret (Uint8Array byteStream)
  | PUint8Array bs => Ret (Uint8Array bs)
  | PArrayBuffer bs => Ret (ArrayBuffer bs)
  end.

Definition byteLength (v : byte_view) : Z :=
  match v with Uint8Array bs | ArrayBuffer bs => Z.of_nat (length bs) end.

Definition setQos (newQos : Z) (m : Message) : result exn Message :=
  if (newQos =? 0) || (newQos =? 1) || (newQos =? 2)
  then Ret (mkMessage (msg_payload m) (destinationName m) newQos (retained m) (duplicate m))
  else Throw (Error (js "Invalid argument:" ++ dec newQos)).

Definition setDestinationName (d : jsstr) (m : Message) : Message :=
  mkMessage (msg_payload m) (Some d) (qos m) (retained m) (duplicate m).
Definition setRetained (b : bool) (m : Message) : Message :=
  mkMessage (msg_payload m) (destinationName m) (qos m) b (duplicate m).
Definition setDuplicate (b : bool) (m : Message) : Message :=
  mkMessage (msg_payload m) (destinationName m) (qos m) (retained m) b.

(** ** Connect options, as the public [connect] hands them to the client *)
Record ConnectOptions := mkConnectOptions {
  co_timeout : option Z;
  co_userName : option jsstr;
  co_password : option jsstr;
  co_willMessage : option Message;
  co_keepAliveInterval : Z;
  co_cleanSession : bool;
  co_useSSL : bool;
  co_onSuccess : bool;
  co_onFailure : bool;
  co_uris : option (list jsstr);
  co_mqttVersion : Z;
  co_mqttVersionExplicit : bool;
}.

(** ** Wire messages

    The source keeps one object type whose own properties depend on the packet
    type; the properties the constructor copies from the connect options are
    kept together in [wm_options]. *)
Inductive return_code := NoReturnCode | ReturnByte (n : jsnum) | ReturnBytes (bs : list Z).

Record WireMessage := mkWireMessage {
  wm_type : Z;
  wm_messageIdentifier : option jsnum;
  wm_payloadMessage : option Message;
  wm_topics : list jsstr;
  wm_requestedQos : list Z;
  wm_options : option ConnectOptions;
  wm_clientId : jsstr;
  wm_sessionPresent : bool;
  wm_returnCode : return_code;
  wm_pubRecReceived : bool;
  wm_sequence : option Z;
  wm_timeOut : option Z;
  wm_onSuccess : bool;
  wm_onFailure : bool;
  wm_callback : bool;
}.

(** [new WireMessage(type)]: no property but the type. *)
Definition new_WireMessage (type : Z) : WireMessage :=
  mkWireMessage type None None [] [] None [] false NoReturnCode false None None
    false false false.

Definition set_messageIdentifier (id : jsnum) (m : WireMessage) : WireMessage :=
  mkWireMessage (wm_type m) (Some id) (wm_payloadMessage m) (wm_topics m)
    (wm_requestedQos m) (wm_options m) (wm_clientId m) (wm_sessionPresent m)
    (wm_returnCode m) (wm_pubRecReceived m) (wm_sequence m) (wm_timeOut m)
    (wm_onSuccess m) (wm_onFailure m) (wm_callback m).

(** [new WireMessage(type, {messageIdentifier: id})]. *)
Definition new_ack (type : Z) (id : option jsnum) : WireMessage :=
  match id with
  | Some n => set_messageIdentifier n (new_WireMessage type)
  | None => new_WireMessage type
  end.

Definition set_payloadMessage (p : Message) (m : WireMessage) : WireMessage :=
  mkWireMessage (wm_type m) (wm_messageIdentifier m) (Some p) (wm_topics m)
    (wm_requestedQos m) (wm_options m) (wm_clientId m) (wm_sessionPresent m)
    (wm_returnCode m) (wm_pubRecReceived m) (wm_sequence m) (wm_timeOut m)
    (wm_onSuccess m) (wm_onFailure m) (wm_callback m).

Definition set_pubRecReceived (m : WireMessage) : WireMessage :=
  mkWireMessage (wm_type m) (wm_messageIdentifier m) (wm_payloadMessage m) (wm_topics m)
    (wm_requestedQos m) (wm_options m) (wm_clientId m) (wm_sessionPresent m)
    (wm_returnCode m) true (wm_sequence m) (wm_timeOut m)
    (wm_onSuccess m) (wm_onFailure m) (wm_callback m).

Definition set_sequence (n : Z) (m : WireMessage) : WireMessage :=
  mkWireMessage (wm_type m) (wm_messageIdentifier m) (wm_payloadMessage m) (wm_topics m)
    (wm_requestedQos m) (wm_options m) (wm_clientId m) (wm_sessionPresent m)
    (wm_returnCode m) (wm_pubRecReceived m) (Some n) (wm_timeOut m)
    (wm_onSuccess m) (wm_onFailure m) (wm_callback m).

(** ** The encoder

    First pass (259-345): the first byte, the remaining length and the pieces
    whose length was measured.  A will payload that is an [ArrayBuffer] is
    replaced by [new Uint8Array(payloadBytes)], where [payloadBytes] is a
    variable not yet assigned: an empty array. *)
Record sizes := mkSizes {
  sz_first : Z;
  sz_remLength : Z;
  sz_topicStrLength : list Z;
  sz_destinationNameLength : Z;
  sz_payloadBytes : list Z;
  sz_willMessagePayloadBytes : list Z;
}.

Definition undefined_dest {A} (o : option jsstr) (k : jsstr -> result exn A) : result exn A :=
  match o with Some d => k d | None => Throw TypeError end.

Definition connect_sizes (m : WireMessage) (first remLength : Z) : result exn sizes :=
  let o := wm_options m in
  let remLength := remLength
    + match co_mqttVersion <$> o with
      | Some 3 => Z.of_nat (length MqttProtoIdentifierv3) + 3
      | Some 4 => Z.of_nat (length MqttProtoIdentifierv4) + 3
      | _ => 0
      end in
  let remLength := remLength + (UTF8Length (wm_clientId m) + 2) in
  let* (remLength, will) :=
    match o ≫= co_willMessage with
    | Some w =>
        undefined_dest (destinationName w) (λ d,
          v <-? getPayloadBytes w ;;
          let will := match v with Uint8Array bs => bs | ArrayBuffer _ => [] end in
          Ret (remLength + (UTF8Length d + 2) + (Z.of_nat (length will) + 2), will))
    | None => Ret (remLength, [])
    end in
  let opt_len s := match s with Some s => UTF8Length s + 2 | None => 0 end in
  Ret (mkSizes first (remLength + opt_len (o ≫= co_userName) + opt_len (o ≫= co_password))
         [] 0 [] will).

Definition encode_sizes (m : WireMessage) : result exn sizes :=
  let first := Z.shiftl (Z.land (wm_type m) 0x0f) 4 in
  let remLength := match wm_messageIdentifier m with Some _ => 2 | None => 0 end in
  let topicStrLength := UTF8Length <$> wm_topics m in
  let topics_len := foldr (λ n acc, n + 2 + acc) 0 topicStrLength in
  if wm_type m =? MESSAGE_TYPE.CONNECT then connect_sizes m first remLength
  else if wm_type m =? MESSAGE_TYPE.SUBSCRIBE then
    Ret (mkSizes (Z.lor first 0x02)
           (remLength + topics_len + Z.of_nat (length (wm_requestedQos m)))
           topicStrLength 0 [] [])
  else if wm_type m =? MESSAGE_TYPE.UNSUBSCRIBE then
    Ret (mkSizes (Z.lor first 0x02) (remLength + topics_len) topicStrLength 0 [] [])
  else if wm_type m =? MESSAGE_TYPE.PUBREL then
    Ret (mkSizes (Z.lor first 0x02) remLength [] 0 [] [])
  else if wm_type m =? MESSAGE_TYPE.PUBLISH then
    match wm_payloadMessage m with
    | None => Throw TypeError
    | Some p =>
        let first := if duplicate p then Z.lor first 0x08 else first in
        let first := Z.lor first (Z.shiftl (qos p) 1) in
        let first := if retained p then Z.lor first 0x01 else first in
        undefined_dest (destinationName p) (λ d,
          v <-? getPayloadBytes p ;;
          let bytes := match v with Uint8Array bs | ArrayBuffer bs => bs end in
          Ret (mkSizes first (remLength + (UTF8Length d + 2) + byteLength v)
                 [] (UTF8Length d) bytes []))
    end
  else Ret (mkSizes first remLength [] 0 [] []).

(** Second pass (347-442): the buffer is allocated and filled. *)
Definition num_bits (n : jsnum) : Z := match n with Num z => z | NaN => 0 end.

Definition connect_flags (o : ConnectOptions) : Z :=
  let connectFlags := if co_cleanSession o then 0x02 else 0 in
  let connectFlags :=
    match co_willMessage o with
    | Some w =>
        let f := Z.lor (Z.lor connectFlags 0x04) (Z.shiftl (qos w) 3) in
        if retained w then Z.lor f 0x20 else f
    | None => connectFlags
    end in
  let connectFlags := match co_userName o with Some _ => Z.lor connectFlags 0x80
                      | None => connectFlags end in
  match co_password o with Some _ => Z.lor connectFlags 0x40 | None => connectFlags end.

Definition write_variable_header (m : WireMessage) (sz : sizes) (byteStream : list Z)
    (pos : nat) : result exn (list Z * nat) :=
  if wm_type m =? MESSAGE_TYPE.PUBLISH then
    undefined_dest (wm_payloadMessage m ≫= destinationName) (λ d,
      writeString d (sz_destinationNameLength sz) byteStream pos)
  else if wm_type m =? MESSAGE_TYPE.CONNECT then
    let* (byteStream, pos) :=
      match co_mqttVersion <$> wm_options m with
      | Some 3 =>
          b <-? u8setarr byteStream MqttProtoIdentifierv3 pos ;;
          Ret (b, (pos + length MqttProtoIdentifierv3)%nat)
      | Some 4 =>
          b <-? u8setarr byteStream MqttProtoIdentifierv4 pos ;;
          Ret (b, (pos + length MqttProtoIdentifierv4)%nat)
      | _ => Ret (byteStream, pos)
      end in
    let byteStream := u8set byteStream pos (default 0 (connect_flags <$> wm_options m)) in
    Ret (writeUint16 (default 0 (co_keepAliveInterval <$> wm_options m)) byteStream (pos + 1))
  else Ret (byteStream, pos).

Definition write_opt_string (s : option jsstr) (bp : list Z * nat)
    : result exn (list Z * nat) :=
  match s with
  | Some s => writeString s (UTF8Length s) (fst bp) (snd bp)
  | None => Ret bp
  end.

Definition write_connect_payload (m : WireMessage) (sz : sizes) (byteStream : list Z)
    (pos : nat) : result exn (list Z * nat) :=
  let o := wm_options m in
  bp <-? writeString (wm_clientId m) (UTF8Length (wm_clientId m)) byteStream pos ;;
  bp <-? match o ≫= co_willMessage with
         | Some w =>
             undefined_dest (destinationName w) (λ d,
               bp <-? writeString d (UTF8Length d) (fst bp) (snd bp) ;;
               let will := sz_willMessagePayloadBytes sz in
               let '(b, pos) := writeUint16 (Z.of_nat (length will)) (fst bp) (snd bp) in
               b <-? u8setarr b will pos ;;
               Ret (b, (pos + length will)%nat))
         | None => Ret bp
         end ;;
  bp <-? write_opt_string (o ≫= co_userName) bp ;;
  write_opt_string (o ≫= co_password) bp.

Fixpoint write_subscribe (topics : list jsstr) (lens requestedQos : list Z)
    (byteStream : list Z) (pos : nat) : result exn (list Z * nat) :=
  match topics with
  | [] => Ret (byteStream, pos)
  | t :: topics' =>
      let* (b, pos) := writeString t (default 0 (head lens)) byteStream pos in
      let b := u8set b pos (default 0 (head requestedQos)) in
      write_subscribe topics' (tail lens) (tail requestedQos) b (pos + 1)
  end.

Fixpoint write_topics (topics : list jsstr) (lens : list Z)
    (byteStream : list Z) (pos : nat) : result exn (list Z * nat) :=
  match topics with
  | [] => Ret (byteStream, pos)
  | t :: topics' =>
      let* (b, pos) := writeString t (default 0 (head lens)) byteStream pos in
      write_topics topics' (tail lens) b pos
  end.

Definition encode_body (m : WireMessage) (sz : sizes) : result exn (list Z) :=
  let mbi := encodeMBI (sz_remLength sz) in
  let pos := (length mbi + 1)%nat in
  let byteStream := replicate (Z.to_nat (sz_remLength sz) + pos) 0 in
  let byteStream := u8set byteStream 0 (sz_first sz) in
  byteStream <-? u8setarr byteStream mbi 1 ;;
  let* (byteStream, pos) := write_variable_header m sz byteStream pos in
  let '(byteStream, pos) :=
    match wm_messageIdentifier m with
    | Some id => writeUint16 (num_bits id) byteStream pos
    | None => (byteStream, pos)
    end in
  if wm_type m =? MESSAGE_TYPE.CONNECT then
    rmap fst (write_connect_payload m sz byteStream pos)
  else if wm_type m =? MESSAGE_TYPE.PUBLISH then
    u8setarr byteStream (sz_payloadBytes sz) pos
  else if wm_type m =? MESSAGE_TYPE.SUBSCRIBE then
    rmap fst (write_subscribe (wm_topics m) (sz_topicStrLength sz) (wm_requestedQos m)
                byteStream pos)
  else if wm_type m =? MESSAGE_TYPE.UNSUBSCRIBE then
    rmap fst (write_topics (wm_topics m) (sz_topicStrLength sz) byteStream pos)
  else Ret byteStream.

Definition encode (m : WireMessage) : result exn (list Z) :=
  sz <-? encode_sizes m ;; encode_body m sz.

(** ** The decoder *)

(** The remaining length, read from the bytes after the first; [None] when the
    input ends first.  The multiplier is a double: after 147 bytes it is
    [Infinity], and a digit 0 times it is [NaN], which the sum keeps.  The other
    values are kept exact: one that a double rounds, or [Infinity], is only
    compared with the length of the input, and greater than it either way. *)
Definition double_overflow : Z := 2 ^ 1024.

Definition times_multiplier (digit multiplier : Z) : jsnum :=
  if (double_overflow <=? multiplier) && (digit =? 0) then NaN else Num (digit * multiplier).

Definition num_add (a b : jsnum) : jsnum :=
  match a, b with Num x, Num y => Num (x + y) | _, _ => NaN end.

Fixpoint decode_length (rest : list Z) (pos : nat) (remLength : jsnum) (multiplier : Z)
    : option (jsnum * nat) :=
  match rest with
  | [] => None
  | digit :: rest' =>
      let remLength := num_add remLength (times_multiplier (Z.land digit 0x7F) multiplier) in
      if Z.land digit 0x80 =? 0 then Some (remLength, S pos)
      else decode_length rest' (S pos) remLength (multiplier * 128)
  end.

Definition subarray (input : list Z) (b e : nat) : list Z := take (e - b) (drop b input).

Definition decode_publish (input : list Z) (pos endPos : nat) (messageInfo : Z)
    : result exn WireMessage :=
  let q := Z.land (Z.shiftr messageInfo 1) 0x03 in
  let len := readUint16 input pos in
  let pos := (pos + 2)%nat in
  match len with
  | NaN =>
      (* the length is [NaN], then so is every position: the topic is empty, the
         identifier is read past the end and the payload starts at 0 *)
      let m := new_Message (PUint8Array (subarray input 0 endPos)) in
      let m := if Z.land messageInfo 0x01 =? 0x01 then setRetained true m else m in
      let m := if Z.land messageInfo 0x08 =? 0x08 then setDuplicate true m else m in
      m <-? setQos q m ;;
      let w := new_WireMessage MESSAGE_TYPE.PUBLISH in
      let w := if q >? 0 then set_messageIdentifier NaN w else w in
      Ret (set_payloadMessage (setDestinationName [] m) w)
  | Num len =>
      let len := Z.to_nat len in
      topicName <-? parseUTF8 input pos len ;;
      let pos := (pos + len)%nat in
      let '(id, pos) := if q >? 0 then (Some (readUint16 input pos), (pos + 2)%nat)
                        else (None, pos) in
      let m := new_Message (PUint8Array (subarray input pos endPos)) in
      let m := if Z.land messageInfo 0x01 =? 0x01 then setRetained true m else m in
      let m := if Z.land messageInfo 0x08 =? 0x08 then setDuplicate true m else m in
      m <-? setQos q m ;;
      let w := new_ack MESSAGE_TYPE.PUBLISH id in
      Ret (set_payloadMessage (setDestinationName topicName m) w)
  end.

Definition set_connack (sp : bool) (rc : return_code) (m : WireMessage) : WireMessage :=
  mkWireMessage (wm_type m) (wm_messageIdentifier m) (wm_payloadMessage m) (wm_topics m)
    (wm_requestedQos m) (wm_options m) (wm_clientId m) sp rc (wm_pubRecReceived m)
    (wm_sequence m) (wm_timeOut m) (wm_onSuccess m) (wm_onFailure m) (wm_callback m).

Definition decode_fields (input : list Z) (type messageInfo : Z) (pos endPos : nat)
    : result exn WireMessage :=
  if type =? MESSAGE_TYPE.CONNACK then
    let sp := match u8get input pos with
              | Num f => negb (Z.land f 0x01 =? 0)
              | NaN => false
              end in
    Ret (set_connack sp (ReturnByte (u8get input (pos + 1))) (new_WireMessage type))
  else if type =? MESSAGE_TYPE.PUBLISH then decode_publish input pos endPos messageInfo
  else if (type =? MESSAGE_TYPE.PUBACK) || (type =? MESSAGE_TYPE.PUBREC)
       || (type =? MESSAGE_TYPE.PUBREL) || (type =? MESSAGE_TYPE.PUBCOMP)
       || (type =? MESSAGE_TYPE.UNSUBACK) then
    Ret (new_ack type (Some (readUint16 input pos)))
  else if type =? MESSAGE_TYPE.SUBACK then
    Ret (set_connack false (ReturnBytes (subarray input (pos + 2) endPos))
           (new_ack type (Some (readUint16 input pos))))
  else Ret (new_WireMessage type).

Definition decodeMessage (input : list Z) (pos : nat)
    : result exn (option WireMessage * nat) :=
  let startingPos := pos in
  let first := default 0 (input !! pos) in
  let type := Z.shiftr first 4 in
  let messageInfo := Z.land first 0x0f in
  let pos := (pos + 1)%nat in
  match decode_length (drop pos input) pos (Num 0) 1 with
  | None => Ret (None, startingPos)
  | Some (NaN, pos) =>
      (* [endPos] is [NaN] and not beyond the input: a subarray up to it is empty,
         and the loop of the caller stops at it and keeps nothing, as it does at
         the end of the input *)
      w <-? decode_fields input type messageInfo pos 0 ;;
      Ret (Some w, length input)
  | Some (Num remLength, pos) =>
      if Z.of_nat pos + remLength >? Z.of_nat (length input) then Ret (None, startingPos)
      else
        let endPos := (pos + Z.to_nat remLength)%nat in
        w <-? decode_fields input type messageInfo pos endPos ;;
        Ret (Some w, endPos)
  end.
