(* ===== verification/WireFacts.v ===== *)
(** * What the encoder and the decoder compute

    [writes f bs] says that a writer puts exactly the bytes [bs] at its
    position and advances past them, whatever surrounds it; the packets are
    then read off as concatenations of fields, and decoding is shown to invert
    them. *)

From stdpp Require Import base tactics list strings numbers.
From Stdlib Require Import ZArith Lia.
From S2P Require Import Prelude PahoBase Utf8 Wire.
Local Open Scope Z_scope.
Local Open Scope st_scope.

Create HintDb wire.

(** ** Writers *)
Definition writes (f : list Z -> nat -> result exn (list Z * nat)) (bs : list Z) : Prop :=
  forall pre mid post, length mid = length bs ->
    f (pre ++ mid ++ post) (length pre)
    = Ret (pre ++ bs ++ post, (length pre + length bs)%nat).

Lemma writes_nil : writes (λ b p, Ret (b, p)) [].
Proof. intros pre mid post H. destruct mid; [|done]. by rewrite Nat.add_0_r. Qed.

Lemma writes_seq f g a b :
  writes f a -> writes g b ->
  writes (λ buf p, bp <-? f buf p ;; g (fst bp) (snd bp)) (a ++ b).
Proof.
  intros Hf Hg pre mid post Hl. rewrite length_app in Hl.
  rewrite <- (take_drop (length a) mid), <- app_assoc.
  rewrite Hf by (rewrite length_take; lia). cbn [rbind fst snd].
  rewrite app_assoc, <- length_app, Hg by (rewrite length_drop; lia).
  rewrite !length_app, <- !app_assoc. f_equal. f_equal. lia.
Qed.

Lemma writes_ext f g bs : (forall b p, f b p = g b p) -> writes f bs -> writes g bs.
Proof. intros E Hf pre mid post Hl. rewrite <- E. by apply Hf. Qed.

Lemma writes_string s :
  encodable s -> writes (writeString s (UTF8Length s)) (string_field s).
Proof. intros Hs pre mid post Hl. by apply writeString_spec. Qed.

Lemma writes_uint16 n :
  0 <= n < 65536 -> writes (λ b p, Ret (writeUint16 n b p)) (uint16_bytes n).
Proof. intros Hn pre mid post Hl. by rewrite writeUint16_spec. Qed.

Lemma writes_byte v :
  is_byte v -> writes (λ b p, Ret (u8set b p v, (p + 1)%nat)) [v].
Proof.
  intros Hv pre mid post Hl. f_equal. f_equal.
  rewrite <- (u8blit_app pre mid post [v]); [done|done|by constructor].
Qed.

Lemma writes_bytes bs :
  Forall is_byte bs ->
  writes (λ b p, b <-? u8setarr b bs p ;; Ret (b, (p + length bs)%nat)) bs.
Proof.
  intros Hbs pre mid post Hl. unfold u8setarr.
  destruct (Nat.ltb_spec (length (pre ++ mid ++ post)) (length pre + length bs)) as [H|H].
  - rewrite !length_app in H. lia.
  - cbn [rbind]. by rewrite u8blit_app.
Qed.

#[export] Hint Resolve writes_nil writes_string writes_uint16 writes_byte writes_bytes : wire.

(** A writer run on the rest of the buffer. *)
Lemma writes_end f bs pre mid :
  writes f bs -> length mid = length bs ->
  f (pre ++ mid) (length pre) = Ret (pre ++ bs, (length pre + length bs)%nat).
Proof. intros Hf Hl. specialize (Hf pre mid [] Hl). by rewrite !app_nil_r in Hf. Qed.

(** ** Multi-byte integers *)
Lemma low7 d : 0 <= d < 128 -> Z.land d 0x7F = d /\ Z.land d 0x80 = 0.
Proof.
  intros Hd.
  pose proof (bounded_forall (λ d, (Z.land d 0x7F =? d) && (Z.land d 0x80 =? 0)) 128 eq_refl d).
  lia.
Qed.

Lemma high8 d : 0 <= d < 128 ->
  Z.lor d 0x80 = d + 128 /\ Z.land (d + 128) 0x7F = d /\ Z.land (d + 128) 0x80 = 128.
Proof.
  intros Hd.
  pose proof (bounded_forall (λ d, (Z.lor d 0x80 =? d + 128) && (Z.land (d + 128) 0x7F =? d)
    && (Z.land (d + 128) 0x80 =? 128)) 128 eq_refl d).
  lia.
Qed.

Lemma encodeMBI_step n number :
  0 <= number < 2 ^ 31 ->
  encodeMBI_loop (S n) number =
    if number <? 128 then [number]
    else (number mod 128 + 128) :: encodeMBI_loop n (number / 128).
Proof.
  intros Hn. cbn [encodeMBI_loop]. rewrite toInt32_id, Z.shiftr_div_pow2 by lia.
  rewrite Z.rem_mod_nonneg by lia. change (2 ^ 7) with 128.
  pose proof (Z.mod_pos_bound number 128).
  destruct (number <? 128) eqn:E; zbool.
  - rewrite Z.div_small, Z.mod_small by lia. done.
  - destruct (number / 128 >? 0) eqn:E2.
    + by rewrite (proj1 (high8 (number mod 128) ltac:(lia))).
    + assert (1 <= number / 128) by (apply Z.div_le_lower_bound; lia). lia.
Qed.

Lemma times_multiplier_num d mult :
  mult < double_overflow -> times_multiplier d mult = Num (d * mult).
Proof.
  intros Hm. unfold times_multiplier. destruct (Z.leb_spec double_overflow mult); [lia|done].
Qed.

Lemma encodeMBI_loop_decode fuel number rest pos rem mult :
  0 <= number < 128 ^ Z.of_nat fuel -> (fuel <= 4)%nat -> fuel <> O ->
  0 < mult -> mult * 128 ^ Z.of_nat fuel < double_overflow ->
  decode_length (encodeMBI_loop fuel number ++ rest) pos (Num rem) mult
  = Some (Num (rem + number * mult), (pos + length (encodeMBI_loop fuel number))%nat).
Proof.
  revert number pos rem mult. induction fuel as [|n IH]; intros number pos rem mult Hn Hf Hz Hm Ho; [done|].
  rewrite Nat2Z.inj_succ, Z.pow_succ_r in Ho by lia.
  assert (0 < 128 ^ Z.of_nat n) by lia. assert (mult < double_overflow) by nia.
  assert (number < 2 ^ 31) as Hb.
  { eapply Z.lt_le_trans; [apply Hn|]. etransitivity; [apply (Z.pow_le_mono_r 128 _ 4); lia|done]. }
  rewrite encodeMBI_step by lia.
  destruct (number <? 128) eqn:E; zbool.
  - cbn [app decode_length length]. destruct (low7 number) as [-> ->]; [lia|].
    rewrite Nat.add_1_r, times_multiplier_num by done. done.
  - cbn [app decode_length length]. pose proof (Z.mod_pos_bound number 128).
    destruct (high8 (number mod 128)) as (_ & -> & ->); [lia|]. cbn [Z.eqb].
    rewrite times_multiplier_num by done. cbn [num_add].
    rewrite Nat2Z.inj_succ, Z.pow_succ_r in Hn by lia.
    rewrite IH.
    + f_equal. f_equal; [|lia]. f_equal. pose proof (Z.div_mod number 128). nia.
    + split; [apply Z.div_pos; lia|]. apply Z.div_lt_upper_bound; lia.
    + lia.
    + intros ->. change (128 ^ Z.of_nat 0) with 1 in Hn. lia.
    + lia.
    + nia.
Qed.

Lemma encodeMBI_loop_bytes fuel number :
  0 <= number < 2 ^ 31 -> Forall is_byte (encodeMBI_loop fuel number).
Proof.
  revert number. induction fuel as [|n IH]; intros number Hn; [constructor|].
  rewrite encodeMBI_step by done. pose proof (Z.mod_pos_bound number 128).
  case_match; zbool; constructor; unfold is_byte; try lia; [constructor|].
  apply IH. split; [apply Z.div_pos; lia|]. apply Z.div_lt_upper_bound; lia.
Qed.

Lemma encodeMBI_loop_length fuel number : (length (encodeMBI_loop fuel number) <= fuel)%nat.
Proof.
  revert number. induction fuel as [|n IH]; intros number; cbn [encodeMBI_loop length]; [lia|].
  specialize (IH (Z.shiftr (toInt32 number) 7)). case_match; cbn [length]; lia.
Qed.

Definition max_length : Z := 268435456.

Lemma decode_length_encodeMBI n rest pos :
  0 <= n < max_length ->
  decode_length (encodeMBI n ++ rest) pos (Num 0) 1
  = Some (Num n, (pos + length (encodeMBI n))%nat).
Proof.
  intros Hn. unfold encodeMBI. rewrite encodeMBI_loop_decode; [|done|lia|done|lia|done].
  by rewrite Z.mul_1_r.
Qed.

Lemma encodeMBI_bytes n : 0 <= n < max_length -> Forall is_byte (encodeMBI n).
Proof. intros [? ?]. apply encodeMBI_loop_bytes. unfold max_length in *. lia. Qed.

(** No strict prefix of a length announces one. *)
Lemma encodeMBI_loop_prefix fuel n k pos rem mult :
  0 <= n < 2 ^ 31 -> (k < length (encodeMBI_loop fuel n))%nat ->
  decode_length (take k (encodeMBI_loop fuel n)) pos rem mult = None.
Proof.
  revert n k pos rem mult. induction fuel as [|fuel IH]; intros n k pos rem mult Hn Hk.
  { cbn in Hk. lia. }
  rewrite encodeMBI_step in * by done. destruct k as [|k]; [done|].
  destruct (n <? 128) eqn:E; zbool; cbn [length] in Hk; [lia|].
  cbn [take decode_length]. pose proof (Z.mod_pos_bound n 128).
  destruct (high8 (n mod 128)) as (_ & _ & ->); [lia|]. cbn [Z.eqb].
  apply IH; [|lia]. split; [apply Z.div_pos; lia|]. apply Z.div_lt_upper_bound; lia.
Qed.

Lemma decode_length_prefix n k pos :
  0 <= n < max_length -> (k < length (encodeMBI n))%nat ->
  decode_length (take k (encodeMBI n)) pos (Num 0) 1 = None.
Proof. intros Hn. apply encodeMBI_loop_prefix. unfold max_length in Hn. lia. Qed.

(** ** Packets as concatenations of fields *)
Definition packet (first : Z) (body : list Z) : list Z :=
  first :: encodeMBI (Z.of_nat (length body)) ++ body.

Definition id_field (id : option jsnum) : list Z :=
  match id with Some n => uint16_bytes (num_bits n) | None => [] end.

Definition write_id (id : option jsnum) (b : list Z) (p : nat) : result exn (list Z * nat) :=
  Ret (match id with Some n => writeUint16 (num_bits n) b p | None => (b, p) end).

Definition id_ok (id : option jsnum) : Prop :=
  match id with Some n => 0 <= num_bits n < 65536 | None => True end.

Lemma writes_id id : id_ok id -> writes (write_id id) (id_field id).
Proof. destruct id; cbn; intros; [by apply writes_uint16|apply writes_nil]. Qed.

(** The last part of the body, with the position it reaches. *)
Definition write_payload (m : WireMessage) (sz : sizes) (b : list Z) (p : nat)
    : result exn (list Z * nat) :=
  if wm_type m =? MESSAGE_TYPE.CONNECT then write_connect_payload m sz b p
  else if wm_type m =? MESSAGE_TYPE.PUBLISH then
    b <-? u8setarr b (sz_payloadBytes sz) p ;; Ret (b, (p + length (sz_payloadBytes sz))%nat)
  else if wm_type m =? MESSAGE_TYPE.SUBSCRIBE then
    write_subscribe (wm_topics m) (sz_topicStrLength sz) (wm_requestedQos m) b p
  else if wm_type m =? MESSAGE_TYPE.UNSUBSCRIBE then
    write_topics (wm_topics m) (sz_topicStrLength sz) b p
  else Ret (b, p).

Lemma encode_body_writers m sz :
  encode_body m sz =
    (let mbi := encodeMBI (sz_remLength sz) in
     let pos := (length mbi + 1)%nat in
     b <-? u8setarr (u8set (replicate (Z.to_nat (sz_remLength sz) + pos) 0) 0 (sz_first sz)) mbi 1 ;;
     rmap fst (bp <-? write_variable_header m sz b pos ;;
               bp <-? write_id (wm_messageIdentifier m) (fst bp) (snd bp) ;;
               write_payload m sz (fst bp) (snd bp))).
Proof.
  unfold encode_body, write_payload, write_id. cbv zeta.
  destruct (u8setarr _ _ 1) as [b|e]; [|done]. cbn [rbind].
  destruct (write_variable_header m sz b _) as [[b' p]|e]; [|done]. cbn [rbind fst snd].
  destruct (match wm_messageIdentifier m with Some n => _ | None => _ end) as [b2 p2].
  repeat case_match; try done. cbn [fst snd].
  by destruct (u8setarr b2 (sz_payloadBytes sz) p2).
Qed.

Lemma encode_body_packet m sz vh pl :
  let body := vh ++ id_field (wm_messageIdentifier m) ++ pl in
  is_byte (sz_first sz) ->
  sz_remLength sz = Z.of_nat (length body) -> sz_remLength sz < max_length ->
  writes (write_variable_header m sz) vh ->
  id_ok (wm_messageIdentifier m) ->
  writes (write_payload m sz) pl ->
  encode_body m sz = Ret (packet (sz_first sz) body).
Proof.
  intros body Hf Hr Hmax Hvh Hid Hpl. rewrite encode_body_writers. cbv zeta.
  rewrite Hr, Nat2Z.id. set (mbi := encodeMBI (Z.of_nat (length body))).
  assert (Forall is_byte mbi) as Hmbi by (apply encodeMBI_bytes; lia).
  rewrite (Nat.add_comm (length mbi) 1), Nat.add_assoc, (Nat.add_comm _ 1).
  rewrite <- Nat.add_assoc, (Nat.add_comm (length body)).
  rewrite !replicate_add. cbn [replicate app u8set insert list_insert].
  rewrite Z.mod_small by done.
  pose proof (writes_bytes mbi Hmbi [sz_first sz] (replicate (length mbi) 0)
                (replicate (length body) 0)) as Hw.
  rewrite length_replicate in Hw. specialize (Hw eq_refl). cbn [app length] in Hw.
  destruct (u8setarr _ mbi 1) as [b|e]; [|done]. cbn [rbind] in *.
  assert (b = sz_first sz :: mbi ++ replicate (length body) 0) as -> by congruence.
  clear Hw.
  pose proof (writes_seq _ _ _ _ Hvh
    (writes_seq _ _ _ _ (writes_id _ Hid) Hpl)) as Hall.
  pose proof (writes_end _ _ (sz_first sz :: mbi) (replicate (length body) 0) Hall) as He.
  rewrite length_replicate in He. specialize (He eq_refl).
  cbn [app length] in He. unfold packet. fold mbi.
  rewrite Nat.add_1_l. cbn [app] in *.
  by rewrite He.
Qed.

(** PUBLISH: topic, identifier when there is one, payload. *)
Definition publish_first (p : Message) : Z :=
  let first := 48 in
  let first := if duplicate p then Z.lor first 0x08 else first in
  let first := Z.lor first (Z.shiftl (qos p) 1) in
  if retained p then Z.lor first 0x01 else first.

(** The bytes of a payload once it is on the wire. *)
Definition payload_bytes (p : payload) : list Z :=
  match p with PString s => utf8 s | PUint8Array bs | PArrayBuffer bs => bs end.

Definition payload_ok (p : payload) : Prop :=
  match p with
  | PString s => wf_utf16 s = true
  | PUint8Array bs | PArrayBuffer bs => Forall is_byte bs
  end.

Lemma payload_bytes_ok p : payload_ok p -> Forall is_byte (payload_bytes p).
Proof. destruct p; [apply utf8_range|done|done]. Qed.

Lemma getPayloadBytes_spec m :
  payload_ok (msg_payload m) ->
  getPayloadBytes m = Ret (match msg_payload m with
                           | PArrayBuffer bs => ArrayBuffer bs
                           | p => Uint8Array (payload_bytes p)
                           end).
Proof.
  unfold getPayloadBytes. destruct (msg_payload m) as [s|bs|bs]; cbn; try done.
  intros Hwf. rewrite UTF8Length_utf8, Nat2Z.id by done.
  pose proof (stringToUTF8_spec s [] (replicate (length (utf8 s)) 0) [] Hwf) as H.
  rewrite length_replicate in H. specialize (H eq_refl).
  cbn [app length] in H. rewrite !app_nil_r in H. by rewrite H.
Qed.

(** What [send] is given when a packet can be built: a qos the setter accepts,
    a topic and a payload that can be encoded. *)
Record publishable (p : Message) (d : jsstr) : Prop := {
  pub_dest : destinationName p = Some d;
  pub_topic : encodable d;
  pub_payload : payload_ok (msg_payload p);
  pub_qos : 0 <= qos p <= 2;
}.

Definition publish_body (id : option jsnum) (d : jsstr) (p : Message) : list Z :=
  string_field d ++ id_field id ++ payload_bytes (msg_payload p).

Lemma publish_first_byte p : 0 <= qos p <= 2 -> is_byte (publish_first p).
Proof.
  intros Hq. assert (qos p = 0 \/ qos p = 1 \/ qos p = 2) as Hc by lia.
  unfold publish_first, is_byte.
  destruct Hc as [->|[->| ->]], (duplicate p), (retained p); vm_compute; split; congruence.
Qed.

Lemma encode_publish m p d :
  wm_type m = MESSAGE_TYPE.PUBLISH -> wm_payloadMessage m = Some p ->
  publishable p d -> id_ok (wm_messageIdentifier m) ->
  Z.of_nat (length (publish_body (wm_messageIdentifier m) d p)) < max_length ->
  encode m = Ret (packet (publish_first p) (publish_body (wm_messageIdentifier m) d p)).
Proof.
  intros Ht Hp [Hd Htop Hpl Hq] Hid Hmax.
  pose proof (payload_bytes_ok _ Hpl) as Hbytes.
  set (body := publish_body (wm_messageIdentifier m) d p) in *.
  set (sz := mkSizes (publish_first p) (Z.of_nat (length body)) [] (UTF8Length d)
               (payload_bytes (msg_payload p)) []).
  assert (encode_sizes m = Ret sz) as Hsz.
  { unfold encode_sizes. rewrite Ht, Hp, Hd, (getPayloadBytes_spec _ Hpl). cbn.
    unfold sz, body, publish_body, string_field.
    rewrite UTF8Length_utf8 by apply Htop. rewrite !length_app. cbn [length uint16_bytes].
    f_equal. f_equal; [|by destruct (msg_payload p)].
    destruct (wm_messageIdentifier m), (msg_payload p); cbn; lia. }
  unfold encode. rewrite Hsz. cbn [rbind].
  rewrite (encode_body_packet m sz (string_field d) (payload_bytes (msg_payload p)));
    [done|by apply publish_first_byte|done|done| |done|].
  - unfold write_variable_header. rewrite Ht, Hp. cbn. rewrite Hd. by apply writes_string.
  - unfold write_payload. rewrite Ht. cbn. by apply writes_bytes.
Qed.

(** PUBACK, PUBREC, PUBREL and PUBCOMP: the identifier and nothing else. *)
Definition is_ack (t : Z) : Prop :=
  t = MESSAGE_TYPE.PUBACK \/ t = MESSAGE_TYPE.PUBREC \/ t = MESSAGE_TYPE.PUBREL
  \/ t = MESSAGE_TYPE.PUBCOMP.

Definition ack_first (t : Z) : Z :=
  if t =? MESSAGE_TYPE.PUBREL then 0x62 else 16 * t.

Lemma encode_ack t n :
  is_ack t -> 0 <= n < 65536 ->
  encode (new_ack t (Some (Num n))) = Ret (packet (ack_first t) (uint16_bytes n)).
Proof.
  intros Ht Hn. unfold encode.
  assert (encode_sizes (new_ack t (Some (Num n))) = Ret (mkSizes (ack_first t) 2 [] 0 [] [])) as ->
    by (destruct Ht as [->|[->|[->| ->]]]; reflexivity).
  cbn [rbind].
  rewrite (encode_body_packet _ _ [] []);
    [done|destruct Ht as [->|[->|[->| ->]]]; vm_compute; split; congruence|done|done| |done|];
    destruct Ht as [->|[->|[->| ->]]]; apply writes_nil.
Qed.

(** ** Decoding

    [frame p w]: the bytes [p] are one packet, which the decoder reads as [w]
    wherever it finds it, and no strict prefix of [p] is taken for a packet. *)
Record frame (p : list Z) (w : WireMessage) : Prop := {
  frame_whole : forall pre post,
    decodeMessage (pre ++ p ++ post) (length pre)
    = Ret (Some w, (length pre + length p)%nat);
  frame_prefix : forall pre k, (k < length p)%nat ->
    decodeMessage (pre ++ take k p) (length pre) = Ret (None, length pre);
}.

Lemma drop_app_S {A} (pre : list A) x l : drop (length pre + 1) (pre ++ x :: l) = l.
Proof. rewrite drop_app_add. by destruct l. Qed.

Lemma lookup_app_here {A} (pre : list A) x l : (pre ++ x :: l) !! length pre = Some x.
Proof. by apply list_lookup_middle. Qed.

Lemma frame_packet first body w :
  Z.of_nat (length body) < max_length ->
  (forall pre post, decode_fields (pre ++ body ++ post) (Z.shiftr first 4) (Z.land first 0x0f)
     (length pre) (length pre + length body) = Ret w) ->
  frame (packet first body) w.
Proof.
  intros Hmax Hdec. unfold packet. set (n := Z.of_nat (length body)).
  set (mbi := encodeMBI n). split.
  - intros pre post. unfold decodeMessage.
    cbn [app]. rewrite lookup_app_here, drop_app_S. cbn [default].
    rewrite <- app_assoc. unfold mbi. rewrite decode_length_encodeMBI by lia. fold mbi.
    cbv zeta. match goal with |- context [if ?b then _ else _] => replace b with false end.
    2: { rewrite !length_app. cbn [length]. rewrite !length_app. unfold n. zlia. }
    specialize (Hdec (pre ++ first :: mbi) post).
    rewrite <- app_assoc in Hdec. cbn [app] in Hdec. unfold id in *.
    replace (length pre + 1 + length mbi)%nat with (length (pre ++ first :: mbi))
      by (rewrite length_app; cbn; lia).
    replace (Z.to_nat n) with (length body) by (unfold n; lia).
    rewrite Hdec. cbn [rbind]. f_equal. f_equal.
    rewrite !length_app. cbn [length]. rewrite length_app. lia.
  - intros pre k Hk. unfold decodeMessage. destruct k as [|k].
    { cbn [take]. rewrite app_nil_r, drop_ge by lia. done. }
    cbn [take]. rewrite lookup_app_here, drop_app_S. cbn [default].
    cbn [length] in Hk. rewrite length_app in Hk.
    destruct (decide (k < length mbi)%nat) as [Hlt|Hge].
    + rewrite take_app_le by lia. unfold mbi.
      rewrite decode_length_prefix; [done|lia|done].
    + rewrite take_app_ge by lia. unfold mbi. rewrite decode_length_encodeMBI by lia. fold mbi.
      cbv zeta. match goal with |- context [if ?b then _ else _] => replace b with true end; [done|].
      rewrite length_app. cbn [length]. rewrite length_app, length_take. unfold n. zlia.
Qed.

(** What a published message looks like once decoded. *)
Definition received (p : Message) (d : jsstr) : Message :=
  mkMessage (PUint8Array (payload_bytes (msg_payload p))) (Some d) (qos p) (retained p)
    (duplicate p).

Definition received_publish (id : option jsnum) (p : Message) (d : jsstr) : WireMessage :=
  set_payloadMessage (received p d) (new_ack MESSAGE_TYPE.PUBLISH id).

(** An identifier is present exactly when the qos asks for one. *)
Definition id_for_qos (id : option jsnum) (q : Z) : Prop :=
  if q >? 0 then exists n, id = Some (Num n) /\ 0 <= n < 65536 else id = None.

Lemma publish_first_fields p :
  0 <= qos p <= 2 ->
  Z.shiftr (publish_first p) 4 = 3 /\
  Z.land (Z.shiftr (Z.land (publish_first p) 0x0f) 1) 0x03 = qos p /\
  (Z.land (Z.land (publish_first p) 0x0f) 0x01 =? 0x01) = retained p /\
  (Z.land (Z.land (publish_first p) 0x0f) 0x08 =? 0x08) = duplicate p.
Proof.
  intros Hq. assert (qos p = 0 \/ qos p = 1 \/ qos p = 2) as Hc by lia. unfold publish_first.
  destruct Hc as [->|[->| ->]], (duplicate p), (retained p); vm_compute; done.
Qed.

Lemma subarray_app pre mid post :
  subarray (pre ++ mid ++ post) (length pre) (length pre + length mid) = mid.
Proof.
  unfold subarray. rewrite drop_app_length.
  replace (length pre + length mid - length pre)%nat with (length mid) by lia.
  apply take_app_length.
Qed.

Lemma subarray_split input pre mid post :
  input = pre ++ mid ++ post ->
  subarray input (length pre) (length pre + length mid) = mid.
Proof. intros ->. apply subarray_app. Qed.

(** The message the decoder assembles from the flags and the fields. *)
Lemma setQos_flags bytes q r d :
  0 <= q <= 2 ->
  setQos q (let m := new_Message (PUint8Array bytes) in
            let m := if r : bool then setRetained true m else m in
            if d : bool then setDuplicate true m else m)
  = Ret (mkMessage (PUint8Array bytes) None q r d).
Proof.
  intros Hq. unfold setQos. replace ((q =? 0) || (q =? 1) || (q =? 2)) with true by lia.
  by destruct r, d.
Qed.

Section DecodePublish.
Context (pre post : list Z) (id : option jsnum) (p : Message) (d : jsstr).
Context (Hd : encodable d) (Hq : 0 <= qos p <= 2) (Hid : id_for_qos id (qos p)).

Let len := length (utf8 d).
Let bytes := payload_bytes (msg_payload p).
Let body := publish_body id d p.
Let input := pre ++ body ++ post.

Lemma publish_input : input =
  pre ++ uint16_bytes (Z.of_nat len) ++ utf8 d ++ id_field id ++ bytes ++ post.
Proof. unfold input, body, publish_body, string_field. by rewrite <- !app_assoc. Qed.

Lemma publish_length : length input = (length pre + length body + length post)%nat.
Proof. unfold input. rewrite !length_app. lia. Qed.

Lemma publish_read_len : readUint16 input (length pre) = Num (Z.of_nat len).
Proof. rewrite publish_input. apply readUint16_bytes. destruct Hd. unfold len. lia. Qed.

Lemma publish_read_topic : parseUTF8 input (length pre + 2) len = Ret d.
Proof.
  rewrite publish_input.
  replace (length pre + 2)%nat with (length (pre ++ uint16_bytes (Z.of_nat len)))
    by (by rewrite length_app).
  rewrite app_assoc. apply parseUTF8_utf8, Hd.
Qed.

Lemma publish_read_id n :
  id = Some (Num n) -> 0 <= n < 65536 ->
  readUint16 input (length pre + 2 + len) = Num n.
Proof.
  intros Hi Hn. rewrite publish_input, Hi. cbn [id_field num_bits].
  replace (length pre + 2 + len)%nat
    with (length (pre ++ uint16_bytes (Z.of_nat len) ++ utf8 d))
    by (rewrite !length_app; cbn; unfold len; lia).
  rewrite (app_assoc _ (utf8 d)), (app_assoc pre). by apply readUint16_bytes.
Qed.

Lemma publish_read_payload :
  subarray input (length pre + 2 + len + length (id_field id)) (length pre + length body) = bytes.
Proof.
  set (before := pre ++ uint16_bytes (Z.of_nat len) ++ utf8 d ++ id_field id).
  replace (length pre + 2 + len + length (id_field id))%nat with (length before)
    by (unfold before; rewrite !length_app; cbn; unfold len; lia).
  replace (length pre + length body)%nat with (length before + length bytes)%nat.
  2: { unfold before, body, publish_body, string_field, bytes, len.
       rewrite !length_app. cbn. lia. }
  apply subarray_split with (post := post). rewrite publish_input. unfold before.
  by rewrite <- !app_assoc.
Qed.

Lemma decode_publish_spec :
  decode_publish input (length pre) (length pre + length body)
    (Z.land (publish_first p) 0x0f) = Ret (received_publish id p d).
Proof.
  destruct (publish_first_fields p Hq) as (_ & Eq & Er & Ed).
  unfold decode_publish. cbv zeta. rewrite Eq, Er, Ed, publish_read_len, Nat2Z.id, publish_read_topic.
  pose proof publish_read_payload as Hp. pose proof Hid as Hid'. unfold id_for_qos in Hid'.
  destruct (qos p >? 0) eqn:E.
  - destruct Hid' as (n & Hi & Hn). rewrite (publish_read_id n Hi Hn). rewrite Hi in Hp.
    cbn [id_field length uint16_bytes] in Hp. rewrite Hp.
    pose proof (setQos_flags bytes (qos p) (retained p) (duplicate p) Hq) as Hs.
    cbv zeta in Hs. cbn [rbind]. rewrite Hs, Hi. done.
  - rewrite Hid' in Hp. cbn [id_field length] in Hp. rewrite Nat.add_0_r in Hp. rewrite Hp.
    pose proof (setQos_flags bytes (qos p) (retained p) (duplicate p) Hq) as Hs.
    cbv zeta in Hs. cbn [rbind]. rewrite Hs, Hid'. done.
Qed.
End DecodePublish.

Lemma frame_publish id p d :
  publishable p d -> id_for_qos id (qos p) ->
  Z.of_nat (length (publish_body id d p)) < max_length ->
  frame (packet (publish_first p) (publish_body id d p)) (received_publish id p d).
Proof.
  intros [Hd Htop Hpl Hq] Hid Hmax. apply frame_packet; [done|]. intros pre post.
  destruct (publish_first_fields p Hq) as (-> & _).
  unfold decode_fields. cbn -[decode_publish]. by apply decode_publish_spec.
Qed.

Lemma frame_ack t n :
  is_ack t -> 0 <= n < 65536 ->
  frame (packet (ack_first t) (uint16_bytes n)) (new_ack t (Some (Num n))).
Proof.
  intros Ht Hn. apply frame_packet; [done|]. intros pre post.
  unfold decode_fields.
  destruct Ht as [->|[->|[->| ->]]]; cbn -[readUint16 new_ack uint16_bytes]; by rewrite readUint16_bytes.
Qed.
