(* ===== verification/WireTheorems.v ===== *)
(** * What goes over the wire

    The text of the packets the client sends, byte by byte, and the round trips
    with the decoder. *)

From stdpp Require Import base tactics list strings numbers.
From Stdlib Require Import ZArith Lia.
From S2P Require Import Prelude PahoBase Utf8 Wire WireFacts.
Local Open Scope Z_scope.
Local Open Scope st_scope.

(** ** CONNECT *)

(** The name and the level of the protocol, by its version. *)
Definition protocol_bytes (v : Z) : list Z :=
  if v =? 3 then string_field (js "MQIsdp") ++ [3] else string_field (js "MQTT") ++ [4].

(** The byte of flags as the protocol lays it out, bit by bit. *)
Definition bit (n : Z) (b : bool) : Z := if b then 2 ^ n else 0.

Definition present {A} (x : option A) : bool := match x with Some _ => true | None => false end.

Definition flags_byte (o : ConnectOptions) : Z :=
  let will := co_willMessage o in
  bit 7 (present (co_userName o)) + bit 6 (present (co_password o))
  + bit 5 (match will with Some w => retained w | None => false end)
  + 2 ^ 3 * match will with Some w => qos w | None => 0 end
  + bit 2 (present will) + bit 1 (co_cleanSession o).

(** A will: its topic and its payload, both with their length. *)
Definition will_bytes (o : ConnectOptions) : list Z :=
  match co_willMessage o with
  | Some w =>
      string_field (default [] (destinationName w))
      ++ uint16_bytes (Z.of_nat (length (payload_bytes (msg_payload w))))
      ++ payload_bytes (msg_payload w)
  | None => []
  end.

Definition opt_field (s : option jsstr) : list Z :=
  match s with Some s => string_field s | None => [] end.

Definition connect_header (o : ConnectOptions) : list Z :=
  protocol_bytes (co_mqttVersion o) ++ [flags_byte o] ++ uint16_bytes (co_keepAliveInterval o).

Definition connect_payload (clientId : jsstr) (o : ConnectOptions) : list Z :=
  string_field clientId ++ will_bytes o ++ opt_field (co_userName o) ++ opt_field (co_password o).

Definition opt_encodable (s : option jsstr) : Prop :=
  match s with Some s => encodable s | None => True end.

Record connectable (clientId : jsstr) (o : ConnectOptions) : Prop := {
  cb_version : co_mqttVersion o = 3 \/ co_mqttVersion o = 4;
  cb_keepAlive : 0 <= co_keepAliveInterval o < 65536;
  cb_clientId : encodable clientId;
  cb_will : match co_willMessage o with
    | Some w => (exists d, destinationName w = Some d /\ encodable d) /\ 0 <= qos w <= 2 /\
                payload_ok (msg_payload w) /\ ~ (exists bs, msg_payload w = PArrayBuffer bs) /\
                Z.of_nat (length (payload_bytes (msg_payload w))) < 65536
    | None => True
    end;
  cb_userName : opt_encodable (co_userName o);
  cb_password : opt_encodable (co_password o);
}.

Lemma connect_flags_spec clientId o : connectable clientId o ->
  connect_flags o = flags_byte o /\ is_byte (flags_byte o).
Proof.
  intros [_ _ _ Hw _ _]. unfold connect_flags, flags_byte, is_byte.
  destruct (co_willMessage o) as [w|].
  - destruct Hw as (_ & Hq & _). assert (qos w = 0 \/ qos w = 1 \/ qos w = 2) as Hc by lia.
    destruct Hc as [->|[->| ->]], (co_cleanSession o), (retained w), (co_userName o), (co_password o);
      vm_compute; (split; [done|split; congruence]).
  - destruct (co_cleanSession o), (co_userName o), (co_password o);
      vm_compute; (split; [done|split; congruence]).
Qed.

Lemma protocol_bytes_spec v : v = 3 \/ v = 4 ->
  protocol_bytes v = if v =? 3 then MqttProtoIdentifierv3 else MqttProtoIdentifierv4.
Proof. by intros [->| ->]. Qed.

Lemma writes_connect_header m o clientId :
  wm_type m = MESSAGE_TYPE.CONNECT -> wm_options m = Some o -> connectable clientId o ->
  forall sz, writes (write_variable_header m sz) (connect_header o).
Proof.
  intros Ht Ho Hc sz.
  destruct (connect_flags_spec clientId o Hc) as [Hf Hfb].
  pose proof (protocol_bytes_spec _ (cb_version _ _ Hc)) as Hpr.
  assert (Forall is_byte (protocol_bytes (co_mqttVersion o))) as Hp.
  { rewrite Hpr. case_match; repeat constructor; vm_compute; congruence. }
  eapply writes_ext; [|unfold connect_header; apply writes_seq; [apply (writes_bytes _ Hp)|];
    apply writes_seq; [apply (writes_byte _ Hfb)|];
    apply writes_uint16, Hc].
  intros b p. unfold write_variable_header. rewrite Ht, Ho. cbn [Z.eqb fmap option_fmap option_map default].
  change (MESSAGE_TYPE.CONNECT =? MESSAGE_TYPE.PUBLISH) with false.
  change (MESSAGE_TYPE.CONNECT =? MESSAGE_TYPE.CONNECT) with true. cbv iota.
  rewrite Hpr, Hf. destruct (cb_version _ _ Hc) as [->| ->].
  - change (3 =? 3) with true. cbv iota. by destruct (u8setarr b MqttProtoIdentifierv3 p).
  - change (4 =? 3) with false. cbv iota. by destruct (u8setarr b MqttProtoIdentifierv4 p).
Qed.

Lemma writes_opt_string s :
  opt_encodable s -> writes (λ b p, write_opt_string s (b, p)) (opt_field s).
Proof.
  destruct s as [s|]; cbn; intros Hs; [|apply writes_nil].
  eapply writes_ext; [|by apply writes_string]. done.
Qed.

Lemma will_payload w :
  payload_ok (msg_payload w) -> ~ (exists bs, msg_payload w = PArrayBuffer bs) ->
  getPayloadBytes w = Ret (Uint8Array (payload_bytes (msg_payload w))).
Proof.
  intros Hp Hn. rewrite getPayloadBytes_spec by done.
  destruct (msg_payload w) as [s|bs|bs]; [done|done|]. destruct Hn. by exists bs.
Qed.

Definition will_payload_bytes (o : ConnectOptions) : list Z :=
  match co_willMessage o with Some w => payload_bytes (msg_payload w) | None => [] end.

Definition connect_sz (clientId : jsstr) (o : ConnectOptions) : sizes :=
  mkSizes 16 (Z.of_nat (length (connect_header o ++ connect_payload clientId o))) [] 0 []
    (will_payload_bytes o).

Lemma length_string_field s : encodable s ->
  Z.of_nat (length (string_field s)) = UTF8Length s + 2.
Proof.
  intros [Hwf _]. unfold string_field. rewrite length_app, UTF8Length_utf8 by done.
  cbn [length uint16_bytes]. lia.
Qed.

Lemma length_opt_field s : opt_encodable s ->
  Z.of_nat (length (opt_field s)) = match s with Some s => UTF8Length s + 2 | None => 0 end.
Proof. destruct s as [s|]; cbn [opt_field]; [apply length_string_field|done]. Qed.

Lemma connect_sizes_spec m o clientId :
  wm_type m = MESSAGE_TYPE.CONNECT -> wm_options m = Some o -> wm_clientId m = clientId ->
  wm_messageIdentifier m = None -> connectable clientId o ->
  encode_sizes m = Ret (connect_sz clientId o).
Proof.
  intros Ht Ho Hci Hid Hc. unfold encode_sizes. rewrite Ht, Hid.
  change (MESSAGE_TYPE.CONNECT =? MESSAGE_TYPE.CONNECT) with true. cbv iota.
  unfold connect_sizes. rewrite Ho, Hci. cbn [fmap option_fmap option_map mbind option_bind].
  unfold connect_sz, connect_header, connect_payload, will_bytes, will_payload_bytes.
  rewrite !length_app, !Nat2Z.inj_add, length_string_field by apply Hc.
  rewrite !length_opt_field by apply Hc.
  assert (match co_mqttVersion o with
      | 3 => Z.of_nat (length MqttProtoIdentifierv3) + 3
      | 4 => Z.of_nat (length MqttProtoIdentifierv4) + 3
      | _ => 0
      end = Z.of_nat (length (protocol_bytes (co_mqttVersion o))) + 3) as ->
    by (destruct (cb_version _ _ Hc) as [->| ->]; done).
  pose proof (cb_will _ _ Hc) as Hw. destruct (co_willMessage o) as [w|].
  - destruct Hw as ((d & Hd & He) & _ & Hp & Hn & _). rewrite Hd. cbn [undefined_dest default].
    rewrite will_payload by done. cbn [rbind]. unfold id.
    rewrite !length_app, !Nat2Z.inj_add, length_string_field by done.
    change (length (uint16_bytes (Z.of_nat (length (payload_bytes (msg_payload w)))))) with 2%nat.
    f_equal. f_equal. cbn [length uint16_bytes]. lia.
  - cbn [rbind]. f_equal. f_equal. cbn [length uint16_bytes]. lia.
Qed.

Lemma writes_connect_payload m o clientId :
  wm_options m = Some o -> wm_clientId m = clientId -> connectable clientId o ->
  writes (write_connect_payload m (connect_sz clientId o)) (connect_payload clientId o).
Proof.
  intros Ho Hci Hc. unfold connect_payload.
  eapply writes_ext; [|apply writes_seq; [apply writes_string, Hc|];
    apply (writes_seq (λ b p, match co_willMessage o with
      | Some w => undefined_dest (destinationName w) (λ d,
          bp <-? writeString d (UTF8Length d) b p ;;
          bp <-? Ret (writeUint16 (Z.of_nat (length (will_payload_bytes o))) (fst bp) (snd bp)) ;;
          b <-? u8setarr (fst bp) (will_payload_bytes o) (snd bp) ;;
          Ret (b, (snd bp + length (will_payload_bytes o))%nat))
      | None => Ret (b, p) end)); [|apply writes_seq;
      [apply writes_opt_string, (cb_userName _ _ Hc)|apply writes_opt_string, (cb_password _ _ Hc)]]].
  - assert (forall bp : list Z * nat,
      (bp <-? write_opt_string (co_userName o) bp ;; write_opt_string (co_password o) bp)
      = (bp <-? write_opt_string (co_userName o) (fst bp, snd bp) ;;
         write_opt_string (co_password o) (fst bp, snd bp))) as Hopt.
    { intros [b p]. cbn [fst snd]. by destruct (write_opt_string (co_userName o) (b, p)) as [[]|]. }
    intros b p. unfold write_connect_payload. rewrite Ho, Hci. cbn [mbind option_bind].
    unfold connect_sz at 1. cbn [sz_willMessagePayloadBytes].
    destruct (writeString clientId _ b p) as [[b1 p1]|]; [|done]. cbn [rbind fst snd].
    destruct (co_willMessage o) as [w|]; [|by cbn [rbind]; rewrite Hopt].
    destruct (destinationName w) as [d|]; [|done]. cbn [undefined_dest].
    destruct (writeString d _ b1 p1) as [[b2 p2]|]; [|done]. cbn [rbind fst snd].
    destruct (writeUint16 _ b2 p2) as [b3 p3]. cbn [rbind fst snd].
    destruct (u8setarr b3 _ p3) as [b4|]; [|done]. cbn [rbind]. by rewrite Hopt.
  - pose proof (cb_will _ _ Hc) as Hw. unfold will_bytes, will_payload_bytes.
    destruct (co_willMessage o) as [w|]; [|apply writes_nil].
    destruct Hw as ((d & Hd & He) & _ & Hp & Hn & Hl). rewrite Hd. cbn [undefined_dest default]. unfold id.
    set (will := payload_bytes (msg_payload w)).
    apply (writes_seq _ (λ b p, bp <-? Ret (writeUint16 (Z.of_nat (length will)) b p) ;;
      b <-? u8setarr (fst bp) will (snd bp) ;; Ret (b, (snd bp + length will)%nat)));
      [by apply writes_string|].
    apply (writes_seq _ (λ b p, b <-? u8setarr b will p ;; Ret (b, (p + length will)%nat)));
      [apply writes_uint16; exact (conj (Nat2Z.is_nonneg _) Hl)|]. by apply writes_bytes, payload_bytes_ok.
Qed.

Lemma encode_connect m o clientId :
  wm_type m = MESSAGE_TYPE.CONNECT -> wm_options m = Some o -> wm_clientId m = clientId ->
  wm_messageIdentifier m = None -> connectable clientId o ->
  Z.of_nat (length (connect_header o ++ connect_payload clientId o)) < max_length ->
  encode m = Ret (packet 0x10 (connect_header o ++ connect_payload clientId o)).
Proof.
  intros Ht Ho Hci Hid Hc Hl. unfold encode.
  rewrite (connect_sizes_spec m o clientId) by done. cbn [rbind].
  rewrite (encode_body_packet m _ (connect_header o) (connect_payload clientId o)); rewrite ?Hid.
  - done.
  - done.
  - done.
  - done.
  - by apply (writes_connect_header m o clientId).
  - done.
  - unfold write_payload. rewrite Ht. by apply writes_connect_payload.
Qed.

(** ** SUBSCRIBE and UNSUBSCRIBE of one topic filter *)
Definition filter_packet (type : Z) (m : WireMessage) (n : Z) (filter : jsstr) (qos : list Z) : Prop :=
  wm_type m = type /\ wm_messageIdentifier m = Some (Num n) /\ 0 <= n < 65536 /\
  wm_topics m = [filter] /\ encodable filter /\ wm_requestedQos m = qos.

Lemma encode_subscribe m n filter q :
  filter_packet MESSAGE_TYPE.SUBSCRIBE m n filter [q] -> 0 <= q <= 2 ->
  Z.of_nat (length (uint16_bytes n ++ string_field filter ++ [q])) < max_length ->
  encode m = Ret (packet 0x82 (uint16_bytes n ++ string_field filter ++ [q])).
Proof.
  intros (Ht & Hid & Hn & Htop & He & Hq) Hqr Hl.
  set (sz := mkSizes 0x82 (Z.of_nat (length (uint16_bytes n ++ string_field filter ++ [q])))
               [UTF8Length filter] 0 [] []).
  assert (encode_sizes m = Ret sz) as Hsz.
  { unfold encode_sizes. rewrite Ht, Hid, Htop, Hq. cbn -[UTF8Length]. unfold sz.
    rewrite !length_app, !Nat2Z.inj_add, length_string_field by done. cbn [length uint16_bytes].
    f_equal. f_equal. lia. }
  unfold encode. rewrite Hsz. cbn [rbind].
  rewrite (encode_body_packet m sz [] (string_field filter ++ [q])); rewrite ?Hid; [done| |done|done| |done|].
  - vm_compute. split; congruence.
  - eapply writes_ext; [|apply writes_nil]. intros b p. unfold write_variable_header. by rewrite Ht.
  - eapply writes_ext; [|apply (writes_seq (writeString filter (UTF8Length filter)) (λ b p, Ret (u8set b p q, (p + 1)%nat)));
      [by apply writes_string|apply writes_byte; unfold is_byte; lia]].
    intros b p. unfold write_payload. rewrite Ht, Htop, Hq. cbn -[writeString u8set].
    by destruct (writeString filter _ b p) as [[b1 p1]|].
Qed.

Lemma encode_unsubscribe m n filter :
  filter_packet MESSAGE_TYPE.UNSUBSCRIBE m n filter [] ->
  Z.of_nat (length (uint16_bytes n ++ string_field filter)) < max_length ->
  encode m = Ret (packet 0xA2 (uint16_bytes n ++ string_field filter)).
Proof.
  intros (Ht & Hid & Hn & Htop & He & Hq) Hl.
  set (sz := mkSizes 0xA2 (Z.of_nat (length (uint16_bytes n ++ string_field filter)))
               [UTF8Length filter] 0 [] []).
  assert (encode_sizes m = Ret sz) as Hsz.
  { unfold encode_sizes. rewrite Ht, Hid, Htop. cbn -[UTF8Length]. unfold sz.
    rewrite !length_app, !Nat2Z.inj_add, length_string_field by done. cbn [length uint16_bytes].
    f_equal. f_equal. lia. }
  unfold encode. rewrite Hsz. cbn [rbind].
  rewrite (encode_body_packet m sz [] (string_field filter)); rewrite ?Hid; [done| |done|done| |done|].
  - vm_compute. split; congruence.
  - eapply writes_ext; [|apply writes_nil]. intros b p. unfold write_variable_header. by rewrite Ht.
  - eapply writes_ext; [|by apply writes_string].
    intros b p. unfold write_payload. rewrite Ht, Htop. cbn -[writeString u8set].
    by destruct (writeString filter _ b p) as [[b1 p1]|].
Qed.

(** C17: the requests a client opens with.  CONNECT is the fixed header, the
    protocol name and level of the version, the byte of flags with the bit of each
    option where the protocol has it, the keep-alive interval, then the client
    identifier, the will's topic and payload, the user name and the password, each
    present exactly when the option is; SUBSCRIBE and UNSUBSCRIBE of one filter
    are the identifier, the filter and, for the first, the qos.  The remaining
    length is that of the body, so the buffer is filled exactly. *)
Theorem request_layout :
  (forall m o clientId,
    wm_type m = MESSAGE_TYPE.CONNECT -> wm_options m = Some o -> wm_clientId m = clientId ->
    wm_messageIdentifier m = None -> connectable clientId o ->
    Z.of_nat (length (connect_header o ++ connect_payload clientId o)) < max_length ->
    encode m = Ret (packet 0x10 (connect_header o ++ connect_payload clientId o))) /\
  (forall m n filter q,
    filter_packet MESSAGE_TYPE.SUBSCRIBE m n filter [q] -> 0 <= q <= 2 ->
    encode m = Ret (packet 0x82 (uint16_bytes n ++ string_field filter ++ [q]))) /\
  (forall m n filter,
    filter_packet MESSAGE_TYPE.UNSUBSCRIBE m n filter [] ->
    encode m = Ret (packet 0xA2 (uint16_bytes n ++ string_field filter))).
Proof.
  split_and!; [apply encode_connect| |].
  - intros m n filter q H Hq. apply encode_subscribe; [done|done|].
    destruct H as (_ & _ & _ & _ & [_ He] & _). unfold max_length, string_field.
    rewrite !length_app. cbn [length uint16_bytes]. lia.
  - intros m n filter H. apply encode_unsubscribe; [done|].
    destruct H as (_ & _ & _ & _ & [_ He] & _). unfold max_length, string_field.
    rewrite !length_app. cbn [length uint16_bytes]. lia.
Qed.

(** ** Round trips *)

(** C18: text survives the wire.  The encoder fills a buffer of the measured
    length exactly, with bytes, and the decoder, wherever the bytes lie in its
    input, gives the string back, surrogate pairs included. *)
Theorem utf8_roundtrip s pre post :
  wf_utf16 s = true ->
  exists bytes,
    stringToUTF8 s (replicate (Z.to_nat (UTF8Length s)) 0) 0 = Ret bytes /\
    Z.of_nat (length bytes) = UTF8Length s /\ Forall is_byte bytes /\
    parseUTF8 (pre ++ bytes ++ post) (length pre) (length bytes) = Ret s.
Proof.
  intros Hwf. exists (utf8 s). rewrite UTF8Length_utf8, Nat2Z.id by done. split_and!.
  - pose proof (stringToUTF8_spec s [] (replicate (length (utf8 s)) 0) [] Hwf) as H.
    rewrite length_replicate in H. specialize (H eq_refl). cbn [app length] in H.
    by rewrite !app_nil_r in H.
  - done.
  - by apply utf8_range.
  - by apply parseUTF8_utf8.
Qed.

(** C19: the remaining length of a packet takes one to four bytes, and the
    decoder reads from them the length that was written, or nothing at all while
    one of them is missing. *)
Theorem remaining_length_roundtrip n rest pos :
  0 <= n < 268435456 ->
  (length (encodeMBI n) <= 4)%nat /\ Forall is_byte (encodeMBI n) /\
  decode_length (encodeMBI n ++ rest) pos (Num 0) 1 = Some (Num n, (pos + length (encodeMBI n))%nat) /\
  forall k, (k < length (encodeMBI n))%nat -> decode_length (take k (encodeMBI n)) pos (Num 0) 1 = None.
Proof.
  intros Hn. split_and!.
  - apply encodeMBI_loop_length.
  - by apply encodeMBI_bytes.
  - by apply decode_length_encodeMBI.
  - intros k. by apply decode_length_prefix.
Qed.

(** C8: a publication and the four acknowledgements survive the wire.  In
    whatever buffer the encoded packet lies, the decoder reads the message back
    with its topic, payload bytes, qos, flags and identifier and stops at its end;
    from a strict prefix it reads nothing and asks for more. *)
Theorem packet_roundtrip :
  (forall m p d,
    wm_type m = MESSAGE_TYPE.PUBLISH -> wm_payloadMessage m = Some p -> publishable p d ->
    id_for_qos (wm_messageIdentifier m) (qos p) ->
    Z.of_nat (length (publish_body (wm_messageIdentifier m) d p)) < max_length ->
    exists bytes, encode m = Ret bytes /\
      frame bytes (received_publish (wm_messageIdentifier m) p d)) /\
  (forall t n, is_ack t -> 0 <= n < 65536 ->
    exists bytes, encode (new_ack t (Some (Num n))) = Ret bytes /\
      frame bytes (new_ack t (Some (Num n)))).
Proof.
  split.
  - intros m p d Ht Hp Hpub Hid Hl. eexists. split; [|by apply frame_publish].
    apply encode_publish; try done. unfold id_for_qos in Hid.
    destruct (qos p >? 0); [destruct Hid as (n & -> & Hn)|rewrite Hid]; done.
  - intros t n Ht Hn. eexists. split; [by apply encode_ack|by apply frame_ack].
Qed.

Definition sample_options : ConnectOptions :=
  mkConnectOptions None (Some (js "u")) (Some (js "p"))
    (Some (mkMessage (PString (js "bye")) (Some (js "w")) 1 true false))
    60 true false false false None 4 false.

Lemma request_layout_witness :
  encode (mkWireMessage MESSAGE_TYPE.CONNECT None None [] [] (Some sample_options) (js "c")
            false NoReturnCode false None None false false false)
  = Ret [16; 27; 0; 4; 77; 81; 84; 84; 4; 238; 0; 60; 0; 1; 99; 0; 1; 119; 0; 3; 98; 121; 101;
         0; 1; 117; 0; 1; 112].
Proof.
  etransitivity; [apply (proj1 request_layout _ sample_options (js "c")); [reflexivity..| |reflexivity]|reflexivity].
  constructor; cbn -[js]; [by right|lia| | | |]; try (split; [reflexivity|vm_compute; congruence]).
  split_and!; [eexists; split; [done|split; [reflexivity|vm_compute; congruence]]|lia|lia|reflexivity| |reflexivity].
  by intros [? ?].
Defined.

Lemma utf8_roundtrip_witness :
  exists bytes,
    stringToUTF8 (js "aé😀") (replicate (Z.to_nat (UTF8Length (js "aé😀"))) 0) 0 = Ret bytes /\
    Z.of_nat (length bytes) = UTF8Length (js "aé😀") /\ Forall is_byte bytes /\
    parseUTF8 ([0] ++ bytes ++ [1]) (length [0]) (length bytes) = Ret (js "aé😀").
Proof. apply (utf8_roundtrip (js "aé😀") [0] [1]). reflexivity. Defined.

Lemma remaining_length_roundtrip_witness :
  (length (encodeMBI 321) <= 4)%nat /\ Forall is_byte (encodeMBI 321) /\
  decode_length (encodeMBI 321 ++ [7]) 1 (Num 0) 1 = Some (Num 321, (1 + length (encodeMBI 321))%nat) /\
  forall k, (k < length (encodeMBI 321))%nat -> decode_length (take k (encodeMBI 321)) 1 (Num 0) 1 = None.
Proof. apply (remaining_length_roundtrip 321 [7] 1). lia. Defined.

Lemma packet_roundtrip_witness :
  exists bytes, encode (new_ack MESSAGE_TYPE.PUBREL (Some (Num 300))) = Ret bytes /\
    frame bytes (new_ack MESSAGE_TYPE.PUBREL (Some (Num 300))).
Proof. apply (proj2 packet_roundtrip MESSAGE_TYPE.PUBREL 300); [unfold is_ack; tauto|lia]. Defined.
