(* ===== verification/Client.v ===== *)
(** * The MQTT client: state, timers and handlers
    (mqttws31.js: Pinger, Timeout and ClientImpl, lines 673-1466).

    The state of [ClientImpl] is one record, extended with what the browser
    keeps for it: the live timers, the [Pinger] objects, the local storage and,
    in [e_output], everything the client did to the outside in order (sockets
    opened, packets sent, application callbacks run).  Every method is a
    function in the state-and-exception monad.

    Modelled choices: the application's callbacks are recorded and return
    [undefined]; tracing is off, as it is until [startTrace] or a trace function
    is given ([Trace.v] models the trace buffer); the values of [localStorage]
    are kept as the objects [JSON.stringify] is given. *)

From stdpp Require Import base tactics list strings gmap numbers.
From Stdlib Require Import ZArith Lia.
From S2P Require Import Prelude PahoBase Utf8 Wire.
Local Open Scope Z_scope.
Local Open Scope st_scope.

(** ** Data *)

(** A [WebSocket]: [readyState] is 0 connecting, 1 open, 2 closing, 3 closed. *)
Record socket := mkSocket { ws_url : jsstr; ws_protocols : jsstr; ws_readyState : Z }.

(** The text of a reported error.  The text of an internal error contains the
    message and the stack of the exception, which the engine chooses. *)
Inductive errtext := Text (s : jsstr) | InternalText (e : exn).

(** What the client does to the outside. *)
Inductive output :=
  | OpenSocket (url protocols : jsstr)
  | SocketSend (bytes : list Z)
  | SocketClose
  | OnConnectSuccess
  | OnConnectFailure (errorCode : Z) (errorMessage : errtext)
  | OnConnectionLost (errorCode : Z) (errorMessage : errtext)
  | OnMessageArrived (m : option Message)
  | OnMessageDelivered (m : option Message)
  (* the qos asked for tells the callback of one subscription from another's *)
  | OnSubscribeSuccess (topics : list jsstr) (requestedQos : list Z) (grantedQos : return_code)
  | OnSubscribeFailure (topics : list jsstr) (errorCode : return_code)
  | OnSubscribeTimeout (topics : list jsstr) (errorCode : Z) (errorMessage : errtext)
  | OnUnsubscribeSuccess (topics : list jsstr)
  | OnUnsubscribeTimeout (topics : list jsstr) (errorCode : Z) (errorMessage : errtext).

(** The values [_notify_msg_sent] can hold: the disconnect callback, or what
    the application's delivery callback returned, which is not a function. *)
Inductive notification := NotifyDisconnected | NotifyUndefined.

Record Pinger := mkPinger {
  pg_keepAliveInterval : Z;        (* milliseconds *)
  pg_isReset : bool;
  pg_timeout : option nat;
}.

Inductive timer_action :=
  | DoPing (pinger : nat)
  | ConnectTimedOut
  | SubscribeTimedOut (topics : list jsstr)
  | UnsubscribeTimedOut (topics : list jsstr).

Record timer := mkTimer { tm_action : timer_action; tm_delay : Z }.

(** The object written to local storage, before [JSON.stringify]. *)
Record StoredMessage := mkStored {
  st_type : Z;
  st_messageIdentifier : jsnum;
  st_pubRecReceived : bool;
  st_payloadHex : jsstr;
  st_qos : Z;
  st_destinationName : option jsstr;
  st_duplicate : bool;
  st_retained : bool;
  st_sequence : option Z;
}.

(** Set once by the constructor. *)
Record config := mkConfig {
  cf_host : jsstr;
  cf_port : jsnum;
  cf_path : jsstr;
  cf_uri : jsstr;
  cf_clientId : jsstr;
  cf_localKey : jsstr;
  cf_maxMessageIdentifier : Z;
}.

(** Which of the application's callbacks are installed. *)
Record handlers := mkHandlers {
  h_onConnectionLost : bool;
  h_onMessageDelivered : bool;
  h_onMessageArrived : bool;
}.

Record client := mkClient {
  c_cfg : config;
  c_handlers : handlers;
  c_socket : option socket;
  c_connected : bool;
  c_connectOptions : option ConnectOptions;
  c_hostIndex : nat;
  c_msg_queue : list WireMessage;
  c_queue_epoch : nat;
  c_sentMessages : gmap jsnum WireMessage;
  c_receivedMessages : gmap jsnum WireMessage;
  c_notify_msg_sent : option notification;
  c_message_identifier : Z;
  c_sequence : Z;
  c_connectTimeout : option nat;
  c_sendPinger : option nat;
  c_receivePinger : option nat;
  c_receiveBuffer : option (list Z);
  e_pingers : gmap nat Pinger;
  e_timers : gmap nat timer;
  e_next : nat;
  e_localStorage : gmap jsstr StoredMessage;
  e_output : list output;
}.

Definition set_handlers (v : handlers) (c : client) : client :=
  mkClient (c_cfg c) v (c_socket c) (c_connected c) (c_connectOptions c) (c_hostIndex c)
    (c_msg_queue c) (c_queue_epoch c) (c_sentMessages c) (c_receivedMessages c)
    (c_notify_msg_sent c) (c_message_identifier c) (c_sequence c) (c_connectTimeout c)
    (c_sendPinger c) (c_receivePinger c) (c_receiveBuffer c) (e_pingers c) (e_timers c)
    (e_next c) (e_localStorage c) (e_output c).

Definition set_socket (v : option socket) (c : client) : client :=
  mkClient (c_cfg c) (c_handlers c) v (c_connected c) (c_connectOptions c)
    (c_hostIndex c) (c_msg_queue c) (c_queue_epoch c) (c_sentMessages c)
    (c_receivedMessages c) (c_notify_msg_sent c) (c_message_identifier c) (c_sequence c)
    (c_connectTimeout c) (c_sendPinger c) (c_receivePinger c) (c_receiveBuffer c)
    (e_pingers c) (e_timers c) (e_next c) (e_localStorage c) (e_output c).

Definition set_connected (v : bool) (c : client) : client :=
  mkClient (c_cfg c) (c_handlers c) (c_socket c) v (c_connectOptions c) (c_hostIndex c)
    (c_msg_queue c) (c_queue_epoch c) (c_sentMessages c) (c_receivedMessages c)
    (c_notify_msg_sent c) (c_message_identifier c) (c_sequence c) (c_connectTimeout c)
    (c_sendPinger c) (c_receivePinger c) (c_receiveBuffer c) (e_pingers c) (e_timers c)
    (e_next c) (e_localStorage c) (e_output c).

Definition set_connectOptions (v : option ConnectOptions) (c : client) : client :=
  mkClient (c_cfg c) (c_handlers c) (c_socket c) (c_connected c) v (c_hostIndex c)
    (c_msg_queue c) (c_queue_epoch c) (c_sentMessages c) (c_receivedMessages c)
    (c_notify_msg_sent c) (c_message_identifier c) (c_sequence c) (c_connectTimeout c)
    (c_sendPinger c) (c_receivePinger c) (c_receiveBuffer c) (e_pingers c) (e_timers c)
    (e_next c) (e_localStorage c) (e_output c).

Definition set_hostIndex (v : nat) (c : client) : client :=
  mkClient (c_cfg c) (c_handlers c) (c_socket c) (c_connected c) (c_connectOptions c) v
    (c_msg_queue c) (c_queue_epoch c) (c_sentMessages c) (c_receivedMessages c)
    (c_notify_msg_sent c) (c_message_identifier c) (c_sequence c) (c_connectTimeout c)
    (c_sendPinger c) (c_receivePinger c) (c_receiveBuffer c) (e_pingers c) (e_timers c)
    (e_next c) (e_localStorage c) (e_output c).

Definition set_msg_queue (v : list WireMessage) (c : client) : client :=
  mkClient (c_cfg c) (c_handlers c) (c_socket c) (c_connected c) (c_connectOptions c)
    (c_hostIndex c) v (c_queue_epoch c) (c_sentMessages c) (c_receivedMessages c)
    (c_notify_msg_sent c) (c_message_identifier c) (c_sequence c) (c_connectTimeout c)
    (c_sendPinger c) (c_receivePinger c) (c_receiveBuffer c) (e_pingers c) (e_timers c)
    (e_next c) (e_localStorage c) (e_output c).

Definition set_queue_epoch (v : nat) (c : client) : client :=
  mkClient (c_cfg c) (c_handlers c) (c_socket c) (c_connected c) (c_connectOptions c)
    (c_hostIndex c) (c_msg_queue c) v (c_sentMessages c) (c_receivedMessages c)
    (c_notify_msg_sent c) (c_message_identifier c) (c_sequence c) (c_connectTimeout c)
    (c_sendPinger c) (c_receivePinger c) (c_receiveBuffer c) (e_pingers c) (e_timers c)
    (e_next c) (e_localStorage c) (e_output c).

Definition set_sentMessages (v : gmap jsnum WireMessage) (c : client) : client :=
  mkClient (c_cfg c) (c_handlers c) (c_socket c) (c_connected c) (c_connectOptions c)
    (c_hostIndex c) (c_msg_queue c) (c_queue_epoch c) v (c_receivedMessages c)
    (c_notify_msg_sent c) (c_message_identifier c) (c_sequence c) (c_connectTimeout c)
    (c_sendPinger c) (c_receivePinger c) (c_receiveBuffer c) (e_pingers c) (e_timers c)
    (e_next c) (e_localStorage c) (e_output c).

Definition set_receivedMessages (v : gmap jsnum WireMessage) (c : client) : client :=
  mkClient (c_cfg c) (c_handlers c) (c_socket c) (c_connected c) (c_connectOptions c)
    (c_hostIndex c) (c_msg_queue c) (c_queue_epoch c) (c_sentMessages c) v
    (c_notify_msg_sent c) (c_message_identifier c) (c_sequence c) (c_connectTimeout c)
    (c_sendPinger c) (c_receivePinger c) (c_receiveBuffer c) (e_pingers c) (e_timers c)
    (e_next c) (e_localStorage c) (e_output c).

Definition set_notify_msg_sent (v : option notification) (c : client) : client :=
  mkClient (c_cfg c) (c_handlers c) (c_socket c) (c_connected c) (c_connectOptions c)
    (c_hostIndex c) (c_msg_queue c) (c_queue_epoch c) (c_sentMessages c)
    (c_receivedMessages c) v (c_message_identifier c) (c_sequence c)
    (c_connectTimeout c) (c_sendPinger c) (c_receivePinger c) (c_receiveBuffer c)
    (e_pingers c) (e_timers c) (e_next c) (e_localStorage c) (e_output c).

Definition set_message_identifier (v : Z) (c : client) : client :=
  mkClient (c_cfg c) (c_handlers c) (c_socket c) (c_connected c) (c_connectOptions c)
    (c_hostIndex c) (c_msg_queue c) (c_queue_epoch c) (c_sentMessages c)
    (c_receivedMessages c) (c_notify_msg_sent c) v (c_sequence c) (c_connectTimeout c)
    (c_sendPinger c) (c_receivePinger c) (c_receiveBuffer c) (e_pingers c) (e_timers c)
    (e_next c) (e_localStorage c) (e_output c).

Definition set_sequence (v : Z) (c : client) : client :=
  mkClient (c_cfg c) (c_handlers c) (c_socket c) (c_connected c) (c_connectOptions c)
    (c_hostIndex c) (c_msg_queue c) (c_queue_epoch c) (c_sentMessages c)
    (c_receivedMessages c) (c_notify_msg_sent c) (c_message_identifier c) v
    (c_connectTimeout c) (c_sendPinger c) (c_receivePinger c) (c_receiveBuffer c)
    (e_pingers c) (e_timers c) (e_next c) (e_localStorage c) (e_output c).

Definition set_connectTimeout (v : option nat) (c : client) : client :=
  mkClient (c_cfg c) (c_handlers c) (c_socket c) (c_connected c) (c_connectOptions c)
    (c_hostIndex c) (c_msg_queue c) (c_queue_epoch c) (c_sentMessages c)
    (c_receivedMessages c) (c_notify_msg_sent c) (c_message_identifier c) (c_sequence c)
    v (c_sendPinger c) (c_receivePinger c) (c_receiveBuffer c) (e_pingers c)
    (e_timers c) (e_next c) (e_localStorage c) (e_output c).

Definition set_sendPinger (v : option nat) (c : client) : client :=
  mkClient (c_cfg c) (c_handlers c) (c_socket c) (c_connected c) (c_connectOptions c)
    (c_hostIndex c) (c_msg_queue c) (c_queue_epoch c) (c_sentMessages c)
    (c_receivedMessages c) (c_notify_msg_sent c) (c_message_identifier c) (c_sequence c)
    (c_connectTimeout c) v (c_receivePinger c) (c_receiveBuffer c) (e_pingers c)
    (e_timers c) (e_next c) (e_localStorage c) (e_output c).

Definition set_receivePinger (v : option nat) (c : client) : client :=
  mkClient (c_cfg c) (c_handlers c) (c_socket c) (c_connected c) (c_connectOptions c)
    (c_hostIndex c) (c_msg_queue c) (c_queue_epoch c) (c_sentMessages c)
    (c_receivedMessages c) (c_notify_msg_sent c) (c_message_identifier c) (c_sequence c)
    (c_connectTimeout c) (c_sendPinger c) v (c_receiveBuffer c) (e_pingers c)
    (e_timers c) (e_next c) (e_localStorage c) (e_output c).

Definition set_receiveBuffer (v : option (list Z)) (c : client) : client :=
  mkClient (c_cfg c) (c_handlers c) (c_socket c) (c_connected c) (c_connectOptions c)
    (c_hostIndex c) (c_msg_queue c) (c_queue_epoch c) (c_sentMessages c)
    (c_receivedMessages c) (c_notify_msg_sent c) (c_message_identifier c) (c_sequence c)
    (c_connectTimeout c) (c_sendPinger c) (c_receivePinger c) v (e_pingers c)
    (e_timers c) (e_next c) (e_localStorage c) (e_output c).

Definition set_pingers (v : gmap nat Pinger) (c : client) : client :=
  mkClient (c_cfg c) (c_handlers c) (c_socket c) (c_connected c) (c_connectOptions c)
    (c_hostIndex c) (c_msg_queue c) (c_queue_epoch c) (c_sentMessages c)
    (c_receivedMessages c) (c_notify_msg_sent c) (c_message_identifier c) (c_sequence c)
    (c_connectTimeout c) (c_sendPinger c) (c_receivePinger c) (c_receiveBuffer c) v
    (e_timers c) (e_next c) (e_localStorage c) (e_output c).

Definition set_timers (v : gmap nat timer) (c : client) : client :=
  mkClient (c_cfg c) (c_handlers c) (c_socket c) (c_connected c) (c_connectOptions c)
    (c_hostIndex c) (c_msg_queue c) (c_queue_epoch c) (c_sentMessages c)
    (c_receivedMessages c) (c_notify_msg_sent c) (c_message_identifier c) (c_sequence c)
    (c_connectTimeout c) (c_sendPinger c) (c_receivePinger c) (c_receiveBuffer c)
    (e_pingers c) v (e_next c) (e_localStorage c) (e_output c).

Definition set_next (v : nat) (c : client) : client :=
  mkClient (c_cfg c) (c_handlers c) (c_socket c) (c_connected c) (c_connectOptions c)
    (c_hostIndex c) (c_msg_queue c) (c_queue_epoch c) (c_sentMessages c)
    (c_receivedMessages c) (c_notify_msg_sent c) (c_message_identifier c) (c_sequence c)
    (c_connectTimeout c) (c_sendPinger c) (c_receivePinger c) (c_receiveBuffer c)
    (e_pingers c) (e_timers c) v (e_localStorage c) (e_output c).

Definition set_localStorage (v : gmap jsstr StoredMessage) (c : client) : client :=
  mkClient (c_cfg c) (c_handlers c) (c_socket c) (c_connected c) (c_connectOptions c)
    (c_hostIndex c) (c_msg_queue c) (c_queue_epoch c) (c_sentMessages c)
    (c_receivedMessages c) (c_notify_msg_sent c) (c_message_identifier c) (c_sequence c)
    (c_connectTimeout c) (c_sendPinger c) (c_receivePinger c) (c_receiveBuffer c)
    (e_pingers c) (e_timers c) (e_next c) v (e_output c).

Definition set_output (v : list output) (c : client) : client :=
  mkClient (c_cfg c) (c_handlers c) (c_socket c) (c_connected c) (c_connectOptions c)
    (c_hostIndex c) (c_msg_queue c) (c_queue_epoch c) (c_sentMessages c)
    (c_receivedMessages c) (c_notify_msg_sent c) (c_message_identifier c) (c_sequence c)
    (c_connectTimeout c) (c_sendPinger c) (c_receivePinger c) (c_receiveBuffer c)
    (e_pingers c) (e_timers c) (e_next c) (e_localStorage c) v.
Abbreviation C := (St client exn).

Definition emit (o : output) : C unit := modify (λ c, set_output (e_output c ++ [o]) c).

(** A call or property access on [undefined]. *)
Definition deref {A} (o : option A) : C A :=
  match o with Some a => ret a | None => throw TypeError end.

(** ** Timers (browser) *)
Definition setTimeout (a : timer_action) (ms : Z) : C nat :=
  n <- get e_next ;;
  modify (λ c, set_next (S n) (set_timers (<[n := mkTimer a ms]> (e_timers c)) c)) ;;
  ret n.

Definition clearTimeout (t : option nat) : C unit :=
  match t with
  | Some n => modify (λ c, set_timers (delete n (e_timers c)) c)
  | None => ret tt
  end.

(** [new Timeout(client, window, timeoutSeconds, action, args)]; [cancel]. *)
Definition new_Timeout (timeoutSeconds : option Z) (a : timer_action) : C nat :=
  let s := match timeoutSeconds with Some 0 | None => 30 | Some s => s end in
  setTimeout a (s * 1000).

Definition Timeout_cancel (t : nat) : C unit := clearTimeout (Some t).

(** ** Pinger *)
Definition new_Pinger (keepAliveInterval : Z) : C nat :=
  n <- get e_next ;;
  modify (λ c, set_next (S n)
    (set_pingers (<[n := mkPinger (keepAliveInterval * 1000) false None]> (e_pingers c)) c)) ;;
  ret n.

Definition get_pinger (p : nat) : C Pinger := o <- get (λ c, e_pingers c !! p) ;; deref o.
Definition set_pinger (p : nat) (v : Pinger) : C unit :=
  modify (λ c, set_pingers (<[p := v]> (e_pingers c)) c).

Definition Pinger_reset (p : nat) : C unit :=
  pg <- get_pinger p ;;
  clearTimeout (pg_timeout pg) ;;
  if pg_keepAliveInterval pg >? 0 then
    t <- setTimeout (DoPing p) (pg_keepAliveInterval pg) ;;
    set_pinger p (mkPinger (pg_keepAliveInterval pg) true (Some t))
  else set_pinger p (mkPinger (pg_keepAliveInterval pg) true (pg_timeout pg)).

Definition Pinger_cancel (p : nat) : C unit :=
  pg <- get_pinger p ;; clearTimeout (pg_timeout pg).

(** [this.sendPinger.reset()] and the like. *)
Definition on_pinger (f : client -> option nat) (act : nat -> C unit) : C unit :=
  o <- get f ;; p <- deref o ;; act p.

(** ** WebSocket *)

(** [socket.send] throws while connecting and drops data once closing. *)
Definition ws_send (s : socket) (bytes : list Z) : C unit :=
  if ws_readyState s =? 0 then throw InvalidStateError
  else if ws_readyState s =? 1 then emit (SocketSend bytes)
  else ret tt.

(** ** _doConnect (968-992) *)
Definition to_wss (wsurl : jsstr) : jsstr :=
  let uriParts := split_on (λ c, c =? chr ":") wsurl in
  join (js ":") (js "wss" :: tail uriParts).

Definition _doConnect (wsurl : jsstr) : C unit :=
  oo <- get c_connectOptions ;; o <- deref oo ;;
  let wsurl := if co_useSSL o then to_wss wsurl else wsurl in
  modify (set_connected false) ;;
  let protocols := if co_mqttVersion o <? 4 then js "mqttv3.1" else js "mqtt" in
  emit (OpenSocket wsurl protocols) ;;
  modify (set_socket (Some (mkSocket wsurl protocols 0))) ;;
  sp <- new_Pinger (co_keepAliveInterval o) ;; modify (set_sendPinger (Some sp)) ;;
  rp <- new_Pinger (co_keepAliveInterval o) ;; modify (set_receivePinger (Some rp)) ;;
  t <- new_Timeout (co_timeout o) ConnectTimedOut ;;
  modify (set_connectTimeout (Some t)).

(** ** _disconnected (1410-1466) *)
Definition connect_first (o : ConnectOptions) : C unit :=
  match co_uris o with
  | Some uris => modify (set_hostIndex 0) ;; u <- deref (head uris) ;; _doConnect u
  | None => u <- get (λ c, cf_uri (c_cfg c)) ;; _doConnect u
  end.

Definition set_mqttVersion (v : Z) (o : ConnectOptions) : ConnectOptions :=
  mkConnectOptions (co_timeout o) (co_userName o) (co_password o) (co_willMessage o)
    (co_keepAliveInterval o) (co_cleanSession o) (co_useSSL o) (co_onSuccess o)
    (co_onFailure o) (co_uris o) v (co_mqttVersionExplicit o).

Definition drop_socket : C unit :=
  so <- get c_socket ;;
  match so with
  | Some s =>
      when (ws_readyState s =? 1) (emit SocketClose) ;;
      modify (set_socket None)
  | None => ret tt
  end.

Definition _disconnected (err : option (Z * errtext)) : C unit :=
  on_pinger c_sendPinger Pinger_cancel ;;
  on_pinger c_receivePinger Pinger_cancel ;;
  ct <- get c_connectTimeout ;;
  match ct with Some t => Timeout_cancel t | None => ret tt end ;;
  modify (λ c, set_msg_queue [] (set_queue_epoch (S (c_queue_epoch c)) c)) ;;
  modify (set_notify_msg_sent None) ;;
  drop_socket ;;
  oo <- get c_connectOptions ;; o <- deref oo ;;
  hostIndex <- get c_hostIndex ;;
  match co_uris o with
  | Some uris =>
      if (S hostIndex <? length uris)%nat then
        modify (set_hostIndex (S hostIndex)) ;;
        u <- deref (uris !! S hostIndex) ;;
        _doConnect u
      else ret tt
  | None => ret tt
  end ;;
  let more := match co_uris o with
              | Some uris => (S hostIndex <? length uris)%nat
              | None => false
              end in
  if more then ret tt
  else
    let '(errorCode, errorText) :=
      match err with Some e => e | None => (code OK, Text (format OK [])) end in
    connected <- get c_connected ;;
    if connected : bool then
      modify (set_connected false) ;;
      h <- get c_handlers ;;
      when (h_onConnectionLost h) (emit (OnConnectionLost errorCode errorText))
    else if (co_mqttVersion o =? 4) && negb (co_mqttVersionExplicit o) then
      modify (set_connectOptions (Some (set_mqttVersion 3 o))) ;;
      connect_first (set_mqttVersion 3 o)
    else when (co_onFailure o) (emit (OnConnectFailure errorCode errorText)).

(** [doPing], run by a timer of a pinger (692-702). *)
Definition pingReq : list Z := [0xC0; 0x00].

Definition doPing (p : nat) : C unit :=
  pg <- get_pinger p ;;
  if negb (pg_isReset pg) then
    _disconnected (Some (code PING_TIMEOUT, Text (format PING_TIMEOUT [])))
  else
    set_pinger p (mkPinger (pg_keepAliveInterval pg) false (pg_timeout pg)) ;;
    so <- get c_socket ;; s <- deref so ;;
    ws_send s pingReq ;;
    t <- setTimeout (DoPing p) (pg_keepAliveInterval pg) ;;
    set_pinger p (mkPinger (pg_keepAliveInterval pg) false (Some t)).

(** ** Sending *)
Definition _socket_send (m : WireMessage) : C unit :=
  so <- get c_socket ;; s <- deref so ;;
  bytes <- lift (encode m) ;;
  ws_send s bytes ;;
  on_pinger c_sendPinger Pinger_reset.

(** The array [fifo] is [_msg_queue], reversed in place and popped from its
    end, until the callback installs another array in [_msg_queue]. *)
Definition sync_queue (epoch : nat) (rest : list WireMessage) : C unit :=
  modify (λ c, if (c_queue_epoch c =? epoch)%nat then set_msg_queue (rev rest) c else c).

Definition run_notification : C unit :=
  n <- get c_notify_msg_sent ;;
  match n with
  | Some NotifyDisconnected => _disconnected None ;; modify (set_notify_msg_sent None)
  | _ => ret tt
  end.

Fixpoint process_fifo (epoch : nat) (fifo : list WireMessage) : C unit :=
  match fifo with
  | [] => ret tt
  | message :: rest =>
      sync_queue epoch rest ;;
      _socket_send message ;;
      run_notification ;;
      process_fifo epoch rest
  end.

Definition _process_queue : C unit :=
  queue <- get c_msg_queue ;;
  epoch <- get c_queue_epoch ;;
  process_fifo epoch queue.

Definition _schedule_message (m : WireMessage) : C unit :=
  modify (λ c, set_msg_queue (c_msg_queue c ++ [m]) c) ;;
  connected <- get c_connected ;;
  when connected _process_queue.

(** ** Local storage (1008-1089) *)
Inductive box := Sent | Received.

#[export] Instance box_eq_dec : EqDecision box.
Proof. solve_decision. Defined.

Definition box_prefix (b : box) : jsstr :=
  match b with Sent => js "Sent:" | Received => js "Received:" end.

Definition id_str (id : option jsnum) : jsstr :=
  match id with Some n => num_str n | None => js "undefined" end.

Definition storage_key (b : box) (localKey : jsstr) (id : option jsnum) : jsstr :=
  box_prefix b ++ localKey ++ id_str id.

Fixpoint to_hex (bytes : list Z) : jsstr :=
  match bytes with
  | [] => []
  | b :: bytes' =>
      (if b <=? 0xF then js "0" ++ to_base 16 b else to_base 16 b) ++ to_hex bytes'
  end.

(** [parseInt(hex.substring(0, 2), 16)] stored into a [Uint8Array], two
    characters at a time. *)
Fixpoint of_hex (hex : jsstr) : list Z :=
  match hex with
  | a :: b :: hex' => num_bits (parseInt 16 [a; b]) mod 256 :: of_hex hex'
  | _ => []
  end.

(** [messageBytes.length] is [undefined] for an [ArrayBuffer]. *)
Definition stored_bytes (v : byte_view) : list Z :=
  match v with Uint8Array bs => bs | ArrayBuffer _ => [] end.

Definition stored_message (m : WireMessage) (p : Message) (bytes : list Z)
    (sequence : option Z) : StoredMessage :=
  mkStored (wm_type m) (default NaN (wm_messageIdentifier m)) (wm_pubRecReceived m)
    (to_hex bytes) (qos p) (destinationName p) (duplicate p) (retained p) sequence.

(** The wire message is returned with the sequence number [store] gave it. *)
Definition store (b : box) (m : WireMessage) : C WireMessage :=
  if wm_type m =? MESSAGE_TYPE.PUBLISH then
    p <- deref (wm_payloadMessage m) ;;
    v <- lift (getPayloadBytes p) ;;
    m <- match b with
         | Sent =>
             match wm_sequence m with
             | None =>
                 n <- get c_sequence ;;
                 modify (set_sequence (n + 1)) ;;
                 ret (Wire.set_sequence (n + 1) m)
             | Some _ => ret m
             end
         | Received => ret m
         end ;;
    let seq := match b with Sent => wm_sequence m | Received => None end in
    key <- get (λ c, storage_key b (cf_localKey (c_cfg c)) (wm_messageIdentifier m)) ;;
    modify (λ c, set_localStorage
      (<[key := stored_message m p (stored_bytes v) seq]> (e_localStorage c)) c) ;;
    ret m
  else throw ReferenceError.   (* the error text reads an undeclared [key] *)

Definition removeItem (b : box) (id : option jsnum) : C unit :=
  key <- get (λ c, storage_key b (cf_localKey (c_cfg c)) id) ;;
  modify (λ c, set_localStorage (delete key (e_localStorage c)) c).

(** The wire message rebuilt from a stored object. *)
Definition restored (s : StoredMessage) : result exn WireMessage :=
  if st_type s =? MESSAGE_TYPE.PUBLISH then
    p <-? setQos (st_qos s) (new_Message (PUint8Array (of_hex (st_payloadHex s)))) ;;
    match st_destinationName s with
    | None => Throw (Error (format INVALID_ARGUMENT [js "undefined"; js "newDestinationName"]))
    | Some d =>
        let p := setDestinationName d p in
        let p := if st_duplicate s then setDuplicate true p else p in
        let p := if st_retained s then setRetained true p else p in
        let m := set_messageIdentifier (st_messageIdentifier s)
                   (new_WireMessage MESSAGE_TYPE.PUBLISH) in
        let m := if st_pubRecReceived s then set_pubRecReceived m else m in
        let m := match st_sequence s with Some n => Wire.set_sequence n m | None => m end in
        Ret (set_payloadMessage p m)
    end
  else Throw (Error (format INVALID_STORED_DATA [])).

Definition duplicated (m : WireMessage) : WireMessage :=
  match wm_payloadMessage m with
  | Some p => set_payloadMessage (setDuplicate true p) m
  | None => m
  end.

Definition restore (key : jsstr) : C unit :=
  value <- get (λ c, e_localStorage c !! key) ;;
  stored <- deref value ;;
  m <- lift (restored stored) ;;
  localKey <- get (λ c, cf_localKey (c_cfg c)) ;;
  let id := st_messageIdentifier stored in
  if indexOf key (js "Sent:" ++ localKey) =? 0 then
    modify (λ c, set_sentMessages (<[id := duplicated m]> (c_sentMessages c)) c)
  else if indexOf key (js "Received:" ++ localKey) =? 0 then
    modify (λ c, set_receivedMessages (<[id := m]> (c_receivedMessages c)) c)
  else ret tt.

(** ** Construction (745-799) *)
Definition localKey_of (host : jsstr) (port : jsnum) (path clientId : jsstr) : jsstr :=
  host ++ js ":" ++ num_str port
  ++ (if jseqb path (js "/mqtt") then [] else js ":" ++ path)
  ++ js ":" ++ clientId ++ js ":".

Definition initial_client (uri host : jsstr) (port : jsnum) (path clientId : jsstr)
    (localStorage : gmap jsstr StoredMessage) : client :=
  mkClient (mkConfig host port path uri clientId (localKey_of host port path clientId) 65536)
    (mkHandlers false false false) None false None 0 [] 0 ∅ ∅ None 1 0 None None None None
    ∅ ∅ 0 localStorage [].

Definition restore_all (localKey : jsstr) (keys : list jsstr) : C unit :=
  iter_ (λ key,
    when ((indexOf key (js "Sent:" ++ localKey) =? 0)
          || (indexOf key (js "Received:" ++ localKey) =? 0)) (restore key)) keys.

(** The window's [WebSocket], [localStorage] and [ArrayBuffer], present or not. *)
Definition new_ClientImpl (webSocket storage arrayBuffer : bool)
    (uri host : jsstr) (port : jsnum) (path clientId : jsstr)
    (localStorage : gmap jsstr StoredMessage) : result exn client :=
  if negb webSocket then Throw (Error (format UNSUPPORTED [js "WebSocket"]))
  else if negb storage then Throw (Error (format UNSUPPORTED [js "localStorage"]))
  else if negb arrayBuffer then Throw (Error (format UNSUPPORTED [js "ArrayBuffer"]))
  else
    let c := initial_client uri host port path clientId localStorage in
    let keys := (map_to_list localStorage).*1 in
    match restore_all (cf_localKey (c_cfg c)) keys c with
    | (Ret _, c) => Ret c
    | (Throw e, _) => Throw e
    end.

(** ** Requests (834-942) *)
Definition connect (o : ConnectOptions) : C unit :=
  connected <- get c_connected ;;
  when connected (throw (Error (format INVALID_STATE [js "already connected"]))) ;;
  so <- get c_socket ;;
  when (match so with Some _ => true | None => false end)
    (throw (Error (format INVALID_STATE [js "already connected"]))) ;;
  modify (set_connectOptions (Some o)) ;;
  connect_first o.

(** [_requires_ack] (1112-1128): the first identifier not in use from the
    current one up; [sentMessages] is finite, so its size bounds the search. *)
Fixpoint next_identifier (fuel : nat) (sent : gmap jsnum WireMessage) (id : Z) : Z :=
  match fuel with
  | O => id
  | S n => match sent !! Num id with
           | Some _ => next_identifier n sent (id + 1)
           | None => id
           end
  end.

Definition _requires_ack (m : WireMessage) : C WireMessage :=
  messageCount <- get (λ c, Z.of_nat (size (c_sentMessages c))) ;;
  max <- get (λ c, cf_maxMessageIdentifier (c_cfg c)) ;;
  when (messageCount >? max)
    (throw (Error (js "Too many messages:" ++ dec messageCount))) ;;
  modify (λ c, set_message_identifier
    (next_identifier (S (size (c_sentMessages c))) (c_sentMessages c) (c_message_identifier c)) c) ;;
  id <- get c_message_identifier ;;
  let m := set_messageIdentifier (Num id) m in
  modify (λ c, set_sentMessages (<[Num id := m]> (c_sentMessages c)) c) ;;
  m <- (if wm_type m =? MESSAGE_TYPE.PUBLISH then store Sent m else ret m) ;;
  modify (λ c, set_sentMessages (<[Num id := m]> (c_sentMessages c)) c) ;;
  when (id =? max) (modify (set_message_identifier 1)) ;;
  ret m.

Record SubscribeOptions := mkSubscribeOptions {
  so_qos : option Z;
  so_onSuccess : bool;
  so_onFailure : bool;
  so_timeout : option Z;
}.

Definition set_subscription (type : Z) (topics : list jsstr) (requestedQos : list Z)
    (timeOut : option Z) (onSuccess onFailure callback : bool) : WireMessage :=
  mkWireMessage type None None topics requestedQos None [] false NoReturnCode false None
    timeOut onSuccess onFailure callback.

Definition require_connected : C unit :=
  connected <- get c_connected ;;
  when (negb connected) (throw (Error (format INVALID_STATE [js "not connected"]))).

Definition optional_timeout (t : option Z) (a : timer_action) : C (option Z) :=
  match t with
  | Some 0 | None => ret None
  | Some s => n <- new_Timeout (Some s) a ;; ret (Some (Z.of_nat n))
  end.

Definition subscribe (filter : jsstr) (o : SubscribeOptions) : C unit :=
  require_connected ;;
  let requestedQos := [match so_qos o with Some q => q | None => 0 end] in
  t <- optional_timeout (so_timeout o) (SubscribeTimedOut [filter]) ;;
  let m := set_subscription MESSAGE_TYPE.SUBSCRIBE [filter] requestedQos t
             (so_onSuccess o) (so_onFailure o) false in
  m <- _requires_ack m ;;
  _schedule_message m.

Definition unsubscribe (filter : jsstr) (o : SubscribeOptions) : C unit :=
  require_connected ;;
  t <- optional_timeout (so_timeout o) (UnsubscribeTimedOut [filter]) ;;
  let m := set_subscription MESSAGE_TYPE.UNSUBSCRIBE [filter] [] t false false (so_onSuccess o) in
  m <- _requires_ack m ;;
  _schedule_message m.

Definition send (message : Message) : C unit :=
  require_connected ;;
  let m := set_payloadMessage message (new_WireMessage MESSAGE_TYPE.PUBLISH) in
  h <- get c_handlers ;;
  m <- (if qos message >? 0 then _requires_ack m
        else
          when (h_onMessageDelivered h)
            (emit (OnMessageDelivered (Some message)) ;;
             modify (set_notify_msg_sent (Some NotifyUndefined))) ;;
          ret m) ;;
  _schedule_message m.

Definition disconnect : C unit :=
  so <- get c_socket ;;
  when (match so with Some _ => false | None => true end)
    (throw (Error (format INVALID_STATE [js "not connecting or connected"]))) ;;
  modify (set_notify_msg_sent (Some NotifyDisconnected)) ;;
  _schedule_message (new_WireMessage MESSAGE_TYPE.DISCONNECT).

(** ** Packets received (1134-1401) *)
Definition _on_socket_open : C unit :=
  o <- get c_connectOptions ;;
  clientId <- get (λ c, cf_clientId (c_cfg c)) ;;
  _socket_send (mkWireMessage MESSAGE_TYPE.CONNECT None None [] [] o clientId false
                  NoReturnCode false None None false false false).

Fixpoint deframe_loop (fuel : nat) (byteArray : list Z) (offset : nat)
    (messages : list WireMessage) : result exn (list WireMessage * nat) :=
  match fuel with
  | O => Ret (messages, offset)
  | S n =>
      if (offset <? length byteArray)%nat then
        match decodeMessage byteArray offset with
        | Throw e => Throw e
        | Ret (Some m, offset) => deframe_loop n byteArray offset (messages ++ [m])
        | Ret (None, offset) => Ret (messages, offset)
        end
      else Ret (messages, offset)
  end.

(** [None] is the [undefined] returned after a decoding error. *)
Definition _deframeMessages (data : list Z) : C (option (list WireMessage)) :=
  rb <- get c_receiveBuffer ;;
  let byteArray := match rb with Some b => b ++ data | None => data end in
  modify (set_receiveBuffer None) ;;
  match deframe_loop (S (length byteArray)) byteArray 0 [] with
  | Ret (messages, offset) =>
      when (offset <? length byteArray)%nat
        (modify (set_receiveBuffer (Some (drop offset byteArray)))) ;;
      ret (Some messages)
  | Throw e =>
      _disconnected (Some (code INTERNAL_ERROR, InternalText e)) ;;
      ret None
  end.

Definition _receiveMessage (m : WireMessage) : C unit :=
  h <- get c_handlers ;;
  when (h_onMessageArrived h) (emit (OnMessageArrived (wm_payloadMessage m))).

Definition id_key (id : option jsnum) : jsnum := default NaN id.

Definition _receivePublish (m : WireMessage) : C unit :=
  p <- deref (wm_payloadMessage m) ;;
  if qos p =? 0 then _receiveMessage m
  else if qos p =? 1 then
    _schedule_message (new_ack MESSAGE_TYPE.PUBACK (wm_messageIdentifier m)) ;;
    _receiveMessage m
  else if qos p =? 2 then
    modify (λ c, set_receivedMessages
      (<[id_key (wm_messageIdentifier m) := m]> (c_receivedMessages c)) c) ;;
    store Received m ;;
    _schedule_message (new_ack MESSAGE_TYPE.PUBREC (wm_messageIdentifier m))
  else throw ReferenceError.   (* the error text reads [wireMmessage] *)

(** Values of an object in key order (integer keys ascending), and the sort by
    sequence: [a.sequence - b.sequence] is [NaN], read as equal, when one is
    missing. *)
Fixpoint sort_insert {A} (lt : A -> A -> bool) (x : A) (l : list A) : list A :=
  match l with
  | [] => [x]
  | y :: l' => if lt x y then x :: y :: l' else y :: sort_insert lt x l'
  end.

Definition stable_sort {A} (lt : A -> A -> bool) (l : list A) : list A :=
  foldl (λ acc x, sort_insert lt x acc) [] l.

Definition key_lt {A} (a b : jsnum * A) : bool :=
  match a.1, b.1 with
  | Num x, Num y => x <? y
  | Num _, NaN => true
  | NaN, _ => false
  end.

Definition object_values {A} (m : gmap jsnum A) : list A :=
  (stable_sort key_lt (map_to_list m)).*2.

Definition sequence_lt (a b : WireMessage) : bool :=
  match wm_sequence a, wm_sequence b with
  | Some x, Some y => x <? y
  | _, _ => false
  end.

Definition resend_one (sentMessage : WireMessage) : C unit :=
  if (wm_type sentMessage =? MESSAGE_TYPE.PUBLISH) && wm_pubRecReceived sentMessage then
    _schedule_message (new_ack MESSAGE_TYPE.PUBREL (wm_messageIdentifier sentMessage))
  else _schedule_message sentMessage.

Definition clear_local_state : C unit :=
  sent <- get c_sentMessages ;;
  iter_ (λ m, removeItem Sent (wm_messageIdentifier m)) (object_values sent) ;;
  modify (set_sentMessages ∅) ;;
  recv <- get c_receivedMessages ;;
  iter_ (λ m, removeItem Received (wm_messageIdentifier m)) (object_values recv) ;;
  modify (set_receivedMessages ∅).

Definition rc_str (rc : return_code) : jsstr :=
  match rc with ReturnByte (Num z) => dec z | _ => js "undefined" end.
Definition rc_num (rc : return_code) : jsnum :=
  match rc with ReturnByte n => n | _ => NaN end.

Definition handle_connack (m : WireMessage) : C unit :=
  ct <- get c_connectTimeout ;; t <- deref ct ;; Timeout_cancel t ;;
  oo <- get c_connectOptions ;; o <- deref oo ;;
  when (co_cleanSession o) clear_local_state ;;
  if bool_decide (rc_num (wm_returnCode m) = Num 0) then
    modify (set_connected true) ;;
    match co_uris o with
    | Some uris => modify (set_hostIndex (length uris))
    | None => ret tt
    end ;;
    sent <- get c_sentMessages ;;
    iter_ resend_one (stable_sort sequence_lt (object_values sent)) ;;
    oo <- get c_connectOptions ;; o <- deref oo ;;
    when (co_onSuccess o) (emit OnConnectSuccess) ;;
    _process_queue
  else
    _disconnected (Some (code CONNACK_RETURNCODE,
      Text (format CONNACK_RETURNCODE
              [rc_str (wm_returnCode m); CONNACK_RC (rc_num (wm_returnCode m))]))).

Definition delivered (m : option Message) : C unit :=
  h <- get c_handlers ;;
  when (h_onMessageDelivered h) (emit (OnMessageDelivered m)).

Definition delete_sent (id : option jsnum) : C unit :=
  modify (λ c, set_sentMessages (delete (id_key id) (c_sentMessages c)) c).

Definition sent_message (id : option jsnum) : C (option WireMessage) :=
  get (λ c, c_sentMessages c !! id_key id).

Definition handle_puback (m : WireMessage) : C unit :=
  let id := wm_messageIdentifier m in
  sentMessage <- sent_message id ;;
  match sentMessage with
  | Some sm =>
      delete_sent id ;;
      removeItem Sent id ;;
      delivered (wm_payloadMessage sm)
  | None => ret tt
  end.

Definition handle_pubrec (m : WireMessage) : C unit :=
  let id := wm_messageIdentifier m in
  sentMessage <- sent_message id ;;
  match sentMessage with
  | Some sm =>
      let sm := set_pubRecReceived sm in
      modify (λ c, set_sentMessages (<[id_key id := sm]> (c_sentMessages c)) c) ;;
      sm <- store Sent sm ;;
      modify (λ c, set_sentMessages (<[id_key id := sm]> (c_sentMessages c)) c) ;;
      _schedule_message (new_ack MESSAGE_TYPE.PUBREL id)
  | None => ret tt
  end.

Definition handle_pubrel (m : WireMessage) : C unit :=
  let id := wm_messageIdentifier m in
  receivedMessage <- get (λ c, c_receivedMessages c !! id_key id) ;;
  removeItem Received id ;;
  match receivedMessage with
  | Some rm =>
      _receiveMessage rm ;;
      modify (λ c, set_receivedMessages (delete (id_key id) (c_receivedMessages c)) c)
  | None => ret tt
  end ;;
  _schedule_message (new_ack MESSAGE_TYPE.PUBCOMP id).

Definition handle_pubcomp (m : WireMessage) : C unit :=
  let id := wm_messageIdentifier m in
  sentMessage <- sent_message id ;;
  delete_sent id ;;
  removeItem Sent id ;;
  h <- get c_handlers ;;
  when (h_onMessageDelivered h)
    (sm <- deref sentMessage ;; emit (OnMessageDelivered (wm_payloadMessage sm))).

Definition cancel_timeOut (m : WireMessage) : C unit :=
  match wm_timeOut m with Some t => Timeout_cancel (Z.to_nat t) | None => ret tt end.

Definition rc_first (rc : return_code) : option Z :=
  match rc with ReturnBytes bs => head bs | _ => None end.

Definition handle_suback (m : WireMessage) : C unit :=
  let id := wm_messageIdentifier m in
  sentMessage <- sent_message id ;;
  match sentMessage with
  | Some sm =>
      cancel_timeOut sm ;;
      (if bool_decide (rc_first (wm_returnCode m) = Some 0x80) then
         when (wm_onFailure sm) (emit (OnSubscribeFailure (wm_topics sm) (wm_returnCode m)))
       else when (wm_onSuccess sm)
              (emit (OnSubscribeSuccess (wm_topics sm) (wm_requestedQos sm) (wm_returnCode m)))) ;;
      delete_sent id
  | None => ret tt
  end.

Definition handle_unsuback (m : WireMessage) : C unit :=
  let id := wm_messageIdentifier m in
  sentMessage <- sent_message id ;;
  match sentMessage with
  | Some sm =>
      cancel_timeOut sm ;;
      when (wm_callback sm) (emit (OnUnsubscribeSuccess (wm_topics sm))) ;;
      delete_sent id
  | None => ret tt
  end.

Definition unexpected_packet (m : WireMessage) : C unit :=
  _disconnected (Some (code INVALID_MQTT_MESSAGE_TYPE,
    Text (format INVALID_MQTT_MESSAGE_TYPE [dec (wm_type m)]))).

Definition dispatch (m : WireMessage) : C unit :=
  let t := wm_type m in
  if t =? MESSAGE_TYPE.CONNACK then handle_connack m
  else if t =? MESSAGE_TYPE.PUBLISH then _receivePublish m
  else if t =? MESSAGE_TYPE.PUBACK then handle_puback m
  else if t =? MESSAGE_TYPE.PUBREC then handle_pubrec m
  else if t =? MESSAGE_TYPE.PUBREL then handle_pubrel m
  else if t =? MESSAGE_TYPE.PUBCOMP then handle_pubcomp m
  else if t =? MESSAGE_TYPE.SUBACK then handle_suback m
  else if t =? MESSAGE_TYPE.UNSUBACK then handle_unsuback m
  else if t =? MESSAGE_TYPE.PINGRESP then on_pinger c_sendPinger Pinger_reset
  else unexpected_packet m.

Definition _handleMessage (m : WireMessage) : C unit :=
  try (dispatch m)
      (λ e, _disconnected (Some (code INTERNAL_ERROR, InternalText e))).

Definition _on_socket_message (data : list Z) : C unit :=
  on_pinger c_receivePinger Pinger_reset ;;
  messages <- _deframeMessages data ;;
  messages <- deref messages ;;
  iter_ _handleMessage messages.

Definition _on_socket_error (data : jsstr) : C unit :=
  _disconnected (Some (code SOCKET_ERROR, Text (format SOCKET_ERROR [data]))).

Definition _on_socket_close : C unit :=
  _disconnected (Some (code SOCKET_CLOSE, Text (format SOCKET_CLOSE []))).

(** ** Steps

    What can happen to a client: a request of the application, an event of the
    current socket (the handlers of a dropped socket are cleared), a timer. *)
Inductive event :=
  | Connect (o : ConnectOptions)
  | Subscribe (filter : jsstr) (o : SubscribeOptions)
  | Unsubscribe (filter : jsstr) (o : SubscribeOptions)
  | Send (m : Message)
  | Disconnect
  | SetHandlers (h : handlers)
  | SocketOpened
  | SocketData (data : list Z)
  | SocketErrored (data : jsstr)
  | SocketClosed
  | TimerFires (t : nat).

Definition with_socket (readyState : option Z) (k : C unit) : C unit :=
  so <- get c_socket ;;
  match so with
  | Some s =>
      modify (set_socket (Some (mkSocket (ws_url s) (ws_protocols s)
                                  (default (ws_readyState s) readyState)))) ;;
      k
  | None => ret tt
  end.

Definition fire (t : nat) : C unit :=
  tm <- get (λ c, e_timers c !! t) ;;
  match tm with
  | None => ret tt
  | Some tm =>
      modify (λ c, set_timers (delete t (e_timers c)) c) ;;
      match tm_action tm with
      | DoPing p => doPing p
      | ConnectTimedOut =>
          _disconnected (Some (code CONNECT_TIMEOUT, Text (format CONNECT_TIMEOUT [])))
      | SubscribeTimedOut topics =>
          emit (OnSubscribeTimeout topics (code SUBSCRIBE_TIMEOUT)
                  (Text (format SUBSCRIBE_TIMEOUT [])))
      | UnsubscribeTimedOut topics =>
          emit (OnUnsubscribeTimeout topics (code UNSUBSCRIBE_TIMEOUT)
                  (Text (format UNSUBSCRIBE_TIMEOUT [])))
      end
  end.

Definition run_event (e : event) : C unit :=
  match e with
  | Connect o => connect o
  | Subscribe f o => subscribe f o
  | Unsubscribe f o => unsubscribe f o
  | Send m => send m
  | Disconnect => disconnect
  | SetHandlers h => modify (set_handlers h)
  | SocketOpened => with_socket (Some 1) _on_socket_open
  | SocketData data => with_socket None (_on_socket_message data)
  | SocketErrored data => with_socket (Some 3) (_on_socket_error data)
  | SocketClosed => with_socket (Some 3) _on_socket_close
  | TimerFires t => fire t
  end.

Inductive step : client -> event -> client -> Prop :=
  | step_intro c e r c' : run_event e c = (r, c') -> step c e c'.

Inductive steps : client -> list event -> client -> Prop :=
  | steps_nil c : steps c [] c
  | steps_cons c e c' es c'' : step c e c' -> steps c' es c'' -> steps c (e :: es) c''.

(** A client as its constructor makes it, then driven by any events. *)
Definition reachable (c : client) : Prop :=
  exists uri host port path clientId storage c0 es,
    new_ClientImpl true true true uri host port path clientId storage = Ret c0
    /\ steps c0 es c.

Fixpoint run_events (es : list event) (c : client) : client :=
  match es with
  | [] => c
  | e :: es' => run_events es' (snd (run_event e c))
  end.
