(* ===== verification/ClientKeeps.v ===== *)
(** * What each client method leaves alone

    The durable part of a client is what a reload keeps or what decides what is
    kept: its configuration, the two tables of messages in flight and the local
    storage, with the counters and the partial packet.  [keeps m] says that [m]
    does not touch it; [inv P m] that [m] preserves [P]. *)

From stdpp Require Import base tactics list strings gmap numbers.
From Stdlib Require Import ZArith Lia.
From S2P Require Import Prelude PahoBase Utf8 Wire Client.
Local Open Scope Z_scope.
Local Open Scope st_scope.

Record durable := mkDurable {
  d_cfg : config;
  d_sent : gmap jsnum WireMessage;
  d_received : gmap jsnum WireMessage;
  d_message_identifier : Z;
  d_sequence : Z;
  d_receiveBuffer : option (list Z);
  d_storage : gmap jsstr StoredMessage;
}.

Definition durable_of (c : client) : durable :=
  mkDurable (c_cfg c) (c_sentMessages c) (c_receivedMessages c) (c_message_identifier c)
    (c_sequence c) (c_receiveBuffer c) (e_localStorage c).

Definition keeps {A} (m : C A) : Prop := forall c, durable_of (snd (m c)) = durable_of c.

Create HintDb keeps.
#[export] Hint Constants Opaque : keeps.

Lemma keeps_ret {A} (a : A) : keeps (ret a). Proof. done. Qed.
Lemma keeps_throw {A} e : keeps (throw e : C A). Proof. done. Qed.
Lemma keeps_get {A} (f : client -> A) : keeps (get f). Proof. done. Qed.
Lemma keeps_lift {A} (r : result exn A) : keeps (lift r). Proof. done. Qed.
Lemma keeps_modify f : (forall c, durable_of (f c) = durable_of c) -> keeps (modify f).
Proof. intros H c. apply H. Qed.

Lemma keeps_bind {A B} (m : C A) (f : A -> C B) :
  keeps m -> (forall a, keeps (f a)) -> keeps (bind m f).
Proof.
  intros Hm Hf c. unfold bind. specialize (Hm c).
  destruct (m c) as [[a|e] c']; cbn in *; [|done]. by rewrite Hf.
Qed.

Lemma keeps_try {A} (m : C A) (h : exn -> C A) :
  keeps m -> (forall e, keeps (h e)) -> keeps (try m h).
Proof.
  intros Hm Hh c. unfold try. specialize (Hm c).
  destruct (m c) as [[a|e] c']; cbn in *; [done|]. by rewrite Hh.
Qed.

Lemma keeps_when b m : keeps m -> keeps (when b m).
Proof. by destruct b. Qed.

Lemma keeps_iter {A} (f : A -> C unit) l : (forall a, keeps (f a)) -> keeps (iter_ f l).
Proof. intros Hf. induction l; cbn; [done|]. apply keeps_bind; eauto. Qed.

Lemma keeps_emit o : keeps (emit o). Proof. by apply keeps_modify. Qed.
Lemma keeps_deref {A} (o : option A) : keeps (deref o). Proof. by destruct o. Qed.

#[export] Hint Resolve keeps_ret keeps_throw keeps_get keeps_lift keeps_bind keeps_try
  keeps_when keeps_iter keeps_emit keeps_deref : keeps.

(** Splits a method into its steps. *)
Ltac keeps_step :=
  cbv zeta;
  match goal with
  | |- keeps (bind _ _) => apply keeps_bind; [|intros]
  | |- keeps (try _ _) => apply keeps_try; [|intros]
  | |- keeps (when _ _) => apply keeps_when
  | |- keeps (iter_ _ _) => apply keeps_iter; intros
  | |- keeps (modify _) => apply keeps_modify; intros; reflexivity
  | |- keeps (match ?x with _ => _ end) => destruct x
  | |- _ => solve [eauto 3 with keeps]
  end.
Ltac keeps_steps := repeat keeps_step.

Lemma keeps_setTimeout a ms : keeps (setTimeout a ms).
Proof. unfold setTimeout. keeps_steps. Qed.
Lemma keeps_clearTimeout t : keeps (clearTimeout t).
Proof. unfold clearTimeout. keeps_steps. Qed.
#[export] Hint Resolve keeps_setTimeout keeps_clearTimeout : keeps.

Lemma keeps_new_Timeout s a : keeps (new_Timeout s a).
Proof. unfold new_Timeout. keeps_steps. Qed.
Lemma keeps_Timeout_cancel t : keeps (Timeout_cancel t).
Proof. unfold Timeout_cancel. keeps_steps. Qed.
Lemma keeps_new_Pinger k : keeps (new_Pinger k).
Proof. unfold new_Pinger. keeps_steps. Qed.
Lemma keeps_get_pinger p : keeps (get_pinger p).
Proof. unfold get_pinger. keeps_steps. Qed.
Lemma keeps_set_pinger p v : keeps (set_pinger p v).
Proof. unfold set_pinger. keeps_steps. Qed.
#[export] Hint Resolve keeps_new_Timeout keeps_Timeout_cancel keeps_new_Pinger
  keeps_get_pinger keeps_set_pinger : keeps.

Lemma keeps_Pinger_reset p : keeps (Pinger_reset p).
Proof. unfold Pinger_reset. keeps_steps. Qed.
Lemma keeps_Pinger_cancel p : keeps (Pinger_cancel p).
Proof. unfold Pinger_cancel. keeps_steps. Qed.
Lemma keeps_on_pinger f act : (forall p, keeps (act p)) -> keeps (on_pinger f act).
Proof. intros. unfold on_pinger. keeps_steps. Qed.
Lemma keeps_ws_send s b : keeps (ws_send s b).
Proof. unfold ws_send. keeps_steps. Qed.
#[export] Hint Resolve keeps_Pinger_reset keeps_Pinger_cancel keeps_on_pinger keeps_ws_send : keeps.

Lemma keeps_doConnect u : keeps (_doConnect u).
Proof. unfold _doConnect. keeps_steps. Qed.
#[export] Hint Resolve keeps_doConnect : keeps.
Lemma keeps_connect_first o : keeps (connect_first o).
Proof. unfold connect_first. keeps_steps. Qed.
Lemma keeps_drop_socket : keeps drop_socket.
Proof. unfold drop_socket. keeps_steps. Qed.
#[export] Hint Resolve keeps_connect_first keeps_drop_socket : keeps.
Lemma keeps_disconnected e : keeps (_disconnected e).
Proof. unfold _disconnected. keeps_steps. Qed.
#[export] Hint Resolve keeps_disconnected : keeps.

Lemma keeps_doPing p : keeps (doPing p).
Proof. unfold doPing. keeps_steps. Qed.
Lemma keeps_socket_send m : keeps (_socket_send m).
Proof. unfold _socket_send. keeps_steps. Qed.
Lemma keeps_sync_queue e l : keeps (sync_queue e l).
Proof. apply keeps_modify. intros c. by case_match. Qed.
Lemma keeps_run_notification : keeps run_notification.
Proof. unfold run_notification. keeps_steps. Qed.
#[export] Hint Resolve keeps_doPing keeps_socket_send keeps_sync_queue keeps_run_notification : keeps.
Lemma keeps_process_fifo e l : keeps (process_fifo e l).
Proof. induction l; cbn; keeps_steps. Qed.
#[export] Hint Resolve keeps_process_fifo : keeps.
Lemma keeps_process_queue : keeps _process_queue.
Proof. unfold _process_queue. keeps_steps. Qed.
#[export] Hint Resolve keeps_process_queue : keeps.
Lemma keeps_schedule_message m : keeps (_schedule_message m).
Proof. unfold _schedule_message. keeps_steps. Qed.
#[export] Hint Resolve keeps_schedule_message : keeps.

Lemma keeps_connect o : keeps (connect o).
Proof. unfold connect. keeps_steps. Qed.
Lemma keeps_disconnect : keeps disconnect.
Proof. unfold disconnect. keeps_steps. Qed.
Lemma keeps_require_connected : keeps require_connected.
Proof. unfold require_connected. keeps_steps. Qed.
Lemma keeps_optional_timeout t a : keeps (optional_timeout t a).
Proof. unfold optional_timeout. keeps_steps. Qed.
Lemma keeps_on_socket_open : keeps _on_socket_open.
Proof. unfold _on_socket_open. keeps_steps. Qed.
Lemma keeps_receiveMessage m : keeps (_receiveMessage m).
Proof. unfold _receiveMessage. keeps_steps. Qed.
Lemma keeps_resend_one m : keeps (resend_one m).
Proof. unfold resend_one. keeps_steps. Qed.
Lemma keeps_delivered m : keeps (delivered m).
Proof. unfold delivered. keeps_steps. Qed.
Lemma keeps_cancel_timeOut m : keeps (cancel_timeOut m).
Proof. unfold cancel_timeOut. keeps_steps. Qed.
Lemma keeps_unexpected m : keeps (unexpected_packet m).
Proof. unfold unexpected_packet. keeps_steps. Qed.
Lemma keeps_on_socket_error d : keeps (_on_socket_error d).
Proof. unfold _on_socket_error. keeps_steps. Qed.
Lemma keeps_on_socket_close : keeps _on_socket_close.
Proof. unfold _on_socket_close. keeps_steps. Qed.
Lemma keeps_fire t : keeps (fire t).
Proof. unfold fire. keeps_steps. Qed.
Lemma keeps_sent_message i : keeps (sent_message i).
Proof. unfold sent_message. keeps_steps. Qed.
#[export] Hint Resolve keeps_connect keeps_disconnect keeps_require_connected
  keeps_optional_timeout keeps_on_socket_open keeps_receiveMessage
  keeps_resend_one keeps_delivered keeps_cancel_timeOut keeps_unexpected
  keeps_on_socket_error keeps_on_socket_close keeps_fire keeps_sent_message : keeps.

(** ** Invariants of methods *)
Definition inv {A} (P : client -> Prop) (m : C A) : Prop := forall c, P c -> P (snd (m c)).

(** A property of the durable part. *)
Definition durable_prop (P : client -> Prop) : Prop :=
  forall c c', durable_of c = durable_of c' -> P c -> P c'.

Lemma inv_keeps {A} P (m : C A) : durable_prop P -> keeps m -> inv P m.
Proof. intros HP Hm c. apply HP. by rewrite Hm. Qed.

Lemma inv_bind {A B} P (m : C A) (f : A -> C B) :
  inv P m -> (forall a, inv P (f a)) -> inv P (bind m f).
Proof.
  intros Hm Hf c Hc. unfold bind. specialize (Hm c Hc).
  destruct (m c) as [[a|e] c']; cbn in *; [by apply Hf|done].
Qed.

Lemma inv_try {A} P (m : C A) (h : exn -> C A) :
  inv P m -> (forall e, inv P (h e)) -> inv P (try m h).
Proof.
  intros Hm Hh c Hc. unfold try. specialize (Hm c Hc).
  destruct (m c) as [[a|e] c']; cbn in *; [done|by apply Hh].
Qed.

Lemma inv_when P b m : inv P m -> inv P (when b m).
Proof. intros H. destruct b; [done|by intros c]. Qed.

Lemma inv_iter {A} P (f : A -> C unit) l : Forall (λ a, inv P (f a)) l -> inv P (iter_ f l).
Proof. intros H. induction H; cbn [iter_]; [by intros c|]. by apply inv_bind. Qed.

(** What a method returns, and the invariant it keeps. *)
Lemma inv_bind_get {A B} P (f : client -> A) (k : A -> C B) :
  (forall c, P c -> P (snd (k (f c) c))) -> inv P (bind (get f) k).
Proof. intros H c Hc. by apply H. Qed.
