(* ===== verification/Deframe.v ===== *)
(** * Receiving a byte stream

    The socket hands the client the bytes the server sent in chunks of any
    size.  [_deframeMessages] keeps what does not make a whole packet for the
    next chunk; the packets it produces depend on the bytes only, not on how
    they were cut, and its loop ends whatever the bytes are. *)

From stdpp Require Import base tactics list strings gmap numbers.
From Stdlib Require Import ZArith Lia.
From S2P Require Import Prelude PahoBase Utf8 Wire WireFacts Client.
Local Open Scope Z_scope.
Local Open Scope st_scope.

(** The chunks of a connection, one after the other, with all their packets. *)
Fixpoint deframe_chunks (chunks : list (list Z)) : C (list WireMessage) :=
  match chunks with
  | [] => ret []
  | chunk :: chunks' =>
      o <- _deframeMessages chunk ;;
      ms <- deref o ;;
      ms' <- deframe_chunks chunks' ;;
      ret (ms ++ ms')
  end.

(** The bytes kept between two chunks. *)
Definition buffered (t : list Z) : option (list Z) :=
  match t with [] => None | _ => Some t end.

(** A piece of a packet that has not arrived as a whole. *)
Definition partial (t : list Z) : Prop :=
  t = [] \/ exists p w k, frame p w /\ (k < length p)%nat /\ t = take k p.

Lemma frame_nonempty p w : frame p w -> p <> [].
Proof. intros [Hw _] ->. specialize (Hw [] []). done. Qed.

Lemma deframe_loop_frames ps ws t : Forall2 frame ps ws -> partial t ->
  forall fuel pre acc, (length ps < fuel)%nat ->
  deframe_loop fuel (pre ++ concat ps ++ t) (length pre) acc
  = Ret (acc ++ ws, (length pre + length (concat ps))%nat).
Proof.
  intros Hf Ht. induction Hf as [|p w ps ws Hp _ IH]; intros [|fuel] pre acc Hfuel;
    [lia| |lia|]; cbn [deframe_loop concat].
  - rewrite app_nil_l, app_nil_r, Nat.add_0_r. case_match eqn:E; [|done].
    apply Nat.ltb_lt in E. rewrite length_app in E.
    destruct Ht as [->|(p & w & k & Hp & Hk & ->)]; [cbn in E; lia|].
    by rewrite (frame_prefix _ _ Hp).
  - assert ((length pre <? length (pre ++ (p ++ concat ps) ++ t)) = true)%nat as ->.
    { apply Nat.ltb_lt. rewrite !length_app. pose proof (frame_nonempty _ _ Hp).
      destruct p; [done|cbn; lia]. }
    rewrite <- app_assoc, (frame_whole _ _ Hp).
    cbn in Hfuel. specialize (IH fuel (pre ++ p) (acc ++ [w]) ltac:(lia)).
    rewrite <- !app_assoc, !length_app in IH. cbn in IH. rewrite IH, length_app.
    by rewrite Nat.add_assoc.
Qed.

(** A prefix of a stream of packets is whole packets and a piece of the next. *)
Lemma stream_split ps ws data rest : Forall2 frame ps ws -> concat ps = data ++ rest ->
  exists ps1 ps2 ws1 ws2 t, ps = ps1 ++ ps2 /\ ws = ws1 ++ ws2 /\
    Forall2 frame ps1 ws1 /\ Forall2 frame ps2 ws2 /\ partial t /\
    data = concat ps1 ++ t /\ concat ps2 = t ++ rest /\ (rest = [] -> ws2 = [] /\ t = []).
Proof.
  intros Hf. revert data. induction Hf as [|p w ps ws Hp Hps IH]; intros data Hd.
  { cbn in Hd. symmetry in Hd. apply app_eq_nil in Hd as [-> ->].
    exists [], [], [], [], []. split_and!; try constructor; done. }
  cbn in Hd. destruct (decide (length data < length p)%nat) as [Hlt|Hge].
  - exists [], (p :: ps), [], (w :: ws), data. split_and!; [done|done|constructor|by constructor| |done|done|].
    + right. exists p, w, (length data). split; [done|]. split; [done|].
      apply (f_equal (take (length data))) in Hd.
      rewrite take_app_le, take_app_length in Hd by lia. done.
    + intros ->. rewrite app_nil_r in Hd. subst data. rewrite length_app in Hlt. lia.
  - assert (data = p ++ drop (length p) data) as Hdata.
    { apply (f_equal (take (length p))) in Hd as Hd'.
      rewrite take_app_length, take_app_le in Hd' by lia.
      rewrite Hd' at 1. by rewrite take_drop. }
    set (d' := drop (length p) data) in *. clearbody d'. subst data.
    rewrite <- app_assoc in Hd. apply app_inv_head in Hd.
    destruct (IH d' Hd) as (ps1 & ps2 & ws1 & ws2 & t & -> & -> & H1 & H2 & Ht & -> & H3 & H4).
    exists (p :: ps1), ps2, (w :: ws1), ws2, t.
    split_and!; [done|done|by constructor|done|done|cbn; by rewrite app_assoc|done|done].
Qed.

Lemma deframe_chunk c t0 data ps ws t :
  c_receiveBuffer c = buffered t0 -> t0 ++ data = concat ps ++ t ->
  Forall2 frame ps ws -> partial t ->
  _deframeMessages data c = (Ret (Some ws), set_receiveBuffer (buffered t) c).
Proof.
  intros Hb Hd Hf Ht. unfold _deframeMessages, bind, get, modify. rewrite Hb.
  replace (match buffered t0 with Some b => b ++ data | None => data end)
    with (concat ps ++ t) by (rewrite <- Hd; by destruct t0).
  pose proof (deframe_loop_frames ps ws t Hf Ht (S (length (concat ps ++ t))) [] []) as Hl.
  assert (length ps <= length (concat ps))%nat.
  { clear -Hf. induction Hf as [|p w ps ws Hp _ IH]; [done|].
    cbn. rewrite length_app. pose proof (frame_nonempty _ _ Hp). destruct p; [done|cbn; lia]. }
  cbn [app length] in Hl. rewrite Hl by (rewrite length_app; lia).
  cbn [Nat.add]. rewrite drop_app_length. unfold when, modify, ret.
  destruct t as [|b t'].
  - by rewrite app_nil_r, Nat.ltb_irrefl.
  - assert ((length (concat ps) <? length (concat ps ++ b :: t')) = true)%nat as ->;
      [|done]. apply Nat.ltb_lt. rewrite length_app. cbn. lia.
Qed.

Lemma deframe_chunks_gen chunks : forall c t0 ps ws rest,
  c_receiveBuffer c = buffered t0 -> partial t0 -> Forall2 frame ps ws ->
  t0 ++ concat chunks ++ rest = concat ps ->
  exists ps1 ws1 ws2 t, ws = ws1 ++ ws2 /\ Forall2 frame ps1 ws1 /\ partial t /\
    t0 ++ concat chunks = concat ps1 ++ t /\
    deframe_chunks chunks c = (Ret ws1, set_receiveBuffer (buffered t) c).
Proof.
  induction chunks as [|chunk chunks IH]; intros c t0 ps ws rest Hb Ht Hf Hs.
  - exists [], [], ws, t0. split_and!; [done|constructor|done|by rewrite app_nil_r|].
    rewrite <- Hb. by destruct c.
  - cbn [concat] in *. rewrite <- app_assoc, app_assoc in Hs.
    destruct (stream_split ps ws (t0 ++ chunk) _ Hf (eq_sym Hs))
      as (ps1 & ps2 & ws1 & ws2 & t & -> & -> & H1 & H2 & Ht1 & Hd & H3 & _).
    pose proof (deframe_chunk c t0 chunk ps1 ws1 t Hb Hd H1 Ht1) as Hc.
    destruct (IH (set_receiveBuffer (buffered t) c) t ps2 ws2 rest eq_refl Ht1 H2 (eq_sym H3))
      as (ps1' & ws1' & ws2' & t' & -> & H1' & Ht' & Hd' & Hc').
    exists (ps1 ++ ps1'), (ws1 ++ ws1'), ws2', t'. split_and!.
    + by rewrite app_assoc.
    + by apply Forall2_app.
    + done.
    + by rewrite app_assoc, Hd, <- app_assoc, Hd', concat_app, app_assoc.
    + cbn [deframe_chunks]. unfold bind. rewrite Hc. unfold deref, ret. by rewrite Hc'.
Qed.

(** C6: a stream of packets cut into chunks anywhere gives the messages it gives
    in one piece, however much of it has arrived; once all of it has, these are
    exactly the messages of the packets, in order, and nothing is left over. *)
Theorem deframe_chunk_invariance ps ws chunks rest c :
  Forall2 frame ps ws -> c_receiveBuffer c = None -> concat chunks ++ rest = concat ps ->
  deframe_chunks chunks c = deframe_chunks [concat chunks] c /\
  (rest = [] -> deframe_chunks chunks c = (Ret ws, c)).
Proof.
  intros Hf Hb Hs.
  destruct (deframe_chunks_gen chunks c [] ps ws rest Hb (or_introl eq_refl) Hf Hs)
    as (ps1 & ws1 & ws2 & t & -> & H1 & Ht & Hd & Hc). cbn [app] in Hd.
  assert (forall ps ws t, Forall2 frame ps ws -> partial t -> concat chunks = concat ps ++ t ->
    deframe_chunks [concat chunks] c = (Ret ws, set_receiveBuffer (buffered t) c)) as Hone.
  { intros ps' ws' t' Hf' Ht' Hs'. cbn [deframe_chunks]. unfold bind.
    rewrite (deframe_chunk c [] _ ps' ws' t' Hb Hs' Hf' Ht'). cbn. by rewrite app_nil_r. }
  rewrite Hc, (Hone _ _ _ H1 Ht Hd). split; [done|]. intros ->. rewrite app_nil_r in Hs.
  rewrite <- (Hone _ _ _ H1 Ht Hd), (Hone ps (ws1 ++ ws2) []); [|done|by left|by rewrite app_nil_r].
  f_equal. cbn. rewrite <- Hb. by destruct c.
Qed.

(** ** The loop ends *)

(** The [while] loop of [_deframeMessages], as the script runs it. *)
Inductive deframes (byteArray : list Z) :
    nat -> list WireMessage -> result exn (list WireMessage * nat) -> Prop :=
  | deframes_done offset messages :
      (length byteArray <= offset)%nat ->
      deframes byteArray offset messages (Ret (messages, offset))
  | deframes_throws offset messages e :
      (offset < length byteArray)%nat -> decodeMessage byteArray offset = Throw e ->
      deframes byteArray offset messages (Throw e)
  | deframes_waits offset messages offset' :
      (offset < length byteArray)%nat -> decodeMessage byteArray offset = Ret (None, offset') ->
      deframes byteArray offset messages (Ret (messages, offset'))
  | deframes_goes offset messages m offset' r :
      (offset < length byteArray)%nat -> decodeMessage byteArray offset = Ret (Some m, offset') ->
      deframes byteArray offset' (messages ++ [m]) r ->
      deframes byteArray offset messages r.

#[local] Hint Constructors deframes : core.

Definition natural (n : jsnum) : Prop := match n with Num z => 0 <= z | NaN => True end.

Lemma decode_length_pos rest : forall pos rem mult n pos', natural rem -> 0 <= mult ->
  decode_length rest pos rem mult = Some (n, pos') ->
  natural n /\ (pos < pos' <= pos + length rest)%nat.
Proof.
  induction rest as [|d rest IH]; intros pos rem mult n pos' Hr Hm; cbn [decode_length]; [done|].
  assert (0 <= Z.land d 0x7F) by (apply Z.land_nonneg; lia).
  assert (natural (num_add rem (times_multiplier (Z.land d 0x7F) mult))) as Hn.
  { unfold times_multiplier. destruct rem; case_match; cbn in *; [done|nia|done|done]. }
  cbn [length]. case_match.
  - intros [= <- <-]. split; [done|lia].
  - intros H'. apply IH in H' as [? ?]; [split; [done|lia]|done|lia].
Qed.

(** A packet takes two bytes at least and ends inside the array; a part of a
    packet is left where it is. *)
Lemma decodeMessage_advances input pos m pos' :
  decodeMessage input pos = Ret (m, pos') ->
  match m with
  | Some _ => (pos + 2 <= pos' <= length input)%nat
  | None => pos' = pos
  end.
Proof.
  unfold decodeMessage. destruct (decode_length _ _ _ 1) as [[n p]|] eqn:E; [|by intros [= <- <-]].
  apply decode_length_pos in E as [Hn Hp]; [|done|lia]. rewrite length_drop in Hp. cbv zeta.
  destruct n as [n|]; cbn in Hn.
  - destruct (_ >? _) eqn:El; [by intros [= <- <-]|].
    destruct (decode_fields _ _ _ _ _); [|done]. cbn [rbind]. intros [= <- <-]. zbool. lia.
  - destruct (decode_fields _ _ _ _ _); [|done]. cbn [rbind]. intros [= <- <-]. lia.
Qed.

Lemma deframe_loop_runs byteArray fuel : forall offset messages,
  (length byteArray - offset < fuel)%nat ->
  deframes byteArray offset messages (deframe_loop fuel byteArray offset messages).
Proof.
  induction fuel as [|fuel IH]; intros offset messages Hf; [lia|]. cbn [deframe_loop].
  destruct (Nat.ltb_spec offset (length byteArray)); [|by auto].
  destruct (decodeMessage byteArray offset) as [[[m|] offset']|e] eqn:E; [|by eauto..].
  pose proof (decodeMessage_advances _ _ _ _ E) as Ha. cbn in Ha. eapply deframes_goes; [done..|]. apply IH. lia.
Qed.

Lemma deframes_unique byteArray offset messages r :
  deframes byteArray offset messages r ->
  forall r', deframes byteArray offset messages r' -> r' = r.
Proof.
  induction 1 as [| | |? ? ? ? ? ? E _ IH]; intros r' H'; inversion H'; subst;
    first [lia|congruence|apply IH; congruence].
Qed.

Lemma deframes_bounds byteArray offset messages r :
  deframes byteArray offset messages r -> (offset <= length byteArray)%nat ->
  forall ms offset', r = Ret (ms, offset') ->
    (offset + 2 * length ms <= offset' + 2 * length messages)%nat /\
    (offset <= offset' <= length byteArray)%nat.
Proof.
  induction 1 as [| |? ? ? ? E|? ? ? ? ? ? E _ IH]; intros Ho ms o' Hr; [by simplify_eq..|simplify_eq|].
  - apply decodeMessage_advances in E as ->. lia.
  - apply decodeMessage_advances in E. destruct (IH ltac:(lia) ms o' Hr) as [H1 H2].
    rewrite length_app in H1. cbn [length] in H1. lia.
Qed.

(** C7: the loop over the received bytes ends for any bytes, with one result,
    and this is what [_deframeMessages] computes with its fuel; every packet
    takes two bytes or more, and the offset it stops at lies in the array, so
    that what is kept for the next chunk is the rest of the bytes. *)
Theorem deframe_terminates byteArray :
  exists r, deframes byteArray 0 [] r /\ (forall r', deframes byteArray 0 [] r' -> r' = r) /\
    (forall fuel, (length byteArray < fuel)%nat -> deframe_loop fuel byteArray 0 [] = r) /\
    (forall ms offset, r = Ret (ms, offset) ->
       (2 * length ms <= offset <= length byteArray)%nat /\
       forall c, c_receiveBuffer c = None ->
         _deframeMessages byteArray c
         = (Ret (Some ms), set_receiveBuffer (buffered (drop offset byteArray)) c)).
Proof.
  pose proof (deframe_loop_runs byteArray (S (length byteArray)) 0 [] ltac:(lia)) as Hr.
  exists (deframe_loop (S (length byteArray)) byteArray 0 []). split_and!; [done| | |].
  - by apply deframes_unique.
  - intros fuel Hf. apply (deframes_unique byteArray 0 []); [done|]. apply deframe_loop_runs. lia.
  - intros ms offset Hms. pose proof (deframes_bounds _ _ _ _ Hr ltac:(lia) ms offset Hms).
    split; [cbn in *; lia|]. intros c Hb. unfold _deframeMessages, bind at 1, get. rewrite Hb.
    cbv zeta. rewrite Hms. unfold bind, modify, when, ret. destruct (Nat.ltb_spec offset (length byteArray)).
    + destruct (drop offset byteArray) eqn:Ed; [|done].
      apply (f_equal length) in Ed. rewrite length_drop in Ed. cbn in Ed. lia.
    + by rewrite drop_ge.
Qed.
