(* ===== verification/Storage.v ===== *)
(** * Local storage and recovery

    What the client keeps in local storage is enough to rebuild, after a
    reload, every publication it still has to deliver and every incoming
    publication it has not released yet: an invariant of all the states the
    client can reach, and the theorem that the constructor restores them. *)

From stdpp Require Import base tactics list strings gmap numbers.
From Stdlib Require Import ZArith Lia.
From S2P Require Import Prelude PahoBase Utf8 Wire WireFacts Client ClientKeeps.
Local Open Scope Z_scope.
Local Open Scope st_scope.

(** ** Hexadecimal payloads *)
Definition hex_byte (b : Z) : jsstr :=
  if b <=? 0xF then js "0" ++ to_base 16 b else to_base 16 b.

Lemma hex_byte_spec b : is_byte b ->
  exists x y, hex_byte b = [x; y] /\ num_bits (parseInt 16 [x; y]) mod 256 = b.
Proof.
  intros Hb.
  pose proof (bounded_forall (λ b, match hex_byte b with
    | [x; y] => num_bits (parseInt 16 [x; y]) mod 256 =? b | _ => false end) 256
    ltac:(vm_compute; reflexivity) b Hb) as H.
  cbn beta in H. destruct (hex_byte b) as [|x [|y [|]]]; try done.
  exists x, y. split; [done|]. lia.
Qed.

Lemma of_hex_to_hex bs : Forall is_byte bs -> of_hex (to_hex bs) = bs.
Proof.
  induction 1 as [|b bs Hb _ IH]; [done|]. cbn [to_hex].
  destruct (hex_byte_spec b Hb) as (x & y & Hx & Hv). unfold hex_byte in Hx.
  rewrite Hx. cbn [app of_hex]. by rewrite IH, Hv.
Qed.

(** ** Keys *)
Lemma to_base_head z : exists d t, dec z = d :: t /\ (d = 45 \/ 48 <= d <= 57).
Proof.
  unfold dec, to_base. case_match; [by eexists _, _; split; [done|left]|].
  destruct (digits_head 10 (S (Z.to_nat (Z.log2 z))) z []) as (d & t & -> & Hd); [lia|lia|done|].
  eexists _, _. split; [done|]. right. unfold digit_char. case_match; lia.
Qed.

Lemma id_str_inj i j : id_str i = id_str j -> i = j.
Proof.
  assert (forall z, dec z <> js "NaN" /\ dec z <> js "undefined") as Hd.
  { intros z. destruct (to_base_head z) as (d & t & -> & Hr).
    split; vm_compute; intros [= -> _]; lia. }
  destruct i as [[z|]|], j as [[z'|]|]; cbn [id_str num_str]; intros H; try done;
    try (by destruct (Hd z)); try (by destruct (Hd z'); congruence).
  by apply dec_inj in H as ->.
Qed.

Definition box_key_prefix (b : box) (localKey : jsstr) : jsstr := box_prefix b ++ localKey.

Lemma storage_key_inj b b' lk i j :
  storage_key b lk i = storage_key b' lk j -> b = b' /\ i = j.
Proof.
  destruct b, b'; unfold storage_key; cbn; intros H; try done;
    (split; [done|]); apply id_str_inj; simplify_list_eq; done.
Qed.

Lemma index_at_pos p s i : 0 < i -> index_at p s i <> 0.
Proof.
  revert i. induction s as [|a s IH]; intros i Hi; cbn [index_at]; case_match; try lia.
  apply IH. lia.
Qed.

Lemma indexOf_prefix s p : (indexOf s p =? 0) = is_prefix p s.
Proof.
  unfold indexOf. destruct s; cbn [index_at]; destruct (is_prefix p _); try done.
  apply Z.eqb_neq, index_at_pos. lia.
Qed.

#[local] Arguments storage_key : simpl never.

Lemma storage_key_prefix b lk i : is_prefix (box_key_prefix b lk) (storage_key b lk i) = true.
Proof. unfold storage_key, box_key_prefix. rewrite app_assoc. apply is_prefix_app. Qed.

Lemma storage_key_prefix_box b b' lk i :
  is_prefix (box_key_prefix b lk) (storage_key b' lk i) = true -> b = b'.
Proof. by destruct b, b'. Qed.

(** ** The publication a wire message or a stored object stands for *)
Record publication := mkPublication {
  pb_id : jsnum;
  pb_topic : option jsstr;
  pb_bytes : list Z;
  pb_qos : Z;
  pb_retained : bool;
  pb_pubRecReceived : bool;
  pb_sequence : option Z;
}.

Definition view (m : WireMessage) : option publication :=
  if wm_type m =? MESSAGE_TYPE.PUBLISH then
    p ← wm_payloadMessage m;
    id ← wm_messageIdentifier m;
    Some (mkPublication id (destinationName p) (payload_bytes (msg_payload p)) (qos p)
            (retained p) (wm_pubRecReceived m) (wm_sequence m))
  else None.

Definition stored_view (s : StoredMessage) : option publication :=
  if st_type s =? MESSAGE_TYPE.PUBLISH then
    Some (mkPublication (st_messageIdentifier s) (st_destinationName s)
            (of_hex (st_payloadHex s)) (st_qos s) (st_retained s) (st_pubRecReceived s)
            (st_sequence s))
  else None.

(** A payload whose bytes [store] writes: a well-formed string or a byte array. *)
Definition storable_payload (p : payload) : Prop :=
  match p with PArrayBuffer _ => False | _ => payload_ok p end.

Definition storable (p : Message) : Prop :=
  storable_payload (msg_payload p) /\ is_Some (destinationName p) /\ 0 <= qos p <= 2.

(** [s] is a stored object the constructor can restore under identifier [id]. *)
Definition restorable (id : jsnum) (s : StoredMessage) : Prop :=
  st_type s = MESSAGE_TYPE.PUBLISH /\ st_messageIdentifier s = id /\
  is_Some (st_destinationName s) /\ 0 <= st_qos s <= 2.

Definition duplicate_of (m : WireMessage) : bool :=
  match wm_payloadMessage m with Some p => duplicate p | None => false end.

(** [s] is what is stored for the message [m] in flight under [id].  A message
    restored into [sentMessages] is marked a duplicate there only. *)
Record saved (b : box) (id : jsnum) (m : WireMessage) (s : StoredMessage) : Prop := {
  saved_id : wm_messageIdentifier m = Some id;
  saved_view : view m = stored_view s;
  saved_restorable : restorable id s;
  saved_message : exists p, wm_payloadMessage m = Some p /\ storable p;
  saved_duplicate : match b with
                    | Sent => st_duplicate s = true -> duplicate_of m = true
                    | Received => st_duplicate s = duplicate_of m
                    end;
}.

Definition rebuilt (s : StoredMessage) (d : jsstr) : WireMessage :=
  mkWireMessage MESSAGE_TYPE.PUBLISH (Some (st_messageIdentifier s))
    (Some (mkMessage (PUint8Array (of_hex (st_payloadHex s))) (Some d) (st_qos s)
             (st_retained s) (st_duplicate s)))
    [] [] None [] false NoReturnCode (st_pubRecReceived s) (st_sequence s) None
    false false false.

Lemma setQos_ok q m : 0 <= q <= 2 ->
  setQos q m = Ret (mkMessage (msg_payload m) (destinationName m) q (retained m) (duplicate m)).
Proof. intros Hq. unfold setQos. by assert (q = 0 \/ q = 1 \/ q = 2) as [->|[->| ->]] by lia. Qed.

Lemma restored_rebuilt id s : restorable id s ->
  exists d, st_destinationName s = Some d /\ restored s = Ret (rebuilt s d).
Proof.
  intros (Ht & Hi & [d Hd] & Hq). exists d. split; [done|].
  unfold restored. rewrite Ht, Hd, setQos_ok by done. cbn [rbind Z.eqb].
  unfold rebuilt. destruct s as [? ? pr ? ? ? du re sq]; cbn in *.
  by destruct pr, du, re, sq.
Qed.

Lemma of_hex_bytes hex : Forall is_byte (of_hex hex).
Proof.
  remember (length hex) as n eqn:Hn. revert hex Hn.
  induction (lt_wf n) as [n _ IH]. intros [|a [|b hex]] ->; cbn [of_hex]; [constructor..|].
  constructor; [|eapply IH; [|done]; cbn; lia].
  pose proof (Z.mod_pos_bound (num_bits (parseInt 16 [a; b])) 256). unfold is_byte. lia.
Qed.

(** The message the constructor puts in a table for a stored object. *)
Definition table_entry (b : box) (s : StoredMessage) (d : jsstr) : WireMessage :=
  match b with Sent => duplicated (rebuilt s d) | Received => rebuilt s d end.

Lemma saved_table_entry b id s d :
  restorable id s -> st_destinationName s = Some d -> saved b id (table_entry b s d) s.
Proof.
  intros (Ht & Hi & _ & Hq) Hd. constructor.
  - by destruct b; cbn; rewrite Hi.
  - unfold view, stored_view. rewrite Ht. destruct b; cbn; by rewrite Hd.
  - split_and!; [done|done|by rewrite Hd|lia|lia].
  - destruct b; cbn; (eexists; split; [done|]); (split; [apply of_hex_bytes|]; split; [done|cbn; lia]).
  - by destruct b.
Qed.

(** ** What the constructor restores *)
Definition storage_ok (lk : jsstr) (storage : gmap jsstr StoredMessage) : Prop :=
  forall b k s, storage !! k = Some s -> is_prefix (box_key_prefix b lk) k = true ->
    exists id, k = storage_key b lk (Some id) /\ restorable id s.

Definition from_storage (storage : gmap jsstr StoredMessage) (lk : jsstr) (b : box)
    (id : jsnum) : option WireMessage :=
  s ← storage !! storage_key b lk (Some id);
  d ← st_destinationName s;
  Some (table_entry b s d).

Definition tables (s r : gmap jsnum WireMessage) (c : client) : client :=
  set_receivedMessages r (set_sentMessages s c).

Definition restore_key (lk key : jsstr) : C unit :=
  when ((indexOf key (js "Sent:" ++ lk) =? 0) || (indexOf key (js "Received:" ++ lk) =? 0))
    (restore key).

Lemma restore_key_spec c key :
  let lk := cf_localKey (c_cfg c) in
  let st := e_localStorage c in
  storage_ok lk st -> is_Some (st !! key) ->
  restore_key lk key c = (Ret tt, c) /\ (forall b id, storage_key b lk (Some id) <> key) \/
  exists b id m, key = storage_key b lk (Some id) /\ from_storage st lk b id = Some m /\
    restore_key lk key c = (Ret tt,
      match b with
      | Sent => tables (<[id := m]> (c_sentMessages c)) (c_receivedMessages c) c
      | Received => tables (c_sentMessages c) (<[id := m]> (c_receivedMessages c)) c
      end).
Proof.
  intros lk st Hok [s Hs]. unfold restore_key. rewrite !indexOf_prefix.
  change (js "Sent:" ++ lk) with (box_key_prefix Sent lk).
  change (js "Received:" ++ lk) with (box_key_prefix Received lk).
  destruct (is_prefix (box_key_prefix Sent lk) key) eqn:ES;
    [|destruct (is_prefix (box_key_prefix Received lk) key) eqn:ER].
  - right. destruct (Hok Sent key s Hs ES) as (id & -> & Hr).
    destruct (restored_rebuilt id s Hr) as (d & Hd & Hre).
    exists Sent, id, (table_entry Sent s d). split; [done|]. split.
    { unfold from_storage. by rewrite Hs; cbn; rewrite Hd. }
    cbn [orb when]. unfold restore, bind, get, lift, deref. fold st. rewrite Hs. cbn [ret].
    unfold ret. rewrite Hre. fold lk. rewrite indexOf_prefix.
    change (js "Sent:" ++ lk) with (box_key_prefix Sent lk). rewrite ES.
    destruct Hr as (_ & -> & _). by destruct c.
  - right. destruct (Hok Received key s Hs ER) as (id & -> & Hr).
    destruct (restored_rebuilt id s Hr) as (d & Hd & Hre).
    exists Received, id, (table_entry Received s d). split; [done|]. split.
    { unfold from_storage. by rewrite Hs; cbn; rewrite Hd. }
    cbn [orb when]. unfold restore, bind, get, lift, deref. fold st. rewrite Hs. cbn [ret].
    unfold ret. rewrite Hre. fold lk. rewrite !indexOf_prefix.
    change (js "Sent:" ++ lk) with (box_key_prefix Sent lk).
    change (js "Received:" ++ lk) with (box_key_prefix Received lk). rewrite ES, ER.
    destruct Hr as (_ & -> & _). by destruct c.
  - left. split; [done|]. intros b id <-.
    destruct b; [rewrite storage_key_prefix in ES|rewrite storage_key_prefix in ER]; done.
Qed.

Lemma restore_all_spec keys : forall c,
  let lk := cf_localKey (c_cfg c) in
  let st := e_localStorage c in
  storage_ok lk st -> Forall (λ k, is_Some (st !! k)) keys ->
  exists s r, restore_all lk keys c = (Ret tt, tables s r c) /\
    (forall id, s !! id = if decide (storage_key Sent lk (Some id) ∈ keys)
                          then from_storage st lk Sent id else c_sentMessages c !! id) /\
    (forall id, r !! id = if decide (storage_key Received lk (Some id) ∈ keys)
                          then from_storage st lk Received id else c_receivedMessages c !! id).
Proof.
  induction keys as [|key keys IH]; intros c lk st Hok Hin.
  { exists (c_sentMessages c), (c_receivedMessages c). split; [by destruct c|].
    split; intros id; by rewrite decide_False by (intros ?%elem_of_nil; done). }
  apply Forall_cons_1 in Hin as [Hk Hin].
  change (restore_all lk (key :: keys)) with (bind (restore_key lk key) (λ _, restore_all lk keys)).
  pose proof (restore_key_spec c key Hok Hk) as HK. cbv zeta in HK. fold lk st in HK.
  destruct HK as [[Hr Hne]|(b & id0 & m & -> & Hm & Hr)]; unfold bind at 1; rewrite Hr.
  - destruct (IH c Hok Hin) as (s & r & Hrun & Hs & Hrec). exists s, r. split; [done|].
    split; intros id; [rewrite Hs|rewrite Hrec]; fold lk st;
      apply decide_ext; rewrite elem_of_cons; split; [by right|by intros [?%Hne|]|by right|by intros [?%Hne|]].
  - set (c1 := match b with Sent => _ | Received => _ end).
    assert (e_localStorage c1 = st /\ cf_localKey (c_cfg c1) = lk) as [Est Elk] by by destruct b.
    destruct (IH c1) as (s & r & Hrun & Hs & Hrec); [by rewrite Est, Elk|by rewrite Est|].
    rewrite Est, Elk in *. exists s, r. split.
    { rewrite Hrun. by destruct b. }
    split; intros id; [rewrite Hs|rewrite Hrec]; clear Hs Hrec Hrun.
    + destruct (decide (storage_key Sent lk (Some id) ∈ keys)) as [Hi|Hi].
      { rewrite decide_True by (by right). done. }
      destruct b; cbn [c1 c_sentMessages tables set_receivedMessages set_sentMessages].
      * destruct (decide (id = id0)) as [->|Hne].
        { rewrite decide_True by (by left). by rewrite lookup_insert_eq. }
        rewrite decide_False, lookup_insert_ne; [done|done|].
        rewrite elem_of_cons. by intros [[? ?]%storage_key_inj|?]; simplify_eq.
      * rewrite decide_False; [done|].
        rewrite elem_of_cons. by intros [[? ?]%storage_key_inj|?]; simplify_eq.
    + destruct (decide (storage_key Received lk (Some id) ∈ keys)) as [Hi|Hi].
      { rewrite decide_True by (by right). done. }
      destruct b; cbn [c1 c_receivedMessages tables set_receivedMessages set_sentMessages].
      * rewrite decide_False; [done|].
        rewrite elem_of_cons. by intros [[? ?]%storage_key_inj|?]; simplify_eq.
      * destruct (decide (id = id0)) as [->|Hne].
        { rewrite decide_True by (by left). by rewrite lookup_insert_eq. }
        rewrite decide_False, lookup_insert_ne; [done|done|].
        rewrite elem_of_cons. by intros [[? ?]%storage_key_inj|?]; simplify_eq.
Qed.

(** ** The invariant *)
Section Coherent.
Context (cf0 : config).

Record coherent (c : client) : Prop := {
  coh_storage : storage_ok (cf_localKey (c_cfg c)) (e_localStorage c);
  coh_sent : forall id m, c_sentMessages c !! id = Some m ->
    wm_type m = MESSAGE_TYPE.PUBLISH ->
    exists s, e_localStorage c !! storage_key Sent (cf_localKey (c_cfg c)) (Some id) = Some s
              /\ saved Sent id m s;
  coh_received : forall id m, c_receivedMessages c !! id = Some m ->
    exists s, e_localStorage c !! storage_key Received (cf_localKey (c_cfg c)) (Some id) = Some s
              /\ saved Received id m s;
  coh_buffer : Forall is_byte (default [] (c_receiveBuffer c));
  coh_identifier : 1 <= c_message_identifier c;
  coh_cfg : c_cfg c = cf0;
}.

Lemma coherent_durable : durable_prop coherent.
Proof.
  intros c c' Hd [H1 H2 H3 H4 H5 H6]. unfold durable_of in Hd. injection Hd as E1 E2 E3 E4 E5 E6 E7.
  constructor; rewrite <- ?E1, <- ?E2, <- ?E3, <- ?E4, <- ?E5, <- ?E6, <- ?E7; done.
Qed.

Lemma inv_coherent_keeps {A} (m : C A) : keeps m -> inv coherent m.
Proof. apply inv_keeps, coherent_durable. Qed.


Lemma storage_ok_delete lk st k : storage_ok lk st -> storage_ok lk (delete k st).
Proof. intros H b k' s [_ Hs]%lookup_delete_Some. by apply H. Qed.

Lemma storage_ok_insert lk st b id s :
  storage_ok lk st -> restorable id s -> storage_ok lk (<[storage_key b lk (Some id) := s]> st).
Proof.
  intros H Hr b' k' s' [[<- <-]|[_ Hs]]%lookup_insert_Some Hp; [|by apply (H b')].
  apply storage_key_prefix_box in Hp as <-. by exists id.
Qed.

Lemma inv_removeItem_sent id :
  inv coherent (delete_sent id ;; removeItem Sent id).
Proof.
  intros c [H1 H2 H3 H4 H5 H6]. constructor; cbn; [by apply storage_ok_delete| | |done|done|done].
  - intros j m [Hj Hm]%lookup_delete_Some Ht. destruct (H2 j m Hm Ht) as (s & Hs & Hv).
    exists s. split; [|done]. rewrite lookup_delete_ne; [done|].
    intros [_ ->]%storage_key_inj. done.
  - intros j m Hm. destruct (H3 j m Hm) as (s & Hs & Hv).
    exists s. split; [|done]. rewrite lookup_delete_ne; [done|].
    by intros [? _]%storage_key_inj.
Qed.

Lemma inv_delete_sent id : inv coherent (delete_sent id).
Proof.
  intros c [H1 H2 H3 H4 H5 H6]. constructor; cbn; [done| |done|done|done|done].
  intros j m [Hj Hm]%lookup_delete_Some Ht. by apply H2.
Qed.

(** What [store] writes. *)
Definition sequenced (b : box) (n : Z) (m : WireMessage) : WireMessage :=
  match b, wm_sequence m with
  | Sent, None => Wire.set_sequence (n + 1) m
  | _, _ => m
  end.

Definition stored_sequence (b : box) (m : WireMessage) : option Z :=
  match b with Sent => wm_sequence m | Received => None end.

Definition stored_object (b : box) (m : WireMessage) (p : Message) : StoredMessage :=
  stored_message m p (payload_bytes (msg_payload p)) (stored_sequence b m).

Definition stored_state (b : box) (id : jsnum) (m : WireMessage) (p : Message) (c : client)
    : client :=
  set_localStorage
    (<[storage_key b (cf_localKey (c_cfg c)) (Some id) :=
       stored_object b (sequenced b (c_sequence c) m) p]> (e_localStorage c))
    (match b, wm_sequence m with
     | Sent, None => set_sequence (c_sequence c + 1) c
     | _, _ => c
     end).

Lemma store_run b id m p c :
  wm_type m = MESSAGE_TYPE.PUBLISH -> wm_messageIdentifier m = Some id ->
  wm_payloadMessage m = Some p -> storable_payload (msg_payload p) ->
  store b m c = (Ret (sequenced b (c_sequence c) m), stored_state b id m p c).
Proof.
  intros Ht Hi Hp Hs. unfold store. rewrite Ht, Z.eqb_refl, Hp. cbn [deref].
  unfold bind, ret, lift. rewrite getPayloadBytes_spec by (by destruct (msg_payload p)).
  replace (match msg_payload p with PArrayBuffer bs => ArrayBuffer bs
           | p => Uint8Array (payload_bytes p) end)
    with (Uint8Array (payload_bytes (msg_payload p))) by (by destruct (msg_payload p)).
  cbn [stored_bytes]. unfold stored_state, sequenced, stored_object, stored_sequence.
  destruct b; [destruct (wm_sequence m) eqn:Es|]; unfold get, modify; cbn -[storage_key stored_message];
    rewrite ?Hi, ?Es; done.
Qed.

Lemma saved_stored b id n m p :
  wm_type m = MESSAGE_TYPE.PUBLISH -> wm_messageIdentifier m = Some id ->
  wm_payloadMessage m = Some p -> storable p -> (b = Received -> wm_sequence m = None) ->
  saved b id (sequenced b n m) (stored_object b (sequenced b n m) p).
Proof.
  intros Ht Hi Hp (Hs & [d Hd] & Hq) Hseq.
  assert (wm_type (sequenced b n m) = MESSAGE_TYPE.PUBLISH /\
          wm_messageIdentifier (sequenced b n m) = Some id /\
          wm_payloadMessage (sequenced b n m) = Some p /\
          stored_sequence b (sequenced b n m) = wm_sequence (sequenced b n m))
    as (Ht' & Hi' & Hp' & Hq').
  { destruct b; cbn; [by destruct (wm_sequence m)|]. by rewrite Hseq. }
  constructor; [done| | | |].
  - unfold view, stored_view, stored_object. rewrite Ht', Hp', Hi'. cbn.
    rewrite Ht', Hi', Hq', of_hex_to_hex; [done|]. apply payload_bytes_ok. by destruct (msg_payload p).
  - unfold stored_object. split_and!; cbn; [done|by rewrite Hi'|by rewrite Hd|lia|lia].
  - exists p. split; [done|]. split; [done|]. split; [by rewrite Hd|done].
  - unfold duplicate_of. rewrite Hp'. by destruct b.
Qed.

Lemma coherent_update_sent c c' id m s :
  coherent c -> saved Sent id m s ->
  c_cfg c' = c_cfg c ->
  e_localStorage c'
  = <[storage_key Sent (cf_localKey (c_cfg c)) (Some id) := s]> (e_localStorage c) ->
  c_sentMessages c' = <[id := m]> (c_sentMessages c) ->
  c_receivedMessages c' = c_receivedMessages c ->
  c_receiveBuffer c' = c_receiveBuffer c -> 1 <= c_message_identifier c' -> coherent c'.
Proof.
  intros [H1 H2 H3 H4 H5 H6] Hs E1 E2 E3 E4 E5 Hid. constructor; rewrite ?E1, ?E2, ?E3, ?E4, ?E5; [| | |done|done|done].
  - apply storage_ok_insert; [done|apply Hs].
  - intros j m' [[<- <-]|[Hj Hm]]%lookup_insert_Some Ht.
    { exists s. by rewrite lookup_insert_eq. }
    destruct (H2 j m' Hm Ht) as (s' & Hs' & Hv). exists s'. split; [|done].
    rewrite lookup_insert_ne; [done|]. by intros [_ [= ?]]%storage_key_inj.
  - intros j m' Hm. destruct (H3 j m' Hm) as (s' & Hs' & Hv). exists s'. split; [|done].
    rewrite lookup_insert_ne; [done|]. by intros [? _]%storage_key_inj.
Qed.

Lemma coherent_update_received c c' id m s :
  coherent c -> saved Received id m s ->
  c_cfg c' = c_cfg c ->
  e_localStorage c'
  = <[storage_key Received (cf_localKey (c_cfg c)) (Some id) := s]> (e_localStorage c) ->
  c_sentMessages c' = c_sentMessages c ->
  c_receivedMessages c' = <[id := m]> (c_receivedMessages c) ->
  c_receiveBuffer c' = c_receiveBuffer c -> 1 <= c_message_identifier c' -> coherent c'.
Proof.
  intros [H1 H2 H3 H4 H5 H6] Hs E1 E2 E3 E4 E5 Hid. constructor; rewrite ?E1, ?E2, ?E3, ?E4, ?E5; [| | |done|done|done].
  - apply storage_ok_insert; [done|apply Hs].
  - intros j m' Hm Ht. destruct (H2 j m' Hm Ht) as (s' & Hs' & Hv). exists s'. split; [|done].
    rewrite lookup_insert_ne; [done|]. by intros [? _]%storage_key_inj.
  - intros j m' [[<- <-]|[Hj Hm]]%lookup_insert_Some.
    { exists s. by rewrite lookup_insert_eq. }
    destruct (H3 j m' Hm) as (s' & Hs' & Hv). exists s'. split; [|done].
    rewrite lookup_insert_ne; [done|]. by intros [_ [= ?]]%storage_key_inj.
Qed.

(** A message that is not a publication enters the table without being stored. *)
Lemma coherent_insert_other c c' id m :
  coherent c -> wm_type m <> MESSAGE_TYPE.PUBLISH ->
  c_cfg c' = c_cfg c -> e_localStorage c' = e_localStorage c ->
  c_sentMessages c' = <[id := m]> (c_sentMessages c) ->
  c_receivedMessages c' = c_receivedMessages c ->
  c_receiveBuffer c' = c_receiveBuffer c -> 1 <= c_message_identifier c' -> coherent c'.
Proof.
  intros [H1 H2 H3 H4 H5 H6] Hs E1 E2 E3 E4 E5 Hid. constructor; rewrite ?E1, ?E2, ?E3, ?E4, ?E5; try done.
  intros j m' [[<- <-]|[Hj Hm]]%lookup_insert_Some Ht; [done|]. by apply H2.
Qed.

(** ** The methods that change tables or storage *)
Lemma next_identifier_ge fuel sent id : id <= next_identifier fuel sent id.
Proof.
  revert id. induction fuel as [|n IH]; intros id; cbn [next_identifier]; [lia|].
  case_match; [|lia]. specialize (IH (id + 1)). lia.
Qed.

(** What [_requires_ack] does when it does not refuse the message. *)
Definition requires_ack_id (c : client) : Z :=
  next_identifier (S (size (c_sentMessages c))) (c_sentMessages c) (c_message_identifier c).

Definition wrapped (id : Z) (c : client) : Z :=
  if id =? cf_maxMessageIdentifier (c_cfg c) then 1 else id.

Lemma requires_ack_other m c :
  Z.of_nat (size (c_sentMessages c)) <= cf_maxMessageIdentifier (c_cfg c) ->
  wm_type m <> MESSAGE_TYPE.PUBLISH ->
  let id := requires_ack_id c in
  let m' := set_messageIdentifier (Num id) m in
  _requires_ack m c
  = (Ret m', set_message_identifier (wrapped id c)
               (set_sentMessages (<[Num id := m']> (c_sentMessages c)) c)).
Proof.
  intros Hn Ht id m'. unfold _requires_ack, bind, get, modify, when, throw, ret.
  assert ((Z.of_nat (size (c_sentMessages c)) >? cf_maxMessageIdentifier (c_cfg c)) = false)
    as -> by zlia.
  cbn -[next_identifier]. fold (requires_ack_id c). fold id. fold m'.
  change (wm_type m) with (wm_type m') in Ht. apply Z.eqb_neq in Ht. cbn in Ht. rewrite Ht.
  cbn -[next_identifier]. fold (requires_ack_id c). fold id. fold m'.
  unfold wrapped. destruct (id =? _); cbn; rewrite insert_insert_eq; done.
Qed.

Lemma requires_ack_publish m p c :
  Z.of_nat (size (c_sentMessages c)) <= cf_maxMessageIdentifier (c_cfg c) ->
  wm_type m = MESSAGE_TYPE.PUBLISH -> wm_payloadMessage m = Some p ->
  storable_payload (msg_payload p) ->
  let id := requires_ack_id c in
  let m0 := set_messageIdentifier (Num id) m in
  let m' := sequenced Sent (c_sequence c) m0 in
  _requires_ack m c
  = (Ret m', set_message_identifier (wrapped id c)
       (set_sentMessages (<[Num id := m']> (c_sentMessages c))
         (stored_state Sent (Num id) m0 p c))).
Proof.
  intros Hn Ht Hp Hs id m0 m'. unfold _requires_ack, bind, get, modify, when, throw, ret.
  assert ((Z.of_nat (size (c_sentMessages c)) >? cf_maxMessageIdentifier (c_cfg c)) = false)
    as -> by zlia.
  cbn -[next_identifier store]. fold (requires_ack_id c). fold id. fold m0. clearbody id.
  rewrite Ht, Z.eqb_refl. rewrite (store_run Sent (Num id) m0 p) by done.
  cbn -[stored_state m0]. unfold stored_state, wrapped, m', sequenced. cbn -[stored_object].
  destruct (wm_sequence m); cbn -[stored_object];
    destruct (id =? cf_maxMessageIdentifier (c_cfg c)); cbn -[stored_object]; rewrite insert_insert_eq; done.
Qed.

(** A message [_requires_ack] accepts without throwing from [store]. *)
Definition ackable (m : WireMessage) : Prop :=
  wm_type m = MESSAGE_TYPE.PUBLISH -> exists p, wm_payloadMessage m = Some p /\ storable p.

Lemma inv_requires_ack m : ackable m -> inv coherent (_requires_ack m).
Proof.
  intros Hm c Hc.
  destruct (decide (Z.of_nat (size (c_sentMessages c)) <= cf_maxMessageIdentifier (c_cfg c)))
    as [Hn|Hn].
  - assert (1 <= wrapped (requires_ack_id c) c) as Hid.
    { unfold wrapped. case_match; [lia|]. pose proof (coh_identifier c Hc).
      pose proof (next_identifier_ge (S (size (c_sentMessages c))) (c_sentMessages c)
                    (c_message_identifier c)). unfold requires_ack_id. lia. }
    destruct (decide (wm_type m = MESSAGE_TYPE.PUBLISH)) as [Ht|Ht].
    + destruct (Hm Ht) as (p & Hp & Hs).
      rewrite (requires_ack_publish m p) by (done || apply Hs). cbv zeta.
      set (m0 := set_messageIdentifier _ _).
      eapply (coherent_update_sent c _ (Num (requires_ack_id c))
                (sequenced Sent (c_sequence c) m0)); [done| |unfold stored_state..].
      { apply (saved_stored Sent _ _ m0 p); done. }
      all: cbn; destruct (wm_sequence m); try done; apply Hc.
    + rewrite requires_ack_other by done.
      by eapply (coherent_insert_other c _ (Num (requires_ack_id c))
        (set_messageIdentifier (Num (requires_ack_id c)) m)).
  - unfold _requires_ack, bind, get, when, throw.
    assert ((Z.of_nat (size (c_sentMessages c)) >? cf_maxMessageIdentifier (c_cfg c)) = true)
      as -> by zlia. done.
Qed.

Lemma iter_removeItem b ids c :
  exists st, iter_ (λ m, removeItem b (wm_messageIdentifier m)) ids c
             = (Ret tt, set_localStorage st c) /\ st ⊆ e_localStorage c /\
    Forall (λ m, st !! storage_key b (cf_localKey (c_cfg c)) (wm_messageIdentifier m) = None) ids.
Proof.
  revert c. induction ids as [|m ids IH]; intros c.
  { exists (e_localStorage c). split; [by destruct c|done]. }
  cbn [iter_]. unfold bind at 1. cbn.
  match goal with |- context [iter_ _ _ ?c1] => destruct (IH c1) as (st & Hst & Hsub & Hall) end.
  exists st. split; [by rewrite Hst|]. split; [etrans; [exact Hsub|]; apply delete_subseteq|].
  constructor; [|exact Hall]. eapply lookup_weaken_None; [|exact Hsub]. apply lookup_delete_eq.
Qed.

Lemma storage_ok_subseteq lk st st' : st' ⊆ st -> storage_ok lk st -> storage_ok lk st'.
Proof. intros Hs H b k s Hk. apply H. by eapply lookup_weaken. Qed.

Lemma clear_local_state_run c :
  exists st, clear_local_state c
             = (Ret tt, set_localStorage st (tables ∅ ∅ c)) /\ st ⊆ e_localStorage c /\
    Forall (λ m, st !! storage_key Sent (cf_localKey (c_cfg c)) (wm_messageIdentifier m) = None)
      (object_values (c_sentMessages c)) /\
    Forall (λ m, st !! storage_key Received (cf_localKey (c_cfg c)) (wm_messageIdentifier m) = None)
      (object_values (c_receivedMessages c)).
Proof.
  unfold clear_local_state, bind, get.
  destruct (iter_removeItem Sent (object_values (c_sentMessages c)) c) as (st1 & -> & H1 & F1).
  unfold modify.
  match goal with |- context [iter_ _ ?l ?c1] =>
    destruct (iter_removeItem Received l c1) as (st2 & -> & H2 & F2) end.
  exists st2. split_and!; [done|by etrans| |exact F2].
  eapply Forall_impl; [|exact F1]. intros m Hm. eapply lookup_weaken_None; [exact Hm|exact H2].
Qed.

Lemma inv_clear_local_state : inv coherent clear_local_state.
Proof.
  intros c [H1 H2 H3 H4 H5 H6]. destruct (clear_local_state_run c) as (st & -> & Hs & _).
  constructor; cbn; [by eapply storage_ok_subseteq| | |done|done|done].
  - intros id m. by rewrite lookup_empty.
  - intros id m. by rewrite lookup_empty.
Qed.

(** ** Decoded packets *)
Definition decoded_ok (m : WireMessage) : Prop :=
  wm_type m = MESSAGE_TYPE.PUBLISH ->
  exists p, wm_payloadMessage m = Some p /\ storable p /\ wm_sequence m = None /\
            (0 < qos p -> is_Some (wm_messageIdentifier m)).

Lemma subarray_bytes input b e : Forall is_byte input -> Forall is_byte (subarray input b e).
Proof. intros. by apply Forall_take, Forall_drop. Qed.

Lemma setQos_Ret q m m' : setQos q m = Ret m' ->
  0 <= q <= 2 /\
  m' = mkMessage (msg_payload m) (destinationName m) q (retained m) (duplicate m).
Proof. unfold setQos. case_match eqn:E; [|done]. intros [= <-]. split; [lia|done]. Qed.

Lemma flagged_storable bs (r d : bool) q t p :
  Forall is_byte bs ->
  setQos q (let m := new_Message (PUint8Array bs) in
            let m := if r then setRetained true m else m in
            if d then setDuplicate true m else m) = Ret p ->
  storable (setDestinationName t p) /\ qos (setDestinationName t p) = q.
Proof.
  intros Hb [Hq ->]%setQos_Ret. split; [|done].
  split_and!; [|done|cbn; lia|cbn; lia]. by destruct r, d.
Qed.

Lemma decode_publish_ok input pos endPos info m :
  Forall is_byte input -> decode_publish input pos endPos info = Ret m -> decoded_ok m.
Proof.
  intros Hb. unfold decode_publish. set (q := Z.land (Z.shiftr _ _) _). clearbody q.
  pose proof (fun b => subarray_bytes input b endPos Hb) as Hs.
  destruct (readUint16 input pos) as [len|].
  - destruct (parseUTF8 input (pos + 2) (Z.to_nat len)) as [t|]; [|done]. cbn [rbind].
    destruct (q >? 0) eqn:Eq;
      (destruct (setQos q _) as [p'|] eqn:Es; [|done]);
      (eapply (flagged_storable _ _ _ _ t) in Es as [Hst Hq]; [|apply Hs]);
      cbn [rbind]; intros [= <-] _; exists (setDestinationName t p');
      (split_and!; [done|done|done|]);
      rewrite Hq; intros; [done|zlia].
  - destruct (setQos q _) as [p'|] eqn:Es; [|done].
    eapply (flagged_storable _ _ _ _ []) in Es as [Hst Hq]; [|apply Hs].
    cbn [rbind]; intros [= <-] _. exists (setDestinationName [] p').
    split_and!; [by destruct (q >? 0)|done|by destruct (q >? 0)|].
    rewrite Hq. intros. assert ((q >? 0) = true) as -> by zlia. done.
Qed.

Lemma decode_fields_ok input t info pos endPos m :
  Forall is_byte input -> decode_fields input t info pos endPos = Ret m -> decoded_ok m.
Proof.
  intros Hb. unfold decode_fields.
  destruct (t =? MESSAGE_TYPE.CONNACK) eqn:E1; zbool; [by rewrite E1; intros [= <-]|].
  destruct (t =? MESSAGE_TYPE.PUBLISH) eqn:E2; zbool.
  { intros Ed. by eapply decode_publish_ok. }
  case_match; [|case_match]; intros [= <-] Ht; by destruct (E2 Ht).
Qed.

Lemma decodeMessage_ok input pos m pos' :
  Forall is_byte input -> decodeMessage input pos = Ret (Some m, pos') -> decoded_ok m.
Proof.
  intros Hb. unfold decodeMessage. destruct (decode_length _ _ _ _) as [[[rl|] p]|]; [|..|done].
  - case_match; [done|]. destruct (decode_fields _ _ _ _ _) eqn:E; [|done].
    intros [= <- _]. by eapply decode_fields_ok.
  - destruct (decode_fields _ _ _ _ _) eqn:E; [|done].
    intros [= <- _]. by eapply decode_fields_ok.
Qed.

Lemma deframe_loop_ok fuel : forall input pos acc ms pos',
  Forall is_byte input -> Forall decoded_ok acc ->
  deframe_loop fuel input pos acc = Ret (ms, pos') -> Forall decoded_ok ms.
Proof.
  induction fuel as [|fuel IH]; intros input pos acc ms pos' Hb Ha; cbn [deframe_loop].
  { by intros [= <- _]. }
  case_match; [|by intros [= <- _]].
  destruct (decodeMessage input pos) as [[[m|] pos1]|] eqn:Ed; [| |done].
  - apply IH; [done|]. apply Forall_app_2; [done|]. constructor; [|done].
    by eapply decodeMessage_ok.
  - by intros [= <- _].
Qed.

(** ** The handlers *)
Ltac inv_step :=
  cbv zeta;
  match goal with
  | |- inv _ (bind _ _) => apply inv_bind; [|intros]
  | |- inv _ (when _ _) => apply inv_when
  | |- inv _ (match ?x with _ => _ end) => destruct x eqn:?
  | |- inv _ _ => solve [apply inv_coherent_keeps; repeat keeps_step]
  end.
Ltac inv_steps := repeat inv_step.

Lemma inv_removeItem_sent_k {A} id (k : C A) :
  inv coherent k -> inv coherent (delete_sent id ;; removeItem Sent id ;; k).
Proof. intros Hk c Hc. apply Hk, (inv_removeItem_sent id c Hc). Qed.

Lemma inv_handle_connack m : inv coherent (handle_connack m).
Proof. unfold handle_connack. inv_steps. apply inv_clear_local_state. Qed.

Lemma inv_handle_puback m : inv coherent (handle_puback m).
Proof.
  unfold handle_puback. apply inv_bind; [inv_steps|intros [sm|]; [|inv_steps]].
  apply inv_removeItem_sent_k. inv_steps.
Qed.

Lemma inv_handle_pubcomp m : inv coherent (handle_pubcomp m).
Proof.
  unfold handle_pubcomp. apply inv_bind; [inv_steps|intros]. apply inv_removeItem_sent_k.
  inv_steps.
Qed.

Lemma inv_handle_suback m : inv coherent (handle_suback m).
Proof. unfold handle_suback. inv_steps. apply inv_delete_sent. Qed.

Lemma inv_handle_unsuback m : inv coherent (handle_unsuback m).
Proof. unfold handle_unsuback. inv_steps. apply inv_delete_sent. Qed.

Lemma inv_handle_pubrel m : inv coherent (handle_pubrel m).
Proof.
  intros c Hc. set (id := wm_messageIdentifier m).
  set (c1 := set_localStorage (delete (storage_key Received (cf_localKey (c_cfg c)) id)
               (e_localStorage c))
             (set_receivedMessages (delete (id_key id) (c_receivedMessages c)) c)).
  assert (coherent c1) as H1.
  { destruct Hc as [H1 H2 H3 H4 H5 H6]. constructor; cbn -[storage_key]; [by apply storage_ok_delete| | |done|done|done].
    - intros j w Hw Ht. destruct (H2 j w Hw Ht) as (s & Hs & Hv). exists s.
      split; [|done]. rewrite lookup_delete_ne; [done|]. by intros [? _]%storage_key_inj.
    - intros j w [Hj Hw]%lookup_delete_Some. destruct (H3 j w Hw) as (s & Hs & Hv). exists s.
      split; [|done]. rewrite lookup_delete_ne; [done|]. intros [_ E]%storage_key_inj.
      by rewrite E in Hj. }
  assert (exists c2, durable_of c2 = durable_of c1 /\
    handle_pubrel m c = _schedule_message (new_ack MESSAGE_TYPE.PUBCOMP id) c2) as (c2 & E & ->).
  { unfold handle_pubrel, bind, get, removeItem, modify. fold id.
    destruct (c_receivedMessages c !! id_key id) as [w|] eqn:Ew.
    - unfold _receiveMessage, bind, get, when, emit, modify.
      cbn -[storage_key]. destruct (h_onMessageArrived _); (eexists; split; [|reflexivity]; done).
    - eexists. split; [|done]. cbn. unfold c1, durable_of. cbn.
      by rewrite (delete_id (c_receivedMessages c)). }
  apply inv_coherent_keeps; [apply keeps_schedule_message|]. by eapply coherent_durable.
Qed.

Lemma inv_handle_pubrec m : inv coherent (handle_pubrec m).
Proof.
  intros c Hc. unfold handle_pubrec. set (id := wm_messageIdentifier m).
  unfold bind at 1, sent_message, get.
  destruct (c_sentMessages c !! id_key id) as [sm|] eqn:Es; [|done].
  set (sm1 := set_pubRecReceived sm).
  destruct (decide (wm_type sm = MESSAGE_TYPE.PUBLISH)) as [Ht|Ht].
  - destruct (coh_sent c Hc _ _ Es Ht) as (s & Hs & Hv).
    destruct (saved_message _ _ _ _ Hv) as (p & Hp & Hst).
    pose proof (saved_id _ _ _ _ Hv) as Hid.
    unfold bind at 1, modify. cbn [snd].
    unfold bind at 1. rewrite (store_run Sent (id_key id) sm1 p) by (done || apply Hst).
    unfold bind at 1, modify.
    apply inv_coherent_keeps; [apply keeps_schedule_message|].
    eapply (coherent_update_sent c _ (id_key id) (sequenced Sent (c_sequence c) sm1)); [done| |..].
    { by apply (saved_stored Sent _ _ sm1 p). }
    all: unfold stored_state, sequenced; cbn; destruct (wm_sequence sm); cbn; try done;
      try apply Hc; by rewrite insert_insert_eq.
  - unfold bind at 1, modify, bind at 1, store. cbn [wm_type sm1 set_pubRecReceived].
    rewrite (proj2 (Z.eqb_neq _ _) Ht). cbn.
    eapply (coherent_insert_other c _ (id_key id) sm1); try done. apply Hc.
Qed.

Lemma inv_receivePublish m : wm_type m = MESSAGE_TYPE.PUBLISH -> decoded_ok m ->
  inv coherent (_receivePublish m).
Proof.
  intros Ht Hm c Hc. destruct (Hm Ht) as (p & Hp & Hst & Hseq & Hid).
  unfold _receivePublish. rewrite Hp. cbn [deref]. unfold bind at 1, ret.
  destruct (qos p =? 0) eqn:E0; [|destruct (qos p =? 1) eqn:E1;
    [|destruct (qos p =? 2) eqn:E2]]; zbool.
  - apply inv_coherent_keeps; [apply keeps_receiveMessage|done].
  - apply inv_coherent_keeps; [repeat keeps_step|done].
  - destruct Hid as [id Hid]; [lia|]. rewrite Hid. cbn [id_key default].
    unfold bind at 1, modify. unfold bind at 1.
    rewrite (store_run Received id m p) by (done || apply Hst).
    apply inv_coherent_keeps; [apply keeps_schedule_message|].
    eapply (coherent_update_received c _ id m); [done|by apply (saved_stored Received id 0 m p)|..];
      unfold stored_state; try done. apply Hc.
  - done.
Qed.

Lemma inv_dispatch m : decoded_ok m -> inv coherent (dispatch m).
Proof.
  intros Hm. unfold dispatch. cbv zeta.
  destruct (wm_type m =? MESSAGE_TYPE.CONNACK); [apply inv_handle_connack|].
  destruct (wm_type m =? MESSAGE_TYPE.PUBLISH) eqn:E; zbool; [by apply inv_receivePublish|].
  destruct (wm_type m =? MESSAGE_TYPE.PUBACK); [apply inv_handle_puback|].
  destruct (wm_type m =? MESSAGE_TYPE.PUBREC); [apply inv_handle_pubrec|].
  destruct (wm_type m =? MESSAGE_TYPE.PUBREL); [apply inv_handle_pubrel|].
  destruct (wm_type m =? MESSAGE_TYPE.PUBCOMP); [apply inv_handle_pubcomp|].
  destruct (wm_type m =? MESSAGE_TYPE.SUBACK); [apply inv_handle_suback|].
  destruct (wm_type m =? MESSAGE_TYPE.UNSUBACK); [apply inv_handle_unsuback|]. inv_steps.
Qed.

Lemma inv_handleMessage m : decoded_ok m -> inv coherent (_handleMessage m).
Proof. intros Hm. apply inv_try; [by apply inv_dispatch|intros; inv_steps]. Qed.

Lemma coherent_set_receiveBuffer b c :
  coherent c -> Forall is_byte (default [] b) -> coherent (set_receiveBuffer b c).
Proof. intros [H1 H2 H3 H4 H5 H6] Hb. by constructor. Qed.

(** Deframing: the invariant, and what it returns. *)
Lemma deframeMessages_ok data c r c' :
  coherent c -> Forall is_byte data -> _deframeMessages data c = (r, c') ->
  coherent c' /\ forall ms, r = Ret (Some ms) -> Forall decoded_ok ms.
Proof.
  intros Hc Hd. unfold _deframeMessages, bind at 1, get. cbv zeta.
  set (input := match c_receiveBuffer c with Some b => b ++ data | None => data end).
  assert (Forall is_byte input) as Hi.
  { pose proof (coh_buffer c Hc) as Hb. unfold input.
    destruct (c_receiveBuffer c); [by apply Forall_app_2|done]. }
  clearbody input. unfold bind at 1, modify.
  assert (coherent (set_receiveBuffer None c)) as Hn by (by apply coherent_set_receiveBuffer).
  destruct (deframe_loop _ input 0 []) as [[ms offset]|e] eqn:El.
  - apply deframe_loop_ok in El; [|done|done]. unfold bind, when, ret.
    destruct (_ <? _)%nat; intros [= <- <-]; (split; [|by intros ? [= <-]]); [|done].
    apply coherent_set_receiveBuffer; [done|]. by apply Forall_drop.
  - intros E. split.
    + change c' with (snd (r, c')). rewrite <- E.
      apply inv_coherent_keeps; [repeat keeps_step|done].
    + intros ms ->. unfold bind, ret in E. by destruct (_disconnected _ _) as [[]].
Qed.

Lemma inv_on_socket_message data : Forall is_byte data -> inv coherent (_on_socket_message data).
Proof.
  intros Hd. unfold _on_socket_message. apply inv_bind; [inv_steps|intros _].
  intros c Hc. unfold bind at 1. destruct (_deframeMessages data c) as [r c'] eqn:E.
  apply deframeMessages_ok in E as [Hc' Hms]; [|done|done].
  destruct r as [[ms|]|]; [|done|done]. cbn [deref]. unfold bind, ret.
  refine (inv_iter coherent _handleMessage ms _ c' Hc').
  eapply Forall_impl; [intros m; apply inv_handleMessage|exact (Hms ms eq_refl)].
Qed.

(** The events the theorem covers: publications with a topic, a qos of the
    protocol and a payload [store] can write, and data made of bytes. *)
Definition event_ok (e : event) : Prop :=
  match e with
  | Send m => 0 < qos m -> storable m
  | SocketData data => Forall is_byte data
  | _ => True
  end.

Lemma inv_run_event e : event_ok e -> inv coherent (run_event e).
Proof.
  destruct e as [o|f o|f o|m| |h| |data|data| |t]; intros He; cbn [run_event];
    try (unfold with_socket; by inv_steps).
  - unfold subscribe. inv_steps. by apply inv_requires_ack.
  - unfold unsubscribe. inv_steps. by apply inv_requires_ack.
  - unfold send. inv_steps. apply inv_requires_ack. intros _. exists m. split; [done|].
    apply He. zlia.
  - unfold with_socket. inv_steps. by apply inv_on_socket_message.
Qed.

Lemma inv_steps_events c es c' : steps c es c' -> Forall event_ok es -> coherent c -> coherent c'.
Proof.
  induction 1 as [|c e c1 es c2 Hs _ IH]; [done|]. intros [He Hes]%Forall_cons_1 Hc.
  apply IH; [done|]. inversion Hs as [? ? r ? Hr]; subst.
  pose proof (inv_run_event e He c Hc) as H. by rewrite Hr in H.
Qed.
End Coherent.

(** ** Construction and recovery *)
Section Recovery.
Context (uri host : jsstr) (port : jsnum) (path clientId : jsstr).

Let cf : config := c_cfg (initial_client uri host port path clientId ∅).
Let lk : jsstr := localKey_of host port path clientId.

(** The constructor, in a browser that has what it needs. *)
Definition load (storage : gmap jsstr StoredMessage) : result exn client :=
  new_ClientImpl true true true uri host port path clientId storage.

Lemma load_spec st : storage_ok lk st ->
  exists s r, load st = Ret (tables s r (initial_client uri host port path clientId st)) /\
    (forall id, s !! id = from_storage st lk Sent id) /\
    (forall id, r !! id = from_storage st lk Received id).
Proof.
  intros Hok. unfold load, new_ClientImpl. cbn [negb].
  set (c0 := initial_client uri host port path clientId st).
  destruct (restore_all_spec (map_to_list st).*1 c0 Hok) as (s & r & Hr & Hs & Hrec).
  { apply Forall_forall. intros k Hk. apply list_elem_of_In, list_elem_of_fmap in Hk as ([k' v] & -> & Hk).
    apply elem_of_map_to_list in Hk. by exists v. }
  change (cf_localKey (c_cfg c0)) with lk in *. change (e_localStorage c0) with st in *.
  exists s, r. split; [by rewrite Hr|].
  assert (forall b id, from_storage st lk b id
          = if decide (storage_key b lk (Some id) ∈ (map_to_list st).*1)
            then from_storage st lk b id else None) as Hd.
  { intros b id. case_decide as Hin; [done|]. unfold from_storage.
    destruct (st !! storage_key b lk (Some id)) as [v|] eqn:E; [|done]. destruct Hin.
    apply list_elem_of_fmap. eexists (_, v). split; [done|]. by apply elem_of_map_to_list. }
  split; intros id; rewrite (Hd _ id); [rewrite Hs|rewrite Hrec]; cbn;
    by rewrite lookup_empty.
Qed.

Lemma from_storage_saved st b id m :
  storage_ok lk st -> from_storage st lk b id = Some m ->
  exists s, st !! storage_key b lk (Some id) = Some s /\ saved b id m s.
Proof.
  intros Hok. unfold from_storage.
  destruct (st !! storage_key b lk (Some id)) as [s|] eqn:E; [|done]. cbn.
  destruct (st_destinationName s) as [d|] eqn:Ed; [|done]. intros [= <-].
  exists s. split; [done|]. apply saved_table_entry; [|done].
  destruct (Hok b _ s E (storage_key_prefix b lk _)) as (id' & [_ [= <-]]%storage_key_inj & Hr).
  done.
Qed.

Lemma load_coherent st c : storage_ok lk st -> load st = Ret c -> coherent cf c.
Proof.
  intros Hok Hl. destruct (load_spec st Hok) as (s & r & E & Hs & Hr).
  rewrite E in Hl. injection Hl as <-. constructor; cbn; [done| | |done|done|done].
  - intros id m Hm _. rewrite Hs in Hm. by apply from_storage_saved.
  - intros id m Hm. rewrite Hr in Hm. by apply from_storage_saved.
Qed.

(** What a saved message becomes after a reload. *)
Lemma saved_from_storage st b id m s :
  st !! storage_key b lk (Some id) = Some s -> saved b id m s ->
  exists m', from_storage st lk b id = Some m' /\ view m' = view m /\
    duplicate_of m' = match b with Sent => true | Received => duplicate_of m end.
Proof.
  intros Hs Hv. destruct (saved_restorable _ _ _ _ Hv) as (Ht & Hi & [d Hd] & Hq).
  exists (table_entry b s d). split; [unfold from_storage; rewrite Hs; cbn; by rewrite Hd|].
  pose proof (saved_table_entry b id s d (saved_restorable _ _ _ _ Hv) Hd) as Hv'.
  split; [by rewrite (saved_view _ _ _ _ Hv'), (saved_view _ _ _ _ Hv)|].
  destruct b; [done|]. by rewrite <- (saved_duplicate _ _ _ _ Hv).
Qed.

End Recovery.
