(* ===== verification/Identifiers.v ===== *)
(** * Packet identifiers

    [_requires_ack] gives a message that expects an acknowledgement the first
    identifier that is not in flight, searching up from the last one it gave. *)

From stdpp Require Import base tactics list strings gmap numbers.
From Stdlib Require Import ZArith Lia.
From S2P Require Import Prelude PahoBase Utf8 Wire WireFacts Client ClientKeeps Storage.
Local Open Scope Z_scope.
Local Open Scope st_scope.

Section Search.
Context (sent : gmap jsnum WireMessage).

Definition in_flight (id : Z) : Prop := is_Some (sent !! Num id).

Definition identifiers (id : Z) (n : nat) : gset jsnum :=
  list_to_set ((λ i, Num (id + Z.of_nat i)) <$> seq 0 n).

Lemma size_identifiers id n : size (identifiers id n) = n.
Proof.
  unfold identifiers. rewrite size_list_to_set, length_fmap, length_seq; [done|].
  apply NoDup_fmap_2; [intros i j [= H]; lia|apply NoDup_seq].
Qed.

(** Not every one of [S (size sent)] identifiers can be in use. *)
Lemma identifiers_not_all id :
  ~ (forall i, (i <= size sent)%nat -> in_flight (id + Z.of_nat i)).
Proof.
  intros H. assert (identifiers id (S (size sent)) ⊆ dom sent) as Hs.
  { intros k. unfold identifiers. rewrite elem_of_list_to_set, list_elem_of_fmap.
    intros (i & -> & Hi%elem_of_seq). apply elem_of_dom, H. lia. }
  apply subseteq_size in Hs. rewrite size_identifiers, size_dom in Hs. lia.
Qed.

Lemma next_identifier_search fuel id :
  let r := next_identifier fuel sent id in
  id <= r <= id + Z.of_nat fuel /\
  (forall i, id <= i < r -> in_flight i) /\
  (r < id + Z.of_nat fuel -> ~ in_flight r).
Proof.
  revert id. induction fuel as [|fuel IH]; intros id; cbn [next_identifier].
  { cbn. split_and!; lia. }
  case_match eqn:E.
  - destruct (IH (id + 1)) as (H1 & H2 & H3). split_and!; [lia|lia| |intros; apply H3; lia].
    intros i Hi. destruct (decide (i = id)) as [->|]; [by unfold in_flight; rewrite E|].
    apply H2. lia.
  - split_and!; [lia|lia|lia|]. intros _. unfold in_flight. rewrite E. by intros [? ?].
Qed.

(** The search finds the least identifier not in use. *)
Lemma next_identifier_least id :
  let r := next_identifier (S (size sent)) sent id in
  id <= r <= id + Z.of_nat (size sent) /\
  ~ in_flight r /\ (forall i, id <= i < r -> in_flight i).
Proof.
  destruct (next_identifier_search (S (size sent)) id) as (H1 & H2 & H3).
  set (r := next_identifier _ _ _) in *. cbv zeta.
  assert (r < id + Z.of_nat (S (size sent))) as Hr.
  { apply Z.nle_gt. intros Hge. apply (identifiers_not_all id).
    intros i Hi. apply H2. lia. }
  split_and!; [lia|lia|by apply H3|done].
Qed.
End Search.

Definition acknowledged_message (m : WireMessage) (id : Z) (m' : WireMessage) : Prop :=
  wm_type m' = wm_type m /\ wm_messageIdentifier m' = Some (Num id) /\
  wm_payloadMessage m' = wm_payloadMessage m.

Lemma requires_ack_cases m c :
  ackable m ->
  if decide (Z.of_nat (size (c_sentMessages c)) <= cf_maxMessageIdentifier (c_cfg c)) then
    exists m' c', _requires_ack m c = (Ret m', c') /\
      acknowledged_message m (requires_ack_id c) m' /\
      c_sentMessages c' = <[Num (requires_ack_id c) := m']> (c_sentMessages c) /\
      c_message_identifier c' = wrapped (requires_ack_id c) c
  else exists e, _requires_ack m c = (Throw e, c).
Proof.
  intros Hm. case_decide as Hn.
  - destruct (decide (wm_type m = MESSAGE_TYPE.PUBLISH)) as [Ht|Ht].
    + destruct (Hm Ht) as (p & Hp & Hs).
      rewrite (requires_ack_publish m p) by (done || apply Hs).
      do 2 eexists. split; [reflexivity|]. unfold acknowledged_message, sequenced.
      split_and!; by destruct (wm_sequence _).
    + rewrite requires_ack_other by done. do 2 eexists. split; [reflexivity|]. done.
  - eexists. unfold _requires_ack, bind, get, when, throw.
    assert ((Z.of_nat (size (c_sentMessages c)) >? cf_maxMessageIdentifier (c_cfg c)) = true)
      as -> by zlia. done.
Qed.

(** C15: in every state the client can reach, a message that needs an
    acknowledgement is refused, leaving the state alone, only when more messages
    are in flight than the maximum; otherwise the search terminates with the
    least identifier not in flight from the current one, the message enters the
    table under it and no message in flight is overwritten.  The identifier is a
    valid one, from 1 to 65535, as long as the current one and the number of
    messages in flight leave room. *)
Theorem requires_ack_fresh uri host port path clientId storage c0 es c m :
  storage_ok (localKey_of host port path clientId) storage ->
  load uri host port path clientId storage = Ret c0 ->
  Forall event_ok es -> steps c0 es c -> ackable m ->
  if decide (Z.of_nat (size (c_sentMessages c)) <= 65536) then
    exists m' c' id, _requires_ack m c = (Ret m', c') /\
      acknowledged_message m id m' /\
      c_sentMessages c !! Num id = None /\
      c_sentMessages c' = <[Num id := m']> (c_sentMessages c) /\
      (forall i, c_message_identifier c <= i < id -> is_Some (c_sentMessages c !! Num i)) /\
      1 <= c_message_identifier c <= id /\
      (c_message_identifier c + Z.of_nat (size (c_sentMessages c)) < 65536 -> id < 65536)
  else exists e, _requires_ack m c = (Throw e, c).
Proof.
  intros Hok Hl Hes Hst Hm.
  pose proof (inv_steps_events _ c0 es c Hst Hes (load_coherent _ _ _ _ _ _ _ Hok Hl)) as Hc.
  pose proof (requires_ack_cases m c Hm) as Hr. rewrite (coh_cfg _ _ Hc) in Hr. cbn in Hr.
  case_decide; [|done]. destruct Hr as (m' & c' & E & Ha & Hs & _).
  destruct (next_identifier_least (c_sentMessages c) (c_message_identifier c)) as (Hr & Hf & Hle).
  fold (requires_ack_id c) in Hr, Hf, Hle.
  exists m', c', (requires_ack_id c). split_and!; [done|done| |done|done|apply Hc|lia|lia].
  by apply eq_None_not_Some.
Qed.

(** The maximum lets the identifier 65536 be given, once all the smaller
    ones are in flight, and on the wire it is 0, which the protocol forbids: the
    acknowledgement of the server cannot be matched to it. *)
Theorem identifier_overflow c m :
  cf_maxMessageIdentifier (c_cfg c) = 65536 ->
  ackable m -> 1 <= c_message_identifier c <= 65536 ->
  (forall id, is_Some (c_sentMessages c !! Num id) <-> 1 <= id < 65536) ->
  Z.of_nat (size (c_sentMessages c)) <= 65536 ->
  exists m' c', _requires_ack m c = (Ret m', c') /\
    wm_messageIdentifier m' = Some (Num 65536) /\
    fst (writeUint16 (num_bits (id_key (wm_messageIdentifier m'))) [0; 0] 0) = [0; 0] /\
    c_message_identifier c' = 1.
Proof.
  intros Hmax Hm Hmid Hall Hsize. pose proof (requires_ack_cases m c Hm) as Hr.
  rewrite Hmax in Hr. rewrite decide_True in Hr by done.
  destruct Hr as (m' & c' & E & (_ & Hid & _) & _ & Hw).
  destruct (next_identifier_least (c_sentMessages c) (c_message_identifier c)) as (Hr & Hf & Hle).
  fold (requires_ack_id c) in Hr, Hf, Hle. unfold in_flight in *. rewrite Hall in Hf.
  assert (requires_ack_id c = 65536) as Eid.
  { destruct (decide (65536 < requires_ack_id c)) as [Hgt|]; [|lia].
    specialize (Hle 65536). rewrite Hall in Hle. lia. }
  exists m', c'. rewrite Hid, Eid. split_and!; [done|done|vm_compute; done|].
  rewrite Hw, Eid. unfold wrapped. by rewrite Hmax.
Qed.
