(* ===== verification/Ready.v ===== *)
(** * A connected client: sending without surprises

    [ready c]: the client is connected over an open socket, nothing waits in its
    queue and no disconnection is pending.  In such a state a message that can be
    encoded goes out at once and leaves everything but the keep-alive timers as
    it was; the handlers of [Delivery.v] are analysed from here. *)

From stdpp Require Import base tactics list strings gmap numbers.
From Stdlib Require Import ZArith Lia.
From S2P Require Import Prelude PahoBase Utf8 Wire WireFacts Client ClientKeeps.
Local Open Scope Z_scope.
Local Open Scope st_scope.

(** What neither a packet received nor a message sent changes. *)
Record core_state := mkCore {
  k_handlers : handlers;
  k_socket : option socket;
  k_connected : bool;
  k_connectOptions : option ConnectOptions;
  k_hostIndex : nat;
  k_msg_queue : list WireMessage;
  k_notify : option notification;
  k_connectTimeout : option nat;
  k_sendPinger : option nat;
  k_receivePinger : option nat;
  k_receiveBuffer : option (list Z);
  k_pingers : gset nat;
}.

Definition core (c : client) : core_state :=
  mkCore (c_handlers c) (c_socket c) (c_connected c) (c_connectOptions c) (c_hostIndex c)
    (c_msg_queue c) (c_notify_msg_sent c) (c_connectTimeout c) (c_sendPinger c)
    (c_receivePinger c) (c_receiveBuffer c) (dom (e_pingers c)).

Definition core_ready (k : core_state) : Prop :=
  k_connected k = true /\
  (exists s, k_socket k = Some s /\ ws_readyState s = 1) /\
  k_msg_queue k = [] /\
  k_notify k <> Some NotifyDisconnected /\
  (exists p, k_sendPinger k = Some p /\ p ∈ k_pingers k) /\
  (exists p, k_receivePinger k = Some p /\ p ∈ k_pingers k).

Definition ready (c : client) : Prop := core_ready (core c).

(** A call that returns, adds [o] to the output, and touches neither the core
    nor the durable part. *)
Definition emits {A} (m : C A) (c : client) (a : A) (o : list output) : Prop :=
  exists c', m c = (Ret a, c') /\ core c' = core c /\ durable_of c' = durable_of c /\
             e_output c' = e_output c ++ o.

Lemma emits_pinger_reset f p c :
  f c = Some p -> p ∈ dom (e_pingers c) -> emits (on_pinger f Pinger_reset) c tt [].
Proof.
  intros Hf [pg Hp]%elem_of_dom. unfold emits, on_pinger, Pinger_reset, get_pinger, bind, get, deref, ret.
  rewrite Hf, Hp. cbn.
  assert (forall v, dom (<[p := v]> (e_pingers c)) = dom (e_pingers c)) as Hdom.
  { intros v. apply dom_insert_lookup_L. by exists pg. }
  unfold clearTimeout, modify, set_pinger, ret.
  destruct (pg_timeout pg), (pg_keepAliveInterval pg >? 0); cbn;
    (eexists; split; [reflexivity|]); (split; [unfold core; cbn; by rewrite Hdom|];
     split; [done|cbn; by rewrite app_nil_r]).
Qed.

Lemma ready_socket_send m c bs :
  ready c -> encode m = Ret bs -> emits (_socket_send m) c tt [SocketSend bs].
Proof.
  intros (_ & (s & Hs & Ho) & _ & _ & (p & Hp & Hin) & _) He. cbn in *.
  unfold emits, _socket_send, bind, get, lift, deref, ret. rewrite Hs, He.
  unfold ws_send. rewrite Ho. unfold emit, modify.
  change (1 =? 0) with false. change (1 =? 1) with true. cbv beta iota.
  set (c1 := set_output (e_output c ++ [SocketSend bs]) c).
  destruct (emits_pinger_reset c_sendPinger p c1) as (c' & -> & H1 & H2 & H3); [done|done|].
  exists c'. split; [done|]. rewrite H1, H2, H3, app_nil_r. done.
Qed.

Lemma ready_schedule m c bs :
  ready c -> encode m = Ret bs -> emits (_schedule_message m) c tt [SocketSend bs].
Proof.
  intros Hr He. pose proof Hr as (Hc & _ & Hq & Hn & _). cbn in Hc, Hq, Hn.
  unfold emits, _schedule_message, bind, modify, get. cbn [c_connected set_msg_queue].
  rewrite Hc, Hq. cbn [app when]. unfold _process_queue, bind, get.
  cbn [c_msg_queue set_msg_queue process_fifo]. unfold bind at 1, sync_queue, modify.
  cbn [c_queue_epoch set_msg_queue]. rewrite Nat.eqb_refl. cbn [rev].
  set (c1 := set_msg_queue [] _).
  assert (core c1 = core c) as Ec1 by (unfold core; cbn; by rewrite Hq).
  assert (ready c1) as Hr1 by (unfold ready; by rewrite Ec1).
  destruct (ready_socket_send m c1 bs Hr1 He) as (c2 & E2 & K2 & D2 & O2).
  unfold bind at 1. rewrite E2. unfold run_notification, bind, get.
  assert (c_notify_msg_sent c2 = c_notify_msg_sent c) as ->.
  { change (k_notify (core c2) = k_notify (core c)). by rewrite K2, Ec1. }
  destruct (c_notify_msg_sent c) as [[]|]; [done|..];
    (exists c2; split; [done|]; rewrite K2, Ec1, D2, O2; done).
Qed.
