(* ===== verification/Delivery.v ===== *)
(** * Delivery: the client refines the protocol's message exchange

    The specification is a small automaton: the messages sent and not
    acknowledged, the qos 2 messages received and not released, and for each
    packet the answer on the wire and the application's callbacks.  A connected
    client that handles the packets of a chunk of data behaves as the automaton. *)

From stdpp Require Import base tactics list strings gmap numbers.
From Stdlib Require Import ZArith Lia.
From S2P Require Import Prelude PahoBase Utf8 Wire WireFacts Client ClientKeeps Deframe Storage.
From S2P Require Import Identifiers Ready.
Local Open Scope Z_scope.
Local Open Scope st_scope.

(** ** The specification *)
Inductive packet_in :=
  | Pub0 (m : Message)
  | Pub1 (n : Z) (m : Message)
  | Pub2 (n : Z) (m : Message)
  | Rel (n : Z)
  | Ack (n : Z)
  | Rec (n : Z)
  | Comp (n : Z).

Record session := mkSession {
  outstanding : gmap Z Message;
  pending : gmap Z Message;
}.

Definition answer (t n : Z) : output := SocketSend (packet (ack_first t) (uint16_bytes n)).
Definition arrived (m : Message) : output := OnMessageArrived (Some m).
Definition was_delivered (m : Message) : output := OnMessageDelivered (Some m).

Definition exchange (i : packet_in) (s : session) : session * list output :=
  match i with
  | Pub0 m => (s, [arrived m])
  | Pub1 n m => (s, [answer MESSAGE_TYPE.PUBACK n; arrived m])
  | Pub2 n m => (mkSession (outstanding s) (<[n := m]> (pending s)),
                 [answer MESSAGE_TYPE.PUBREC n])
  | Rel n =>
      match pending s !! n with
      | Some m => (mkSession (outstanding s) (delete n (pending s)),
                   [arrived m; answer MESSAGE_TYPE.PUBCOMP n])
      | None => (s, [answer MESSAGE_TYPE.PUBCOMP n])
      end
  | Ack n | Comp n =>
      match outstanding s !! n with
      | Some m => (mkSession (delete n (outstanding s)) (pending s), [was_delivered m])
      | None => (s, [])
      end
  | Rec n =>
      match outstanding s !! n with
      | Some _ => (s, [answer MESSAGE_TYPE.PUBREL n])
      | None => (s, [])
      end
  end.

Fixpoint exchanges (ps : list packet_in) (s : session) : session * list output :=
  match ps with
  | [] => (s, [])
  | i :: ps' =>
      let '(s1, o1) := exchange i s in
      let '(s2, o2) := exchanges ps' s1 in
      (s2, o1 ++ o2)
  end.

(** A PUBCOMP is for a message the client has in flight. *)
Definition expected (i : packet_in) (s : session) : Prop :=
  match i with Comp n => is_Some (outstanding s !! n) | _ => True end.

Fixpoint all_expected (ps : list packet_in) (s : session) : Prop :=
  match ps with
  | [] => True
  | i :: ps' => expected i s /\ all_expected ps' (fst (exchange i s))
  end.

(** ** The packets on the wire *)
Definition id_of (i : packet_in) : option jsnum :=
  match i with
  | Pub0 _ => None
  | Pub1 n _ | Pub2 n _ | Rel n | Ack n | Rec n | Comp n => Some (Num n)
  end.

Definition ack_type (i : packet_in) : Z :=
  match i with
  | Pub0 _ | Pub1 _ _ | Pub2 _ _ => MESSAGE_TYPE.PUBLISH
  | Rel _ => MESSAGE_TYPE.PUBREL
  | Ack _ => MESSAGE_TYPE.PUBACK
  | Rec _ => MESSAGE_TYPE.PUBREC
  | Comp _ => MESSAGE_TYPE.PUBCOMP
  end.

Definition message_of (i : packet_in) : option Message :=
  match i with Pub0 m | Pub1 _ m | Pub2 _ m => Some m | _ => None end.

(** What the decoder makes of the packet. *)
Definition wire_of (i : packet_in) : WireMessage :=
  match message_of i with
  | Some m => set_payloadMessage m (new_ack MESSAGE_TYPE.PUBLISH (id_of i))
  | None => new_ack (ack_type i) (id_of i)
  end.

Definition topic_of (m : Message) : jsstr := default [] (destinationName m).

Definition bytes_of (i : packet_in) : list Z :=
  match message_of i, id_of i with
  | Some m, id => packet (publish_first m) (publish_body id (topic_of m) m)
  | None, Some (Num n) => packet (ack_first (ack_type i)) (uint16_bytes n)
  | None, _ => []
  end.

(** A message as the decoder produces it. *)
Record wire_message (q : Z) (id : option jsnum) (m : Message) : Prop := {
  wmsg_payload : exists bs, msg_payload m = PUint8Array bs /\ Forall is_byte bs;
  wmsg_topic : exists d, destinationName m = Some d /\ encodable d;
  wmsg_qos : qos m = q;
  wmsg_length : Z.of_nat (length (publish_body id (topic_of m) m)) < max_length;
}.

Definition id_range (n : Z) : Prop := 0 <= n < 65536.

Definition packet_ok (i : packet_in) : Prop :=
  match i with
  | Pub0 m => wire_message 0 None m
  | Pub1 n m => id_range n /\ wire_message 1 (Some (Num n)) m
  | Pub2 n m => id_range n /\ wire_message 2 (Some (Num n)) m
  | Rel n | Ack n | Rec n | Comp n => id_range n
  end.

Lemma frame_wire_message q id m :
  wire_message q id m -> id_for_qos id q -> 0 <= q <= 2 ->
  frame (packet (publish_first m) (publish_body id (topic_of m) m))
        (set_payloadMessage m (new_ack MESSAGE_TYPE.PUBLISH id)).
Proof.
  intros [(bs & Hp & Hbs) (d & Hd & He) Hq Hl] Hid Hr.
  assert (topic_of m = d) as Ht by (unfold topic_of; by rewrite Hd).
  rewrite Ht in *.
  replace (set_payloadMessage m _) with (received_publish id m d).
  - apply frame_publish; [|by rewrite Hq|done].
    constructor; [done|done|by rewrite Hp|by rewrite Hq].
  - unfold received_publish, received. rewrite Hp, <- Hd. cbn. rewrite <- Hp. by destruct m.
Qed.

Lemma frame_packet_in i : packet_ok i -> frame (bytes_of i) (wire_of i).
Proof.
  destruct i; unfold bytes_of, wire_of; cbn -[packet publish_body ack_first new_ack];
    [intros H|intros [Hn H]|intros [Hn H]|intros Hn..].
  - by apply (frame_wire_message 0).
  - apply (frame_wire_message 1); [done| |lia]. by exists n.
  - apply (frame_wire_message 2); [done| |lia]. by exists n.
  - apply frame_ack; [unfold is_ack; tauto|done].
  - apply frame_ack; [unfold is_ack; tauto|done].
  - apply frame_ack; [unfold is_ack; tauto|done].
  - apply frame_ack; [unfold is_ack; tauto|done].
Qed.

(** ** The refinement relation *)
Definition sent_entry (n : Z) (m : Message) (w : WireMessage) : Prop :=
  wm_type w = MESSAGE_TYPE.PUBLISH /\ wm_messageIdentifier w = Some (Num n) /\
  wm_payloadMessage w = Some m /\ storable m.

Record represents (c : client) (s : session) : Prop := {
  rep_sent : forall n, match outstanding s !! n with
    | Some m => exists w, c_sentMessages c !! Num n = Some w /\ sent_entry n m w
    | None => c_sentMessages c !! Num n = None
    end;
  rep_received : forall n, match pending s !! n with
    | Some m => exists w, c_receivedMessages c !! Num n = Some w /\ wm_payloadMessage w = Some m
    | None => c_receivedMessages c !! Num n = None
    end;
}.

Definition running (c : client) : Prop :=
  ready c /\ h_onMessageArrived (c_handlers c) = true /\ h_onMessageDelivered (c_handlers c) = true.

Lemma running_core c c' : core c' = core c -> running c -> running c'.
Proof.
  unfold running, ready. intros E. change (c_handlers c') with (k_handlers (core c')).
  by rewrite E.
Qed.

Lemma represents_durable c c' s : durable_of c' = durable_of c -> represents c s -> represents c' s.
Proof.
  intros E [H1 H2]. pose proof (f_equal d_sent E) as Es. pose proof (f_equal d_received E) as Er.
  cbn in Es, Er. constructor; by rewrite ?Es, ?Er.
Qed.

(** One packet handled as the specification says. *)
Definition handles (i : packet_in) (c : client) (s : session) : Prop :=
  exists c', _handleMessage (wire_of i) c = (Ret tt, c') /\ core c' = core c /\
    represents c' (fst (exchange i s)) /\ e_output c' = e_output c ++ snd (exchange i s).

Lemma handles_intro i c s c' :
  dispatch (wire_of i) c = (Ret tt, c') -> core c' = core c ->
  represents c' (fst (exchange i s)) -> e_output c' = e_output c ++ snd (exchange i s) ->
  handles i c s.
Proof. intros H1 H2 H3 H4. exists c'. unfold _handleMessage, try. by rewrite H1. Qed.

Lemma receiveMessage_run c w m :
  running c -> wm_payloadMessage w = Some m ->
  _receiveMessage w c = (Ret tt, set_output (e_output c ++ [arrived m]) c).
Proof.
  intros (_ & Ha & _) Hp. unfold _receiveMessage, bind, get. rewrite Ha, Hp. done.
Qed.

Lemma delivered_run c m :
  running c -> delivered (Some m) c = (Ret tt, set_output (e_output c ++ [was_delivered m]) c).
Proof. intros (_ & _ & Hd). unfold delivered, bind, get. by rewrite Hd. Qed.

Lemma schedule_ack t n c :
  running c -> is_ack t -> id_range n ->
  emits (_schedule_message (new_ack t (Some (Num n)))) c tt [answer t n].
Proof. intros [Hr _] Ht Hn. by apply ready_schedule, encode_ack. Qed.

Lemma handles_Pub0 m c s : running c -> represents c s -> packet_ok (Pub0 m) -> handles (Pub0 m) c s.
Proof.
  intros Hc Hs [_ _ Hq _]. eapply (handles_intro _ _ _ (set_output (e_output c ++ [arrived m]) c));
    [|done|by apply (represents_durable c)|done].
  change (dispatch (wire_of (Pub0 m))) with (_receivePublish (wire_of (Pub0 m))).
  unfold _receivePublish. cbn [wire_of message_of wm_payloadMessage set_payloadMessage deref].
  unfold bind, ret. rewrite Hq. change (0 =? 0) with true. cbv iota.
  by apply receiveMessage_run.
Qed.

Lemma handles_Pub1 n m c s :
  running c -> represents c s -> packet_ok (Pub1 n m) -> handles (Pub1 n m) c s.
Proof.
  intros Hc Hs [Hn [_ _ Hq _]].
  destruct (schedule_ack MESSAGE_TYPE.PUBACK n c Hc) as (c1 & E1 & K1 & D1 & O1);
    [unfold is_ack; tauto|done|].
  eapply (handles_intro _ _ _ (set_output (e_output c1 ++ [arrived m]) c1)).
  - change (dispatch (wire_of (Pub1 n m))) with (_receivePublish (wire_of (Pub1 n m))).
    unfold _receivePublish. cbn [wire_of message_of wm_payloadMessage set_payloadMessage deref].
    unfold bind at 1, ret. rewrite Hq. change (1 =? 0) with false. change (1 =? 1) with true.
    cbv iota. unfold bind. cbn [wm_messageIdentifier set_payloadMessage new_ack id_of set_messageIdentifier].
    unfold new_ack in E1. rewrite E1. apply receiveMessage_run; [|done]. by eapply running_core.
  - done.
  - by apply (represents_durable c).
  - cbn. by rewrite O1, <- app_assoc.
Qed.

Lemma represents_receive c c' s n m w :
  represents c s -> wm_payloadMessage w = Some m ->
  c_sentMessages c' = c_sentMessages c ->
  c_receivedMessages c' = <[Num n := w]> (c_receivedMessages c) ->
  represents c' (mkSession (outstanding s) (<[n := m]> (pending s))).
Proof.
  intros [H1 H2] Hw Es Er. constructor; cbn; rewrite ?Es, ?Er; [done|]. intros j.
  destruct (decide (j = n)) as [->|Hj]; [rewrite !lookup_insert_eq; by exists w|].
  rewrite !lookup_insert_ne by congruence. apply H2.
Qed.

Lemma represents_release c c' s n :
  represents c s -> c_sentMessages c' = c_sentMessages c ->
  c_receivedMessages c' = delete (Num n) (c_receivedMessages c) ->
  represents c' (mkSession (outstanding s) (delete n (pending s))).
Proof.
  intros [H1 H2] Es Er. constructor; cbn; rewrite ?Es, ?Er; [done|]. intros j.
  destruct (decide (j = n)) as [->|Hj]; [by rewrite !lookup_delete_eq|].
  rewrite !lookup_delete_ne by congruence. apply H2.
Qed.

Lemma represents_acknowledge c c' s n :
  represents c s -> c_receivedMessages c' = c_receivedMessages c ->
  c_sentMessages c' = delete (Num n) (c_sentMessages c) ->
  represents c' (mkSession (delete n (outstanding s)) (pending s)).
Proof.
  intros [H1 H2] Er Es. constructor; cbn; rewrite ?Es, ?Er; [|done]. intros j.
  destruct (decide (j = n)) as [->|Hj]; [by rewrite !lookup_delete_eq|].
  rewrite !lookup_delete_ne by congruence. apply H1.
Qed.

Lemma represents_update c c' s n m w :
  represents c s -> outstanding s !! n = Some m -> sent_entry n m w ->
  c_receivedMessages c' = c_receivedMessages c ->
  c_sentMessages c' = <[Num n := w]> (c_sentMessages c) -> represents c' s.
Proof.
  intros [H1 H2] Hn Hw Er Es. constructor; rewrite ?Es, ?Er; [|done]. intros j.
  destruct (decide (j = n)) as [->|Hj]; [rewrite Hn, lookup_insert_eq; by exists w|].
  rewrite lookup_insert_ne by congruence. apply H1.
Qed.

Lemma handles_Pub2 n m c s :
  running c -> represents c s -> packet_ok (Pub2 n m) -> handles (Pub2 n m) c s.
Proof.
  intros Hc Hs [Hn [(bs & Hp & Hbs) (d & Hd & _) Hq _]].
  set (w := wire_of (Pub2 n m)).
  set (c1 := stored_state Received (Num n) w m
               (set_receivedMessages (<[Num n := w]> (c_receivedMessages c)) c)).
  destruct (schedule_ack MESSAGE_TYPE.PUBREC n c1) as (c2 & E2 & K2 & D2 & O2);
    [by apply (running_core c)|unfold is_ack; tauto|done|].
  apply (handles_intro _ _ _ c2).
  - change (dispatch (wire_of (Pub2 n m))) with (_receivePublish w).
    unfold _receivePublish, w. cbn [wire_of message_of wm_payloadMessage set_payloadMessage deref].
    unfold bind at 1, ret. rewrite Hq. change (2 =? 0) with false. change (2 =? 1) with false.
    change (2 =? 2) with true. cbv iota. unfold bind at 1, modify. unfold bind at 1.
    fold w. rewrite (store_run Received (Num n) w m); [exact E2|done|done|done|by rewrite Hp].
  - by rewrite K2.
  - eapply represents_durable; [exact D2|]. by apply (represents_receive c _ _ _ _ w).
  - by rewrite O2.
Qed.

Lemma handles_Rel n c s :
  running c -> represents c s -> id_range n -> handles (Rel n) c s.
Proof.
  intros Hc Hs Hn. pose proof (rep_received c s Hs n) as Hr. unfold handles. cbn [exchange].
  set (key := storage_key Received (cf_localKey (c_cfg c)) (Some (Num n))).
  set (c0 := set_localStorage (delete key (e_localStorage c)) c).
  destruct (pending s !! n) as [m|] eqn:Ep.
  - destruct Hr as (w & Hw & Hm).
    set (c1 := set_receivedMessages (delete (Num n) (c_receivedMessages c))
                 (set_output (e_output c ++ [arrived m]) c0)).
    destruct (schedule_ack MESSAGE_TYPE.PUBCOMP n c1) as (c2 & E2 & K2 & D2 & O2);
      [by apply (running_core c)|unfold is_ack; tauto|done|].
    replace (fst _) with (fst (exchange (Rel n) s)) by (cbn; by rewrite Ep).
    replace (snd _) with (snd (exchange (Rel n) s)) by (cbn; by rewrite Ep).
    apply (handles_intro _ _ _ c2).
    + change (dispatch (wire_of (Rel n))) with (handle_pubrel (wire_of (Rel n))).
      unfold handle_pubrel, bind at 1, get. cbn [wire_of message_of wm_messageIdentifier new_ack
        id_of set_messageIdentifier id_key default]. unfold id. rewrite Hw.
      unfold bind at 1, removeItem, bind at 1, get, modify. fold key. fold c0.
      unfold bind at 1, bind at 1. rewrite (receiveMessage_run c0 w m); [|done|done]. exact E2.
    + by rewrite K2.
    + cbn [exchange]. rewrite Ep. eapply represents_durable; [exact D2|].
      by apply (represents_release c).
    + cbn [exchange]. rewrite Ep, O2. cbn. by rewrite <- app_assoc.
  - destruct (schedule_ack MESSAGE_TYPE.PUBCOMP n c0) as (c2 & E2 & K2 & D2 & O2);
      [by apply (running_core c)|unfold is_ack; tauto|done|].
    replace (fst _) with (fst (exchange (Rel n) s)) by (cbn; by rewrite Ep).
    replace (snd _) with (snd (exchange (Rel n) s)) by (cbn; by rewrite Ep).
    apply (handles_intro _ _ _ c2).
    + change (dispatch (wire_of (Rel n))) with (handle_pubrel (wire_of (Rel n))).
      unfold handle_pubrel, bind at 1, get. cbn [wire_of message_of wm_messageIdentifier new_ack
        id_of set_messageIdentifier id_key default]. unfold id. rewrite Hr.
      unfold bind at 1, removeItem, bind at 1, get, modify. fold key. fold c0.
      unfold bind at 1. exact E2.
    + by rewrite K2.
    + cbn [exchange]. rewrite Ep. eapply represents_durable; [exact D2|].
      by destruct Hs; constructor.
    + cbn [exchange]. by rewrite Ep, O2.
Qed.

(** The state after a message in flight is acknowledged. *)
Definition acknowledged (n : Z) (c : client) : client :=
  set_localStorage (delete (storage_key Sent (cf_localKey (c_cfg c)) (Some (Num n)))
                      (e_localStorage c))
    (set_sentMessages (delete (Num n) (c_sentMessages c)) c).

Lemma handles_acknowledge i n m c s :
  running c -> represents c s -> outstanding s !! n = Some m ->
  exchange i s = (mkSession (delete n (outstanding s)) (pending s), [was_delivered m]) ->
  dispatch (wire_of i) c = delivered (Some m) (acknowledged n c) ->
  handles i c s.
Proof.
  intros Hc Hs Hn He Hd.
  apply (handles_intro _ _ _ (set_output (e_output c ++ [was_delivered m]) (acknowledged n c))).
  - rewrite Hd. by apply (delivered_run (acknowledged n c)).
  - done.
  - rewrite He. by apply (represents_acknowledge c).
  - by rewrite He.
Qed.

Lemma handles_Ack n c s : running c -> represents c s -> handles (Ack n) c s.
Proof.
  intros Hc Hs. pose proof (rep_sent c s Hs n) as Hn.
  destruct (outstanding s !! n) as [m|] eqn:Eo.
  - destruct Hn as (w & Hw & _ & _ & Hp & _).
    apply (handles_acknowledge _ n m); [done|done|done|cbn; by rewrite Eo|].
    change (dispatch (wire_of (Ack n))) with (handle_puback (wire_of (Ack n))).
    unfold handle_puback, sent_message, bind at 1, get.
    cbn [wire_of message_of wm_messageIdentifier new_ack id_of set_messageIdentifier id_key default].
    unfold id. rewrite Hw. unfold bind, delete_sent, removeItem, modify, get. by rewrite Hp.
  - apply (handles_intro _ _ _ c); [|done|cbn; by rewrite Eo|cbn; by rewrite Eo, app_nil_r].
    change (dispatch (wire_of (Ack n))) with (handle_puback (wire_of (Ack n))).
    unfold handle_puback, sent_message, bind at 1, get.
    cbn [wire_of message_of wm_messageIdentifier new_ack id_of set_messageIdentifier id_key default].
    unfold id. by rewrite Hn.
Qed.

Lemma handles_Comp n c s :
  running c -> represents c s -> is_Some (outstanding s !! n) -> handles (Comp n) c s.
Proof.
  intros Hc Hs [m Eo]. pose proof (rep_sent c s Hs n) as Hn. rewrite Eo in Hn.
  destruct Hn as (w & Hw & _ & _ & Hp & _).
  apply (handles_acknowledge _ n m); [done|done|done|cbn; by rewrite Eo|].
  change (dispatch (wire_of (Comp n))) with (handle_pubcomp (wire_of (Comp n))).
  unfold handle_pubcomp, sent_message, bind at 1, get.
  cbn [wire_of message_of wm_messageIdentifier new_ack id_of set_messageIdentifier id_key default].
  unfold id. rewrite Hw. unfold bind, delete_sent, removeItem, modify, get.
  unfold delivered, bind, get. cbn. rewrite Hp. done.
Qed.

Lemma sequenced_entry n m w k :
  sent_entry n m w -> sent_entry n m (sequenced Sent k (set_pubRecReceived w)).
Proof. intros (? & ? & ? & ?). unfold sequenced. by destruct (wm_sequence _). Qed.

Lemma handles_Rec n c s :
  running c -> represents c s -> id_range n -> handles (Rec n) c s.
Proof.
  intros Hc Hs Hr. pose proof (rep_sent c s Hs n) as Hn.
  destruct (outstanding s !! n) as [m|] eqn:Eo.
  - destruct Hn as (w & Hw & He). pose proof He as (Ht & Hi & Hp & Hst & _).
    set (w1 := set_pubRecReceived w). set (w2 := sequenced Sent (c_sequence c) w1).
    set (c1 := set_sentMessages (<[Num n := w2]> (<[Num n := w1]> (c_sentMessages c)))
       (stored_state Sent (Num n) w1 m (set_sentMessages (<[Num n := w1]> (c_sentMessages c)) c))).
    assert (core c1 = core c) as K1 by (unfold c1, stored_state; by destruct (wm_sequence w1)).
    destruct (schedule_ack MESSAGE_TYPE.PUBREL n c1) as (c2 & E2 & K2 & D2 & O2);
      [by apply (running_core c)|unfold is_ack; tauto|done|].
    apply (handles_intro _ _ _ c2).
    + change (dispatch (wire_of (Rec n))) with (handle_pubrec (wire_of (Rec n))).
      unfold handle_pubrec, sent_message, bind at 1, get.
      cbn [wire_of message_of wm_messageIdentifier new_ack id_of set_messageIdentifier id_key default].
      unfold id. rewrite Hw. fold w1. unfold bind at 1, modify. unfold bind at 1.
      rewrite (store_run Sent (Num n) w1 m) by done. fold w2.
      unfold bind at 1. rewrite <- E2. f_equal. unfold c1, stored_state.
      by destruct (wm_sequence w1).
    + by rewrite K2.
    + cbn. rewrite Eo. eapply represents_durable; [exact D2|].
      apply (represents_update c _ _ n m w2); [done|done|by apply sequenced_entry| |];
        unfold c1, stored_state; destruct (wm_sequence w1); cbn; try done; by rewrite insert_insert_eq.
    + cbn. rewrite Eo, O2. unfold c1, stored_state. by destruct (wm_sequence w1).
  - apply (handles_intro _ _ _ c); [|done|cbn; by rewrite Eo|cbn; by rewrite Eo, app_nil_r].
    change (dispatch (wire_of (Rec n))) with (handle_pubrec (wire_of (Rec n))).
    unfold handle_pubrec, sent_message, bind at 1, get.
    cbn [wire_of message_of wm_messageIdentifier new_ack id_of set_messageIdentifier id_key default].
    unfold id. by rewrite Hn.
Qed.

Lemma handles_packet i c s :
  running c -> represents c s -> packet_ok i -> expected i s -> handles i c s.
Proof.
  intros Hc Hs Hi He. destruct i.
  - by apply handles_Pub0.
  - by apply handles_Pub1.
  - by apply handles_Pub2.
  - by apply handles_Rel.
  - by apply handles_Ack.
  - by apply handles_Rec.
  - by apply handles_Comp.
Qed.

Lemma handles_packets ps : forall c s,
  running c -> represents c s -> Forall packet_ok ps -> all_expected ps s ->
  exists c', iter_ _handleMessage (wire_of <$> ps) c = (Ret tt, c') /\ core c' = core c /\
    represents c' (fst (exchanges ps s)) /\ e_output c' = e_output c ++ snd (exchanges ps s).
Proof.
  induction ps as [|i ps IH]; intros c s Hc Hs Hok He.
  { exists c. cbn. by rewrite app_nil_r. }
  apply Forall_cons_1 in Hok as [Hi Hok]. destruct He as [He Hes].
  destruct (handles_packet i c s Hc Hs Hi He) as (c1 & E1 & K1 & R1 & O1).
  destruct (IH c1 (fst (exchange i s))) as (c2 & E2 & K2 & R2 & O2);
    [by apply (running_core c)|done..|].
  exists c2. cbn [fmap list_fmap iter_ exchanges]. unfold bind. rewrite E1.
  destruct (exchange i s) as [s1 o1], (exchanges ps s1) as [s2 o2] eqn:Ex. cbn in *.
  rewrite Ex in R2, O2. split_and!; [done|by rewrite K2|done|by rewrite O2, O1, <- app_assoc].
Qed.

Lemma frames_packets ps : Forall packet_ok ps -> Forall2 frame (bytes_of <$> ps) (wire_of <$> ps).
Proof.
  intros Hok. apply Forall2_fmap_2, Forall_Forall2_diag. eapply Forall_impl; [|done].
  intros i. apply frame_packet_in.
Qed.

(** One chunk: the rest of a packet begun before, whole packets, and the first
    bytes of another. *)
Lemma data_chunk ps t0 t data c s :
  running c -> c_receiveBuffer c = buffered t0 -> represents c s ->
  Forall packet_ok ps -> all_expected ps s -> partial t ->
  t0 ++ data = concat (bytes_of <$> ps) ++ t ->
  exists c', run_event (SocketData data) c = (Ret tt, c') /\
    running c' /\ c_receiveBuffer c' = buffered t /\ represents c' (fst (exchanges ps s)) /\
    e_output c' = e_output c ++ snd (exchanges ps s).
Proof.
  intros Hc Hb Hs Hok He Ht Hd.
  pose proof Hc as ((_ & (so & Hso & Hopen) & _ & _ & _ & (p & Hp & Hin)) & _). cbn in Hso, Hp, Hin.
  destruct (emits_pinger_reset c_receivePinger p c Hp Hin) as (c1 & E1 & K1 & D1 & O1).
  assert (c_receiveBuffer c1 = buffered t0) as Hb1.
  { change (d_receiveBuffer (durable_of c1) = buffered t0). by rewrite D1. }
  pose proof (deframe_chunk c1 t0 data _ _ t Hb1 Hd (frames_packets ps Hok) Ht) as Ed.
  set (c2 := set_receiveBuffer (buffered t) c1) in Ed.
  assert (represents c2 s) as R2.
  { pose proof (represents_durable c c1 s D1 Hs) as [R1 R2]. by constructor. }
  destruct (handles_packets ps c2 s) as (c3 & E3 & K3 & R3 & O3);
    [exact (running_core c c1 K1 Hc)|done|done|done|].
  exists c3. split_and!.
  - cbn [run_event]. unfold with_socket, bind at 1, get. rewrite Hso.
    unfold bind at 1, modify. cbn [default]. unfold id.
    replace (set_socket _ c) with c; [|destruct so; cbn; rewrite <- Hso; by destruct c].
    unfold _on_socket_message, bind at 1. rewrite E1. unfold bind at 1. rewrite Ed.
    unfold bind, deref, ret. exact E3.
  - apply (running_core c2); [done|]. exact (running_core c c1 K1 Hc).
  - change (k_receiveBuffer (core c3) = buffered t). by rewrite K3.
  - done.
  - rewrite O3. cbn. by rewrite O1, app_nil_r.
Qed.

Lemma exchanges_app ps1 ps2 s :
  exchanges (ps1 ++ ps2) s
  = (fst (exchanges ps2 (fst (exchanges ps1 s))),
     snd (exchanges ps1 s) ++ snd (exchanges ps2 (fst (exchanges ps1 s)))).
Proof.
  revert s. induction ps1 as [|i ps1 IH]; intros s; cbn.
  { by destruct (exchanges ps2 s). }
  destruct (exchange i s) as [s1 o1]. rewrite IH.
  destruct (exchanges ps1 s1) as [s2 o2]. cbn. by rewrite app_assoc.
Qed.

Lemma all_expected_app ps1 ps2 s :
  all_expected (ps1 ++ ps2) s <-> all_expected ps1 s /\ all_expected ps2 (fst (exchanges ps1 s)).
Proof.
  revert s. induction ps1 as [|i ps1 IH]; intros s; cbn; [tauto|].
  rewrite IH. destruct (exchange i s) as [s1 o1]. cbn.
  destruct (exchanges ps1 s1) as [s2 o2]. cbn. tauto.
Qed.

Lemma data_chunks chunks : forall ps t0 c s,
  running c -> c_receiveBuffer c = buffered t0 -> partial t0 -> represents c s ->
  Forall packet_ok ps -> all_expected ps s ->
  t0 ++ concat chunks = concat (bytes_of <$> ps) -> (chunks = [] -> ps = []) ->
  let c' := run_events (SocketData <$> chunks) c in
  running c' /\ (chunks <> [] -> c_receiveBuffer c' = None) /\
  represents c' (fst (exchanges ps s)) /\ e_output c' = e_output c ++ snd (exchanges ps s).
Proof.
  induction chunks as [|data chunks IH]; intros ps t0 c s Hc Hb Ht Hs Hok He Hd Hnil.
  { rewrite (Hnil eq_refl). cbn. by rewrite app_nil_r. }
  cbn [concat] in Hd. rewrite app_assoc in Hd.
  destruct (stream_split _ _ (t0 ++ data) _ (frames_packets ps Hok) (eq_sym Hd))
    as (b1 & b2 & w1 & w2 & t & Eb & Ew & H1 & H2 & Ht1 & Hd1 & H3 & H4).
  apply fmap_app_inv in Eb as (ps1 & ps2 & -> & -> & ->).
  apply Forall_app in Hok as [Hok1 Hok2]. apply all_expected_app in He as [He1 He2].
  destruct (data_chunk ps1 t0 t data c s Hc Hb Hs Hok1 He1 Ht1 Hd1)
    as (c1 & E1 & R1 & B1 & S1 & O1).
  cbn [fmap list_fmap run_events]. rewrite E1. cbn [snd].
  assert (chunks = [] -> ps2 = [] /\ t = []) as Hlast.
  { intros ->. destruct (H4 eq_refl) as [-> ->]. split; [|done].
    apply Forall2_nil_inv_r in H2. by destruct ps2. }
  destruct (IH ps2 t c1 (fst (exchanges ps1 s)) R1 B1 Ht1 S1 Hok2 He2 (eq_sym H3))
    as (R2 & B2 & S2 & O2); [by intros [? _]%Hlast|].
  rewrite exchanges_app. cbn [fst snd]. split_and!; [done| |done|].
  - intros _. destruct chunks as [|d' chunks]; [|by apply B2].
    destruct (Hlast eq_refl) as [_ ->]. exact B1.
  - by rewrite O2, O1, app_assoc.
Qed.

(** C1: whatever way the network cuts them, a connected client with both callbacks
    answers well-formed PUBLISH, PUBREL, PUBACK, PUBREC and PUBCOMP packets as the
    exchange automaton does: the same acknowledgements on the wire and the same
    application callbacks, in the same order, and tables that represent the
    automaton's state.  This holds while only publications are in flight, with
    payloads that can be stored (no SUBSCRIBE, no UNSUBSCRIBE: [represents]), and
    for PUBCOMPs of identifiers in flight only ([all_expected]): another PUBCOMP
    makes the client drop the connection ([Keepalive.unexpected_pubcomp_disconnects]). *)
Theorem data_refines_exchange ps chunks c s :
  running c -> c_receiveBuffer c = None -> represents c s ->
  Forall packet_ok ps -> all_expected ps s ->
  concat chunks = concat (bytes_of <$> ps) -> chunks <> [] ->
  let c' := run_events (SocketData <$> chunks) c in
  running c' /\ c_receiveBuffer c' = None /\
  represents c' (fst (exchanges ps s)) /\ e_output c' = e_output c ++ snd (exchanges ps s).
Proof.
  intros Hc Hb Hs Hok He Hd Hne.
  destruct (data_chunks chunks ps [] c s Hc Hb (or_introl eq_refl) Hs Hok He Hd)
    as (H1 & H2 & H3 & H4); [done|]. split_and!; auto.
Qed.

(** ** Exactly once *)

(** Each packet with what it causes. *)
Fixpoint exchange_log (ps : list packet_in) (s : session) : list (packet_in * list output) :=
  match ps with
  | [] => []
  | i :: ps' => (i, snd (exchange i s)) :: exchange_log ps' (fst (exchange i s))
  end.

Lemma exchange_log_outputs ps s : concat (exchange_log ps s).*2 = snd (exchanges ps s).
Proof.
  revert s. induction ps as [|i ps IH]; intros s; [done|]. cbn. rewrite IH.
  destruct (exchange i s) as [s1 o1]. cbn. by destruct (exchanges ps s1).
Qed.

(** The packets of the qos 2 reception under identifier [n]. *)
Definition about (n : Z) (i : packet_in) : bool :=
  match i with Pub2 k _ | Rel k => k =? n | _ => false end.

Definition log_about (n : Z) (l : list (packet_in * list output)) : list output :=
  concat (filter (λ e, about n e.1 = true) l).*2.

Fixpoint reception (n : Z) (p : option Message) (ps : list packet_in) : list output :=
  match ps with
  | [] => []
  | Pub2 _ m :: ps' => answer MESSAGE_TYPE.PUBREC n :: reception n (Some m) ps'
  | _ :: ps' =>
      match p with Some m => [arrived m] | None => [] end
      ++ answer MESSAGE_TYPE.PUBCOMP n :: reception n None ps'
  end.

(** Other traffic does not interfere. *)
Lemma log_about_reception n ps s :
  log_about n (exchange_log ps s)
  = reception n (pending s !! n) (filter (λ i, about n i = true) ps).
Proof.
  revert s. unfold log_about. induction ps as [|i ps IH]; intros s; [done|].
  cbn [exchange_log]. rewrite !filter_cons. cbn [fst].
  destruct (about n i) eqn:Ea; cbn [decide bool_decide].
  - rewrite !decide_True by done. cbn [fmap list_fmap concat snd]. rewrite IH.
    destruct i as [|k m|k m|k|k|k|k]; try done; cbn in Ea; zbool; subst k;
      cbn [exchange fst snd reception pending].
    + by rewrite lookup_insert_eq.
    + destruct (pending s !! n) as [m|] eqn:Ep; cbn [fst snd pending].
      * by rewrite lookup_delete_eq.
      * by rewrite Ep.
  - rewrite !decide_False by done. rewrite IH.
    apply (f_equal (λ p, reception n p _)).
    destruct i as [|k m|k m|k|k|k|k]; cbn in *; try done; try (by case_match); zbool.
    + by rewrite lookup_insert_ne.
    + case_match; cbn; [|done]. by rewrite lookup_delete_ne.
Qed.

Lemma last_cons {A} (a d : A) l : List.last (a :: l) d = List.last l a.
Proof. revert a d. induction l as [|b l IH]; intros a d; [done|]. rewrite (IH b a). apply (IH b d). Qed.

Lemma reception_publishes n p m ms ps :
  reception n p ((Pub2 n <$> m :: ms) ++ ps)
  = replicate (S (length ms)) (answer MESSAGE_TYPE.PUBREC n)
    ++ reception n (Some (List.last ms m)) ps.
Proof.
  revert p m. induction ms as [|m' ms IH]; intros p m; [done|].
  change ((Pub2 n <$> m :: m' :: ms) ++ ps) with (Pub2 n m :: (Pub2 n <$> m' :: ms) ++ ps).
  cbn [reception]. by rewrite IH, last_cons.
Qed.

Lemma reception_releases n j :
  reception n None (replicate j (Rel n)) = replicate j (answer MESSAGE_TYPE.PUBCOMP n).
Proof. induction j as [|j IH]; [done|]. cbn. by rewrite IH. Qed.

(** C2: a qos 2 message is handed to the application exactly once.  However
    often the server repeats its PUBLISH before releasing it and the PUBREL
    after, whatever else it sends in between and however the bytes are cut, the
    packets about the message cause a PUBREC each before the release, one call of
    [onMessageArrived], and a PUBCOMP for each PUBREL. *)
Theorem qos2_exactly_once n m ms j ps chunks c s :
  running c -> c_receiveBuffer c = None -> represents c s ->
  Forall packet_ok ps -> all_expected ps s ->
  concat chunks = concat (bytes_of <$> ps) -> chunks <> [] ->
  filter (λ i, about n i = true) ps = (Pub2 n <$> m :: ms) ++ replicate (S j) (Rel n) ->
  let log := exchange_log ps s in
  e_output (run_events (SocketData <$> chunks) c) = e_output c ++ concat log.*2 /\
  log_about n log
  = replicate (S (length ms)) (answer MESSAGE_TYPE.PUBREC n)
    ++ arrived (List.last ms m) :: replicate (S j) (answer MESSAGE_TYPE.PUBCOMP n).
Proof.
  intros Hc Hb Hs Hok He Hd Hne Hf log.
  destruct (data_chunks chunks ps [] c s Hc Hb (or_introl eq_refl) Hs Hok He Hd)
    as (_ & _ & _ & HO); [done|]. split.
  - by rewrite HO, <- exchange_log_outputs.
  - unfold log. rewrite log_about_reception, Hf, reception_publishes. do 2 f_equal.
    cbn. by rewrite reception_releases.
Qed.

(** ** Sending *)

(** A message the application can send with qos 1 or 2 to topic [d]. *)
Record sendable (m : Message) (d : jsstr) : Prop := {
  snd_publishable : publishable m d;
  snd_storable : storable m;
  snd_qos : 0 < qos m;
  snd_length : Z.of_nat (length (string_field d ++ payload_bytes (msg_payload m))) + 2 < max_length;
}.

Lemma publish_body_length id d m :
  Z.of_nat (length (publish_body (Some (Num id)) d m))
  = Z.of_nat (length (string_field d ++ payload_bytes (msg_payload m))) + 2.
Proof. unfold publish_body, id_field. rewrite !length_app. unfold uint16_bytes. cbn [length]. lia. Qed.

Lemma send_run m d c s :
  running c -> represents c s -> sendable m d ->
  Z.of_nat (size (c_sentMessages c)) <= cf_maxMessageIdentifier (c_cfg c) ->
  id_range (requires_ack_id c) -> c_sentMessages c !! Num (requires_ack_id c) = None ->
  exists c', run_event (Send m) c = (Ret tt, c') /\ core c' = core c /\
    c_message_identifier c' = wrapped (requires_ack_id c) c /\
    represents c' (mkSession (<[requires_ack_id c := m]> (outstanding s)) (pending s)) /\
    e_output c' = e_output c ++ [SocketSend (packet (publish_first m)
                                   (publish_body (Some (Num (requires_ack_id c))) d m))].
Proof.
  intros Hc Hs [Hpub Hst Hq Hlen] Hsize Hid Hfresh. set (id := requires_ack_id c) in *.
  set (w0 := set_payloadMessage m (new_WireMessage MESSAGE_TYPE.PUBLISH)).
  set (w1 := set_messageIdentifier (Num id) w0).
  set (w2 := sequenced Sent (c_sequence c) w1).
  set (c1 := set_message_identifier (wrapped id c)
       (set_sentMessages (<[Num id := w2]> (c_sentMessages c)) (stored_state Sent (Num id) w1 m c))).
  assert (running c1) as Hc1 by (by apply (running_core c)).
  destruct (ready_schedule w2 c1 (packet (publish_first m) (publish_body (Some (Num id)) d m)))
    as (c2 & E2 & K2 & D2 & O2); [apply Hc1| |].
  { apply (encode_publish w2 m d); [done|done|done|exact Hid|]. cbn [wm_messageIdentifier w2].
    change (wm_messageIdentifier w2) with (Some (Num id)). rewrite publish_body_length. lia. }
  exists c2. split_and!.
  - cbn [run_event]. unfold send, require_connected, bind at 1, bind at 1, get.
    assert (c_connected c = true) as -> by apply Hc. cbn [negb when]. unfold ret at 1.
    unfold bind at 1, get. assert ((qos m >? 0) = true) as -> by zlia.
    unfold bind at 1. fold w0. rewrite (requires_ack_publish w0 m c) by (done || apply Hst).
    exact E2.
  - by rewrite K2.
  - change (d_message_identifier (durable_of c2) = wrapped id c). by rewrite D2.
  - eapply represents_durable; [exact D2|]. destruct Hs as [H1 H2].
    constructor; cbn [outstanding pending]; [|exact H2]. intros j.
    change (c_sentMessages c1) with (<[Num id := w2]> (c_sentMessages c)).
    destruct (decide (j = id)) as [->|Hj].
    + rewrite !lookup_insert_eq. exists w2. split; [done|]. by split_and!.
    + rewrite !lookup_insert_ne by congruence. apply H1.
  - by rewrite O2.
Qed.

(** What leaves a message in flight. *)
Definition settles (n : Z) (i : packet_in) : bool :=
  match i with Ack k | Comp k => k =? n | _ => false end.

Lemma exchange_outstanding n i s :
  settles n i = false -> outstanding (fst (exchange i s)) !! n = outstanding s !! n.
Proof.
  intros Hi. destruct i as [m|k m|k m|k|k|k|k]; cbn in *; try done; try (by case_match);
    zbool; case_match; cbn; try done; by rewrite lookup_delete_ne.
Qed.

Lemma exchanges_outstanding n ps s :
  Forall (λ i, settles n i = false) ps -> outstanding (fst (exchanges ps s)) !! n = outstanding s !! n.
Proof.
  intros H. revert s. induction H as [|i ps Hi _ IH]; intros s; [done|]. cbn.
  specialize (IH (fst (exchange i s))). rewrite exchange_outstanding in IH by done.
  destruct (exchange i s) as [s1 o1]. cbn in *. by destruct (exchanges ps s1).
Qed.

(** C4: within a connection, a message sent with qos 1 or 2 goes out under an
    identifier that no other message in flight has, and it is still in flight
    after any number of PUBLISH, PUBREL, PUBREC packets and of PUBACKs and PUBCOMPs
    for other messages, however they are cut.  The message can be stored; only
    publications are in flight, the PUBCOMPs are expected, and there is room for
    the search of an identifier below 65536.  (A SUBACK or UNSUBACK with the same
    identifier, or the CONNACK of a later connection with a clean session, would
    remove it too; neither is among these packets.) *)
Theorem sent_until_acknowledged m d ps chunks c s :
  running c -> c_receiveBuffer c = None -> represents c s -> sendable m d ->
  1 <= c_message_identifier c ->
  c_message_identifier c + Z.of_nat (size (c_sentMessages c)) < 65536 ->
  65536 <= cf_maxMessageIdentifier (c_cfg c) ->
  let n := requires_ack_id c in
  Forall packet_ok ps -> Forall (λ i, settles n i = false) ps ->
  all_expected ps (mkSession (<[n := m]> (outstanding s)) (pending s)) ->
  concat chunks = concat (bytes_of <$> ps) -> chunks <> [] ->
  let c' := run_events (Send m :: (SocketData <$> chunks)) c in
  outstanding s !! n = None /\ 1 <= n < 65536 /\
  (exists o, e_output c' = e_output c ++
     SocketSend (packet (publish_first m) (publish_body (Some (Num n)) d m)) :: o) /\
  exists w, c_sentMessages c' !! Num n = Some w /\ sent_entry n m w.
Proof.
  intros Hc Hb Hs Hm Hpos Hroom Hmax n Hok Hset He Hd Hne c'.
  destruct (next_identifier_least (c_sentMessages c) (c_message_identifier c)) as (Hn & Hfree & _).
  fold (requires_ack_id c) in Hn, Hfree. fold n in Hn, Hfree.
  assert (c_sentMessages c !! Num n = None) as Hnone.
  { destruct (c_sentMessages c !! Num n) eqn:E; [|done]. destruct Hfree. unfold in_flight.
    by rewrite E. }
  destruct (send_run m d c s Hc Hs Hm) as (c1 & E1 & K1 & _ & R1 & O1);
    [lia|fold n; unfold id_range; lia|done|]. fold n in R1, O1.
  assert (c_receiveBuffer c1 = None) as Hb1.
  { change (k_receiveBuffer (core c1) = None). by rewrite K1. }
  destruct (data_chunks chunks ps [] c1 _ (running_core c c1 K1 Hc) Hb1 (or_introl eq_refl) R1 Hok He Hd)
    as (_ & _ & R2 & O2); [done|].
  unfold c'. cbn [run_events]. rewrite E1. cbn [snd]. split_and!.
  - pose proof (rep_sent c s Hs n) as H. destruct (outstanding s !! n); [|done].
    destruct H as (w & Hw & _). congruence.
  - lia.
  - lia.
  - eexists. by rewrite O2, O1, <- app_assoc.
  - pose proof (rep_sent _ _ R2 n) as H. rewrite exchanges_outstanding in H by done.
    cbn [outstanding] in H. by rewrite lookup_insert_eq in H.
Qed.
