(* ===== verification/Session.v ===== *)
(** * Connecting: the CONNACK packet and what it resends

    When the server accepts the connection, a client that keeps its session
    sends everything in flight again, in the order it was first sent; a client
    that starts a clean session forgets it all. *)

From stdpp Require Import base tactics list strings gmap numbers sorting.
From Stdlib Require Import ZArith Lia.
From S2P Require Import Prelude PahoBase Utf8 Wire WireFacts Client ClientKeeps Storage Ready.
Local Open Scope Z_scope.
Local Open Scope st_scope.

(** ** The sort *)
Section Sort.
Context {A : Type} (lt : A -> A -> bool).

Lemma sort_insert_perm x l : sort_insert lt x l ≡ₚ x :: l.
Proof.
  induction l as [|y l IH]; cbn; [done|]. case_match; [done|].
  rewrite IH. apply Permutation_swap.
Qed.

Lemma stable_sort_perm l : stable_sort lt l ≡ₚ l.
Proof.
  unfold stable_sort. assert (forall acc, foldl (λ acc x, sort_insert lt x acc) acc l ≡ₚ acc ++ l) as H.
  { induction l as [|x l IH]; intros acc; cbn; [by rewrite app_nil_r|].
    rewrite IH, sort_insert_perm. cbn. by apply Permutation_middle. }
  by rewrite H.
Qed.

(** Ascending for a measure the comparison decides. *)
Context (f : A -> Z) (P : A -> Prop) (Hlt : forall x y, P x -> P y -> lt x y = (f x <? f y)).

Definition ascending : list A -> Prop := Sorted (λ x y, f x <= f y).

Lemma sort_insert_sorted x l :
  P x -> Forall P l -> ascending l -> ascending (sort_insert lt x l).
Proof.
  intros Hx Hl. induction Hl as [|y l Hy Hl IH]; cbn; [repeat constructor|].
  intros Hs. rewrite Hlt by done. destruct (f x <? f y) eqn:E; zbool.
  - constructor; [done|]. constructor. lia.
  - apply Sorted_inv in Hs as [Hs Hd]. constructor; [by apply IH|].
    destruct l as [|z l]; cbn; [constructor; lia|].
    apply HdRel_inv in Hd. case_match; constructor; lia.
Qed.

Lemma stable_sort_sorted l : Forall P l -> ascending (stable_sort lt l).
Proof.
  intros Hl. unfold stable_sort.
  assert (forall acc, Forall P acc -> ascending acc ->
    ascending (foldl (λ acc x, sort_insert lt x acc) acc l)) as H.
  { induction Hl as [|x l Hx Hl IH]; intros acc Ha Hs; cbn; [done|].
    apply IH; [|by apply sort_insert_sorted].
    rewrite sort_insert_perm. by constructor. }
  apply H; constructor.
Qed.
End Sort.

Lemma object_values_perm {A} (m : gmap jsnum A) : object_values m ≡ₚ (map_to_list m).*2.
Proof. unfold object_values. by rewrite stable_sort_perm. Qed.

Lemma object_values_elem {A} (m : gmap jsnum A) id w : m !! id = Some w -> w ∈ object_values m.
Proof.
  intros Hw. rewrite object_values_perm. apply list_elem_of_fmap.
  exists (id, w). split; [done|]. by apply elem_of_map_to_list.
Qed.

Definition sequence_of (m : WireMessage) : Z := default 0 (wm_sequence m).
Definition sequenced_message (m : WireMessage) : Prop := is_Some (wm_sequence m).

Lemma sequence_lt_spec a b :
  sequenced_message a -> sequenced_message b -> sequence_lt a b = (sequence_of a <? sequence_of b).
Proof. intros [x Ha] [y Hb]. unfold sequence_lt, sequence_of. by rewrite Ha, Hb. Qed.

(** ** Resending *)
Definition resend_order (c : client) : list WireMessage :=
  stable_sort sequence_lt (object_values (c_sentMessages c)).

(** A message whose PUBREC has arrived is not published again: its PUBREL is. *)
Definition resend_wire (m : WireMessage) : WireMessage :=
  if (wm_type m =? MESSAGE_TYPE.PUBLISH) && wm_pubRecReceived m
  then new_ack MESSAGE_TYPE.PUBREL (wm_messageIdentifier m) else m.

Lemma resend_one_wire m : resend_one m = _schedule_message (resend_wire m).
Proof. unfold resend_one, resend_wire. by case_match. Qed.

Lemma resend_all ws bss : forall c,
  Forall2 (λ w bs, encode (resend_wire w) = Ret bs) ws bss -> ready c ->
  emits (iter_ resend_one ws) c tt (SocketSend <$> bss).
Proof.
  intros c Hf. revert c. induction Hf as [|w bs ws bss Hw Hf IH]; intros c Hc; unfold emits.
  { exists c. by rewrite app_nil_r. }
  cbn [iter_ fmap list_fmap]. unfold bind. rewrite resend_one_wire.
  destruct (ready_schedule _ c bs Hc Hw) as (c1 & -> & K1 & D1 & O1).
  destruct (IH c1) as (c2 & -> & K2 & D2 & O2); [by unfold ready; rewrite K1|].
  exists c2. rewrite K2, D2, O2, O1, <- app_assoc. done.
Qed.

(** A CONNACK that accepts the connection. *)
Definition accepting (m : WireMessage) : Prop :=
  wm_type m = MESSAGE_TYPE.CONNACK /\ wm_returnCode m = ReturnByte (Num 0).

(** The client right after an accepting CONNACK, before anything is resent. *)
Definition accepted (t : nat) (o : ConnectOptions) (c : client) : client :=
  let c := set_connected true (set_timers (delete t (e_timers c)) c) in
  match co_uris o with Some uris => set_hostIndex (length uris) c | None => c end.

(** The socket is open, the CONNECT packet is out, nothing is queued. *)
Record handshaking (c : client) (t : nat) (o : ConnectOptions) : Prop := {
  hs_ready : ready (set_connected true c);
  hs_timeout : c_connectTimeout c = Some t;
  hs_options : c_connectOptions c = Some o;
  hs_callback : co_onSuccess o = true;
}.

Lemma ready_accepted t o c : ready (set_connected true c) -> ready (accepted t o c).
Proof. intros H. unfold accepted. by destruct (co_uris o). Qed.

Lemma process_queue_empty c : c_msg_queue c = [] -> _process_queue c = (Ret tt, c).
Proof. intros Hq. unfold _process_queue, bind, get. by rewrite Hq. Qed.

(** The part of the handler that runs once the local state is settled. *)
Definition connack_continue (o : ConnectOptions) : C unit :=
  modify (set_connected true) ;;
  match co_uris o with
  | Some uris => modify (set_hostIndex (length uris))
  | None => ret tt
  end ;;
  sent <- get c_sentMessages ;;
  iter_ resend_one (stable_sort sequence_lt (object_values sent)) ;;
  oo <- get c_connectOptions ;; o <- deref oo ;;
  when (co_onSuccess o) (emit OnConnectSuccess) ;;
  _process_queue.

Lemma connack_start c t o m :
  c_connectTimeout c = Some t -> c_connectOptions c = Some o -> accepting m ->
  _handleMessage m c
  = try (when (co_cleanSession o) clear_local_state ;; connack_continue o)
      (λ e, _disconnected (Some (code INTERNAL_ERROR, InternalText e)))
      (set_timers (delete t (e_timers c)) c).
Proof.
  intros Ht Ho [Hty Hrc]. unfold _handleMessage, try, dispatch. rewrite Hty. cbv zeta.
  change (MESSAGE_TYPE.CONNACK =? MESSAGE_TYPE.CONNACK) with true. cbv iota.
  unfold handle_connack, connack_continue. unfold bind at 1, get. rewrite Ht.
  unfold deref at 1, bind at 1, ret at 1.
  unfold bind at 1, Timeout_cancel, clearTimeout, modify at 1. unfold bind at 1.
  cbn [c_connectOptions set_timers]. rewrite Ho. unfold deref at 1, bind at 1, ret at 1.
  rewrite Hrc. cbn [rc_num]. by rewrite bool_decide_true.
Qed.

Lemma connack_tail c t o bss :
  handshaking c t o ->
  Forall2 (λ w bs, encode (resend_wire w) = Ret bs) (resend_order c) bss ->
  exists c',
    connack_continue o (set_timers (delete t (e_timers c)) c) = (Ret tt, c') /\
    ready c' /\ durable_of c' = durable_of c /\
    e_output c' = e_output c ++ (SocketSend <$> bss) ++ [OnConnectSuccess].
Proof.
  intros [Hr Ht Ho Hcb] Hf.
  destruct (resend_all _ bss (accepted t o c) Hf (ready_accepted t o c Hr)) as (c1 & E1 & K1 & D1 & O1).
  assert (ready c1) as Hr1 by (unfold ready; rewrite K1; by apply ready_accepted).
  set (c2 := set_output (e_output c1 ++ [OnConnectSuccess]) c1).
  exists c2.
  assert (c_sentMessages (accepted t o c) = c_sentMessages c
          /\ c_connectOptions (accepted t o c) = Some o
          /\ durable_of (accepted t o c) = durable_of c
          /\ e_output (accepted t o c) = e_output c) as (Es & Eo & Ed & Eout)
    by (unfold accepted; by destruct (co_uris o)).
  split_and!.
  - unfold connack_continue. transitivity ((sent <- get c_sentMessages ;;
     iter_ resend_one (stable_sort sequence_lt (object_values sent)) ;;
     oo <- get c_connectOptions ;; o <- deref oo ;;
     when (co_onSuccess o) (emit OnConnectSuccess) ;;
     _process_queue) (accepted t o c)); [unfold accepted; by destruct (co_uris o)|].
    unfold bind at 1, get. unfold bind at 1. rewrite Es. fold (resend_order c).
    rewrite E1. unfold bind at 1.
    change (c_connectOptions c1) with (k_connectOptions (core c1)). rewrite K1. cbn [core k_connectOptions].
    rewrite Eo. unfold deref, bind at 1, ret. rewrite Hcb. cbn [when]. unfold bind, emit, modify.
    fold c2. apply process_queue_empty. apply Hr1.
  - exact Hr1.
  - change (durable_of c1 = durable_of c). by rewrite D1.
  - cbn. by rewrite O1, Eout, <- app_assoc.
Qed.

(** C13: a client that keeps its session resends, as soon as the server accepts
    the connection, every message in flight exactly once, a PUBREL in place of a
    publication the server has already received, and then reports success, provided
    that the encoder accepts each of them; nothing in flight and nothing stored
    changes.  If every message in flight has a sequence number (which a SUBSCRIBE
    or UNSUBSCRIBE has not), the order is that of these numbers, which the messages
    got when they were first sent. *)
Theorem connack_resends c t o m bss :
  handshaking c t o -> accepting m -> co_cleanSession o = false ->
  Forall2 (λ w bs, encode (resend_wire w) = Ret bs) (resend_order c) bss ->
  (exists c', _handleMessage m c = (Ret tt, c') /\ ready c' /\ durable_of c' = durable_of c /\
     e_output c' = e_output c ++ (SocketSend <$> bss) ++ [OnConnectSuccess]) /\
  resend_order c ≡ₚ (map_to_list (c_sentMessages c)).*2 /\
  (map_Forall (λ _ w, sequenced_message w) (c_sentMessages c) ->
   ascending sequence_of (resend_order c)).
Proof.
  intros Hh [Hty Hrc] Hclean Hf. split_and!.
  - destruct (connack_tail c t o bss Hh Hf) as (c' & E & Hr & Hd & Ho). exists c'.
    split_and!; [|done..]. destruct Hh as [_ Ht Hop _].
    rewrite (connack_start c t o m) by done. rewrite Hclean. unfold try, bind at 1, when, ret.
    by rewrite E.
  - unfold resend_order. by rewrite stable_sort_perm, object_values_perm.
  - intros Hall. apply (stable_sort_sorted _ _ sequenced_message sequence_lt_spec).
    rewrite object_values_perm. apply Forall_fmap. apply map_Forall_to_list in Hall.
    revert Hall. apply List.Forall_impl. by intros [].
Qed.

(** With [cleanSession], an accepting CONNACK first forgets everything: no
    message is left in flight in either direction, nothing stored for a message
    that was in a table is left for a reload to restore, nothing is resent. *)
Theorem clean_session_discards c t o m :
  handshaking c t o -> accepting m -> co_cleanSession o = true ->
  exists c', _handleMessage m c = (Ret tt, c') /\ ready c' /\
    c_sentMessages c' = ∅ /\ c_receivedMessages c' = ∅ /\
    e_localStorage c' ⊆ e_localStorage c /\
    (forall id w, c_sentMessages c !! id = Some w ->
       e_localStorage c' !! storage_key Sent (cf_localKey (c_cfg c)) (wm_messageIdentifier w) = None) /\
    (forall id w, c_receivedMessages c !! id = Some w ->
       e_localStorage c' !! storage_key Received (cf_localKey (c_cfg c)) (wm_messageIdentifier w) = None) /\
    e_output c' = e_output c ++ [OnConnectSuccess].
Proof.
  intros [Hr Ht Ho Hcb] [Hty Hrc] Hclean.
  destruct (clear_local_state_run (set_timers (delete t (e_timers c)) c)) as (st & Ec & Hsub & Fs & Fr).
  set (c1 := set_localStorage st (tables ∅ ∅ c)).
  assert (handshaking c1 t o) as H1 by (by constructor).
  destruct (connack_tail c1 t o [] H1) as (c' & E & Hr' & Hd & Hout); [constructor|].
  exists c'.
  assert (c_sentMessages c' = ∅ /\ c_receivedMessages c' = ∅ /\ e_localStorage c' = st) as (Es & Er & Est).
  { pose proof (f_equal d_sent Hd). pose proof (f_equal d_received Hd).
    by pose proof (f_equal d_storage Hd). }
  rewrite Est. split_and!; [|done|done|done|done| | |done].
  - rewrite (connack_start c t o m) by done. rewrite Hclean. unfold try, bind at 1, when.
    rewrite Ec. change (set_localStorage st _) with (set_timers (delete t (e_timers c1)) c1).
    by rewrite E.
  - intros id w Hw. eapply Forall_forall in Fs; [exact Fs|]. by eapply object_values_elem.
  - intros id w Hw. eapply Forall_forall in Fr; [exact Fr|]. by eapply object_values_elem.
Qed.
