(* ===== verification/Failover.v ===== *)
(** * Losing a connection: the other servers and the other version

    [_disconnected] tries the next server of the list, then the older version of
    the protocol from the start of the list, and reports a failure only after
    all that. *)

From stdpp Require Import base tactics list strings gmap numbers.
From Stdlib Require Import ZArith Lia.
From S2P Require Import Prelude PahoBase Utf8 Wire WireFacts Client ClientKeeps Deframe Storage.
From S2P Require Import Ready Delivery.
Local Open Scope Z_scope.
Local Open Scope st_scope.

(** ** Failover *)
Definition opens (o : ConnectOptions) (uri : jsstr) : output :=
  OpenSocket (if co_useSSL o then to_wss uri else uri)
    (if co_mqttVersion o <? 4 then js "mqttv3.1" else js "mqtt").

Definition falls_back (o : ConnectOptions) : bool :=
  (co_mqttVersion o =? 4) && negb (co_mqttVersionExplicit o).

Definition failure : output :=
  OnConnectFailure (code SOCKET_CLOSE) (Text (format SOCKET_CLOSE [])).

(** What is left to try after the server [i] of the list, and the report. *)
Definition remaining (o : ConnectOptions) (uris : list jsstr) (i : nat) : list output :=
  (opens o <$> drop (S i) uris)
  ++ (if falls_back o then opens (set_mqttVersion 3 o) <$> uris else [])
  ++ [failure].

Definition pinger_alive (f : client -> option nat) (c : client) : Prop :=
  exists p, f c = Some p /\ is_Some (e_pingers c !! p).

(** A client that has opened a socket to server [i] and has no answer yet. *)
Record connecting (c : client) (o : ConnectOptions) (uris : list jsstr) (i : nat) : Prop := {
  cn_connected : c_connected c = false;
  cn_options : c_connectOptions c = Some o;
  cn_uris : co_uris o = Some uris;
  cn_index : c_hostIndex c = i;
  cn_bound : (i < length uris)%nat;
  cn_socket : is_Some (c_socket c);
  cn_send : pinger_alive c_sendPinger c;
  cn_receive : pinger_alive c_receivePinger c;
  cn_callback : co_onFailure o = true;
}.

Lemma doConnect_run u o uris i c :
  c_connectOptions c = Some o -> co_uris o = Some uris -> c_hostIndex c = i ->
  (i < length uris)%nat -> co_onFailure o = true ->
  exists c', _doConnect u c = (Ret tt, c') /\ connecting c' o uris i /\
             e_output c' = e_output c ++ [opens o u].
Proof.
  intros Ho Hu Hi Hlt Hf. unfold _doConnect, bind, get, deref, ret. rewrite Ho.
  unfold new_Pinger, new_Timeout, setTimeout, bind, get, emit, modify, ret. cbn -[opens to_wss js].
  eexists. split; [reflexivity|]. split; [|done]. constructor; cbn; try done.
  - eexists. split; [done|]. cbn. rewrite lookup_insert_ne by lia.
    rewrite lookup_insert_eq. by eexists.
  - eexists. split; [done|]. cbn. rewrite lookup_insert_eq. by eexists.
Qed.

(** The timer of a pinger the client holds. *)
Definition pinger_timer (f : client -> option nat) (c : client) (t : nat) : Prop :=
  exists p pg, f c = Some p /\ e_pingers c !! p = Some pg /\ pg_timeout pg = Some t.

Lemma pinger_cancel_run f c :
  pinger_alive f c ->
  exists ts, on_pinger f Pinger_cancel c = (Ret tt, set_timers ts c) /\ ts ⊆ e_timers c /\
    forall t, pinger_timer f c t -> ts !! t = None.
Proof.
  intros (p & Hp & [pg Hpg]). unfold on_pinger, Pinger_cancel, get_pinger, bind, get, deref, ret.
  rewrite Hp, Hpg. unfold clearTimeout. destruct (pg_timeout pg) as [t|] eqn:Et.
  - exists (delete t (e_timers c)). split; [done|]. split; [apply delete_subseteq|].
    intros t' (p' & pg' & E1 & E2 & E3). assert (t' = t) as -> by congruence. apply lookup_delete_eq.
  - exists (e_timers c). split; [by destruct c|]. split; [done|].
    intros t' (p' & pg' & E1 & E2 & E3). congruence.
Qed.

(** The first half of [_disconnected]: timers, queue and socket are gone. *)
Definition teardown : C unit :=
  on_pinger c_sendPinger Pinger_cancel ;;
  on_pinger c_receivePinger Pinger_cancel ;;
  ct <- get c_connectTimeout ;;
  match ct with Some t => Timeout_cancel t | None => ret tt end ;;
  modify (λ c, set_msg_queue [] (set_queue_epoch (S (c_queue_epoch c)) c)) ;;
  modify (set_notify_msg_sent None) ;;
  drop_socket.

Definition closes (c : client) : list output :=
  match c_socket c with
  | Some s => if ws_readyState s =? 1 then [SocketClose] else []
  | None => []
  end.

Definition torn_down (ts : gmap nat timer) (c : client) : client :=
  set_output (e_output c ++ closes c) (set_socket None (set_notify_msg_sent None
    (set_msg_queue [] (set_queue_epoch (S (c_queue_epoch c)) (set_timers ts c))))).

Lemma teardown_run c :
  pinger_alive c_sendPinger c -> pinger_alive c_receivePinger c ->
  exists ts, teardown c = (Ret tt, torn_down ts c) /\ ts ⊆ e_timers c /\
    (forall t, pinger_timer c_sendPinger c t \/ pinger_timer c_receivePinger c t \/
               c_connectTimeout c = Some t -> ts !! t = None).
Proof.
  intros Hs Hr. unfold teardown, bind at 1.
  destruct (pinger_cancel_run c_sendPinger c Hs) as (ts1 & -> & Hsub1 & H1).
  destruct (pinger_cancel_run c_receivePinger (set_timers ts1 c) Hr) as (ts2 & E2 & Hsub2 & H2).
  unfold bind at 1. rewrite E2. cbn in Hsub2. unfold bind at 1, get. cbn [c_connectTimeout set_timers].
  set (ts3 := match c_connectTimeout c with Some t => delete t ts2 | None => ts2 end).
  assert (ts3 ⊆ ts2) as Hsub3.
  { unfold ts3. destruct (c_connectTimeout c); [apply delete_subseteq|done]. }
  exists ts3. split_and!.
  - unfold bind at 1.
    replace (match c_connectTimeout c with Some t => Timeout_cancel t | None => ret tt end
               (set_timers ts2 (set_timers ts1 c))) with (Ret tt : result exn unit, set_timers ts3 c)
      by (unfold ts3; by destruct (c_connectTimeout c)).
    unfold bind at 1, modify, bind at 1, drop_socket, bind at 1, get, torn_down, closes.
    cbn [c_socket set_notify_msg_sent set_msg_queue set_queue_epoch set_timers].
    destruct (c_socket c) as [s|] eqn:Es.
    + unfold bind, when, emit, modify, ret. destruct (ws_readyState s =? 1); [done|].
      cbn. by rewrite app_nil_r.
    + cbn. rewrite app_nil_r. destruct c; cbn in *. by subst.
  - by etrans; [|etrans].
  - intros t Ht. destruct Ht as [Ht|[Ht|Ht]].
    + eapply lookup_weaken_None; [|exact Hsub3]. eapply lookup_weaken_None; [|exact Hsub2].
      by apply H1.
    + eapply lookup_weaken_None; [|exact Hsub3]. by apply H2.
    + unfold ts3. rewrite Ht. apply lookup_delete_eq.
Qed.

Lemma disconnected_teardown err c :
  _disconnected err c = (teardown ;;
    oo <- get c_connectOptions ;; o <- deref oo ;;
    hostIndex <- get c_hostIndex ;;
    match co_uris o with
    | Some uris =>
        if (S hostIndex <? length uris)%nat then
          modify (set_hostIndex (S hostIndex)) ;;
          u <- deref (uris !! S hostIndex) ;;
          _doConnect u
        else ret tt
    | None => ret tt
    end ;;
    let more := match co_uris o with
                | Some uris => (S hostIndex <? length uris)%nat
                | None => false
                end in
    if more then ret tt
    else
      let '(errorCode, errorText) :=
        match err with Some e => e | None => (code OK, Text (format OK [])) end in
      connected <- get c_connected ;;
      if connected : bool then
        modify (set_connected false) ;;
        h <- get c_handlers ;;
        when (h_onConnectionLost h) (emit (OnConnectionLost errorCode errorText))
      else if (co_mqttVersion o =? 4) && negb (co_mqttVersionExplicit o) then
        modify (set_connectOptions (Some (set_mqttVersion 3 o))) ;;
        connect_first (set_mqttVersion 3 o)
      else when (co_onFailure o) (emit (OnConnectFailure errorCode errorText))) c.
Proof.
  unfold _disconnected, teardown, bind.
  destruct (on_pinger c_sendPinger Pinger_cancel c) as [[[]|e1] c1]; [|done].
  destruct (on_pinger c_receivePinger Pinger_cancel c1) as [[[]|e2] c2]; [|done].
  unfold get. destruct (c_connectTimeout c2) as [t|]; [|done].
  by destruct (Timeout_cancel t c2) as [[[]|e3] c3].
Qed.

Lemma closed_connecting c o uris i :
  connecting c o uris i ->
  exists c' x rest, run_event SocketClosed c = (Ret tt, c') /\
    remaining o uris i = x :: rest /\ e_output c' = e_output c ++ [x] /\
    ((exists o' i', connecting c' o' uris i' /\ rest = remaining o' uris i')
     \/ rest = [] /\ c_socket c' = None).
Proof.
  intros [Hcon Ho Hu Hi Hlt [s Hs] Hsp Hrp Hf].
  set (c1 := set_socket (Some (mkSocket (ws_url s) (ws_protocols s) 3)) c).
  destruct (teardown_run c1 Hsp Hrp) as (ts & Et & _). set (c2 := torn_down ts c1) in *.
  assert (e_output c2 = e_output c) as Eo2 by (cbn; by rewrite app_nil_r).
  assert (run_event SocketClosed c = _disconnected (Some (code SOCKET_CLOSE, Text (format SOCKET_CLOSE []))) c1) as ->.
  { cbn [run_event]. unfold with_socket, bind, get, modify. by rewrite Hs. }
  rewrite disconnected_teardown. unfold bind at 1. rewrite Et. unfold bind at 1, get.
  change (c_connectOptions c2) with (c_connectOptions c). rewrite Ho. unfold deref at 1, bind at 1, ret at 1.
  unfold bind at 1. change (c_hostIndex c2) with (c_hostIndex c). rewrite Hi, Hu.
  destruct (S i <? length uris)%nat eqn:El.
  - apply Nat.ltb_lt in El. destruct (lookup_lt_is_Some_2 uris (S i) El) as [u Eu].
    destruct (doConnect_run u o uris (S i) (set_hostIndex (S i) c2)) as (c3 & E3 & C3 & O3); try done.
    exists c3, (opens o u), (remaining o uris (S i)). split_and!.
    + unfold bind at 1, bind at 1, modify, bind at 1. rewrite Eu. cbn [deref]. unfold ret at 1. by rewrite E3.
    + unfold remaining. by rewrite (drop_S uris u (S i)).
    + rewrite O3. cbn. by rewrite app_nil_r.
    + left. by exists o, (S i).
  - apply Nat.ltb_ge in El. unfold bind at 1, ret at 1. cbv zeta beta iota.
    unfold bind at 1, get. change (c_connected c2) with (c_connected c). rewrite Hcon.
    unfold remaining. rewrite drop_ge by lia. cbn [fmap list_fmap app].
    fold (falls_back o). destruct (falls_back o) eqn:Ef.
    + destruct uris as [|u0 us]; [cbn in Hlt; lia|].
      set (o3 := set_mqttVersion 3 o).
      destruct (doConnect_run u0 o3 (u0 :: us) 0 (set_hostIndex 0 (set_connectOptions (Some o3) c2)))
        as (c3 & E3 & C3 & O3); try done; [cbn; lia|].
      exists c3, (opens o3 u0), (remaining o3 (u0 :: us) 0). split_and!.
      * unfold bind at 1, modify. unfold connect_first. change (co_uris o3) with (co_uris o). rewrite Hu.
        unfold bind at 1, modify, bind at 1. cbn [head deref]. unfold ret at 1. by rewrite E3.
      * unfold remaining. by replace (falls_back o3) with false.
      * rewrite O3. cbn. by rewrite app_nil_r.
      * left. by exists o3, 0%nat.
    + exists (set_output (e_output c2 ++ [failure]) c2), failure, [].
      rewrite Hf. cbn [when]. split_and!; [done|done|by cbn; rewrite app_nil_r|by right].
Qed.

Lemma closed_without_socket c : c_socket c = None -> run_event SocketClosed c = (Ret tt, c).
Proof. intros Hs. cbn. unfold with_socket, bind, get. by rewrite Hs. Qed.

Lemma failover_run k : forall c o uris i, connecting c o uris i ->
  e_output (run_events (replicate k SocketClosed) c) = e_output c ++ take k (remaining o uris i).
Proof.
  induction k as [|k IH]; intros c o uris i Hc; cbn [replicate run_events].
  { by rewrite take_0, app_nil_r. }
  destruct (closed_connecting c o uris i Hc) as (c' & x & rest & E & -> & Ho & Hnext).
  rewrite E. cbn [snd firstn take]. destruct Hnext as [(o' & i' & Hc' & ->)|[-> Hs]].
  - rewrite (IH c' o' uris i' Hc'), Ho, <- app_assoc. done.
  - assert (run_events (replicate k SocketClosed) c' = c') as ->; [|by rewrite Ho, take_nil].
    clear -Hs. induction k as [|k IH]; cbn [replicate run_events]; [done|].
    by rewrite closed_without_socket.
Qed.

(** C14: asked to connect to a list of servers that all refuse, the client tries
    each of them once, in order, with the protocol version of the options, then,
    unless the application chose the version, each of them again with the older
    version, and only then reports the failure, once. *)
Theorem failover_schedule c o uris k :
  c_connected c = false -> c_socket c = None ->
  co_uris o = Some uris -> uris <> [] -> co_onFailure o = true ->
  e_output (run_events (Connect o :: replicate k SocketClosed) c)
  = e_output c ++ take (S k)
      ((opens o <$> uris) ++ (if falls_back o then opens (set_mqttVersion 3 o) <$> uris else [])
       ++ [failure]).
Proof.
  intros Hcon Hs Hu Hne Hf. destruct uris as [|u0 us]; [done|].
  destruct (doConnect_run u0 o (u0 :: us) 0 (set_hostIndex 0 (set_connectOptions (Some o) c)))
    as (c1 & E1 & C1 & O1); try done; [cbn; lia|].
  cbn [run_events run_event]. unfold connect, bind at 1, get. rewrite Hcon.
  unfold bind at 1, when, ret at 1. unfold bind at 1. rewrite Hs. unfold bind at 1, ret at 1.
  unfold bind at 1, modify, connect_first. rewrite Hu. unfold bind at 1, modify, bind at 1.
  cbn [head deref]. unfold ret at 1. rewrite E1. cbn [snd].
  rewrite (failover_run k c1 o (u0 :: us) 0 C1), O1. cbn. by rewrite <- app_assoc.
Qed.
