(* ===== verification/Keepalive.v ===== *)
(** * Keep-alive, and a client that is stuck

    A server that stays silent for two keep-alive periods is given up.  The
    second part follows a sequence of packets after which the client believes it
    is connected, has no socket, and can neither connect nor disconnect again. *)

From stdpp Require Import base tactics list strings gmap numbers.
From Stdlib Require Import ZArith Lia.
From S2P Require Import Prelude PahoBase Utf8 Wire WireFacts Client ClientKeeps Deframe Storage.
From S2P Require Import Ready Delivery Session Failover.
Local Open Scope Z_scope.
Local Open Scope st_scope.

(** No further server to try. *)
Definition exhausted (c : client) : Prop :=
  exists o, c_connectOptions c = Some o /\
    match co_uris o with
    | Some uris => (length uris <= S (c_hostIndex c))%nat
    | None => True
    end.

(** The connection of a connected client is given up for good. *)
Definition given_up (ts : gmap nat timer) (e : Z * errtext) (c : client) : client :=
  set_output (e_output c ++ closes c ++
              (if h_onConnectionLost (c_handlers c) then [OnConnectionLost (fst e) (snd e)] else []))
    (set_connected false (torn_down ts c)).

Lemma disconnected_given_up e c :
  c_connected c = true -> exhausted c ->
  pinger_alive c_sendPinger c -> pinger_alive c_receivePinger c ->
  exists ts, _disconnected (Some e) c = (Ret tt, given_up ts e c) /\ ts ⊆ e_timers c /\
    (forall t, pinger_timer c_sendPinger c t \/ pinger_timer c_receivePinger c t \/
               c_connectTimeout c = Some t -> ts !! t = None).
Proof.
  intros Hcon (o & Ho & Hx) Hs Hr. destruct (teardown_run c Hs Hr) as (ts & Et & Hsub & Hts).
  exists ts. split; [|done]. rewrite disconnected_teardown. unfold bind at 1. rewrite Et.
  set (c2 := torn_down ts c). unfold bind at 1, get.
  change (c_connectOptions c2) with (c_connectOptions c). rewrite Ho. unfold deref at 1, bind at 1, ret at 1.
  unfold bind at 1. change (c_hostIndex c2) with (c_hostIndex c).
  assert (match co_uris o with
          | Some uris => (S (c_hostIndex c) <? length uris)%nat
          | None => false end = false) as Hmore.
  { destruct (co_uris o); [|done]. by apply Nat.ltb_ge. }
  assert (forall k : unit -> C unit,
    bind (match co_uris o with
          | Some uris => if (S (c_hostIndex c) <? length uris)%nat
                         then bind (modify (set_hostIndex (S (c_hostIndex c)))) (λ _,
                              bind (deref (uris !! S (c_hostIndex c))) _doConnect)
                         else ret tt
          | None => ret tt end) k c2 = k tt c2) as Hk.
  { intros k'. destruct (co_uris o); [|done]. by rewrite Hmore. }
  rewrite Hk. cbv zeta. rewrite Hmore. destruct e as [ec et].
  unfold bind at 1, get. change (c_connected c2) with (c_connected c). rewrite Hcon.
  unfold bind at 1, modify, bind at 1. cbn [c_handlers set_connected].
  change (c_handlers c2) with (c_handlers c). unfold when, emit, modify, ret, given_up.
  destruct (h_onConnectionLost (c_handlers c)); cbn; f_equal; unfold c2.
  - by rewrite <- app_assoc.
  - by rewrite app_nil_r.
Qed.

(** ** Keep-alive *)
Lemma running_pingers c :
  running c -> pinger_alive c_sendPinger c /\ pinger_alive c_receivePinger c.
Proof.
  intros ((_ & _ & _ & _ & (p & Hp & Hin) & (q & Hq & Hin')) & _). cbn in *.
  split; [exists p|exists q]; by rewrite <- elem_of_dom.
Qed.

Lemma fire_ping t p pg d c :
  e_timers c !! t = Some (mkTimer (DoPing p) d) -> e_pingers c !! p = Some pg ->
  run_event (TimerFires t) c
  = (if negb (pg_isReset pg) then _disconnected (Some (code PING_TIMEOUT, Text (format PING_TIMEOUT [])))
     else
       set_pinger p (mkPinger (pg_keepAliveInterval pg) false (pg_timeout pg)) ;;
       so <- get c_socket ;; s <- deref so ;;
       ws_send s pingReq ;;
       t <- setTimeout (DoPing p) (pg_keepAliveInterval pg) ;;
       set_pinger p (mkPinger (pg_keepAliveInterval pg) false (Some t)))
      (set_timers (delete t (e_timers c)) c).
Proof.
  intros Ht Hp. cbn [run_event]. unfold fire, bind at 1, get. rewrite Ht. unfold bind at 1, modify.
  cbn [tm_action]. unfold doPing, bind at 1, get_pinger, bind at 1, get.
  cbn [e_pingers set_timers]. rewrite Hp. done.
Qed.

(** C16: when the timer of either pinger runs twice and nothing has reset the
    pinger in between, the client has sent one PINGREQ, closed the socket and
    reported a ping timeout; it is then free to connect again.  The timer that
    runs second is the one the first armed, one keep-alive period later. *)
Theorem silent_server_given_up c t p pg d (receive : bool) :
  running c -> exhausted c -> h_onConnectionLost (c_handlers c) = true ->
  (if receive then c_receivePinger c else c_sendPinger c) = Some p ->
  e_pingers c !! p = Some pg -> pg_isReset pg = true ->
  e_timers c !! t = Some (mkTimer (DoPing p) d) ->
  let c1 := run_events [TimerFires t] c in
  let c2 := run_events [TimerFires t; TimerFires (e_next c)] c in
  e_timers c1 !! e_next c = Some (mkTimer (DoPing p) (pg_keepAliveInterval pg)) /\
  e_output c1 = e_output c ++ [SocketSend [0xC0; 0x00]] /\ c_connected c1 = true /\
  e_output c2 = e_output c ++ [SocketSend [0xC0; 0x00]; SocketClose;
    OnConnectionLost 4 (Text (js "AMQJS0004E Ping timed out."))] /\
  c_connected c2 = false /\ c_socket c2 = None.
Proof.
  intros Hc Hx Hl Hpp Hpg Hreset Ht c1 c2.
  destruct (running_pingers c Hc) as [Hs Hr].
  pose proof Hc as ((Hcon & (s & Hso & Hopen) & _) & _). cbn in Hcon, Hso.
  set (K := pg_keepAliveInterval pg).
  set (pg1 := mkPinger K false (Some (e_next c))).
  set (c1' := set_pingers (<[p := pg1]> (<[p := mkPinger K false (pg_timeout pg)]> (e_pingers c)))
    (set_next (S (e_next c)) (set_timers (<[e_next c := mkTimer (DoPing p) K]> (delete t (e_timers c)))
      (set_output (e_output c ++ [SocketSend pingReq]) c)))).
  assert (c1 = c1') as E1.
  { unfold c1. cbn [run_events]. rewrite (fire_ping t p pg d c Ht Hpg), Hreset. cbn [negb].
    unfold bind at 1, set_pinger, modify at 1. unfold bind at 1, get.
    cbn [c_socket set_pingers set_timers]. rewrite Hso. unfold bind at 1, deref, ret at 1.
    unfold bind at 1, ws_send. rewrite Hopen. change (1 =? 0) with false. change (1 =? 1) with true.
    done. }
  assert (forall f, pinger_alive f c -> f c1' = f c -> pinger_alive f c1') as Halive.
  { intros f (q & Hq & Hin) Hf. exists q. split; [by rewrite Hf|]. cbn.
    destruct (decide (q = p)) as [->|Hne]; [rewrite lookup_insert_eq; by eexists|].
    by rewrite !lookup_insert_ne. }
  set (c1'' := set_timers (delete (e_next c) (e_timers c1')) c1').
  destruct (disconnected_given_up (code PING_TIMEOUT, Text (format PING_TIMEOUT [])) c1'')
    as (ts & Ed & _); [done|exact Hx|by apply (Halive c_sendPinger)|by apply (Halive c_receivePinger)|].
  assert (c2 = given_up ts (code PING_TIMEOUT, Text (format PING_TIMEOUT [])) c1'') as E2.
  { unfold c2. cbn [run_events]. cbn [run_events] in E1. unfold c1 in E1. cbn [run_events] in E1.
    rewrite E1. rewrite (fire_ping (e_next c) p pg1 K c1'); [|cbn; apply lookup_insert_eq..].
    cbn [pg_isReset negb pg1]. fold c1''. by rewrite Ed. }
  rewrite E1, E2. split_and!; [cbn; apply lookup_insert_eq|done|done| |done|done].
  cbn [given_up e_output set_output]. unfold c1'', c1'.
  cbn [e_output set_pingers set_next set_timers set_output c_handlers]. rewrite Hl.
  unfold closes. cbn [c_socket set_timers set_pingers set_next set_output]. rewrite Hso, Hopen.
  change (1 =? 1) with true. cbv iota. rewrite <- !app_assoc. do 2 f_equal.
Qed.

(** ** An acknowledgement the client does not expect *)

(** A PUBCOMP for no message in flight, which a server sends when the
    client's PUBREL was delivered twice, ends the connection with an internal
    error when the application listens to deliveries; a PUBACK or PUBREC for no
    message in flight is ignored. *)
Theorem unexpected_pubcomp_disconnects n c s :
  running c -> represents c s -> exhausted c -> id_range n -> outstanding s !! n = None ->
  h_onConnectionLost (c_handlers c) = true ->
  (exists c', _handleMessage (wire_of (Comp n)) c = (Ret tt, c') /\
     c_connected c' = false /\ c_socket c' = None /\
     e_output c' = e_output c ++ [SocketClose; OnConnectionLost 5 (InternalText TypeError)]) /\
  _handleMessage (wire_of (Ack n)) c = (Ret tt, c) /\
  _handleMessage (wire_of (Rec n)) c = (Ret tt, c).
Proof.
  intros Hc Hs Hx Hn Ho Hl. pose proof (rep_sent c s Hs n) as Hnone. rewrite Ho in Hnone.
  destruct (running_pingers c Hc) as [Hsp Hrp].
  pose proof Hc as ((Hcon & (so & Hso & Hopen) & _) & _ & Hd). cbn in Hcon, Hso.
  split_and!.
  - set (c1 := acknowledged n c).
    destruct (disconnected_given_up (code INTERNAL_ERROR, InternalText TypeError) c1)
      as (ts & Ed & _); [done|done|done|done|].
    eexists. split; [|split; [|split]; [| |]].
    + unfold _handleMessage, try.
      assert (dispatch (wire_of (Comp n)) c = (Throw TypeError, c1)) as ->; [|exact Ed].
      change (dispatch (wire_of (Comp n))) with (handle_pubcomp (wire_of (Comp n))).
      unfold handle_pubcomp, sent_message, bind at 1, get.
      cbn [wire_of message_of wm_messageIdentifier new_ack id_of set_messageIdentifier id_key default].
      unfold id. rewrite Hnone. unfold bind, delete_sent, removeItem, modify, get. unfold bind.
      cbn -[storage_key]. rewrite Hd. done.
    + done.
    + done.
    + cbn [given_up e_output set_output]. unfold closes.
      change (c_socket c1) with (c_socket c). change (c_handlers c1) with (c_handlers c).
      rewrite Hso, Hopen, Hl. done.
  - unfold _handleMessage, try.
    change (dispatch (wire_of (Ack n))) with (handle_puback (wire_of (Ack n))).
    unfold handle_puback, sent_message, bind at 1, get.
    cbn [wire_of message_of wm_messageIdentifier new_ack id_of set_messageIdentifier id_key default].
    unfold id. by rewrite Hnone.
  - unfold _handleMessage, try.
    change (dispatch (wire_of (Rec n))) with (handle_pubrec (wire_of (Rec n))).
    unfold handle_pubrec, sent_message, bind at 1, get.
    cbn [wire_of message_of wm_messageIdentifier new_ack id_of set_messageIdentifier id_key default].
    unfold id. by rewrite Hnone.
Qed.

(** ** A stuck client *)

(** Connected, as far as it knows, without a socket, and no timer to end it. *)
Record stuck (c : client) : Prop := {
  sk_connected : c_connected c = true;
  sk_socket : c_socket c = None;
  sk_timers : map_Forall (λ _ tm, match tm_action tm with
                                 | DoPing _ | ConnectTimedOut => False
                                 | _ => True
                                 end) (e_timers c);
}.

Lemma stuck_ext c c' :
  c_connected c' = c_connected c -> c_socket c' = c_socket c -> e_timers c' = e_timers c ->
  stuck c -> stuck c'.
Proof. intros E1 E2 E3 [H1 H2 H3]. by constructor; rewrite ?E1, ?E2, ?E3. Qed.

Lemma stuck_modify f :
  (forall c, c_connected (f c) = c_connected c /\ c_socket (f c) = c_socket c /\ e_timers (f c) = e_timers c) ->
  inv stuck (modify f).
Proof. intros H c Hc. destruct (H c) as (? & ? & ?). by apply (stuck_ext c). Qed.

Lemma stuck_deref {A} (o : option A) : inv stuck (deref o).
Proof. by destruct o; intros c Hc. Qed.

Ltac stuck_step :=
  cbv zeta;
  match goal with
  | |- inv _ (bind _ _) => apply inv_bind; [|intros]
  | |- inv _ (when _ _) => apply inv_when
  | |- inv _ (modify _) => apply stuck_modify; intros; split_and!; reflexivity
  | |- inv _ (emit _) => apply stuck_modify; intros; split_and!; reflexivity
  | |- inv _ (deref _) => apply stuck_deref
  | |- inv _ (match ?x with _ => _ end) => destruct x
  | |- inv _ (ret _) => intros ? ?; assumption
  | |- inv _ (throw _) => intros ? ?; assumption
  | |- inv _ (get _) => intros ? ?; assumption
  | |- inv _ (lift _) => intros ? ?; assumption
  end.

Lemma stuck_setTimeout a ms :
  match a with DoPing _ | ConnectTimedOut => False | _ => True end -> inv stuck (setTimeout a ms).
Proof.
  intros Ha c [H1 H2 H3]. constructor; [done|done|]. cbn. by apply map_Forall_insert_2.
Qed.

Lemma stuck_send m c : stuck c -> _socket_send m c = (Throw TypeError, c).
Proof. intros [_ Hs _]. unfold _socket_send, bind, get. by rewrite Hs. Qed.

Lemma stuck_schedule m : inv stuck (_schedule_message m).
Proof.
  unfold _schedule_message. repeat stuck_step. unfold _process_queue. repeat stuck_step.
  match goal with |- inv stuck (process_fifo ?e ?l) => generalize e, l end.
  intros e l. destruct l as [|x l]; [intros ? ?; assumption|]. cbn [process_fifo].
  intros c Hc. unfold bind at 1, sync_queue, modify. set (c1 := if _ : bool then _ else _).
  assert (stuck c1) as H1 by (unfold c1; case_match; [by apply (stuck_ext c)|done]).
  unfold bind at 1. by rewrite stuck_send.
Qed.

Lemma stuck_store b m : inv stuck (store b m).
Proof. unfold store. repeat stuck_step. Qed.

Lemma stuck_requires_ack m : inv stuck (_requires_ack m).
Proof. unfold _requires_ack. repeat stuck_step. apply stuck_store. Qed.

Lemma stuck_optional_timeout t a :
  match a with DoPing _ | ConnectTimedOut => False | _ => True end ->
  inv stuck (optional_timeout t a).
Proof.
  intros Ha. unfold optional_timeout, new_Timeout. destruct t as [[| |]|]; cbv zeta;
    try (by intros ? ?); (apply inv_bind; [by apply stuck_setTimeout|by intros ? ? ?]).
Qed.

Lemma stuck_event e : inv stuck (run_event e).
Proof.
  intros c Hc. pose proof Hc as [Hcon Hso Hts].
  destruct e as [o|f o|f o|m| |h| |data|data| |t]; cbn [run_event];
    try (by unfold with_socket, bind, get; rewrite Hso).
  - unfold connect, bind at 1, get. by rewrite Hcon.
  - revert c Hc Hcon Hso Hts. enough (inv stuck (subscribe f o)) as H by (intros; by apply H).
    unfold subscribe, require_connected. repeat stuck_step.
    + by apply stuck_optional_timeout.
    + apply stuck_requires_ack.
    + apply stuck_schedule.
  - enough (inv stuck (unsubscribe f o)) as H by (by apply H).
    unfold unsubscribe, require_connected. repeat stuck_step.
    + by apply stuck_optional_timeout.
    + apply stuck_requires_ack.
    + apply stuck_schedule.
  - enough (inv stuck (send m)) as H by (by apply H).
    unfold send, require_connected. repeat stuck_step; [apply stuck_requires_ack|apply stuck_schedule].
  - unfold disconnect, bind at 1, get. by rewrite Hso.
  - by apply (stuck_ext c).
  - unfold fire, bind at 1, get. destruct (e_timers c !! t) as [tm|] eqn:Et; [|done].
    pose proof (map_Forall_lookup_1 _ _ _ _ Hts Et) as Ha.
    unfold bind at 1, modify.
    assert (stuck (set_timers (delete t (e_timers c)) c)) as H1.
    { constructor; [done|done|]. cbn. by apply map_Forall_delete. }
    revert Ha. cbv beta. destruct (tm_action tm); intros Ha; try done; by apply (stuck_ext (set_timers (delete t (e_timers c)) c)).
Qed.

Lemma stuck_steps c es c' : steps c es c' -> stuck c -> stuck c'.
Proof.
  induction 1 as [|c e c1 es c2 Hs _ IH]; [done|]. intros Hc. apply IH.
  inversion Hs as [? ? r ? Hr]; subst. pose proof (stuck_event e c Hc) as H. by rewrite Hr in H.
Qed.

(** The timers that can end a connection belong to it. *)
Definition tidy (c : client) : Prop :=
  map_Forall (λ t tm, match tm_action tm with
    | DoPing _ => pinger_timer c_sendPinger c t \/ pinger_timer c_receivePinger c t
    | ConnectTimedOut => c_connectTimeout c = Some t
    | _ => True
    end) (e_timers c).

Lemma tidy_reset c p c' :
  tidy c -> c_receivePinger c = Some p -> Pinger_reset p c = (Ret tt, c') -> tidy c'.
Proof.
  intros Ht Hp. unfold Pinger_reset, get_pinger, bind at 1, bind at 1, get.
  destruct (e_pingers c !! p) as [pg|] eqn:Epg; [|done]. cbn [deref]. unfold ret at 1.
  set (K := pg_keepAliveInterval pg).
  set (ts := match pg_timeout pg with Some t => delete t (e_timers c) | None => e_timers c end).
  assert (clearTimeout (pg_timeout pg) c = (Ret tt, set_timers ts c)) as Ec.
  { unfold clearTimeout, ts. destruct (pg_timeout pg); [done|]. by destruct c. }
  unfold bind at 1. rewrite Ec.
  assert (forall v t a d, pg_timeout pg <> Some t -> e_timers c !! t = Some (mkTimer a d) ->
    match a with
    | DoPing _ => pinger_timer c_sendPinger (set_pingers (<[p := v]> (e_pingers c)) c) t
                  \/ pinger_timer c_receivePinger (set_pingers (<[p := v]> (e_pingers c)) c) t
    | ConnectTimedOut => c_connectTimeout c = Some t
    | _ => True
    end) as Hold.
  { intros v t a d Hne Hin. pose proof (map_Forall_lookup_1 _ _ _ _ Ht Hin) as H. cbn in H.
    destruct a; try done.
    destruct H as [(q & pq & E1 & E2 & E3)|(q & pq & E1 & E2 & E3)]; [|congruence].
    left. exists q, pq. cbn. split_and!; [done| |done].
    rewrite lookup_insert_ne; [done|]. intros <-. congruence. }
  assert (forall t tm, ts !! t = Some tm -> pg_timeout pg <> Some t /\ e_timers c !! t = Some tm) as Hts.
  { intros t tm. unfold ts. destruct (pg_timeout pg) as [t0|]; [|by intros].
    intros [Hne Hin]%lookup_delete_Some. split; [congruence|done]. }
  destruct (K >? 0).
  - unfold bind at 1, setTimeout, bind at 1, get, bind, modify, ret, set_pinger. cbn.
    intros [= <-]. intros t [a d] Hin. cbn in Hin |- *.
    apply lookup_insert_Some in Hin as [[<- [= <- <-]]|[Hne Hin]].
    + right. exists p. eexists. cbn. split; [done|]. split; [apply lookup_insert_eq|done].
    + apply Hts in Hin as [Hn Hin]. exact (Hold _ t a d Hn Hin).
  - unfold set_pinger, modify. intros [= <-]. intros t [a d] Hin. cbn in Hin |- *.
    apply Hts in Hin as [Hn Hin]. exact (Hold _ t a d Hn Hin).
Qed.

(** A DISCONNECT packet, which a server never sends, and a CONNACK, as bytes. *)
Definition disconnect_packet : list Z := packet 0xE0 [].
Definition connack_packet : list Z := packet 0x20 [0; 0].
Definition connack_message : WireMessage :=
  set_connack false (ReturnByte (Num 0)) (new_WireMessage MESSAGE_TYPE.CONNACK).

Lemma frame_disconnect : frame disconnect_packet (new_WireMessage MESSAGE_TYPE.DISCONNECT).
Proof. apply frame_packet; [vm_compute; done|]. intros pre post. vm_compute. done. Qed.

Lemma frame_connack : frame connack_packet connack_message.
Proof.
  apply frame_packet; [vm_compute; done|]. intros pre post.
  change (Z.shiftr 0x20 4) with MESSAGE_TYPE.CONNACK. unfold decode_fields.
  change (MESSAGE_TYPE.CONNACK =? MESSAGE_TYPE.CONNACK) with true. cbv iota.
  assert ((pre ++ [0; 0] ++ post) !! length pre = Some 0) as H0.
  { by apply (list_lookup_middle pre ([0] ++ post)). }
  assert ((pre ++ [0; 0] ++ post) !! (length pre + 1)%nat = Some 0) as H1.
  { replace (pre ++ [0; 0] ++ post) with ((pre ++ [0]) ++ 0 :: post) by (by rewrite <- app_assoc).
    apply list_lookup_middle. by rewrite length_app. }
  unfold u8get. by rewrite H0, H1.
Qed.

(** Handling the illegal packet. *)
Lemma illegal_packet_run c :
  c_connected c = true -> exhausted c -> pinger_alive c_sendPinger c -> pinger_alive c_receivePinger c ->
  exists ts e, _handleMessage (new_WireMessage MESSAGE_TYPE.DISCONNECT) c = (Ret tt, given_up ts e c) /\
    ts ⊆ e_timers c /\
    (forall t, pinger_timer c_sendPinger c t \/ pinger_timer c_receivePinger c t \/
               c_connectTimeout c = Some t -> ts !! t = None).
Proof.
  intros Hcon Hx Hs Hr.
  set (err := (code INVALID_MQTT_MESSAGE_TYPE,
    Text (format INVALID_MQTT_MESSAGE_TYPE [dec MESSAGE_TYPE.DISCONNECT]))).
  destruct (disconnected_given_up err c Hcon Hx Hs Hr) as (ts & Ed & Hts).
  exists ts, err. split; [|done]. unfold _handleMessage, try.
  change (dispatch (new_WireMessage MESSAGE_TYPE.DISCONNECT) c) with (_disconnected (Some err) c).
  by rewrite Ed.
Qed.

(** Handling the CONNACK without a socket, in a clean session. *)
Lemma late_connack_run c t o :
  c_socket c = None -> c_msg_queue c = [] ->
  c_connectTimeout c = Some t -> c_connectOptions c = Some o -> co_cleanSession o = true ->
  exists c', _handleMessage connack_message c = (Ret tt, c') /\
    c_connected c' = true /\ c_socket c' = None /\ e_timers c' = delete t (e_timers c).
Proof.
  intros Hso Hq Hct Ho Hclean.
  destruct (clear_local_state_run (set_timers (delete t (e_timers c)) c)) as (st & Ec & _).
  set (c3 := set_localStorage st (tables ∅ ∅ (set_timers (delete t (e_timers c)) c))) in *.
  set (c4 := match co_uris o with
             | Some uris => set_hostIndex (length uris) (set_connected true c3)
             | None => set_connected true c3 end).
  set (c5 := if co_onSuccess o then set_output (e_output c4 ++ [OnConnectSuccess]) c4 else c4).
  assert (c_connectOptions c4 = Some o /\ c_msg_queue c4 = [] /\ c_sentMessages c4 = ∅) as (Ho4 & Hq4 & Hs4)
    by (unfold c4; by destruct (co_uris o)).
  exists c5. split; [|unfold c5, c4; by destruct (co_onSuccess o), (co_uris o)].
  rewrite (connack_start c t o) by done. rewrite Hclean. unfold try, bind at 1, when.
  rewrite Ec. unfold connack_continue.
  transitivity (match (iter_ resend_one (stable_sort sequence_lt (object_values (c_sentMessages c4))) ;;
       oo <- get c_connectOptions ;; o <- deref oo ;;
       when (co_onSuccess o) (emit OnConnectSuccess) ;; _process_queue) c4 with
     | (Ret a, s') => (Ret a, s')
     | (Throw e, s') => _disconnected (Some (code INTERNAL_ERROR, InternalText e)) s' end);
    [unfold c4; by destruct (co_uris o)|].
  rewrite Hs4. change (stable_sort sequence_lt (object_values ∅)) with (@nil WireMessage).
  unfold iter_ at 1, bind at 1, ret at 1, bind at 1, get. rewrite Ho4. unfold deref, bind at 1, ret at 1.
  unfold bind, when, emit, modify, ret. unfold c5.
  destruct (co_onSuccess o); by rewrite process_queue_empty.
Qed.

(** Both in one chunk of data. *)
Lemma late_connack_data c t o :
  running c -> c_receiveBuffer c = None -> exhausted c -> tidy c ->
  c_connectTimeout c = Some t -> c_connectOptions c = Some o -> co_cleanSession o = true ->
  exists c', run_event (SocketData (disconnect_packet ++ connack_packet)) c = (Ret tt, c') /\ stuck c'.
Proof.
  intros Hc Hb Hx Htidy Hct Ho Hclean.
  pose proof Hc as ((Hcon & (so & Hso & Hopen) & _ & _ & _ & (p & Hp & Hin)) & _). cbn in Hcon, Hso, Hp, Hin.
  destruct (emits_pinger_reset c_receivePinger p c Hp Hin) as (c1 & E1 & K1 & D1 & O1).
  pose proof (running_core c c1 K1 Hc) as Hc1.
  assert (tidy c1) as Ht1.
  { apply (tidy_reset c p); [done|done|]. unfold on_pinger, bind, get, deref in E1. by rewrite Hp in E1. }
  assert (exhausted c1 /\ c_connectTimeout c1 = Some t /\ c_connectOptions c1 = Some o) as (Hx1 & Hct1 & Ho1).
  { unfold exhausted. change (c_connectOptions c1) with (k_connectOptions (core c1)).
    change (c_hostIndex c1) with (k_hostIndex (core c1)).
    change (c_connectTimeout c1) with (k_connectTimeout (core c1)). by rewrite K1. }
  assert (c_receiveBuffer c1 = buffered []) as Hb1.
  { change (d_receiveBuffer (durable_of c1) = None). by rewrite D1. }
  pose proof (deframe_chunk c1 [] (disconnect_packet ++ connack_packet) [disconnect_packet; connack_packet]
    [new_WireMessage MESSAGE_TYPE.DISCONNECT; connack_message] [] Hb1 eq_refl
    (List.Forall2_cons _ _ frame_disconnect (List.Forall2_cons _ _ frame_connack (List.Forall2_nil _)))
    (or_introl eq_refl)) as Ed.
  replace (set_receiveBuffer (buffered []) c1) with c1 in Ed by (rewrite <- Hb1; by destruct c1).
  destruct (running_pingers c1 Hc1) as [Hsp Hrp].
  destruct (illegal_packet_run c1) as (ts & e & E2 & Hsub & Hts); [apply Hc1|done|done|done|].
  destruct (late_connack_run (given_up ts e c1) t o) as (c3 & E3 & G1 & G2 & G3); [done..|].
  exists c3. split.
  - cbn [run_event]. unfold with_socket, bind at 1, get. rewrite Hso.
    unfold bind at 1, modify. cbn [default]. unfold id.
    replace (set_socket _ c) with c; [|destruct so; cbn; rewrite <- Hso; by destruct c].
    unfold _on_socket_message, bind at 1. rewrite E1. unfold bind at 1. rewrite Ed.
    unfold bind at 1, deref, ret at 1. cbn [iter_]. unfold bind. by rewrite E2, E3.
  - constructor; [done|done|]. rewrite G3. intros t' tm [_ Hin']%lookup_delete_Some.
    assert (e_timers c1 !! t' = Some tm) as Hin1 by (by eapply lookup_weaken).
    pose proof (map_Forall_lookup_1 _ _ _ _ Ht1 Hin1) as Hk. cbv beta in Hk.
    specialize (Hts t'). cbn in Hin'. destruct (tm_action tm); try done; (rewrite Hts in Hin'; [done|tauto]).
Qed.

(** A CONNACK that follows an illegal packet in the same data leaves the
    client stuck.  The illegal packet makes it give the connection up; the
    CONNACK, handled next, marks it connected again.  From then on, whatever
    happens, [connect] refuses because it is connected and [disconnect] because
    it has no socket. *)
Theorem late_connack_sticks c t o :
  running c -> c_receiveBuffer c = None -> exhausted c -> tidy c ->
  c_connectTimeout c = Some t -> c_connectOptions c = Some o -> co_cleanSession o = true ->
  exists c', run_event (SocketData (disconnect_packet ++ connack_packet)) c = (Ret tt, c') /\
    stuck c' /\
    forall es c'', steps c' es c'' ->
      (forall o', run_event (Connect o') c''
         = (Throw (Error (js "AMQJS0011E Invalid state already connected.")), c'')) /\
      run_event Disconnect c''
        = (Throw (Error (js "AMQJS0011E Invalid state not connecting or connected.")), c'').
Proof.
  intros Hc Hb Hx Htidy Hct Ho Hclean.
  destruct (late_connack_data c t o Hc Hb Hx Htidy Hct Ho Hclean) as (c' & E & Hst).
  exists c'. split; [done|]. split; [done|]. intros es c'' Hsteps.
  pose proof (stuck_steps _ _ _ Hsteps Hst) as [K2 K3 _]. split.
  - intros o'. cbn [run_event]. unfold connect, bind at 1, get. rewrite K2. done.
  - cbn [run_event]. unfold disconnect, bind at 1, get. rewrite K3. done.
Qed.

(** ** What outlives a connection *)
Section Residue.
Context (b : option (list Z)).

Definition holds_buffer (c : client) : Prop := c_receiveBuffer c = b.

Lemma holds_buffer_durable : durable_prop holds_buffer.
Proof. intros c c' E Hc. etrans; [exact (eq_sym (f_equal d_receiveBuffer E))|exact Hc]. Qed.

Lemma buffer_modify f : (forall c, c_receiveBuffer (f c) = c_receiveBuffer c) -> inv holds_buffer (modify f).
Proof. intros H c Hc. unfold holds_buffer. cbn. by rewrite H. Qed.

Ltac buffer_step :=
  cbv zeta;
  match goal with
  | |- inv _ (bind _ _) => apply inv_bind; [|intros]
  | |- inv _ (when _ _) => apply inv_when
  | |- inv _ (modify _) => apply buffer_modify; intros; reflexivity
  | |- inv _ (match ?x with _ => _ end) => destruct x
  | |- inv _ _ => solve [apply inv_keeps; [apply holds_buffer_durable|repeat keeps_step]]
  end.

Lemma buffer_store bx m : inv holds_buffer (store bx m).
Proof. unfold store. repeat buffer_step. Qed.

Lemma buffer_requires_ack m : inv holds_buffer (_requires_ack m).
Proof. unfold _requires_ack. repeat buffer_step. apply buffer_store. Qed.

Lemma buffer_event e :
  match e with SocketData _ => False | _ => True end -> inv holds_buffer (run_event e).
Proof.
  destruct e as [o|f o|f o|m| |h| |data|data| |t]; intros He; cbn [run_event];
    try (unfold with_socket; by repeat buffer_step).
  - unfold subscribe. repeat buffer_step. apply buffer_requires_ack.
  - unfold unsubscribe. repeat buffer_step. apply buffer_requires_ack.
  - unfold send. repeat buffer_step. apply buffer_requires_ack.
Qed.

Lemma buffer_events es c :
  Forall (λ e, match e with SocketData _ => False | _ => True end) es ->
  holds_buffer c -> holds_buffer (run_events es c).
Proof.
  intros H. revert c. induction H as [|e es He _ IH]; intros c Hc; [done|].
  cbn. apply IH. by apply buffer_event.
Qed.
End Residue.

(** The first bytes of a packet cut off by the loss of its connection are
    kept, through closing, connecting and opening, and put in front of the first
    data of the next connection, whose packets are then misread. *)
Theorem partial_packet_outlives_connection c t es data :
  c_receiveBuffer c = Some t ->
  Forall (λ e, match e with SocketData _ => False | _ => True end) es ->
  let c' := run_events es c in
  c_receiveBuffer c' = Some t /\
  _deframeMessages data c' = _deframeMessages (t ++ data) (set_receiveBuffer None c').
Proof.
  intros Hb Hes c'. assert (c_receiveBuffer c' = Some t) as Hb'.
  { by apply (buffer_events (Some t)). }
  split; [done|]. unfold _deframeMessages, bind at 1, get.
  rewrite Hb'. by unfold bind at 1, get.
Qed.
