(* ===== verification/ClientExamples.v ===== *)
(** * Concrete runs of the client

    A client connected to one server, as the constructor, the events of a
    connection and nothing else make it; the theorems about the client applied
    to it. *)

From stdpp Require Import base tactics list strings gmap numbers.
From Stdlib Require Import ZArith Lia.
From S2P Require Import Prelude PahoBase Utf8 Wire WireFacts Client ClientKeeps Deframe Storage.
From S2P Require Import Identifiers Ready Delivery Session Failover Keepalive.
Local Open Scope Z_scope.
Local Open Scope st_scope.

Definition demo_load (st : gmap jsstr StoredMessage) : result exn client :=
  load (js "ws://h:1/mqtt") (js "h") (Num 1) (js "/mqtt") (js "a") st.

Definition demo_fresh : client :=
  match demo_load ∅ with
  | Ret c => c
  | Throw _ => initial_client [] [] (Num 0) [] [] ∅
  end.

Definition demo_options (clean : bool) : ConnectOptions :=
  mkConnectOptions None None None None 60 clean false true true None 4 true.

Definition all_handlers : handlers := mkHandlers true true true.

(** The events that connect the client. *)
Definition demo_connecting (clean : bool) : list event :=
  [SetHandlers all_handlers; Connect (demo_options clean); SocketOpened].

Definition demo_events (clean : bool) : list event :=
  demo_connecting clean ++ [SocketData connack_packet].

Definition demo (clean : bool) : client := run_events (demo_events clean) demo_fresh.

Lemma steps_run es c : steps c es (run_events es c).
Proof.
  revert c. induction es as [|e es IH]; intros c; [constructor|].
  econstructor; [|apply IH]. destruct (run_event e c) as [r c'] eqn:E. by econstructor.
Qed.

Lemma demo_running : running (demo false).
Proof.
  split; [|by vm_compute]. split_and!; [by vm_compute|eexists; split; by vm_compute|by vm_compute|
    by vm_compute|eexists; split; [by vm_compute|]|eexists; split; [by vm_compute|]];
    apply elem_of_dom; by vm_compute; eexists.
Qed.

Lemma demo_represents : represents (demo false) (mkSession ∅ ∅).
Proof.
  assert (c_sentMessages (demo false) = ∅) as E1 by by vm_compute.
  assert (c_receivedMessages (demo false) = ∅) as E2 by by vm_compute.
  constructor; intros n; cbn [outstanding pending]; by rewrite ?E1, ?E2, !lookup_empty.
Qed.

Definition hello : Message :=
  mkMessage (PUint8Array [104; 105]) (Some (js "t")) 2 false false.

Ltac by_computing := vm_compute; reflexivity.

Lemma storage_ok_empty lk : storage_ok lk ∅.
Proof. intros b k s H. by rewrite lookup_empty in H. Qed.

Lemma demo_fresh_load : demo_load ∅ = Ret demo_fresh.
Proof. by_computing. Qed.

Lemma hello_storable : storable hello.
Proof. split; [|split; [by eexists|cbn; lia]]. repeat constructor; vm_compute; congruence. Qed.

Lemma hello_publishable : publishable hello (js "t").
Proof.
  constructor; [done| |apply hello_storable|cbn; lia]. split; [by_computing|vm_compute; congruence].
Qed.

Lemma hello_sendable : sendable hello (js "t").
Proof. constructor; [apply hello_publishable|apply hello_storable|cbn; lia|by_computing]. Qed.

Lemma hello_wire n : wire_message 2 (Some (Num n)) hello.
Proof.
  constructor; [|eexists; split; [done|apply hello_publishable]|done|by_computing].
  eexists. split; [done|]. apply hello_storable.
Qed.

Lemma deframe_chunk_invariance_witness :
  deframe_chunks [[64]; [2; 0]; [5]] demo_fresh
  = (Ret [new_ack MESSAGE_TYPE.PUBACK (Some (Num 5))], demo_fresh).
Proof.
  apply (deframe_chunk_invariance [packet 64 (uint16_bytes 5)]
    [new_ack MESSAGE_TYPE.PUBACK (Some (Num 5))] [[64]; [2; 0]; [5]] [] demo_fresh);
    [|by_computing|by_computing|done].
  constructor; [|constructor]. apply (frame_ack MESSAGE_TYPE.PUBACK 5); [by left|lia].
Defined.


Lemma requires_ack_fresh_witness :
  let c := run_events (demo_events false ++ [Send hello]) demo_fresh in
  let m := set_subscription MESSAGE_TYPE.SUBSCRIBE [js "t"] [0] None false false false in
  exists m' c' id, _requires_ack m c = (Ret m', c') /\ acknowledged_message m id m' /\
    c_sentMessages c !! Num id = None /\
    c_sentMessages c' = <[Num id := m']> (c_sentMessages c) /\
    (forall i, c_message_identifier c <= i < id -> is_Some (c_sentMessages c !! Num i)) /\
    1 <= c_message_identifier c <= id /\
    (c_message_identifier c + Z.of_nat (size (c_sentMessages c)) < 65536 -> id < 65536).
Proof.
  cbv zeta. set (c := run_events _ _). set (m := set_subscription _ _ _ _ _ _ _).
  assert (Z.of_nat (size (c_sentMessages c)) <= 65536) as Hs by (vm_compute; congruence).
  pose proof (requires_ack_fresh (js "ws://h:1/mqtt") (js "h") (Num 1) (js "/mqtt") (js "a") ∅ demo_fresh
           (demo_events false ++ [Send hello]) c m) as H.
  rewrite decide_True in H by exact Hs. apply H.
  - apply storage_ok_empty.
  - apply demo_fresh_load.
  - repeat constructor; try (vm_compute; congruence); intros; apply hello_storable.
  - apply steps_run.
  - intros Ht. discriminate Ht.
Defined.

(** A client with every identifier below 65536 in flight. *)
Definition crowd : list (jsnum * WireMessage) :=
  (λ i, (Num i, new_WireMessage MESSAGE_TYPE.SUBSCRIBE)) <$> seqZ 1 65535.

Definition crowded : client := set_sentMessages (list_to_map crowd) demo_fresh.

Lemma crowd_nodup : NoDup crowd.*1.
Proof.
  unfold crowd. rewrite <- list_fmap_compose. apply NoDup_fmap_2; [by intros i j [= H]|].
  apply NoDup_seqZ.
Qed.

Lemma crowd_in_flight id : is_Some (c_sentMessages crowded !! Num id) <-> 1 <= id < 65536.
Proof.
  change (c_sentMessages crowded) with (list_to_map crowd : gmap jsnum WireMessage).
  rewrite <- elem_of_dom, dom_list_to_map_L, elem_of_list_to_set.
  unfold crowd. rewrite <- list_fmap_compose, list_elem_of_fmap. split.
  - intros (i & [= ->] & Hi%elem_of_seqZ). lia.
  - intros Hi. exists id. split; [done|]. apply elem_of_seqZ. lia.
Qed.

Lemma crowd_size : size (c_sentMessages crowded) = Z.to_nat 65535.
Proof.
  change (c_sentMessages crowded) with (list_to_map crowd : gmap jsnum WireMessage).
  rewrite <- size_dom, dom_list_to_map_L, size_list_to_set by apply crowd_nodup.
  unfold crowd. by rewrite !length_fmap, length_seqZ.
Qed.

Lemma identifier_overflow_witness :
  exists m' c', _requires_ack (new_WireMessage MESSAGE_TYPE.SUBSCRIBE) crowded = (Ret m', c') /\
    wm_messageIdentifier m' = Some (Num 65536) /\
    fst (writeUint16 (num_bits (id_key (wm_messageIdentifier m'))) [0; 0] 0) = [0; 0] /\
    c_message_identifier c' = 1.
Proof.
  apply (identifier_overflow crowded (new_WireMessage MESSAGE_TYPE.SUBSCRIBE)).
  - reflexivity.
  - intros Ht. discriminate Ht.
  - change (c_message_identifier crowded) with 1. lia.
  - intros id. apply crowd_in_flight.
  - rewrite crowd_size. lia.
Defined.

(** Traffic: a qos 2 publication, repeated, released twice, among other packets. *)
Definition traffic : list packet_in :=
  [Pub2 5 hello; Ack 7; Pub2 5 hello; Rel 5; Pub2 6 hello; Rel 5].

Definition traffic_chunks : list (list Z) :=
  [take 3 (concat (bytes_of <$> traffic)); drop 3 (concat (bytes_of <$> traffic))].

Lemma traffic_ok : Forall packet_ok traffic.
Proof.
  assert (id_range 5 /\ id_range 6 /\ id_range 7) as (? & ? & ?) by (unfold id_range; lia).
  repeat (constructor; [cbn; first [done | split; [done|apply hello_wire]]|]). constructor.
Qed.

Lemma data_refines_exchange_witness :
  let c' := run_events (SocketData <$> traffic_chunks) (demo false) in
  running c' /\ c_receiveBuffer c' = None /\
  represents c' (fst (exchanges traffic (mkSession ∅ ∅))) /\
  e_output c' = e_output (demo false) ++ snd (exchanges traffic (mkSession ∅ ∅)).
Proof.
  apply (data_refines_exchange traffic traffic_chunks (demo false) (mkSession ∅ ∅)).
  - apply demo_running.
  - by_computing.
  - apply demo_represents.
  - apply traffic_ok.
  - repeat split.
  - by_computing.
  - done.
Defined.

Lemma qos2_exactly_once_witness :
  let log := exchange_log traffic (mkSession ∅ ∅) in
  e_output (run_events (SocketData <$> traffic_chunks) (demo false))
  = e_output (demo false) ++ concat log.*2 /\
  log_about 5 log
  = replicate 2 (answer MESSAGE_TYPE.PUBREC 5)
    ++ arrived hello :: replicate 2 (answer MESSAGE_TYPE.PUBCOMP 5).
Proof.
  apply (qos2_exactly_once 5 hello [hello] 1 traffic traffic_chunks (demo false) (mkSession ∅ ∅)).
  - apply demo_running.
  - by_computing.
  - apply demo_represents.
  - apply traffic_ok.
  - repeat split.
  - by_computing.
  - done.
  - by_computing.
Defined.

Lemma sent_until_acknowledged_witness :
  let c' := run_events (Send hello :: (SocketData <$> [bytes_of (Rec 1); bytes_of (Ack 9)])) (demo false) in
  (∅ : gmap Z Message) !! 1 = None /\ 1 <= 1 < 65536 /\
  (exists o, e_output c' = e_output (demo false) ++
     SocketSend (packet (publish_first hello) (publish_body (Some (Num 1)) (js "t") hello)) :: o) /\
  exists w, c_sentMessages c' !! Num 1 = Some w /\ sent_entry 1 hello w.
Proof.
  apply (sent_until_acknowledged hello (js "t") [Rec 1; Ack 9] [bytes_of (Rec 1); bytes_of (Ack 9)]
           (demo false) (mkSession ∅ ∅)).
  - apply demo_running.
  - by_computing.
  - apply demo_represents.
  - apply hello_sendable.
  - vm_compute. congruence.
  - by_computing.
  - vm_compute. congruence.
  - repeat constructor; cbn; lia.
  - repeat constructor.
  - repeat split.
  - by_computing.
  - done.
Defined.

(** A client that lost its connection with [hello] in flight and is connecting
    again: its CONNECT is out. *)
Definition reconnecting : client :=
  run_events (demo_events false ++ [Send hello; SocketClosed] ++ demo_connecting false) demo_fresh.

Definition reconnect_timer : nat := default 0%nat (c_connectTimeout reconnecting).

Definition hello_packet : list Z :=
  packet (publish_first hello) (publish_body (Some (Num 1)) (js "t") hello).

Lemma reconnecting_handshaking : handshaking reconnecting reconnect_timer (demo_options false).
Proof.
  constructor; [|by_computing..].
  split_and!; [by vm_compute|eexists; split; by vm_compute|by vm_compute|
    by vm_compute|eexists; split; [by vm_compute|]|eexists; split; [by vm_compute|]];
    apply elem_of_dom; by vm_compute; eexists.
Qed.

Lemma connack_resends_witness :
  resend_order reconnecting <> [] /\
  (exists c', _handleMessage connack_message reconnecting = (Ret tt, c') /\ ready c' /\
     durable_of c' = durable_of reconnecting /\
     e_output c' = e_output reconnecting ++ [SocketSend hello_packet; OnConnectSuccess]) /\
  resend_order reconnecting ≡ₚ (map_to_list (c_sentMessages reconnecting)).*2 /\
  (map_Forall (λ _ w, sequenced_message w) (c_sentMessages reconnecting) ->
   ascending sequence_of (resend_order reconnecting)).
Proof.
  split; [vm_compute; congruence|].
  apply (connack_resends reconnecting reconnect_timer (demo_options false) connack_message [hello_packet]).
  - apply reconnecting_handshaking.
  - split; by_computing.
  - by_computing.
  - replace (resend_order reconnecting)
      with [default connack_message (c_sentMessages reconnecting !! Num 1)] by by_computing.
    repeat constructor; by_computing.
Defined.

Definition reconnecting_clean : client :=
  run_events (demo_events false ++ [Send hello; SocketClosed] ++ demo_connecting true) demo_fresh.

Lemma clean_session_discards_witness :
  is_Some (c_sentMessages reconnecting_clean !! Num 1) /\
  exists c', _handleMessage connack_message reconnecting_clean = (Ret tt, c') /\ ready c' /\
    c_sentMessages c' = ∅ /\ c_receivedMessages c' = ∅ /\
    e_localStorage c' ⊆ e_localStorage reconnecting_clean /\
    (forall id w, c_sentMessages reconnecting_clean !! id = Some w ->
       e_localStorage c' !! storage_key Sent (cf_localKey (c_cfg reconnecting_clean))
                              (wm_messageIdentifier w) = None) /\
    (forall id w, c_receivedMessages reconnecting_clean !! id = Some w ->
       e_localStorage c' !! storage_key Received (cf_localKey (c_cfg reconnecting_clean))
                              (wm_messageIdentifier w) = None) /\
    e_output c' = e_output reconnecting_clean ++ [OnConnectSuccess].
Proof.
  split; [by vm_compute; eexists|].
  apply (clean_session_discards reconnecting_clean
           (default 0%nat (c_connectTimeout reconnecting_clean)) (demo_options true) connack_message).
  - constructor; [|by_computing..].
    split_and!; [by vm_compute|eexists; split; by vm_compute|by vm_compute|
      by vm_compute|eexists; split; [by vm_compute|]|eexists; split; [by vm_compute|]];
      apply elem_of_dom; by vm_compute; eexists.
  - split; by_computing.
  - by_computing.
Defined.

Definition two_hosts : ConnectOptions :=
  mkConnectOptions None None None None 60 true false true true
    (Some [js "ws://a:1/mqtt"; js "ws://b:1/mqtt"]) 4 false.

Lemma failover_schedule_witness :
  e_output (run_events (Connect two_hosts :: replicate 4 SocketClosed) demo_fresh)
  = [OpenSocket (js "ws://a:1/mqtt") (js "mqtt"); OpenSocket (js "ws://b:1/mqtt") (js "mqtt");
     OpenSocket (js "ws://a:1/mqtt") (js "mqttv3.1"); OpenSocket (js "ws://b:1/mqtt") (js "mqttv3.1");
     failure].
Proof.
  apply (failover_schedule demo_fresh two_hosts [js "ws://a:1/mqtt"; js "ws://b:1/mqtt"] 4);
    [by_computing..|done|by_computing].
Defined.

Definition demo_pinger : nat := default 0%nat (c_receivePinger (demo false)).
Definition demo_pinger_state : Pinger :=
  default (mkPinger 0 false None) (e_pingers (demo false) !! demo_pinger).

Lemma silent_server_given_up_witness :
  let t := default 0%nat (pg_timeout demo_pinger_state) in
  let c1 := run_events [TimerFires t] (demo false) in
  let c2 := run_events [TimerFires t; TimerFires (e_next (demo false))] (demo false) in
  e_timers c1 !! e_next (demo false) = Some (mkTimer (DoPing demo_pinger) 60000) /\
  e_output c1 = e_output (demo false) ++ [SocketSend [0xC0; 0x00]] /\ c_connected c1 = true /\
  e_output c2 = e_output (demo false) ++ [SocketSend [0xC0; 0x00]; SocketClose;
    OnConnectionLost 4 (Text (js "AMQJS0004E Ping timed out."))] /\
  c_connected c2 = false /\ c_socket c2 = None.
Proof.
  apply (silent_server_given_up (demo false) (default 0%nat (pg_timeout demo_pinger_state))
           demo_pinger demo_pinger_state 60000 true).
  - apply demo_running.
  - exists (demo_options false). split; by_computing || done.
  - by_computing.
  - by_computing.
  - by_computing.
  - by_computing.
  - by_computing.
Defined.

Lemma unexpected_pubcomp_disconnects_witness :
  (exists c', _handleMessage (wire_of (Comp 9)) (demo false) = (Ret tt, c') /\
     c_connected c' = false /\ c_socket c' = None /\
     e_output c' = e_output (demo false) ++ [SocketClose; OnConnectionLost 5 (InternalText TypeError)]) /\
  _handleMessage (wire_of (Ack 9)) (demo false) = (Ret tt, demo false) /\
  _handleMessage (wire_of (Rec 9)) (demo false) = (Ret tt, demo false).
Proof.
  apply (unexpected_pubcomp_disconnects 9 (demo false) (mkSession ∅ ∅)).
  - apply demo_running.
  - apply demo_represents.
  - exists (demo_options false). split; by_computing || done.
  - unfold id_range. lia.
  - by_computing.
  - by_computing.
Defined.

Lemma late_connack_sticks_witness :
  exists c', run_event (SocketData (disconnect_packet ++ connack_packet)) (demo true) = (Ret tt, c') /\
    stuck c' /\
    forall es c'', steps c' es c'' ->
      (forall o', run_event (Connect o') c''
         = (Throw (Error (js "AMQJS0011E Invalid state already connected.")), c'')) /\
      run_event Disconnect c''
        = (Throw (Error (js "AMQJS0011E Invalid state not connecting or connected.")), c'').
Proof.
  apply (late_connack_sticks (demo true) (default 0%nat (c_connectTimeout (demo true))) (demo_options true)).
  - split; [|by vm_compute]. split_and!; [by vm_compute|eexists; split; by vm_compute|by vm_compute|
      by vm_compute|eexists; split; [by vm_compute|]|eexists; split; [by vm_compute|]];
      apply elem_of_dom; by vm_compute; eexists.
  - by_computing.
  - exists (demo_options true). split; by_computing || done.
  - apply map_Forall_to_list. set (l := map_to_list _).
    let l' := eval vm_compute in l in change l with l'.
    repeat constructor; do 2 eexists; by vm_compute.
  - by_computing.
  - by_computing.
  - by_computing.
Defined.

(** Two bytes of a PUBLISH arrive, the connection is lost and made again: the
    CONNACK of the new connection is taken for the rest of the PUBLISH. *)
Definition cut_off : client := run_events [SocketData [0x30; 0x0A]] (demo false).
Definition reconnection : list event := [SocketClosed; Connect (demo_options false); SocketOpened].

Lemma partial_packet_outlives_connection_witness :
  let c' := run_events reconnection cut_off in
  (c_receiveBuffer c' = Some [0x30; 0x0A] /\
   _deframeMessages connack_packet c'
   = _deframeMessages ([0x30; 0x0A] ++ connack_packet) (set_receiveBuffer None c')) /\
  c_connected (run_events [SocketData connack_packet] c') = false.
Proof.
  cbv zeta. split; [|by_computing].
  apply (partial_packet_outlives_connection cut_off [0x30; 0x0A] reconnection connack_packet);
    [by_computing|repeat constructor].
Defined.
