(* ===== verification/Unsendable.v ===== *)
(** * A publication that cannot be sent

    [_requires_ack] enters a message in the table of messages in flight before
    anything has looked at its text.  A payload that ends in the middle of a
    surrogate pair makes [send] throw, and the message stays behind: from then
    on every connection that keeps the session ends while it is being resumed. *)

From stdpp Require Import base tactics list strings gmap numbers.
From Stdlib Require Import ZArith Lia.
From S2P Require Import Prelude PahoBase Utf8 Wire WireFacts Client ClientKeeps Deframe Storage.
From S2P Require Import Identifiers Ready Delivery Session Failover Keepalive ClientExamples.
Local Open Scope Z_scope.
Local Open Scope st_scope.

(** ** Text cut inside a surrogate pair *)
Lemma stringToUTF8_cut h a : wf_utf16 a = true -> is_high_surrogate h = true ->
  forall output pos,
  stringToUTF8 (a ++ [h]) output pos = Throw (Error (format MALFORMED_UNICODE [dec h; js "NaN"])).
Proof.
  intros Ha Hh. revert a Ha. refine (utf16_ind _ _ _ _);
    [|intros c s Hc E Hs IH|intros hi lo s E1 E2 Hs IH]; intros output pos; cbn [app stringToUTF8].
  - by rewrite Hh.
  - rewrite E. apply IH.
  - rewrite E1. apply IH.
Qed.

(** The payload of [p] is such a text. *)
Definition cut_payload (p : Message) (h : Z) : Prop :=
  exists a, msg_payload p = PString (a ++ [h]) /\ wf_utf16 a = true /\ is_high_surrogate h = true.

Definition cut_error (h : Z) : exn := Error (format MALFORMED_UNICODE [dec h; js "NaN"]).

Lemma cut_payload_bytes p h : cut_payload p h -> getPayloadBytes p = Throw (cut_error h).
Proof.
  intros (a & Hp & Ha & Hh). unfold getPayloadBytes. rewrite Hp, stringToUTF8_cut by done. done.
Qed.

Lemma encode_cut m p h : wm_type m = MESSAGE_TYPE.PUBLISH -> wm_payloadMessage m = Some p ->
  cut_payload p h -> exists e, encode m = Throw e.
Proof.
  intros Ht Hp Hc. unfold encode, encode_sizes. rewrite Ht, Hp.
  change (MESSAGE_TYPE.PUBLISH =? MESSAGE_TYPE.CONNECT) with false.
  change (MESSAGE_TYPE.PUBLISH =? MESSAGE_TYPE.SUBSCRIBE) with false.
  change (MESSAGE_TYPE.PUBLISH =? MESSAGE_TYPE.UNSUBSCRIBE) with false.
  change (MESSAGE_TYPE.PUBLISH =? MESSAGE_TYPE.PUBREL) with false.
  change (MESSAGE_TYPE.PUBLISH =? MESSAGE_TYPE.PUBLISH) with true. cbv iota zeta.
  unfold undefined_dest. destruct (destinationName p); [|by eexists].
  rewrite (cut_payload_bytes p h Hc). by eexists.
Qed.

(** ** Calls that throw and leave a ready client ready *)
Definition fails {A} (m : C A) (c : client) (e : exn) (o : list output) : Prop :=
  exists c', m c = (Throw e, c') /\ core c' = core c /\ durable_of c' = durable_of c /\
             e_output c' = e_output c ++ o.

Lemma fails_schedule m c e :
  ready c -> encode m = Throw e -> fails (_schedule_message m) c e [].
Proof.
  intros (Hc & (s & Hs & _) & Hq & _) He. cbn in Hc, Hs, Hq. unfold fails.
  unfold _schedule_message, bind, modify, get. cbn [c_connected set_msg_queue].
  rewrite Hc, Hq. cbn [app when]. unfold _process_queue, bind, get.
  cbn [c_msg_queue set_msg_queue process_fifo]. unfold bind at 1, sync_queue, modify.
  cbn [c_queue_epoch set_msg_queue]. rewrite Nat.eqb_refl. cbn [rev].
  set (c1 := set_msg_queue [] _). exists c1. unfold bind, _socket_send, bind, get, lift, deref, ret.
  change (c_socket c1) with (c_socket c). rewrite Hs, He.
  split; [done|]. split; [unfold core; cbn; by rewrite Hq|]. split; [done|]. by rewrite app_nil_r.
Qed.

(** Resending stops at the first message that cannot be encoded. *)
Lemma fails_resend ws : forall c, ready c ->
  Exists (λ w, exists e, encode (resend_wire w) = Throw e) ws ->
  exists e bss, fails (iter_ resend_one ws) c e (SocketSend <$> bss).
Proof.
  induction ws as [|w ws IH]; intros c Hc Hex; [by apply Exists_nil in Hex|].
  cbn [iter_]. rewrite resend_one_wire. destruct (encode (resend_wire w)) as [bs|e] eqn:Ew.
  - apply Exists_cons in Hex as [[e He]|Hex]; [congruence|].
    destruct (ready_schedule _ c bs Hc Ew) as (c1 & E1 & K1 & D1 & O1).
    destruct (IH c1) as (e & bss & c2 & E2 & K2 & D2 & O2); [by unfold ready; rewrite K1|done|].
    exists e, (bs :: bss), c2. unfold bind. rewrite E1, E2, K2, D2, O2, O1, <- app_assoc. done.
  - destruct (fails_schedule _ c e Hc Ew) as (c1 & E1 & K1 & D1 & O1).
    exists e, [], c1. unfold bind. by rewrite E1.
Qed.

Lemma ready_pingers c : ready c -> pinger_alive c_sendPinger c /\ pinger_alive c_receivePinger c.
Proof.
  intros (_ & _ & _ & _ & (p & Hp & Hin) & (q & Hq & Hin')).
  split; [exists p|exists q]; (split; [done|]); by apply elem_of_dom.
Qed.

(** A CONNACK that finds such a message in flight ends the connection. *)
Lemma connack_unsendable c t o m :
  handshaking c t o -> accepting m -> co_cleanSession o = false ->
  (exists id w e, c_sentMessages c !! id = Some w /\ encode (resend_wire w) = Throw e) ->
  exists c' bss e, _handleMessage m c = (Ret tt, c') /\
    c_connected c' = false /\ c_socket c' = None /\ durable_of c' = durable_of c /\
    e_output c' = e_output c ++ (SocketSend <$> bss) ++ closes c ++
      (if h_onConnectionLost (c_handlers c)
       then [OnConnectionLost (code INTERNAL_ERROR) (InternalText e)] else []).
Proof.
  intros [Hr Ht Ho _] Hm Hclean (id & w & e0 & Hw & He0).
  assert (c_sentMessages (accepted t o c) = c_sentMessages c /\ core (accepted t o c) =
    core (set_hostIndex (c_hostIndex (accepted t o c)) (set_connected true c)) /\
    durable_of (accepted t o c) = durable_of c /\ e_output (accepted t o c) = e_output c)
    as (Es & Ek & Ed & Eo) by (unfold accepted; by destruct (co_uris o)).
  destruct (fails_resend (resend_order c) (accepted t o c) (ready_accepted t o c Hr))
    as (e & bss & c1 & E1 & K1 & D1 & O1).
  { apply Exists_exists. exists w. split; [|by exists e0]. unfold resend_order.
    apply list_elem_of_In. rewrite stable_sort_perm. by eapply object_values_elem. }
  assert (ready c1) as Hr1 by (unfold ready; rewrite K1; by apply ready_accepted).
  assert (c_connectOptions c1 = Some o /\ c_socket c1 = c_socket c /\ c_handlers c1 = c_handlers c
    /\ c_hostIndex c1 = c_hostIndex (accepted t o c)) as (Eopt & Eso & Eh & Ei).
  { pose proof (f_equal k_connectOptions K1). pose proof (f_equal k_socket K1).
    pose proof (f_equal k_handlers K1). pose proof (f_equal k_hostIndex K1).
    rewrite Ek in *. cbn in *. split_and!; congruence. }
  destruct (disconnected_given_up (code INTERNAL_ERROR, InternalText e) c1)
    as (ts & Ed1 & _); [apply Hr1| |by apply ready_pingers..|].
  { exists o. split; [done|]. rewrite Ei. unfold accepted. destruct (co_uris o); cbn; [lia|done]. }
  eexists _, bss, e. split.
  - rewrite (connack_start c t o m Ht Ho Hm), Hclean. unfold try, bind at 1, when, ret.
    assert (connack_continue o (set_timers (delete t (e_timers c)) c) = (Throw e, c1)) as ->;
      [|exact Ed1].
    unfold connack_continue. transitivity ((sent <- get c_sentMessages ;;
      iter_ resend_one (stable_sort sequence_lt (object_values sent)) ;;
      oo <- get c_connectOptions ;; o <- deref oo ;;
      when (co_onSuccess o) (emit OnConnectSuccess) ;;
      _process_queue) (accepted t o c)); [unfold accepted; by destruct (co_uris o)|].
    unfold bind at 1, get. unfold bind at 1. rewrite Es. fold (resend_order c). by rewrite E1.
  - split_and!; [done|done|change (durable_of c1 = durable_of c); by rewrite D1|].
    cbn [given_up e_output set_output]. unfold closes. rewrite O1, Eo, Eso, Eh.
    by rewrite <- !app_assoc.
Qed.

(** What [send] leaves when the payload cannot be encoded. *)
Lemma send_cut c p h :
  ready c -> cut_payload p h -> 0 < qos p ->
  Z.of_nat (size (c_sentMessages c)) <= cf_maxMessageIdentifier (c_cfg c) ->
  let id := Num (requires_ack_id c) in
  let w := set_messageIdentifier id (set_payloadMessage p (new_WireMessage MESSAGE_TYPE.PUBLISH)) in
  send p c = (Throw (cut_error h),
    set_sentMessages (<[id := w]> (c_sentMessages c)) (set_message_identifier (requires_ack_id c) c)).
Proof.
  intros (Hcon & _) Hp Hq Hn id w. cbn in Hcon. unfold send, require_connected.
  unfold bind at 1 2, get at 1. rewrite Hcon. cbn [negb when]. unfold ret at 1.
  unfold bind at 1, get at 1. assert ((qos p >? 0) = true) as -> by zlia.
  unfold bind at 1, _requires_ack. unfold bind at 1, get at 1. unfold bind at 1, get at 1.
  assert ((Z.of_nat (size (c_sentMessages c)) >? cf_maxMessageIdentifier (c_cfg c)) = false) as ->
    by zlia. unfold bind at 1, when at 1, ret at 1. unfold bind at 1, modify at 1.
  unfold bind at 1, get at 1. unfold bind at 1, modify at 1.
  cbn [wm_type set_messageIdentifier set_payloadMessage new_WireMessage].
  rewrite Z.eqb_refl. unfold bind at 1, store. cbn [wm_type set_messageIdentifier].
  rewrite Z.eqb_refl. cbn [wm_payloadMessage set_messageIdentifier set_payloadMessage].
  unfold bind at 1, deref, ret at 1. unfold bind at 1, lift. by rewrite (cut_payload_bytes p h Hp).
Qed.

(** A publication of qos 1 or 2 whose text is cut inside a surrogate pair is
    refused by [send] with the error for malformed text, yet it stays in flight,
    under an identifier of its own and without a copy in the storage.  From then
    on, as long as it is there, no connection that keeps the session can be
    resumed: the CONNACK handler resends the messages that come before it, then
    closes the connection with an internal error and never reports success. *)
Theorem refused_publication_blocks c p h :
  ready c -> cut_payload p h -> 0 < qos p ->
  Z.of_nat (size (c_sentMessages c)) <= cf_maxMessageIdentifier (c_cfg c) ->
  exists id w c1, send p c = (Throw (cut_error h), c1) /\ ready c1 /\ e_output c1 = e_output c /\
    c_sentMessages c !! Num id = None /\ c_sentMessages c1 = <[Num id := w]> (c_sentMessages c) /\
    e_localStorage c1 = e_localStorage c /\
    forall c2 t o m, handshaking c2 t o -> accepting m -> co_cleanSession o = false ->
      c_sentMessages c2 !! Num id = Some w ->
      exists c3 bss e, _handleMessage m c2 = (Ret tt, c3) /\
        c_connected c3 = false /\ c_socket c3 = None /\ durable_of c3 = durable_of c2 /\
        e_output c3 = e_output c2 ++ (SocketSend <$> bss) ++ closes c2 ++
          (if h_onConnectionLost (c_handlers c2)
           then [OnConnectionLost (code INTERNAL_ERROR) (InternalText e)] else []).
Proof.
  intros Hc Hp Hq Hn. set (id := requires_ack_id c).
  exists id, (set_messageIdentifier (Num id) (set_payloadMessage p (new_WireMessage MESSAGE_TYPE.PUBLISH))).
  eexists. split; [by apply send_cut|]. split_and!; [done|done| |done|done|].
  - destruct (next_identifier_least (c_sentMessages c) (c_message_identifier c)) as (_ & Hf & _).
    by apply eq_None_not_Some.
  - intros c2 t o m Hh Hm Hclean Hw. apply (connack_unsendable c2 t o m); [done..|].
    destruct (encode_cut (set_messageIdentifier (Num id)
      (set_payloadMessage p (new_WireMessage MESSAGE_TYPE.PUBLISH))) p h) as [e He]; [done..|].
    eexists _, _, e. by split.
Qed.

(** The text "hi" and half of a surrogate pair; then the connection is lost and
    made again. *)
Definition cut_hello : Message := mkMessage (PString [104; 105; 0xD83D]) (Some (js "t")) 1 false false.

Lemma refused_publication_blocks_witness :
  (exists id w c1, send cut_hello (demo false) = (Throw (cut_error 0xD83D), c1) /\
    c_sentMessages c1 = <[Num id := w]> (c_sentMessages (demo false))) /\
  let c := run_events ([Send cut_hello; SocketClosed; Connect (demo_options false); SocketOpened;
                        SocketData connack_packet]) (demo false) in
  size (c_sentMessages c) = 1%nat /\ c_connected c = false /\
  List.last (e_output c) SocketClose = OnConnectionLost 5 (InternalText (cut_error 0xD83D)).
Proof.
  split; [|by vm_compute].
  assert (ready (demo false)) as H1 by apply (proj1 demo_running).
  assert (cut_payload cut_hello 0xD83D) as H2 by (exists [104; 105]; split_and!; vm_compute; reflexivity).
  assert (Z.of_nat (size (c_sentMessages (demo false))) <= cf_maxMessageIdentifier (c_cfg (demo false)))
    as H3 by (vm_compute; discriminate).
  destruct (refused_publication_blocks (demo false) cut_hello 0xD83D H1 H2 eq_refl H3)
    as (id & w & c1 & E & _ & _ & _ & Es & _).
  exists id, w, c1. split; [exact E|exact Es].
Defined.
