(* ===== verification/Typing.v ===== *)
(** * Every message the client holds can be sent

    The encoder throws on a message that lacks a part its type needs or whose
    text is malformed.  [sendable_wire] is what it asks for; it holds of every
    message queued or in flight in any state the client can reach by requests
    whose text is well formed, so that resuming a session always succeeds. *)

From stdpp Require Import base tactics list strings gmap numbers.
From Stdlib Require Import ZArith Lia.
From S2P Require Import Prelude PahoBase Utf8 Wire WireFacts Client ClientKeeps Storage.
From S2P Require Import Ready Delivery Session Failover Keepalive ClientExamples.
Local Open Scope Z_scope.
Local Open Scope st_scope.

(** ** The encoder is total on well-formed messages *)

(** A writer that takes [n] bytes, wherever there is room for them. *)
Definition fits (f : list Z -> nat -> result exn (list Z * nat)) (n : nat) : Prop :=
  forall b p, (p + n <= length b)%nat ->
    exists b', f b p = Ret (b', (p + n)%nat) /\ length b' = length b.

Lemma fits_nil : fits (λ b p, Ret (b, p)) 0.
Proof. intros b p _. exists b. by rewrite Nat.add_0_r. Qed.

Lemma fits_seq f g n k :
  fits f n -> fits g k -> fits (λ b p, bp <-? f b p ;; g (fst bp) (snd bp)) (n + k).
Proof.
  intros Hf Hg b p Hp. destruct (Hf b p) as (b1 & E1 & L1); [lia|].
  destruct (Hg b1 (p + n)%nat) as (b2 & E2 & L2); [lia|].
  exists b2. rewrite E1. cbn [rbind fst snd]. rewrite E2, Nat.add_assoc. split; [done|lia].
Qed.

Lemma fits_ext f g n : (forall b p, f b p = g b p) -> fits f n -> fits g n.
Proof. intros E Hf b p Hp. rewrite <- E. by apply Hf. Qed.

Lemma length_u8blit src : forall b p, length (u8blit b src p) = length b.
Proof.
  induction src as [|x src IH]; intros b p; [done|]. cbn [u8blit].
  rewrite IH. apply length_insert.
Qed.

Lemma length_writeUint16 n b p :
  length (fst (writeUint16 n b p)) = length b /\ snd (writeUint16 n b p) = (p + 2)%nat.
Proof. cbn. unfold u8set. by rewrite !length_insert. Qed.

Lemma fits_uint16 n : fits (λ b p, Ret (writeUint16 n b p)) 2.
Proof.
  intros b p _. destruct (length_writeUint16 n b p) as [H1 H2].
  destruct (writeUint16 n b p) as [b' p']. cbn in H1, H2. subst p'. by exists b'.
Qed.

Lemma fits_id id : fits (write_id id) (match id with Some _ => 2 | None => 0 end).
Proof. destruct id; [apply fits_uint16|apply fits_nil]. Qed.

Lemma fits_byte v : fits (λ b p, Ret (u8set b p v, (p + 1)%nat)) 1.
Proof. intros b p _. eexists. split; [done|]. apply length_insert. Qed.

Lemma fits_bytes bs :
  fits (λ b p, b <-? u8setarr b bs p ;; Ret (b, (p + length bs)%nat)) (length bs).
Proof.
  intros b p Hp. unfold u8setarr. assert ((length b <? p + length bs)%nat = false) as ->
    by (apply Nat.ltb_ge; lia).
  eexists. split; [done|]. apply length_u8blit.
Qed.

Lemma stringToUTF8_total s : wf_utf16 s = true ->
  forall b p, exists b', stringToUTF8 s b p = Ret b' /\ length b' = length b.
Proof.
  revert s. refine (utf16_ind _ _ _ _);
    [|intros c s Hc E Hs IH|intros hi lo s E1 E2 Hs IH]; intros b p; cbn [stringToUTF8].
  - by exists b.
  - rewrite E. unfold put_bytes. edestruct IH as (b' & E' & L'). rewrite E'. exists b'.
    split; [done|]. by rewrite L', length_u8blit.
  - rewrite E1. unfold put_bytes. edestruct IH as (b' & E' & L'). rewrite E'. exists b'.
    split; [done|]. by rewrite L', length_u8blit.
Qed.

Lemma fits_string s : wf_utf16 s = true ->
  fits (writeString s (UTF8Length s)) (2 + Z.to_nat (UTF8Length s)).
Proof.
  intros Hs b p Hp. unfold writeString. destruct (length_writeUint16 (UTF8Length s) b p) as [H1 H2].
  destruct (writeUint16 _ b p) as [b1 p1]. cbn in H1, H2. subst p1.
  destruct (stringToUTF8_total s Hs b1 (p + 2)) as (b' & -> & H'). exists b'.
  split; [f_equal; f_equal; lia|lia].
Qed.

Lemma UTF8Length_nonneg s : 0 <= UTF8Length s.
Proof.
  remember (length s) as n eqn:Hn. revert s Hn.
  induction (lt_wf n) as [n _ IH]. intros [|c s] ->; cbn [UTF8Length]; [done|].
  assert (0 <= UTF8Length s) by (eapply IH; [|done]; cbn; lia).
  assert (0 <= match s with [] => 0 | _ :: s' => UTF8Length s' end).
  { destruct s as [|d s]; [done|]. eapply IH; [|done]. cbn. lia. }
  repeat case_match; lia.
Qed.

Lemma encode_body_total m sz n k :
  fits (write_variable_header m sz) n -> fits (write_payload m sz) k ->
  sz_remLength sz
  = Z.of_nat (n + match wm_messageIdentifier m with Some _ => 2 | None => 0 end + k) ->
  exists bytes, encode_body m sz = Ret bytes.
Proof.
  intros Hn Hk Hr. rewrite encode_body_writers. cbv zeta.
  set (j := match wm_messageIdentifier m with Some _ => 2%nat | None => 0%nat end) in *.
  set (mbi := encodeMBI (sz_remLength sz)). rewrite Hr, Nat2Z.id.
  set (b0 := u8set _ 0 _). assert (length b0 = n + j + k + (length mbi + 1))%nat as L0
    by (unfold b0, u8set; by rewrite length_insert, length_replicate).
  unfold u8setarr at 1. assert ((length b0 <? 1 + length mbi)%nat = false) as ->
    by (apply Nat.ltb_ge; lia). cbn [rbind].
  destruct (fits_seq _ _ _ _ Hn (fits_seq _ _ _ _ (fits_id (wm_messageIdentifier m)) Hk)
              (u8blit b0 mbi 1) (length mbi + 1)%nat) as (b' & E & _).
  { rewrite length_u8blit. fold j. lia. }
  rewrite E. by eexists.
Qed.

(** What the encoder asks of a message: a publication has a topic and a payload
    of well-formed text, a request has topics of well-formed text. *)
Definition text_payload (p : payload) : Prop :=
  match p with PString s => wf_utf16 s = true | _ => True end.

Definition sendable_message (p : Message) : Prop :=
  text_payload (msg_payload p) /\
  exists d, destinationName p = Some d /\ wf_utf16 d = true.

Definition sendable_wire (m : WireMessage) : Prop :=
  if decide (wm_type m = MESSAGE_TYPE.PUBLISH) then
    exists p, wm_payloadMessage m = Some p /\ sendable_message p
  else if decide (wm_type m = MESSAGE_TYPE.SUBSCRIBE) then
    Forall (λ t, wf_utf16 t = true) (wm_topics m) /\
    length (wm_requestedQos m) = length (wm_topics m)
  else if decide (wm_type m = MESSAGE_TYPE.UNSUBSCRIBE) then
    Forall (λ t, wf_utf16 t = true) (wm_topics m)
  else wm_type m <> MESSAGE_TYPE.CONNECT.

Lemma text_payload_bytes p : text_payload (msg_payload p) ->
  exists v, getPayloadBytes p = Ret v.
Proof.
  unfold getPayloadBytes. destruct (msg_payload p) as [s|bs|bs]; intros H; [|by eexists..].
  destruct (stringToUTF8_total s H (replicate (Z.to_nat (UTF8Length s)) 0) 0) as (b & -> & _).
  by eexists.
Qed.

(** The bytes of the topics of a request, with their lengths. *)
Definition topics_size (topics : list jsstr) : nat :=
  foldr (λ t n, 2 + Z.to_nat (UTF8Length t) + n)%nat 0%nat topics.

Lemma topics_size_sizes topics :
  foldr (λ n acc, n + 2 + acc) 0 (UTF8Length <$> topics) = Z.of_nat (topics_size topics).
Proof.
  induction topics as [|t topics IH]; [done|]. cbn [fmap list_fmap foldr topics_size] in *.
  fold (topics_size topics). rewrite IH. pose proof (UTF8Length_nonneg t). lia.
Qed.

Lemma fits_topics topics : Forall (λ t, wf_utf16 t = true) topics ->
  fits (write_topics topics (UTF8Length <$> topics)) (topics_size topics).
Proof.
  induction 1 as [|t topics Ht _ IH]; [apply fits_nil|].
  eapply fits_ext; [|apply (fits_seq _ _ _ _ (fits_string t Ht) IH)].
  intros b p. cbn -[writeString UTF8Length]. by destruct (writeString t (UTF8Length t) b p) as [[]|].
Qed.

Lemma fits_subscribe topics : Forall (λ t, wf_utf16 t = true) topics -> forall qs,
  length qs = length topics ->
  fits (write_subscribe topics (UTF8Length <$> topics) qs) (topics_size topics + length qs).
Proof.
  induction 1 as [|t topics Ht _ IH]; intros [|q qs] Hl; try done; [apply fits_nil|].
  replace (topics_size (t :: topics) + length (q :: qs))%nat
    with (2 + Z.to_nat (UTF8Length t) + (1 + (topics_size topics + length qs)))%nat
    by (cbn [topics_size foldr length]; fold (topics_size topics); lia).
  eapply fits_ext; [|apply (fits_seq _ _ _ _ (fits_string t Ht)
    (fits_seq _ _ _ _ (fits_byte q) (IH qs ltac:(by injection Hl))))].
  intros b p. cbn -[writeString UTF8Length]. by destruct (writeString t (UTF8Length t) b p) as [[]|].
Qed.

Lemma fits_no_header m sz :
  wm_type m <> MESSAGE_TYPE.PUBLISH -> wm_type m <> MESSAGE_TYPE.CONNECT ->
  fits (write_variable_header m sz) 0.
Proof.
  intros H1 H2. eapply fits_ext; [|apply fits_nil]. intros b p. unfold write_variable_header.
  by rewrite (proj2 (Z.eqb_neq _ _) H1), (proj2 (Z.eqb_neq _ _) H2).
Qed.

Lemma encode_total_publish m p : wm_type m = MESSAGE_TYPE.PUBLISH ->
  wm_payloadMessage m = Some p -> sendable_message p -> exists bytes, encode m = Ret bytes.
Proof.
  intros Ht Hp (Hpay & d & Hd & Hwf). destruct (text_payload_bytes p Hpay) as [v Hv].
  unfold encode, encode_sizes. rewrite Ht, Hp. cbv zeta.
  change (MESSAGE_TYPE.PUBLISH =? MESSAGE_TYPE.CONNECT) with false.
  change (MESSAGE_TYPE.PUBLISH =? MESSAGE_TYPE.SUBSCRIBE) with false.
  change (MESSAGE_TYPE.PUBLISH =? MESSAGE_TYPE.UNSUBSCRIBE) with false.
  change (MESSAGE_TYPE.PUBLISH =? MESSAGE_TYPE.PUBREL) with false.
  change (MESSAGE_TYPE.PUBLISH =? MESSAGE_TYPE.PUBLISH) with true. cbv iota.
  unfold undefined_dest. rewrite Hd, Hv. cbn [rbind].
  set (bytes := match v with Uint8Array bs | ArrayBuffer bs => bs end).
  eapply (encode_body_total m _ (2 + Z.to_nat (UTF8Length d)) (length bytes)).
  - eapply fits_ext; [|exact (fits_string d Hwf)]. intros b q.
    unfold write_variable_header. rewrite Ht, Hp. cbn [mbind option_bind]. by rewrite Hd.
  - eapply fits_ext; [|exact (fits_bytes bytes)]. intros b q. unfold write_payload. by rewrite Ht.
  - cbn [sz_remLength]. assert (byteLength v = Z.of_nat (length bytes)) as -> by by destruct v.
    pose proof (UTF8Length_nonneg d). destruct (wm_messageIdentifier m); lia.
Qed.

Lemma encode_total_request m k : wm_type m <> MESSAGE_TYPE.PUBLISH ->
  wm_type m <> MESSAGE_TYPE.CONNECT ->
  (exists sz, encode_sizes m = Ret sz /\ fits (write_payload m sz) k /\
     sz_remLength sz
     = (match wm_messageIdentifier m with Some _ => 2 | None => 0 end) + Z.of_nat k) ->
  exists bytes, encode m = Ret bytes.
Proof.
  intros Hp Hc (sz & E & Hk & Hr). unfold encode. rewrite E. cbn [rbind].
  apply (encode_body_total m sz 0 k); [by apply fits_no_header|done|].
  rewrite Hr. destruct (wm_messageIdentifier m); lia.
Qed.

Lemma encode_total m : sendable_wire m -> exists bytes, encode m = Ret bytes.
Proof.
  unfold sendable_wire. repeat case_decide; intros Hm.
  - destruct Hm as (p & Hp & Hm). by apply (encode_total_publish m p).
  - destruct Hm as [Hts Hl].
    apply (encode_total_request m (topics_size (wm_topics m) + length (wm_requestedQos m)));
      [by rewrite H0..|]. unfold encode_sizes, write_payload. rewrite H0. eexists. split; [reflexivity|].
    split; [by apply fits_subscribe|]. cbn [sz_remLength]. rewrite topics_size_sizes.
    destruct (wm_messageIdentifier m); lia.
  - apply (encode_total_request m (topics_size (wm_topics m)));
      [by rewrite H1..|]. unfold encode_sizes, write_payload. rewrite H1. eexists. split; [reflexivity|].
    split; [by apply fits_topics|]. cbn [sz_remLength]. rewrite topics_size_sizes.
    destruct (wm_messageIdentifier m); lia.
  - apply (encode_total_request m 0); [done..|]. unfold encode_sizes, write_payload.
    rewrite (proj2 (Z.eqb_neq _ _) H), (proj2 (Z.eqb_neq _ _) H0), (proj2 (Z.eqb_neq _ _) H1),
      (proj2 (Z.eqb_neq _ _) Hm).
    destruct (wm_type m =? MESSAGE_TYPE.PUBREL); (eexists; split; [reflexivity|]);
      (split; [apply fits_nil|cbn [sz_remLength]; destruct (wm_messageIdentifier m); lia]).
Qed.

Lemma sendable_other m : wm_type m <> MESSAGE_TYPE.PUBLISH -> wm_type m <> MESSAGE_TYPE.SUBSCRIBE ->
  wm_type m <> MESSAGE_TYPE.UNSUBSCRIBE -> wm_type m <> MESSAGE_TYPE.CONNECT -> sendable_wire m.
Proof. intros. unfold sendable_wire. by rewrite !decide_False. Qed.

Lemma sendable_publish m p : wm_type m = MESSAGE_TYPE.PUBLISH -> wm_payloadMessage m = Some p ->
  sendable_message p -> sendable_wire m.
Proof. intros Ht Hp H. unfold sendable_wire. rewrite decide_True by done. by exists p. Qed.

(** What the encoder looks at. *)
Lemma sendable_same m m' : wm_type m' = wm_type m -> wm_payloadMessage m' = wm_payloadMessage m ->
  wm_topics m' = wm_topics m -> wm_requestedQos m' = wm_requestedQos m ->
  sendable_wire m -> sendable_wire m'.
Proof. intros E1 E2 E3 E4. unfold sendable_wire. by rewrite E1, E2, E3, E4. Qed.

(** ** The invariant *)
Definition request_type (t : Z) : Prop :=
  t = MESSAGE_TYPE.PUBLISH \/ t = MESSAGE_TYPE.SUBSCRIBE \/ t = MESSAGE_TYPE.UNSUBSCRIBE.

(** A message in flight under [id]. *)
Record flying (id : jsnum) (m : WireMessage) : Prop := {
  fl_id : wm_messageIdentifier m = Some id;
  fl_type : request_type (wm_type m);
  fl_sendable : sendable_wire m;
}.

Record typed (c : client) : Prop := {
  ty_sent : map_Forall flying (c_sentMessages c);
  ty_queue : Forall sendable_wire (c_msg_queue c);
}.

Lemma wm_type_new_ack t id : wm_type (new_ack t id) = t.
Proof. by destruct id. Qed.

Lemma sendable_ack t id : is_ack t -> sendable_wire (new_ack t id).
Proof. intros [->|[->|[->| ->]]]; apply sendable_other; by rewrite wm_type_new_ack. Qed.

Lemma sendable_resend id m : flying id m -> sendable_wire (resend_wire m).
Proof.
  intros [_ _ H]. unfold resend_wire. case_match; [|done]. apply sendable_ack. unfold is_ack. tauto.
Qed.

Lemma typed_modify f :
  (forall c, c_sentMessages (f c) = c_sentMessages c /\ c_msg_queue (f c) = c_msg_queue c) ->
  inv typed (modify f).
Proof. intros H c [H1 H2]. destruct (H c) as [E1 E2]. by constructor; cbn; rewrite ?E1, ?E2. Qed.

Lemma typed_update f :
  (forall c, typed c -> map_Forall flying (c_sentMessages (f c)) /\
                        Forall sendable_wire (c_msg_queue (f c))) ->
  inv typed (modify f).
Proof. intros H c Hc. by destruct (H c Hc). Qed.

Create HintDb typed.

(** Splits a method into its steps; a call is unfolded when no lemma is known. *)
Ltac typed_step :=
  cbv zeta;
  match goal with
  | |- inv typed _ => solve [eauto 2 with typed nocore]
  | |- inv _ (bind _ _) => apply inv_bind; [|intros]
  | |- inv _ (try _ _) => apply inv_try; [|intros]
  | |- inv _ (when _ _) => apply inv_when
  | |- inv _ (modify _) => apply typed_modify; intros; split; reflexivity
  | |- inv _ (ret _) => by intros ? ?
  | |- inv _ (throw _) => by intros ? ?
  | |- inv _ (get _) => by intros ? ?
  | |- inv _ (lift _) => by intros ? ?
  | |- inv _ (match ?x with _ => _ end) => destruct x
  | |- inv _ (_schedule_message _) => fail 1
  | |- inv _ (?f _ _ _) => unfold f
  | |- inv _ (?f _ _) => unfold f
  | |- inv _ (?f _) => unfold f
  | |- inv _ ?f => unfold f
  end.
Ltac typed_steps := repeat typed_step.

Lemma typed_clear_queue e :
  inv typed (modify (λ c, set_msg_queue [] (set_queue_epoch (e c) c))).
Proof. apply typed_update. intros c [H1 H2]. split; [exact H1|constructor]. Qed.
#[export] Hint Resolve typed_clear_queue : typed.

Lemma typed_disconnected e : inv typed (_disconnected e).
Proof.
  unfold _disconnected. typed_steps.
Qed.
#[export] Hint Resolve typed_disconnected : typed.

Lemma typed_get {A B} (f : client -> A) (k : A -> C B) :
  (forall c, typed c -> inv typed (k (f c))) -> inv typed (bind (get f) k).
Proof. intros H. apply inv_bind_get. intros c Hc. by apply H. Qed.

(** *** The queue *)
Lemma typed_process_fifo e fifo : Forall sendable_wire fifo -> inv typed (process_fifo e fifo).
Proof.
  induction 1 as [|m rest _ Hrest IH]; [by intros ? ?|]. cbn [process_fifo].
  apply inv_bind; [|intros _; apply inv_bind; [typed_steps|intros _;
    apply inv_bind; [typed_steps|intros _; exact IH]]].
  apply typed_update. intros c [H1 H2]. split; [by case_match|].
  case_match; [|done]. cbn. by apply Forall_rev.
Qed.

Lemma typed_process_queue : inv typed _process_queue.
Proof.
  unfold _process_queue. apply typed_get. intros c Hc. apply typed_get. intros c' _.
  apply typed_process_fifo, Hc.
Qed.
#[export] Hint Resolve typed_process_queue : typed.

Lemma typed_schedule m : sendable_wire m -> inv typed (_schedule_message m).
Proof.
  intros Hm. unfold _schedule_message. apply inv_bind; [|intros _; typed_steps].
  apply typed_update. intros c [H1 H2]. split; [exact H1|]. cbn. by apply Forall_app_2; [|constructor].
Qed.
#[export] Hint Resolve typed_schedule : typed.

(** *** The table *)
Lemma typed_insert id m : flying id m ->
  inv typed (modify (λ c, set_sentMessages (<[id := m]> (c_sentMessages c)) c)).
Proof.
  intros Hm. apply typed_update. intros c [H1 H2]. split; [|exact H2]. cbn.
  by apply map_Forall_insert_2.
Qed.

Lemma typed_delete_sent id : inv typed (delete_sent id).
Proof.
  apply typed_update. intros c [H1 H2]. split; [|exact H2]. cbn. by apply map_Forall_delete.
Qed.
#[export] Hint Resolve typed_insert typed_delete_sent : typed.

(** *** What a call returns *)
Definition gives {A} (Q : A -> Prop) (m : C A) : Prop :=
  inv typed m /\ forall c a c', typed c -> m c = (Ret a, c') -> Q a.

Lemma gives_ret {A} (Q : A -> Prop) a : Q a -> gives Q (ret a).
Proof. intros Ha. split; [by intros ? ?|]. by intros c a' c' _ [= <- <-]. Qed.

Lemma gives_inv {A} (m : C A) : inv typed m -> gives (λ _, True) m.
Proof. by intros H. Qed.

Lemma gives_bind {A B} (P : A -> Prop) (Q : B -> Prop) (m : C A) (k : A -> C B) :
  gives P m -> (forall a, P a -> gives Q (k a)) -> gives Q (bind m k).
Proof.
  intros [Hm Hp] Hk. split.
  - intros c Hc. specialize (Hm c Hc). unfold bind.
    destruct (m c) as [[a|e] c'] eqn:E; [|exact Hm]. by apply (Hk a (Hp _ _ _ Hc E)).
  - intros c b c'' Hc. specialize (Hm c Hc). unfold bind.
    destruct (m c) as [[a|e] c'] eqn:E; [|done]. by apply (Hk a (Hp _ _ _ Hc E)).
Qed.

Lemma gives_inv_bind {A B} (P : A -> Prop) (m : C A) (k : A -> C B) :
  gives P m -> (forall a, P a -> inv typed (k a)) -> inv typed (bind m k).
Proof. intros Hm Hk. apply (gives_bind P (λ _, True) m k); [done|]. intros a Ha. by apply gives_inv, Hk. Qed.

Lemma gives_then {A B} (Q : B -> Prop) (m : C A) (k : A -> C B) :
  inv typed m -> (forall a, gives Q (k a)) -> gives Q (bind m k).
Proof. intros Hm Hk. by apply (gives_bind (λ _, True)); [apply gives_inv|intros a _]. Qed.

(** [store] returns the message it was given, numbered. *)
Lemma gives_store b id m : flying id m -> gives (flying id) (store b m).
Proof.
  intros Hm. split; [unfold store; typed_steps|]. intros c r c' _.
  destruct Hm as [H1 H2 H3]. unfold store, bind, get, deref, lift, modify, ret, throw.
  repeat case_match; intros E; simplify_eq; constructor; try done; by apply (sendable_same m).
Qed.

(** *** The requests *)
Lemma gives_requires_ack m : request_type (wm_type m) -> sendable_wire m ->
  gives sendable_wire (_requires_ack m).
Proof.
  intros Ht Hm. unfold _requires_ack.
  do 4 (apply gives_then; [typed_steps|intros ?]). apply gives_then; [typed_steps|intros id].
  assert (flying (Num id) (set_messageIdentifier (Num id) m)) as Hf
    by (constructor; [done|done|by apply (sendable_same m)]).
  cbv zeta. apply gives_then; [typed_steps|intros _].
  apply (gives_bind (flying (Num id))); [case_match; [by apply gives_store|by apply gives_ret]|].
  intros r Hr. apply gives_then; [by apply typed_insert|intros _].
  apply gives_then; [typed_steps|intros _]. by apply gives_ret, Hr.
Qed.

(** The events the theorem covers: requests whose text is well formed. *)
Definition event_typed (e : event) : Prop :=
  match e with
  | Subscribe filter _ | Unsubscribe filter _ => wf_utf16 filter = true
  | Send m => sendable_message m
  | _ => True
  end.

Lemma typed_request m : request_type (wm_type m) -> sendable_wire m ->
  inv typed (m <- _requires_ack m ;; _schedule_message m).
Proof.
  intros Ht Hm. apply (gives_inv_bind sendable_wire); [by apply gives_requires_ack|].
  intros r. apply typed_schedule.
Qed.

Lemma sendable_subscription type filter qs t b1 b2 b3 :
  wf_utf16 filter = true ->
  type = MESSAGE_TYPE.SUBSCRIBE /\ length qs = 1%nat \/ type = MESSAGE_TYPE.UNSUBSCRIBE ->
  let m := set_subscription type [filter] qs t b1 b2 b3 in
  request_type (wm_type m) /\ sendable_wire m.
Proof.
  intros Hf [[-> Hl]| ->]; (split; [unfold request_type; cbn; tauto|]); unfold sendable_wire;
    cbn [wm_type set_subscription]; repeat (rewrite decide_False by done); rewrite decide_True by done.
  - cbn. split; [by repeat constructor|done].
  - by repeat constructor.
Qed.

Lemma typed_subscribe f o : wf_utf16 f = true -> inv typed (subscribe f o).
Proof.
  intros Hf. unfold subscribe. apply inv_bind; [typed_steps|intros _]. cbv zeta.
  apply inv_bind; [typed_steps|intros t]. apply typed_request; apply sendable_subscription; auto.
Qed.

Lemma typed_unsubscribe f o : wf_utf16 f = true -> inv typed (unsubscribe f o).
Proof.
  intros Hf. unfold unsubscribe. apply inv_bind; [typed_steps|intros _]. cbv zeta.
  apply inv_bind; [typed_steps|intros t]. apply typed_request; apply sendable_subscription; auto.
Qed.

Lemma typed_send m : sendable_message m -> inv typed (send m).
Proof.
  intros Hm. unfold send. apply inv_bind; [typed_steps|intros _]. cbv zeta.
  apply inv_bind; [typed_steps|intros h].
  set (w := set_payloadMessage m (new_WireMessage MESSAGE_TYPE.PUBLISH)).
  assert (sendable_wire w) as Hw by by apply (sendable_publish w m).
  apply (gives_inv_bind sendable_wire); [|intros r; apply typed_schedule].
  case_match; [apply gives_requires_ack; [by left|done]|].
  apply gives_then; [typed_steps|intros _]. by apply gives_ret.
Qed.

(** *** The handlers *)
Lemma typed_iter {A} (f : A -> C unit) l : (forall a, inv typed (f a)) -> inv typed (iter_ f l).
Proof. intros H. apply inv_iter, Forall_true. exact H. Qed.

Lemma typed_clear_local_state : inv typed clear_local_state.
Proof.
  unfold clear_local_state. apply inv_bind; [typed_steps|intros sent].
  apply inv_bind; [apply typed_iter; intros; typed_steps|intros _].
  apply inv_bind; [|intros _; apply inv_bind; [typed_steps|intros recv];
    apply inv_bind; [apply typed_iter; intros; typed_steps|intros _; typed_steps]].
  apply typed_update. intros c [_ H2]. split; [apply map_Forall_empty|exact H2].
Qed.
#[export] Hint Resolve typed_clear_local_state : typed.

Lemma typed_resend_all {B} (k : C B) : inv typed k ->
  inv typed (sent <- get c_sentMessages ;;
             iter_ resend_one (stable_sort sequence_lt (object_values sent)) ;; k).
Proof.
  intros Hk. apply typed_get. intros c [Hc _]. apply inv_bind; [|intros _; exact Hk].
  apply inv_iter. rewrite stable_sort_perm, object_values_perm. apply Forall_fmap.
  apply map_Forall_to_list in Hc. revert Hc. apply List.Forall_impl.
  intros [id m] Hm. cbn in *. rewrite resend_one_wire. eapply typed_schedule, sendable_resend, Hm.
Qed.

Lemma typed_handle_connack m : inv typed (handle_connack m).
Proof.
  unfold handle_connack. do 5 (apply inv_bind; [typed_steps|intros ?]).
  apply inv_bind; [typed_steps|intros _]. case_match; [|typed_steps].
  do 2 (apply inv_bind; [typed_steps|intros _]). apply typed_resend_all. typed_steps.
Qed.

Lemma typed_sent_message {B} id (k : option WireMessage -> C B) :
  (forall o, (forall m, o = Some m -> flying (id_key id) m) -> inv typed (k o)) ->
  inv typed (bind (sent_message id) k).
Proof.
  intros Hk. unfold sent_message. apply typed_get. intros c [Hc _]. apply Hk.
  intros m Hm. by apply (map_Forall_lookup_1 _ _ _ _ Hc).
Qed.

Lemma typed_handle_pubrec m : inv typed (handle_pubrec m).
Proof.
  unfold handle_pubrec. cbv zeta. apply typed_sent_message. intros [sm|] Hsm; [|typed_steps].
  assert (flying (id_key (wm_messageIdentifier m)) (set_pubRecReceived sm)) as Hf.
  { destruct (Hsm sm eq_refl) as [H1 H2 H3]. constructor; [done|done|by apply (sendable_same sm)]. }
  apply inv_bind; [by apply typed_insert|intros _].
  apply (gives_inv_bind (flying (id_key (wm_messageIdentifier m)))); [by apply gives_store|].
  intros r Hr. apply inv_bind; [by apply typed_insert|intros _].
  apply typed_schedule, sendable_ack. unfold is_ack. tauto.
Qed.

Lemma typed_handle_pubrel m : inv typed (handle_pubrel m).
Proof.
  unfold handle_pubrel. cbv zeta. do 3 (apply inv_bind; [typed_steps|intros ?]).
  apply typed_schedule, sendable_ack. unfold is_ack. tauto.
Qed.

Lemma typed_receivePublish m : inv typed (_receivePublish m).
Proof.
  unfold _receivePublish. apply inv_bind; [typed_steps|intros p].
  repeat case_match; typed_steps; apply typed_schedule, sendable_ack; unfold is_ack; tauto.
Qed.

Lemma typed_dispatch m : inv typed (dispatch m).
Proof.
  unfold dispatch. cbv zeta. repeat case_match;
    [apply typed_handle_connack|apply typed_receivePublish|typed_steps|apply typed_handle_pubrec|
     apply typed_handle_pubrel|typed_steps..].
Qed.

Lemma typed_on_socket_message data : inv typed (_on_socket_message data).
Proof.
  unfold _on_socket_message. do 3 (apply inv_bind; [typed_steps|intros ?]).
  apply typed_iter. intros m. unfold _handleMessage. apply inv_try; [apply typed_dispatch|intros; typed_steps].
Qed.

Lemma typed_disconnect : inv typed disconnect.
Proof.
  unfold disconnect. do 3 (apply inv_bind; [typed_steps|intros ?]).
  apply typed_schedule, sendable_other; discriminate.
Qed.

Lemma typed_run_event e : event_typed e -> inv typed (run_event e).
Proof.
  destruct e as [o|f o|f o|m| |h| |data|data| |t]; intros He; cbn [run_event]; cbn in He.
  - typed_steps.
  - by apply typed_subscribe.
  - by apply typed_unsubscribe.
  - by apply typed_send.
  - apply typed_disconnect.
  - typed_steps.
  - typed_steps.
  - unfold with_socket. apply inv_bind; [typed_steps|intros so]. destruct so; [|typed_steps].
    apply inv_bind; [typed_steps|intros _; apply typed_on_socket_message].
  - typed_steps.
  - typed_steps.
  - typed_steps.
Qed.

Lemma typed_steps_events c es c' : steps c es c' -> Forall event_typed es -> typed c -> typed c'.
Proof.
  induction 1 as [|c e c1 es c2 Hs _ IH]; [done|]. intros [He Hes]%Forall_cons_1 Hc.
  apply IH; [done|]. inversion Hs as [? ? r ? Hr]; subst.
  pose proof (typed_run_event e He c Hc) as H. by rewrite Hr in H.
Qed.

(** ** The theorem *)

(** The stored topics are well formed, as [send] leaves them. *)
Definition stored_topics_ok (storage : gmap jsstr StoredMessage) : Prop :=
  map_Forall (λ _ s, forall d, st_destinationName s = Some d -> wf_utf16 d = true) storage.

Lemma load_typed uri host port path clientId storage c :
  storage_ok (localKey_of host port path clientId) storage -> stored_topics_ok storage ->
  load uri host port path clientId storage = Ret c -> typed c.
Proof.
  intros Hok Ht Hl. destruct (load_spec uri host port path clientId storage Hok) as (s & r & E & Hs & _).
  rewrite E in Hl. injection Hl as <-. constructor; [|by constructor]. cbn.
  intros id m Hm. rewrite Hs in Hm. unfold from_storage in Hm.
  destruct (storage !! storage_key Sent _ (Some id)) as [x|] eqn:Ex; [|done]. cbn in Hm.
  destruct (st_destinationName x) as [d|] eqn:Ed; [|done]. injection Hm as <-.
  destruct (Hok Sent _ x Ex (storage_key_prefix Sent _ _)) as (id' & [_ [= <-]]%storage_key_inj & Hr).
  constructor; [by destruct Hr as (_ & <- & _)|by left|].
  eapply sendable_publish; [done|done|]. split; [done|]. exists d. split; [done|].
  exact (map_Forall_lookup_1 _ _ _ _ Ht Ex d Ed).
Qed.

(** C5: in every state reached by requests whose text is well formed, whatever
    the server, the network, the timers and the storage did, each message in
    flight is a publication, a subscription or the end of one, kept under its
    own identifier; the encoder succeeds on it, on the PUBREL that may stand for
    it and on every message of the queue.  A connection that keeps the session
    is therefore always resumed: the accepting CONNACK resends everything in
    flight and reports success. *)
Theorem in_flight_well_typed uri host port path clientId storage c0 es c :
  storage_ok (localKey_of host port path clientId) storage -> stored_topics_ok storage ->
  load uri host port path clientId storage = Ret c0 ->
  Forall event_typed es -> steps c0 es c ->
  (forall id m, c_sentMessages c !! id = Some m ->
     wm_messageIdentifier m = Some id /\ request_type (wm_type m) /\
     exists bytes, encode (resend_wire m) = Ret bytes) /\
  Forall (λ m, exists bytes, encode m = Ret bytes) (c_msg_queue c) /\
  (forall t o m, handshaking c t o -> accepting m -> co_cleanSession o = false ->
     exists c' bss, _handleMessage m c = (Ret tt, c') /\ ready c' /\ durable_of c' = durable_of c /\
       length bss = size (c_sentMessages c) /\
       e_output c' = e_output c ++ (SocketSend <$> bss) ++ [OnConnectSuccess]).
Proof.
  intros Hok Htop Hl Hes Hst.
  pose proof (typed_steps_events c0 es c Hst Hes (load_typed _ _ _ _ _ _ _ Hok Htop Hl)) as [Hs Hq].
  assert (forall id m, c_sentMessages c !! id = Some m -> exists bytes, encode (resend_wire m) = Ret bytes)
    as Hen by (intros id m Hm; eapply encode_total, sendable_resend, (map_Forall_lookup_1 _ _ _ _ Hs Hm)).
  split_and!.
  - intros id m Hm. destruct (map_Forall_lookup_1 _ _ _ _ Hs Hm) as [H1 H2 _].
    split_and!; [done|done|]. by apply (Hen id).
  - revert Hq. apply List.Forall_impl. intros m. apply encode_total.
  - intros t o m Hh Hm Hclean.
    assert (Forall (λ w, exists bs, encode (resend_wire w) = Ret bs) (resend_order c)) as Hall.
    { unfold resend_order. rewrite stable_sort_perm, object_values_perm. apply Forall_fmap.
      apply Forall_forall. intros [id w] Hw. apply list_elem_of_In, elem_of_map_to_list in Hw.
      by apply (Hen id w). }
    apply Forall_exists_Forall2_l in Hall as (bss & Hf).
    destruct (connack_tail c t o bss Hh Hf) as (c' & E & Hr & Hd & Ho).
    exists c', bss. split_and!; [|done|done| |done].
    + rewrite (connack_start c t o m (hs_timeout _ _ _ Hh) (hs_options _ _ _ Hh) Hm), Hclean.
      unfold try, bind at 1, when, ret. by rewrite E.
    + rewrite <- (Forall2_length Hf). unfold resend_order.
      by rewrite stable_sort_perm, object_values_perm, length_fmap, length_map_to_list.
Qed.

(** A publication and a subscription in flight when the connection is lost. *)
Definition hello_events : list event :=
  demo_events false
  ++ [Send hello; Subscribe (js "t") (mkSubscribeOptions (Some 1) true true None);
      SocketClosed; Connect (demo_options false); SocketOpened].

Definition resuming : client := run_events hello_events demo_fresh.

Lemma in_flight_well_typed_witness :
  size (c_sentMessages resuming) = 2%nat /\
  exists c' bss, _handleMessage connack_message resuming = (Ret tt, c') /\ ready c' /\
    durable_of c' = durable_of resuming /\ length bss = size (c_sentMessages resuming) /\
    e_output c' = e_output resuming ++ (SocketSend <$> bss) ++ [OnConnectSuccess].
Proof.
  split; [by_computing|].
  assert (handshaking resuming (default 0%nat (c_connectTimeout resuming)) (demo_options false)) as H1.
  { constructor; [|by_computing..]. split_and!; [by_computing|eexists; split; by_computing|by_computing|
      vm_compute; discriminate|eexists; split; [by_computing|]|eexists; split; [by_computing|]];
      apply elem_of_dom; by vm_compute; eexists. }
  assert (accepting connack_message) as H2 by (split; by_computing).
  assert (Forall event_typed hello_events) as H3.
  { repeat constructor; try by_computing. exists (js "t"). split; by_computing. }
  assert (stored_topics_ok ∅) as H4 by apply map_Forall_empty.
  exact (proj2 (proj2 (in_flight_well_typed (js "ws://h:1/mqtt") (js "h") (Num 1) (js "/mqtt") (js "a") ∅
    demo_fresh hello_events resuming (storage_ok_empty _) H4 demo_fresh_load H3 (steps_run _ _)))
    _ _ _ H1 H2 eq_refl).
Defined.
