(* ===== verification/Strings.v ===== *)
(** * The string functions the console adds where they are missing
    (static/components/common/string.js). *)

From stdpp Require Import base tactics strings numbers list.
From Stdlib Require Import ZArith Lia.
From S2P Require Import Prelude.
Local Open Scope Z_scope.

(** [String.prototype.startsWith] and [endsWith], as [stringFunctions]
    defines them. *)
Definition startsWith (this prefix : jsstr) : bool :=
  jseqb (slice this 0 (Z.of_nat (length prefix))) prefix.

Definition endsWith (this suffix : jsstr) : bool :=
  negb (indexOf_from this suffix (Z.of_nat (length this) - Z.of_nat (length suffix)) =? -1).

(** [stringFunctions]: a function of the browser is kept. *)
Definition stringFunctions (native : option (jsstr -> jsstr -> bool) * option (jsstr -> jsstr -> bool)) :
    (jsstr -> jsstr -> bool) * (jsstr -> jsstr -> bool) :=
  (match native.1 with Some f => f | None => startsWith end,
   match native.2 with Some f => f | None => endsWith end).

Lemma index_at_shorter p s i : (length s < length p)%nat -> 0 <= i -> index_at p s i = -1.
Proof.
  revert i. induction s as [|c s IH]; intros i Hl Hi; cbn [index_at].
  - destruct p; [cbn in Hl; lia|done].
  - replace (is_prefix p (c :: s)) with false.
    { apply IH; [cbn in Hl; lia|lia]. }
    symmetry. apply not_true_iff_false. intros [t E]%is_prefix_spec.
    apply (f_equal length) in E. rewrite length_app in E. cbn in *. lia.
Qed.

(** At a place where exactly the length of [p] is left. *)
Lemma index_at_same_length p s i : length s = length p -> 0 <= i ->
  index_at p s i = if decide (s = p) then i else -1.
Proof.
  intros Hl Hi. destruct (decide (s = p)) as [->|Hne].
  - assert (is_prefix p p = true) by (apply is_prefix_spec; exists []; by rewrite app_nil_r).
    destruct p; cbn [index_at]; by rewrite H.
  - destruct s as [|c s]; cbn [index_at].
    + destruct p; [done|discriminate].
    + replace (is_prefix p (c :: s)) with false.
      { apply index_at_shorter; [cbn in Hl; lia|lia]. }
      symmetry. apply not_true_iff_false. intros [t E]%is_prefix_spec.
      apply Hne. apply (f_equal length) in E as El. rewrite length_app in El.
      destruct t; [|cbn in El, Hl; lia]. by rewrite app_nil_r in E.
Qed.

Lemma startsWith_spec s p : startsWith s p = true <-> exists t, s = p ++ t.
Proof.
  unfold startsWith, jseqb, slice, slice_index. rewrite bool_decide_eq_true.
  replace (0 <? 0) with false by done.
  replace (Z.of_nat (length p) <? 0) with false by (symmetry; zlia).
  replace (Z.to_nat (Z.min 0 (Z.of_nat (length s)))) with 0%nat by lia.
  rewrite Nat.sub_0_r, drop_0. split.
  - intros E. exists (drop (length p) s).
    rewrite <- E at 1. rewrite <- (take_drop (Z.to_nat (Z.min (Z.of_nat (length p))
      (Z.of_nat (length s)))) s) at 1. f_equal.
    destruct (decide (length p <= length s)%nat).
    + f_equal. lia.
    + rewrite !drop_ge by lia. done.
  - intros [t ->]. rewrite length_app.
    replace (Z.to_nat _) with (length p) by lia. by rewrite take_app_length.
Qed.

Lemma endsWith_spec s p : endsWith s p = true <-> exists t, s = t ++ p.
Proof.
  unfold endsWith, indexOf_from, clamp. rewrite negb_true_iff, Z.eqb_neq.
  destruct (decide (length s < length p)%nat) as [Hl|Hl].
  - replace (Z.max 0 _) with 0 by lia. change (Z.to_nat 0) with 0%nat. rewrite drop_0.
    rewrite index_at_shorter by lia. split; [done|]. intros [t ->].
    rewrite length_app in Hl. lia.
  - replace (Z.max 0 _) with (Z.of_nat (length s) - Z.of_nat (length p)) by lia.
    rewrite index_at_same_length by (rewrite ?length_drop; lia).
    replace (Z.to_nat _) with (length s - length p)%nat by lia.
    destruct (decide (drop (length s - length p) s = p)) as [E|Hne].
    + split; [|lia]. intros _. exists (take (length s - length p) s).
      rewrite <- E at 2. by rewrite take_drop.
    + split; [done|]. intros [t ->]. exfalso. apply Hne. rewrite length_app.
      replace (length t + length p - length p)%nat with (length t) by lia.
      by rewrite drop_app_length.
Qed.

(** The two functions the console defines in browsers that lack them do
    what the language's own do: [startsWith] holds exactly of the prefixes and
    [endsWith] exactly of the suffixes, the empty string and strings longer
    than the subject included; a browser that has them keeps its own. *)
Theorem string_functions_correct s p :
  let '(starts, ends) := stringFunctions (None, None) in
  (starts s p = true <-> exists t, s = p ++ t)
  /\ (ends s p = true <-> exists t, s = t ++ p)
  /\ forall f g, stringFunctions (Some f, Some g) = (f, g).
Proof. split_and!; [apply startsWith_spec|apply endsWith_spec|done]. Qed.
