(* ===== verification/Locale.v ===== *)
(** * The messages of the console, in English and Chinese
    (static/i18n/messages.en.js, static/i18n/messages.zh.js).

    The tables [locale_messages] is extended with, the messages of the form
    validator and of the selection lists, and the parity of the two languages. *)

From stdpp Require Import base tactics strings gmap numbers list.
From Stdlib Require Import ZArith Lia.
From S2P Require Import Prelude.
Local Open Scope Z_scope.

Inductive language := En | Zh.

#[export] Instance language_eq_dec : EqDecision language.
Proof. solve_decision. Defined.

Definition general_en : list (string * string) :=
  [("datatables_processing", "Processing...");
   ("datatables_zeroRecords", "No data available in table");
   ("datatables_info", "Showing _START_ to _END_ of _TOTAL_ entries");
   ("datatables_infoEmpty", "Showing 0 to 0 of 0 entries");
   ("datatables_paginate_first", "First");
   ("datatables_paginate_previous", "Previous");
   ("datatables_paginate_next", "Next");
   ("datatables_paginate_last", "Last");
   ("datatables_search", "Search:");
   ("menu_monitor", "Monitor");
   ("menu_management", "Management");
   ("menu_tool", "Tool");
   ("menu_system", "System");
   ("menu_monitor_console", "Console");
   ("menu_monitor_connect", "Connect");
   ("menu_monitor_session", "Session");
   ("menu_monitor_topic", "Topic");
   ("menu_monitor_subscribe", "Subscribe");
   ("menu_management_user", "Connect User");
   ("menu_management_acl", "Access Control");
   ("menu_management_listener", "Listener");
   ("menu_tool_websocket", "Websocket");
   ("menu_tool_restful", "Restful API");
   ("menu_system_admin", "Administrator");
   ("common_node", "Node");
   ("common_client_id", "Client ID");
   ("common_clean_session", "Clean Session");
   ("common_keep_alive", "Keep Alive(Sec.)");
   ("common_sub", "Subscribe");
   ("common_pub", "Publish");
   ("common_qos", "QoS");
   ("common_topic", "Topic");
   ("common_message", "Message");
   ("common_username", "Username");
   ("common_password", "Password");
   ("common_ip_address", "IP Address");
   ("common_host", "Host");
   ("common_port", "Port");
   ("common_oper", "Operator");
   ("common_btn_processing", "Processing");
   ("common_alert_title", "Prompt");
   ("common_alert_error_content", "System exception, please contact the Stuart Studio!");
   ("common_login_btn", "Login");
   ("common_search_btn", "Search");
   ("common_add_btn", "Add");
   ("common_edit_btn", "Edit");
   ("common_delete_btn", "Delete");
   ("common_cancel_btn", "Cancel");
   ("common_save_btn", "Save");
   ("common_confirm_btn", "Confirm");
   ("common_close_btn", "Close");
   ("common_question_mark", "?");
   ("common_yes", "Yes");
   ("common_no", "No");
   ("common_swtich_cond_required", "This field is required.");
   ("common_passwd_equal", "Please enter the same password again.");
   ("common_passwd_not_equal", "The new password cannot be the same as the old one.");
   ("common_passwd_error", "Password is incorrect.");
   ("login_message", "Login and Manage the Stuart Server.");
   ("login_username", "Username");
   ("login_username_required", "Username is required.");
   ("login_password", "Password");
   ("login_password_required", "Password is required.");
   ("login_remember_me", "Remember me");
   ("login_username_password_error", "No such username, or password incorrect.")].

Definition monitor_en : list (string * string) :=
  [("console_system_info", "System");
   ("console_name_label", "Name");
   ("console_name_desc", "Stuart MQTT Server");
   ("console_version_label", "Version");
   ("console_uptime_label", "Uptime");
   ("console_systime_label", "System Time");
   ("console_nodes", "Node Informations");
   ("console_java_version", "Java Version");
   ("console_thread", "Thread<br>(run/peak)");
   ("console_cpu", "CPU<br>(1load/5load/15load)");
   ("console_heap", "Heap Mem.<br>(used/total)");
   ("console_off_heap", "Off-Heap Mem.<br>(used/total)");
   ("console_max_fds", "Max FDS");
   ("console_status", "Status");
   ("console_stats", "Statistics");
   ("console_stats_conn_count", "Conn. Cnt");
   ("console_stats_conn_max", "Conn. Max");
   ("console_stats_topic_count", "Topic Cnt");
   ("console_stats_topic_max", "Topic Max");
   ("console_stats_retain_count", "Retain Cnt");
   ("console_stats_retain_max", "Retain Max");
   ("console_stats_sess_count", "Sess. Cnt");
   ("console_stats_sess_max", "Sess. Max");
   ("console_stats_sub_count", "Sub. Cnt");
   ("console_stats_sub_max", "Sub. Max");
   ("console_metrics", "Metrics");
   ("console_metrics_packets", "Packets");
   ("console_metrics_messages", "Messages");
   ("console_metrics_bytes", "Message Bytes");
   ("connect_protocol_version", "Protocol Version");
   ("connect_connect_time", "Connect Time");
   ("session_subscriptions", "Subs");
   ("session_max_inflight", "Max Inflight");
   ("session_inflight_size", "Inflight Size");
   ("session_queue_size", "Queue Size");
   ("session_droppeds", "Droppeds");
   ("session_await_rels", "Await Rels");
   ("session_delivers", "Delivers");
   ("session_enqueues", "Enqueues");
   ("session_create_time", "Create Time");
   ("user_username", "Connect Username");
   ("user_desc", "Comment");
   ("user_passwd", "Password");
   ("user_passwd_conf", "Confirm Password");
   ("user_passwd_change", "Change Password");
   ("user_admin_passwd", "Administrator Password");
   ("user_passwd_new", "New Password");
   ("user_passwd_new_conf", "Confirm New Password");
   ("user_add_title", "Add Connect User");
   ("user_edit_title", "Edit Connect User");
   ("user_delete_title", "Delete Connect User");
   ("user_existed_message", "Connect username is existed");
   ("user_delete_conf_text", "Whether you want to delete the connect user: ");
   ("user_add_succeeded", "Add connect user succeeded.");
   ("user_add_failed", "Add connect user failed.");
   ("user_edit_succeeded", "Edit connect user succeeded.");
   ("user_edit_failed", "Edit connect user failed.");
   ("user_delete_succeeded", "Delete connect user succeeded.");
   ("user_delete_failed", "Delete connect user failed.")].

Definition management_en : list (string * string) :=
  [("acl_explain", "Explain");
   ("acl_explain_detail_one", "1.If a topic contains wildcards such as + or #, the system matches them by default;");
   ("acl_explain_detail_two", "2.If the topic needs to be matched equally, use the eq expression, for example: eq(/hello/world/+).");
   ("acl_seq", "Seq");
   ("acl_target", "Target");
   ("acl_type", "Target Type");
   ("acl_topic", "Topic");
   ("acl_access", "Access Type");
   ("acl_authority", "Authority");
   ("acl_item", "Access Item");
   ("acl_connect_user", "Connect User");
   ("acl_ip_addr", "IP Address");
   ("acl_client_id", "Client ID");
   ("acl_all", "All");
   ("acl_sub", "Sub");
   ("acl_pub", "Pub");
   ("acl_subpub", "Sub & Pub");
   ("acl_deny", "Deny");
   ("acl_allow", "Allow");
   ("acl_delete_target", "Target: ");
   ("acl_delete_type", "Target Type: ");
   ("acl_delete_topic", "Topic: ");
   ("acl_delete_access", "Access Type: ");
   ("acl_delete_authority", "Authority: ");
   ("acl_add_title", "Add Access Item");
   ("acl_edit_title", "Edit Access Item");
   ("acl_delete_title", "Delete Access Item");
   ("acl_delete_conf_text", "Whether you want to delete the access item?");
   ("acl_add_succeeded", "Add access item succeeded.");
   ("acl_add_failed", "Add access item failed.");
   ("acl_edit_succeeded", "Edit access item succeeded.");
   ("acl_edit_failed", "Edit access item failed.");
   ("acl_delete_succeeded", "Delete access item succeeded.");
   ("acl_delete_failed", "Delete access item failed.");
   ("listener_protocol", "Protocol");
   ("listener_address_port", "Listen On");
   ("listener_conn_max_limit", "Max Connections");
   ("listener_conn_count", "Current Connections");
   ("ws_conn_title", "Connect");
   ("ws_conn_path", "Path");
   ("ws_conn_ssl", "SSL");
   ("ws_conn_status", "Connect Status: ");
   ("ws_conn_status_connected", "Connected");
   ("ws_conn_status_disconnected", "Disconnected");
   ("ws_sub_title", "Subscribe");
   ("ws_sub_list", "Subscribes");
   ("ws_sub_time", "Time");
   ("ws_msg_title", "Messages");
   ("ws_msg_retained", "Retained");
   ("ws_msg_pub_list", "Published Messages");
   ("ws_msg_sub_list", "Received Messages");
   ("ws_msg_time", "Time");
   ("ws_connect_btn", "Connect");
   ("ws_disconnect_btn", "Disconnect");
   ("ws_subscribe_btn", "Subscribe");
   ("ws_send_btn", "Send");
   ("ws_notify_connect_succeed", "Connect succeed.");
   ("ws_notify_sub_succeed", "Subscribe succeed.");
   ("ws_notify_unsub_succeed", "Unsubscribe succeed.");
   ("ws_notify_send_succeed", "Send succeed.");
   ("admin_account", "Account");
   ("admin_desc", "Comment");
   ("admin_passwd", "Password");
   ("admin_passwd_conf", "Confirm Password");
   ("admin_passwd_change", "Change Password");
   ("admin_passwd_old", "Old Password");
   ("admin_passwd_new", "New Password");
   ("admin_passwd_new_conf", "Confirm New Password");
   ("admin_add_title", "Add Admin");
   ("admin_edit_title", "Edit Admin");
   ("admin_delete_title", "Delete Admin");
   ("admin_existed_message", "Account is existed");
   ("admin_delete_conf_text", "Whether you want to delete the adminstrator: ");
   ("admin_add_succeeded", "Add administrator succeeded.");
   ("admin_add_failed", "Add administrator failed.");
   ("admin_edit_succeeded", "Edit administrator succeeded.");
   ("admin_edit_failed", "Edit administrator failed.");
   ("admin_delete_succeeded", "Delete administrator succeeded.");
   ("admin_delete_failed", "Delete administrator failed.")].

Definition validator_en : list (string * string) :=
  [("required", "This field is required.");
   ("remote", "Please fix this field.");
   ("email", "Please enter a valid email address.");
   ("url", "Please enter a valid URL.");
   ("date", "Please enter a valid date.");
   ("dateISO", "Please enter a valid date (ISO).");
   ("number", "Please enter a valid number.");
   ("digits", "Please enter only digits.");
   ("equalTo", "Please enter the same value again.");
   ("extension", "Please enter the valid extension.");
   ("maxlength", "Please enter no more than {0} characters.");
   ("minlength", "Please enter at least {0} characters.");
   ("rangelength", "Please enter a value between {0} and {1} characters long.");
   ("range", "Please enter a value between {0} and {1}.");
   ("max", "Please enter a value less than or equal to {0}.");
   ("min", "Please enter a value greater than or equal to {0}.")].

Definition general_zh : list (string * string) :=
  [("datatables_processing", "正在获取数据，请稍后！");
   ("datatables_zeroRecords", "未获取到数据");
   ("datatables_info", "从 第 _START_ 条 到 第 _END_ 条 共 _TOTAL_ 条记录");
   ("datatables_infoEmpty", "共 0 条记录");
   ("datatables_paginate_first", "第一页");
   ("datatables_paginate_previous", "上一页");
   ("datatables_paginate_next", "下一页");
   ("datatables_paginate_last", "最后一页");
   ("datatables_search", "在表格中搜索：");
   ("menu_monitor", "监控");
   ("menu_management", "管理");
   ("menu_tool", "工具");
   ("menu_system", "系统");
   ("menu_monitor_console", "控制台");
   ("menu_monitor_connect", "连接");
   ("menu_monitor_session", "会话");
   ("menu_monitor_topic", "主题");
   ("menu_monitor_subscribe", "订阅");
   ("menu_management_user", "连接用户");
   ("menu_management_acl", "访问控制");
   ("menu_management_listener", "监听器");
   ("menu_tool_websocket", "Websocket");
   ("menu_tool_restful", "Restful接口");
   ("menu_system_admin", "系统管理员");
   ("common_node", "节点");
   ("common_client_id", "客户端ID");
   ("common_clean_session", "清除会话");
   ("common_keep_alive", "心跳(秒)");
   ("common_sub", "订阅");
   ("common_pub", "发布");
   ("common_qos", "服务质量");
   ("common_topic", "主题");
   ("common_message", "消息");
   ("common_username", "用户名");
   ("common_password", "密码");
   ("common_ip_address", "IP地址");
   ("common_host", "主机地址");
   ("common_port", "端口号");
   ("common_oper", "操作");
   ("common_btn_processing", "处理中");
   ("common_alert_title", "系统提示");
   ("common_alert_error_content", "系统异常，请联系Stuart开发工作室！");
   ("common_login_btn", "登录");
   ("common_search_btn", "查询");
   ("common_add_btn", "添加");
   ("common_edit_btn", "编辑");
   ("common_delete_btn", "删除");
   ("common_cancel_btn", "取消");
   ("common_save_btn", "保存");
   ("common_confirm_btn", "确定");
   ("common_close_btn", "关闭");
   ("common_question_mark", "？");
   ("common_yes", "是");
   ("common_no", "否");
   ("common_swtich_cond_required", "这是必填字段");
   ("common_passwd_equal", "两次输入的密码不一致");
   ("common_passwd_not_equal", "新密码不能与旧密码相同");
   ("common_passwd_error", "密码错误");
   ("login_message", "登录并开始管理服务器");
   ("login_username", "用户名");
   ("login_username_required", "请输入用户名");
   ("login_password", "密码");
   ("login_password_required", "请输入密码");
   ("login_remember_me", "记住我");
   ("login_username_password_error", "用户名或密码错误")].

Definition monitor_zh : list (string * string) :=
  [("console_system_info", "系统信息");
   ("console_name_label", "名称");
   ("console_name_desc", "Stuart MQTT 服务器");
   ("console_version_label", "版本");
   ("console_uptime_label", "运行时间");
   ("console_systime_label", "系统时间");
   ("console_nodes", "节点信息");
   ("console_java_version", "Java版本");
   ("console_thread", "线程<br>(run/peak)");
   ("console_cpu", "CPU<br>(1load/5load/15load)");
   ("console_heap", "堆内存<br>(used/total)");
   ("console_off_heap", "堆外内存<br>(used/total)");
   ("console_max_fds", "最大文件句柄数");
   ("console_status", "状态");
   ("console_stats", "运行统计");
   ("console_stats_conn_count", "连接数");
   ("console_stats_conn_max", "连接峰值");
   ("console_stats_topic_count", "主题数");
   ("console_stats_topic_max", "主题峰值");
   ("console_stats_retain_count", "保留消息数");
   ("console_stats_retain_max", "保留消息最大数");
   ("console_stats_sess_count", "会话数");
   ("console_stats_sess_max", "会话峰值");
   ("console_stats_sub_count", "订阅数");
   ("console_stats_sub_max", "订阅峰值");
   ("console_metrics", "度量指标");
   ("console_metrics_packets", "MQTT报文");
   ("console_metrics_messages", "消息(个数)");
   ("console_metrics_bytes", "消息流量(字节)");
   ("connect_protocol_version", "协议版本");
   ("connect_connect_time", "连接时间");
   ("session_subscriptions", "订阅数");
   ("session_max_inflight", "最大拥塞");
   ("session_inflight_size", "当前拥塞");
   ("session_queue_size", "当前缓存消息");
   ("session_droppeds", "丢弃消息");
   ("session_await_rels", "等待释放");
   ("session_delivers", "投递消息");
   ("session_enqueues", "入队消息");
   ("session_create_time", "创建时间");
   ("user_username", "连接用户名");
   ("user_desc", "备注");
   ("user_passwd", "密码");
   ("user_passwd_conf", "确认密码");
   ("user_passwd_change", "修改密码");
   ("user_admin_passwd", "当前管理员密码");
   ("user_passwd_new", "新密码");
   ("user_passwd_new_conf", "确认新密码");
   ("user_add_title", "添加连接用户");
   ("user_edit_title", "编辑连接用户");
   ("user_delete_title", "删除连接用户");
   ("user_existed_message", "连接用户名已存在");
   ("user_delete_conf_text", "确定删除连接用户：");
   ("user_add_succeeded", "添加连接用户成功");
   ("user_add_failed", "添加连接用户失败");
   ("user_edit_succeeded", "编辑连接用户成功");
   ("user_edit_failed", "编辑连接用户失败");
   ("user_delete_succeeded", "删除连接用户成功");
   ("user_delete_failed", "删除连接用户失败")].

Definition management_zh : list (string * string) :=
  [("acl_explain", "说明");
   ("acl_explain_detail_one", "1.如果主题中包含“+”或“#”等通配符，默认情况下系统会按照通配符进行匹配比较；");
   ("acl_explain_detail_two", "2.如果需要主题进行相等匹配，请使用eq表达式，例如：eq(/hello/world/+)。");
   ("acl_seq", "序号");
   ("acl_target", "控制目标");
   ("acl_type", "目标类型");
   ("acl_topic", "主题");
   ("acl_access", "访问类型");
   ("acl_authority", "访问权限");
   ("acl_item", "访问控制项");
   ("acl_connect_user", "连接用户");
   ("acl_ip_addr", "IP地址");
   ("acl_client_id", "客户端ID");
   ("acl_all", "所有");
   ("acl_sub", "订阅");
   ("acl_pub", "发布");
   ("acl_subpub", "订阅发布");
   ("acl_deny", "禁止");
   ("acl_allow", "允许");
   ("acl_delete_target", "控制目标：");
   ("acl_delete_type", "目标类型：");
   ("acl_delete_topic", "主题：");
   ("acl_delete_access", "访问类型：");
   ("acl_delete_authority", "访问权限：");
   ("acl_add_title", "添加访问控制项");
   ("acl_edit_title", "编辑访问控制项");
   ("acl_delete_title", "删除访问控制项");
   ("acl_delete_conf_text", "确定删除访问控制项？");
   ("acl_add_succeeded", "添加访问控制项成功");
   ("acl_add_failed", "添加访问控制项失败");
   ("acl_edit_succeeded", "编辑访问控制项成功");
   ("acl_edit_failed", "编辑访问控制项失败");
   ("acl_delete_succeeded", "删除访问控制项成功");
   ("acl_delete_failed", "删除访问控制项失败");
   ("listener_protocol", "协议");
   ("listener_address_port", "监听地址");
   ("listener_conn_max_limit", "最大客户端连接数量");
   ("listener_conn_count", "当前客户端连接数量");
   ("ws_conn_title", "连接");
   ("ws_conn_path", "Path");
   ("ws_conn_ssl", "SSL");
   ("ws_conn_status", "连接状态：");
   ("ws_conn_status_connected", "已连接");
   ("ws_conn_status_disconnected", "未连接");
   ("ws_sub_title", "订阅");
   ("ws_sub_list", "订阅列表");
   ("ws_sub_time", "时间");
   ("ws_msg_title", "消息");
   ("ws_msg_retained", "保留");
   ("ws_msg_pub_list", "发布消息列表");
   ("ws_msg_sub_list", "订阅消息列表");
   ("ws_msg_time", "时间");
   ("ws_connect_btn", "连接");
   ("ws_disconnect_btn", "断开连接");
   ("ws_subscribe_btn", "订阅");
   ("ws_send_btn", "发送");
   ("ws_notify_connect_succeed", "连接成功");
   ("ws_notify_sub_succeed", "订阅成功");
   ("ws_notify_unsub_succeed", "取消订阅成功");
   ("ws_notify_send_succeed", "发送成功");
   ("admin_account", "管理员账号");
   ("admin_desc", "备注");
   ("admin_passwd", "密码");
   ("admin_passwd_conf", "确认密码");
   ("admin_passwd_change", "修改密码");
   ("admin_passwd_old", "旧密码");
   ("admin_passwd_new", "新密码");
   ("admin_passwd_new_conf", "确认新密码");
   ("admin_add_title", "添加管理员");
   ("admin_edit_title", "编辑管理员");
   ("admin_delete_title", "删除管理员");
   ("admin_existed_message", "账号已存在");
   ("admin_delete_conf_text", "确定删除管理员：");
   ("admin_add_succeeded", "添加管理员成功");
   ("admin_add_failed", "添加管理员失败");
   ("admin_edit_succeeded", "编辑管理员成功");
   ("admin_edit_failed", "编辑管理员失败");
   ("admin_delete_succeeded", "删除管理员成功");
   ("admin_delete_failed", "删除管理员失败")].

Definition validator_zh : list (string * string) :=
  [("required", "这是必填字段");
   ("remote", "请修正此字段");
   ("email", "请输入有效的电子邮件地址");
   ("url", "请输入有效的网址");
   ("date", "请输入有效的日期");
   ("dateISO", "请输入有效的日期 (YYYY-MM-DD)");
   ("number", "请输入有效的数字");
   ("digits", "只能输入数字");
   ("equalTo", "你的输入不相同");
   ("extension", "请输入有效的后缀");
   ("maxlength", "最多可以输入 {0} 个字符");
   ("minlength", "最少要输入 {0} 个字符");
   ("rangelength", "请输入长度在 {0} 到 {1} 之间的字符串");
   ("range", "请输入范围在 {0} 到 {1} 之间的数值");
   ("max", "请输入不大于 {0} 的数值");
   ("min", "请输入不小于 {0} 的数值")].

(** ** What the scripts do when they are loaded *)
Definition entries (l : list (string * string)) : list (jsstr * jsstr) :=
  map (λ e, (js e.1, js e.2)) l.

(** The table one script extends [locale_messages] with. *)
Definition messages (l : language) : list (jsstr * jsstr) :=
  entries match l with
          | En => general_en ++ monitor_en ++ management_en
          | Zh => general_zh ++ monitor_zh ++ management_zh
          end.

Definition validator_messages (l : language) : list (jsstr * jsstr) :=
  entries match l with En => validator_en | Zh => validator_zh end.

(** [$.extend(target, source)]: the source wins. *)
Definition extend (target : gmap jsstr jsstr) (source : list (jsstr * jsstr)) : gmap jsstr jsstr :=
  foldl (λ t e, <[e.1 := e.2]> t) target source.

(** The texts of a selection list; [t] and [maximum] are the numbers it is
    given. *)
Record select2_texts := mkSelect2 {
  errorLoading : jsstr;
  inputTooLong : Z -> Z -> jsstr;
  inputTooShort : Z -> Z -> jsstr;
  loadingMore : jsstr;
  maximumSelected : Z -> jsstr;
  noResults : jsstr;
  searching : jsstr;
}.

Definition select2 (l : language) : select2_texts :=
  match l with
  | En =>
      mkSelect2 (js "The results could not be loaded.")
        (λ input maximum,
           let t := input - maximum in
           let n := js "Please delete " ++ dec t ++ js " character" in
           if t =? 1 then n else n ++ js "s")
        (λ minimum input, js "Please enter " ++ dec (minimum - input) ++ js " or more characters")
        (js "Loading more results…")
        (λ maximum,
           let t := js "You can only select " ++ dec maximum ++ js " item" in
           if maximum =? 1 then t else t ++ js "s")
        (js "No results found") (js "Searching…")
  | Zh =>
      mkSelect2 (js "无法载入结果。")
        (λ input maximum, js "请删除" ++ dec (input - maximum) ++ js "个字符")
        (λ minimum input, js "请再输入至少" ++ dec (minimum - input) ++ js "个字符")
        (js "载入更多结果…")
        (λ maximum, js "最多只能选择" ++ dec maximum ++ js "个项目")
        (js "未找到结果") (js "搜索中…")
  end.

(** ** Extending a table *)
Lemma extend_other t l k : k ∉ l.*1 -> extend t l !! k = t !! k.
Proof.
  revert t. induction l as [|[k' v] l IH]; intros t Hk; cbn; [done|].
  rewrite IH by set_solver. apply lookup_insert_ne. set_solver.
Qed.

Lemma extend_in t l k v : NoDup l.*1 -> (k, v) ∈ l -> extend t l !! k = Some v.
Proof.
  revert t. induction l as [|[k' v'] l IH]; intros t Hnd Hin; [set_solver|].
  cbn in *. apply NoDup_cons in Hnd as [Hk Hnd]. apply elem_of_cons in Hin as [[= <- <-]|Hin].
  - change (extend (<[k := v]> t) l !! k = Some v). rewrite extend_other by done.
    apply lookup_insert_eq.
  - by apply IH.
Qed.

(** The keys of the two tables, compared and counted by evaluation. *)
Lemma keys_agree : (messages En).*1 = (messages Zh).*1.
Proof. vm_compute. reflexivity. Qed.

Lemma keys_nodup l : NoDup (messages l).*1.
Proof. destruct l; refine (bool_decide_unpack (NoDup _) _); vm_compute; exact I. Qed.

Lemma validator_keys_agree : (validator_messages En).*1 = (validator_messages Zh).*1.
Proof. vm_compute. reflexivity. Qed.

Lemma validator_keys_nodup l : NoDup (validator_messages l).*1.
Proof. destruct l; refine (bool_decide_unpack (NoDup _) _); vm_compute; exact I. Qed.

Lemma messages_lookup l t k v : (k, v) ∈ messages l -> extend t (messages l) !! k = Some v.
Proof. apply extend_in, keys_nodup. Qed.

Lemma messages_key l k : k ∈ (messages En).*1 <-> exists v, (k, v) ∈ messages l.
Proof.
  assert ((messages En).*1 = (messages l).*1) as -> by (destruct l; [done|apply keys_agree]).
  rewrite list_elem_of_fmap. split.
  - intros ([k' v] & -> & H). by exists v.
  - intros [v H]. by exists (k, v).
Qed.
