(* ===== verification/Language.v ===== *)
(** * Choosing the language of the console
    (static/components/language/language.js).

    The state is the part of the page the functions touch: the elements with
    their [data-locale] attribute, and [locale_messages].  A script that is
    fetched runs before the callback of [getScript]; a file that does not exist
    runs nothing.  Language tags are ASCII. *)

From stdpp Require Import base tactics strings gmap numbers list.
From Stdlib Require Import ZArith Lia.
From S2P Require Import Prelude Strings Locale.
Local Open Scope Z_scope.

Record element := mkElement {
  el_input : bool;
  el_locale : option jsstr;
  el_placeholder : jsstr;
  el_text : jsstr;
}.

Record page := mkPage {
  elements : list element;
  locale_messages : gmap jsstr jsstr;
  validator_texts : option (gmap jsstr jsstr);   (* when the validator is loaded *)
}.

(** ** getLanguage *)
Record navigator := mkNavigator {
  nav_language : option jsstr;
  nav_browserLanguage : option jsstr;
  nav_userLanguage : option jsstr;
  nav_systemLanguage : option jsstr;
}.

Definition truthy_str (o : option jsstr) : bool :=
  match o with Some [] | None => false | Some _ => true end.

Definition toLowerCase (s : jsstr) : jsstr := map lower_ascii s.

Definition getLanguage (nav : navigator) : jsstr :=
  let language :=
    if truthy_str (nav_language nav) then nav_language nav
    else if truthy_str (nav_browserLanguage nav) then nav_browserLanguage nav
    else if truthy_str (nav_userLanguage nav) then nav_userLanguage nav
    else if truthy_str (nav_systemLanguage nav) then nav_systemLanguage nav
    else None in
  match language with
  | Some l => if startsWith (toLowerCase l) (js "zh") then js "zh" else js "en"
  | None => js "en"
  end.

(** ** Loading and applying *)
Definition script_file (language : jsstr) : jsstr :=
  js "/static/i18n/messages." ++ toLowerCase language ++ js ".js".

(** The script a path serves. *)
Definition script_at (file : jsstr) : option Locale.language :=
  if jseqb file (js "/static/i18n/messages.en.js") then Some En
  else if jseqb file (js "/static/i18n/messages.zh.js") then Some Zh
  else None.

Definition run_script (l : Locale.language) (p : page) : page :=
  mkPage (elements p) (extend (locale_messages p) (messages l))
    ((λ v, extend v (validator_messages l)) <$> validator_texts p).

Definition loadLanguage (language : jsstr) (callback : page -> page) (p : page) : page :=
  match script_at (script_file language) with
  | Some l => callback (run_script l p)
  | None => p
  end.

(** [attr] and [text] with [undefined] read instead of writing. *)
Definition localize (m : gmap jsstr jsstr) (e : element) : element :=
  match el_locale e ≫= (m !!.) with
  | Some t =>
      if el_input e then mkElement true (el_locale e) t (el_text e)
      else mkElement false (el_locale e) (el_placeholder e) t
  | None => e
  end.

Definition changeLanguage (p : page) : page :=
  mkPage (map (localize (locale_messages p)) (elements p)) (locale_messages p)
    (validator_texts p).

Definition loadAndChangeLanguage (language : jsstr) (p : page) : page :=
  match script_at (script_file language) with
  | Some l => changeLanguage (run_script l p)
  | None => p
  end.

(** ** What the user sees *)
Definition shown (e : element) : jsstr := if el_input e then el_placeholder e else el_text e.

(** The languages a browser tells that are not empty, in order of preference. *)
Definition tags (nav : navigator) : list jsstr :=
  omap (λ o, match o with Some (_ :: _) => o | _ => None end)
    [nav_language nav; nav_browserLanguage nav; nav_userLanguage nav; nav_systemLanguage nav].

(** It begins with the letters zh, small or capital. *)
Definition chinese (tag : jsstr) : bool :=
  match tag with
  | z :: h :: _ => ((z =? 90) || (z =? 122)) && ((h =? 72) || (h =? 104))
  | _ => false
  end.

(** The language of a browser: Chinese when the first it tells is, English else. *)
Definition chosen (nav : navigator) : Locale.language :=
  match tags nav with t :: _ => if chinese t then Zh else En | [] => En end.

Lemma lower_ascii_is c l : 97 <= l <= 122 -> lower_ascii c = l <-> c = l - 32 \/ c = l.
Proof. intros Hl. unfold lower_ascii. destruct (_ && _) eqn:E; zbool; [lia|]. apply andb_false_iff in E. lia. Qed.

Lemma chinese_spec t : chinese t = true <-> exists rest, toLowerCase t = js "zh" ++ rest.
Proof.
  change (js "zh") with [122; 104]. split.
  - destruct t as [|z [|h t]]; try done. cbn. rewrite andb_true_iff, !orb_true_iff, !Z.eqb_eq. intros [Hz Hh].
    exists (toLowerCase t). cbn. by rewrite (proj2 (lower_ascii_is z 122 ltac:(lia))), (proj2 (lower_ascii_is h 104 ltac:(lia))).
  - intros [rest E]. destruct t as [|z [|h t]]; try done. cbn in E. injection E as Hz Hh _.
    apply lower_ascii_is in Hz, Hh; [|lia..]. cbn. zlia.
Qed.

Lemma startsWith_zh t : startsWith (toLowerCase t) (js "zh") = chinese t.
Proof. apply eq_true_iff_eq. by rewrite chinese_spec, startsWith_spec. Qed.

Lemma getLanguage_chosen nav :
  getLanguage nav = match chosen nav with Zh => js "zh" | En => js "en" end.
Proof.
  unfold getLanguage, chosen, tags.
  destruct (nav_language nav) as [[|? ?]|], (nav_browserLanguage nav) as [[|? ?]|],
    (nav_userLanguage nav) as [[|? ?]|], (nav_systemLanguage nav) as [[|? ?]|];
    cbn -[js startsWith chinese toLowerCase]; rewrite ?startsWith_zh; try done; by destruct (chinese _).
Qed.

Lemma script_chosen nav : script_at (script_file (getLanguage nav)) = Some (chosen nav).
Proof. rewrite getLanguage_chosen. by destruct (chosen nav). Qed.

Lemma localize_shown m e k t : el_locale e = Some k -> m !! k = Some t ->
  shown (localize m e) = t.
Proof.
  intros He Hm. unfold localize, shown. rewrite He. cbn. rewrite Hm. by destruct (el_input e).
Qed.

(** C23: the two message tables have the same keys, each once, for the console
    and for the form validator; so once the language of the browser is loaded,
    every element of the page marked with a key of the tables shows the message
    of that language, whatever was loaded or shown before, and an element
    without such a key is left alone. *)
Theorem page_in_chosen_language nav p :
  let l := chosen nav in
  let p' := loadAndChangeLanguage (getLanguage nav) p in
  elements p' = map (localize (locale_messages p')) (elements p)
  /\ (forall e k, e ∈ elements p -> el_locale e = Some k -> k ∈ (messages En).*1 ->
        exists t, (k, t) ∈ messages l /\ shown (localize (locale_messages p') e) = t)
  /\ (forall e, e ∈ elements p -> el_locale e = None -> localize (locale_messages p') e = e)
  /\ (forall k t, (k, t) ∈ messages l -> locale_messages p' !! k = Some t)
  /\ (messages En).*1 = (messages Zh).*1
  /\ (validator_messages En).*1 = (validator_messages Zh).*1.
Proof.
  intros l p'. subst p'. unfold loadAndChangeLanguage. rewrite script_chosen. fold l. cbn.
  split_and!; [done| | | |apply keys_agree|apply validator_keys_agree].
  - intros e k _ He Hk. apply (messages_key l) in Hk as [t Ht]. exists t. split; [done|].
    eapply localize_shown; [done|by apply messages_lookup].
  - intros e _ He. unfold localize. by rewrite He.
  - intros k t Ht. by apply messages_lookup.
Qed.

Lemma page_in_chosen_language_witness :
  let nav := mkNavigator (Some (js "zh-CN")) None None None in
  let e := mkElement false (Some (js "menu_tool")) [] (js "Tool") in
  let p := mkPage [e] (extend ∅ (messages En)) None in
  chosen nav = Zh
  /\ exists t, (js "menu_tool", t) ∈ messages Zh
     /\ shown (localize (locale_messages (loadAndChangeLanguage (getLanguage nav) p)) e) = t.
Proof.
  intros nav e p. assert (chosen nav = Zh) as Hc by (vm_compute; reflexivity).
  split; [exact Hc|].
  destruct (page_in_chosen_language nav p) as (_ & H & _). rewrite Hc in H.
  apply (H e (js "menu_tool")); [apply elem_of_cons; left; reflexivity|reflexivity|].
  apply (bool_decide_unpack _). vm_compute. exact I.
Defined.
