(* ===== verification/Json.v ===== *)
(** * JSON data and its compact text

    The values [JSON.parse] gives, numbers restricted to integers, and what
    [JSON.stringify] writes for them.  Used by the trace of the MQTT client and
    by the JSON viewer. *)

From stdpp Require Import base tactics list strings numbers.
From Stdlib Require Import ZArith Lia.
From S2P Require Import Prelude.
Local Open Scope Z_scope.

Inductive json :=
  | JNull
  | JBool (b : bool)
  | JNum (z : Z)
  | JStr (s : jsstr)
  | JArr (l : list json)
  | JObj (props : list (jsstr * json)).

(** Induction that reaches inside arrays and objects. *)
Section Induction.
Variable P : json -> Prop.
Hypothesis PNull : P JNull.
Hypothesis PBool : forall b, P (JBool b).
Hypothesis PNum : forall z, P (JNum z).
Hypothesis PStr : forall s, P (JStr s).
Hypothesis PArr : forall l, Forall P l -> P (JArr l).
Hypothesis PObj : forall ps, Forall (λ p, P p.2) ps -> P (JObj ps).

Fixpoint json_induction (j : json) : P j :=
  match j with
  | JNull => PNull
  | JBool b => PBool b
  | JNum z => PNum z
  | JStr s => PStr s
  | JArr l =>
      PArr l ((fix all l : Forall P l :=
                 match l with
                 | [] => List.Forall_nil P
                 | x :: l' => List.Forall_cons P x l' (json_induction x) (all l')
                 end) l)
  | JObj ps =>
      PObj ps ((fix all ps : Forall (λ p, P p.2) ps :=
                  match ps with
                  | [] => List.Forall_nil _
                  | x :: ps' => List.Forall_cons _ x ps' (json_induction x.2) (all ps')
                  end) ps)
  end.
End Induction.

(** A character of a quoted string. *)
Definition hex4 (c : Z) : jsstr :=
  map digit_char [Z.shiftr c 12 mod 16; Z.shiftr c 8 mod 16; Z.shiftr c 4 mod 16; c mod 16].

Definition quote_char (c : Z) : jsstr :=
  if c =? 34 then [92; 34]
  else if c =? 92 then [92; 92]
  else if c =? 8 then js "\b"
  else if c =? 9 then js "\t"
  else if c =? 10 then js "\n"
  else if c =? 12 then js "\f"
  else if c =? 13 then js "\r"
  else if c <? 32 then js "\u" ++ hex4 c
  else [c].

Definition quote (s : jsstr) : jsstr := 34 :: concat (map quote_char s) ++ [34].

Fixpoint stringify (j : json) : jsstr :=
  match j with
  | JNull => js "null"
  | JBool true => js "true"
  | JBool false => js "false"
  | JNum z => dec z
  | JStr s => quote s
  | JArr l => js "[" ++ join (js ",") (map stringify l) ++ js "]"
  | JObj ps =>
      js "{" ++ join (js ",") (map (λ p, quote p.1 ++ js ":" ++ stringify p.2) ps) ++ js "}"
  end.

(** ** Reading data as a script does *)

(** [j.key]: the last of several properties of one name is the one kept;
    [None] is [undefined].  Only objects are read this way by the console. *)
Fixpoint last_prop (ps : list (jsstr * json)) (key : jsstr) : option json :=
  match ps with
  | [] => None
  | (k, v) :: ps' =>
      match last_prop ps' key with
      | Some w => Some w
      | None => if jseqb k key then Some v else None
      end
  end.

Definition member (j : json) (key : string) : option json :=
  match j with JObj ps => last_prop ps (js key) | _ => None end.

Definition json_truthy (o : option json) : bool :=
  match o with
  | None | Some JNull | Some (JBool false) | Some (JNum 0) | Some (JStr []) => false
  | Some _ => true
  end.

(** [String(j)]. *)
Fixpoint json_str (j : json) : jsstr :=
  match j with
  | JNull => js "null"
  | JBool true => js "true"
  | JBool false => js "false"
  | JNum z => dec z
  | JStr s => s
  | JArr l => join (js ",") (map (λ x, match x with JNull => [] | _ => json_str x end) l)
  | JObj _ => js "[object Object]"
  end.
