(* ===== verification/DataTable.v ===== *)
(** * Tables that are filled by the server a page at a time
    (static/components/datatables.net/js/jquery.dataTables.js).

    The part of DataTables that the pages of the console depend on: the settings
    object of a table on server-side processing, its drawing cycle (a draw asks
    the page's [ajax] function for data and ends; the callback takes the data and
    draws), paging, and making a table again over the same element.

    Modelled choices: sorting and searching are switched off by these pages; the
    node of a row is made when its data is added rather than when it is first
    drawn, which nothing between the two can tell apart. *)

From stdpp Require Import base tactics strings list numbers.
From Stdlib Require Import ZArith Lia.
From S2P Require Import Prelude Json.
Local Open Scope Z_scope.

(** A row of the table's body: its node, the index DataTables keeps on the node,
    and the data it was drawn from. *)
Record row := mkRow { nTr : nat; rowIndex : nat; aData : json }.

(** The settings object of a table. *)
Record dtable := mkDtable {
  iDraw : Z;
  iDisplayStart : Z;
  iDisplayLength : Z;
  iRecordsTotal : Z;
  iRecordsDisplay : Z;
  aoData : list row;
  bAjaxDataGet : bool;
  bDestroying : bool;
  processing_shown : bool;
}.

(** Every table made over one element, in order, the rows in its body, and the
    number of nodes made. *)
Record tables := mkTables {
  instances : list dtable;
  body_rows : list row;
  next_node : nat;
}.

(** A call of the page's [ajax] function: for which table, and the parameters of
    it the pages use. *)
Record ajax_call := mkCall {
  call_table : nat;
  call_draw : Z;
  call_start : Z;
  call_length : Z;
}.

(** What the page hands to the callback. *)
Record draw_data := mkDrawData {
  dd_draw : Z;
  recordsTotal : Z;
  recordsFiltered : Z;
  dd_data : list json;
}.

Definition set_start (start : Z) (t : dtable) : dtable :=
  mkDtable (iDraw t) start (iDisplayLength t) (iRecordsTotal t) (iRecordsDisplay t) (aoData t)
    (bAjaxDataGet t) (bDestroying t) (processing_shown t).

Definition set_asked (t : dtable) : dtable :=
  mkDtable (iDraw t + 1) (iDisplayStart t) (iDisplayLength t) (iRecordsTotal t)
    (iRecordsDisplay t) (aoData t) (bAjaxDataGet t) (bDestroying t) true.

Definition set_destroying (t : dtable) : dtable :=
  mkDtable (iDraw t) (iDisplayStart t) (iDisplayLength t) (iRecordsTotal t) (iRecordsDisplay t)
    (aoData t) (bAjaxDataGet t) true (processing_shown t).

(** [bAjaxDataGet] back on and the indicator off. *)
Definition set_drawn (t : dtable) : dtable :=
  mkDtable (iDraw t) (iDisplayStart t) (iDisplayLength t) (iRecordsTotal t) (iRecordsDisplay t)
    (aoData t) true (bDestroying t) false.

Definition put (k : nat) (t : dtable) (w : tables) : tables :=
  mkTables (<[k := t]> (instances w)) (body_rows w) (next_node w).

Definition show_rows (rows : list row) (w : tables) : tables :=
  mkTables (instances w) rows (next_node w).

(** ** Drawing *)

(** [_fnDraw] with [_fnAjaxUpdate]: a table that may ask does so and ends. *)
Definition _fnDraw (k : nat) (w : tables) : tables * option ajax_call :=
  match instances w !! k with
  | None => (w, None)
  | Some t =>
      if negb (bDestroying t) && bAjaxDataGet t then
        let t := set_asked t in
        (put k t w, Some (mkCall k (iDraw t) (iDisplayStart t) (iDisplayLength t)))
      else (show_rows (aoData t) w, None)
  end.

Definition _fnReDraw (k : nat) (holdPosition : bool) (w : tables) : tables * option ajax_call :=
  match instances w !! k with
  | None => (w, None)
  | Some t => _fnDraw k (if holdPosition then w else put k (set_start 0 t) w)
  end.

(** The rows [_fnAddData] makes of the data, with their nodes. *)
Definition add_data (first_node : nat) (data : list json) : list row :=
  imap (λ i d, mkRow (first_node + i) i d) data.

(** [_fnAjaxUpdateDraw]: an answer to an earlier draw is dropped. *)
Definition _fnAjaxUpdateDraw (k : nat) (d : draw_data) (w : tables) : tables :=
  match instances w !! k with
  | None => w
  | Some t =>
      if negb (dd_draw d =? 0) && (dd_draw d <? iDraw t) then w
      else
        let t := mkDtable (if dd_draw d =? 0 then iDraw t else dd_draw d) (iDisplayStart t)
                   (iDisplayLength t) (recordsTotal d) (recordsFiltered d)
                   (add_data (next_node w) (dd_data d)) false (bDestroying t)
                   (processing_shown t) in
        let w := mkTables (<[k := t]> (instances w)) (body_rows w)
                   (next_node w + length (dd_data d)) in
        let w := fst (_fnDraw k w) in
        put k (set_drawn t) w
  end.

(** ** Paging *)
Inductive page_action := PageNumber (n : Z) | PageFirst | PagePrevious | PageNext | PageLast.

Definition page_start (action : page_action) (t : dtable) : Z :=
  let start := iDisplayStart t in
  let len := iDisplayLength t in
  let records := iRecordsDisplay t in
  if (records =? 0) || (len =? -1) then 0
  else match action with
       | PageNumber n => let start := n * len in if start >? records then 0 else start
       | PageFirst => 0
       | PagePrevious =>
           let start := if len >=? 0 then start - len else 0 in if start <? 0 then 0 else start
       | PageNext => if start + len <? records then start + len else start
       | PageLast => (records - 1) / len * len
       end.

(** [_fnPageChange]. *)
Definition fnPageChange (k : nat) (action : page_action) (redraw : bool) (w : tables) :
    tables * option ajax_call :=
  match instances w !! k with
  | None => (w, None)
  | Some t =>
      let start := page_start action t in
      let w' := put k (set_start start t) w in
      if negb (iDisplayStart t =? start) && redraw then _fnDraw k w' else (w', None)
  end.

(** The handler of a button of the pager (dataTables.bootstrap.js): the page it
    names is not the one shown; the table is drawn whether the page changed or
    not. *)
Definition current_page (t : dtable) : Z :=
  if iDisplayLength t =? -1 then 0 else iDisplayStart t / iDisplayLength t.

Definition click_page (k : nat) (action : page_action) (w : tables) : tables * option ajax_call :=
  match instances w !! k with
  | None => (w, None)
  | Some t =>
      if match action with PageNumber n => current_page t =? n | _ => false end then (w, None)
      else _fnDraw k (fst (fnPageChange k action false w))
  end.

(** [table.ajax.reload(null, !holdPosition)]. *)
Definition reload (k : nat) (holdPosition : bool) (w : tables) : tables * option ajax_call :=
  _fnReDraw k holdPosition w.

(** ** Making a table *)

(** [destroy()] puts the rows of the table back into the body. *)
Definition fnDestroy (k : nat) (w : tables) : tables :=
  match instances w !! k with
  | None => w
  | Some t => show_rows (aoData t) (put k (set_destroying t) w)
  end.

Definition fresh_table (pageLength : Z) : dtable :=
  mkDtable 0 0 pageLength 0 0 [] true false true.

(** [$(element).DataTable({destroy: true, ...})]: the table that is there goes,
    and the new one, whose number is that of the ones before, draws. *)
Definition newDataTable (pageLength : Z) (w : tables) : tables * option ajax_call :=
  let k := length (instances w) in
  let w := fnDestroy (k - 1) w in
  _fnReDraw k false
    (mkTables (instances w ++ [fresh_table pageLength]) (body_rows w) (next_node w)).

Definition no_tables : tables := mkTables [] [] 0.

(** [table.row(node).data()]: the data of the row whose node this is, if it is
    a row of this table. *)
Definition row_data (k : nat) (n : row) (w : tables) : option json :=
  t ← instances w !! k; r ← aoData t !! rowIndex n;
  if (nTr r =? nTr n)%nat then Some (aData r) else None.

(** ** What holds of the tables of an element, whatever is done with them *)

(** No two rows have one node. *)
Record tables_ok (w : tables) : Prop := {
  nodes_made : forall k t r, instances w !! k = Some t -> r ∈ aoData t -> (nTr r < next_node w)%nat;
  body_made : forall r, r ∈ body_rows w -> (nTr r < next_node w)%nat;
  nodes_index : forall k t i r, instances w !! k = Some t -> aoData t !! i = Some r ->
    rowIndex r = i;
  body_node : forall k t r n, instances w !! k = Some t -> r ∈ aoData t -> n ∈ body_rows w ->
    nTr r = nTr n -> r = n;
  one_node : forall k k' t t' r r', instances w !! k = Some t -> instances w !! k' = Some t' ->
    r ∈ aoData t -> r' ∈ aoData t' -> nTr r = nTr r' -> r = r';
  may_ask : forall k t, instances w !! k = Some t -> bAjaxDataGet t = true;
}.

Lemma no_tables_ok : tables_ok no_tables.
Proof. split; cbn; intros; (discriminate || by edestruct @not_elem_of_nil). Qed.

(** A settings object replaced by one with the same rows. *)
Lemma put_ok k t t' w : tables_ok w -> instances w !! k = Some t ->
  aoData t' = aoData t -> bAjaxDataGet t' = true -> tables_ok (put k t' w).
Proof.
  intros [H1 H2 H3 H4 H5 H6] Hk Hd Hb.
  assert (forall j u, instances (put k t' w) !! j = Some u ->
            exists u', instances w !! j = Some u' /\ aoData u = aoData u' /\ bAjaxDataGet u = true) as Hl.
  { intros j u. cbn. rewrite list_lookup_insert_Some. intros [(-> & <- & _)|[_ Hu]]; eauto. }
  split; cbn [put body_rows next_node instances] in *.
  - intros j u r (u' & Hu & -> & _)%Hl. eauto.
  - done.
  - intros j u i r (u' & Hu & -> & _)%Hl. eauto.
  - intros j u r n (u' & Hu & -> & _)%Hl. eauto.
  - intros j j' u u' r r' (v & Hu & -> & _)%Hl (v' & Hu' & -> & _)%Hl. eauto.
  - by intros j u (u' & _ & _ & ?)%Hl.
Qed.

Lemma show_rows_ok k t w : tables_ok w -> instances w !! k = Some t ->
  tables_ok (show_rows (aoData t) w).
Proof.
  intros [H1 H2 H3 H4 H5 H6] Hk. split; cbn; eauto.
Qed.

Lemma draw_ok k w : tables_ok w -> tables_ok (fst (_fnDraw k w)).
Proof.
  intros H. unfold _fnDraw. destruct (instances w !! k) as [t|] eqn:E; [|done].
  case_match; cbn [fst]; [|by apply (show_rows_ok k)].
  apply (put_ok k t); [done|done|done|]. cbn. exact (may_ask w H k t E).
Qed.

Lemma redraw_ok k hold w : tables_ok w -> tables_ok (fst (_fnReDraw k hold w)).
Proof.
  intros H. unfold _fnReDraw. destruct (instances w !! k) as [t|] eqn:E; [|done].
  apply draw_ok. destruct hold; [done|].
  apply (put_ok k t); [done|done|done|]. exact (may_ask w H k t E).
Qed.

Lemma page_change_ok k action redraw w : tables_ok w -> tables_ok (fst (fnPageChange k action redraw w)).
Proof.
  intros H. unfold fnPageChange. destruct (instances w !! k) as [t|] eqn:E; [|done].
  assert (tables_ok (put k (set_start (page_start action t) t) w)) as H'.
  { apply (put_ok k t); [done|done|done|]. exact (may_ask w H k t E). }
  case_match; [by apply draw_ok|done].
Qed.

Lemma add_data_lookup n data i r : add_data n data !! i = Some r ->
  rowIndex r = i /\ nTr r = (n + i)%nat /\ data !! i = Some (aData r).
Proof.
  unfold add_data. rewrite list_lookup_imap. destruct (data !! i) as [d|] eqn:E; cbn; [|done].
  by intros [= <-].
Qed.

Lemma add_data_elem n data r : r ∈ add_data n data -> (n <= nTr r < n + length data)%nat.
Proof.
  intros [i Hi]%list_elem_of_lookup. destruct (add_data_lookup _ _ _ _ Hi) as (_ & -> & Hd).
  apply lookup_lt_Some in Hd. lia.
Qed.

Lemma add_data_node n data r r' : r ∈ add_data n data -> r' ∈ add_data n data ->
  nTr r = nTr r' -> r = r'.
Proof.
  intros [i Hi]%list_elem_of_lookup [j Hj]%list_elem_of_lookup He.
  destruct (add_data_lookup _ _ _ _ Hi) as (_ & Hr & _), (add_data_lookup _ _ _ _ Hj) as (_ & Hr' & _).
  assert (i = j) as -> by lia. rewrite Hi in Hj. by injection Hj.
Qed.

Lemma add_data_data n data : aData <$> add_data n data = data.
Proof.
  apply list_eq. intros i. rewrite list_lookup_fmap. unfold add_data. rewrite list_lookup_imap.
  by destruct (data !! i).
Qed.

(** New rows for a table, with new nodes. *)
Lemma fill_ok k t t' data w : tables_ok w -> instances w !! k = Some t ->
  aoData t' = add_data (next_node w) data -> bAjaxDataGet t' = true ->
  tables_ok (mkTables (<[k := t']> (instances w)) (body_rows w) (next_node w + length data)).
Proof.
  intros [H1 H2 H3 H4 H5 H6] Hk Hd Hb.
  assert (forall j u, <[k := t']> (instances w) !! j = Some u ->
            j = k /\ u = t' \/ instances w !! j = Some u) as Hl.
  { intros j u. rewrite list_lookup_insert_Some. intros [(-> & <- & _)|[_ Hu]]; auto. }
  assert (forall r, r ∈ aoData t' -> (next_node w <= nTr r < next_node w + length data)%nat) as Hn
    by (intros r; rewrite Hd; apply add_data_elem).
  split; cbn.
  - intros j u r [[-> ->]|Hu]%Hl Hr; [by apply Hn|]. specialize (H1 j u r Hu Hr). lia.
  - intros r Hr. specialize (H2 r Hr). lia.
  - intros j u i r [[-> ->]|Hu]%Hl Hr; [|by apply (H3 j u)].
    rewrite Hd in Hr. by destruct (add_data_lookup _ _ _ _ Hr).
  - intros j u r n [[-> ->]|Hu]%Hl Hr Hb' He; [|by apply (H4 j u)].
    specialize (Hn r Hr). specialize (H2 n Hb'). lia.
  - intros j j' u u' r r' [[-> ->]|Hu]%Hl [[-> ->]|Hu']%Hl Hr Hr' He.
    + rewrite Hd in Hr, Hr'. by apply (add_data_node (next_node w) data).
    + specialize (Hn r Hr). specialize (H1 j' u' r' Hu' Hr'). lia.
    + specialize (Hn r' Hr'). specialize (H1 j u r Hu Hr). lia.
    + by apply (H5 j j' u u').
  - intros j u [[-> ->]|Hu]%Hl; [done|]. by apply (H6 j).
Qed.

(** The settings object once it has taken data. *)
Definition filled (d : draw_data) (first_node : nat) (t : dtable) : dtable :=
  mkDtable (if dd_draw d =? 0 then iDraw t else dd_draw d) (iDisplayStart t) (iDisplayLength t)
    (recordsTotal d) (recordsFiltered d) (add_data first_node (dd_data d)) true (bDestroying t) false.

Definition out_of_sequence (d : draw_data) (t : dtable) : bool :=
  negb (dd_draw d =? 0) && (dd_draw d <? iDraw t).

(** The callback either drops the data or fills the table and its body with it. *)
Lemma update_draw_eq k d t w : instances w !! k = Some t ->
  _fnAjaxUpdateDraw k d w
  = if out_of_sequence d t then w
    else mkTables (<[k := filled d (next_node w) t]> (instances w))
           (add_data (next_node w) (dd_data d)) (next_node w + length (dd_data d)).
Proof.
  intros Hk. pose proof (lookup_lt_Some _ _ _ Hk) as Hl.
  unfold _fnAjaxUpdateDraw, out_of_sequence. rewrite Hk. case_match; [done|].
  unfold _fnDraw. cbn [instances]. rewrite list_lookup_insert_eq by done. cbn [bAjaxDataGet].
  rewrite andb_false_r. cbn [fst]. unfold put, show_rows. cbn [instances body_rows next_node aoData].
  by rewrite list_insert_insert_eq.
Qed.

Lemma update_draw_ok k d w : tables_ok w -> tables_ok (_fnAjaxUpdateDraw k d w).
Proof.
  intros H. destruct (instances w !! k) as [t|] eqn:E.
  2: { unfold _fnAjaxUpdateDraw. by rewrite E. }
  rewrite (update_draw_eq k d t w E). case_match; [done|].
  pose proof (lookup_lt_Some _ _ _ E) as Hl.
  set (w' := mkTables (<[k := filled d (next_node w) t]> (instances w)) (body_rows w)
               (next_node w + length (dd_data d))).
  assert (tables_ok w') as H' by by apply (fill_ok k t).
  apply (show_rows_ok k (filled d (next_node w) t) w' H'). cbn. by apply list_lookup_insert_eq.
Qed.

Lemma destroy_ok k w : tables_ok w -> tables_ok (fnDestroy k w).
Proof.
  intros H. unfold fnDestroy. destruct (instances w !! k) as [t|] eqn:E; [|done].
  apply (show_rows_ok k (set_destroying t)).
  - apply (put_ok k t); [done|done|done|]. exact (may_ask w H k t E).
  - apply list_lookup_insert_eq. by apply lookup_lt_Some in E.
Qed.

Lemma add_table_ok t w : tables_ok w -> aoData t = [] -> bAjaxDataGet t = true ->
  tables_ok (mkTables (instances w ++ [t]) (body_rows w) (next_node w)).
Proof.
  intros [H1 H2 H3 H4 H5 H6] Hd Hb.
  assert (forall j u r, (instances w ++ [t]) !! j = Some u -> r ∈ aoData u ->
            instances w !! j = Some u) as Hl.
  { intros j u r [?|[_ Hu]]%lookup_app_Some; [done|].
    apply list_lookup_singleton_Some in Hu as [_ <-]. rewrite Hd. by intros ?%elem_of_nil. }
  split; cbn; eauto.
  - intros j u i r Hu Hr. apply (H3 j u); [|done]. apply (Hl j u r Hu).
    by apply (list_elem_of_lookup_2 _ i).
  - intros j u [?|(? & Hu)]%lookup_app_Some; [by apply (H6 j)|].
    by apply list_lookup_singleton_Some in Hu as [_ <-].
Qed.

Lemma new_table_ok len w : tables_ok w -> tables_ok (fst (newDataTable len w)).
Proof.
  intros H. unfold newDataTable. apply redraw_ok. apply add_table_ok; [by apply destroy_ok|done|done].
Qed.

#[export] Hint Resolve no_tables_ok draw_ok redraw_ok page_change_ok update_draw_ok destroy_ok
  new_table_ok : tables.

(** ** What the pages rely on *)

(** The data of a row is what the row shows: DataTables never mistakes a row left
    over from before for one of the rows it has now. *)
Lemma row_data_shown k n d w : tables_ok w -> n ∈ body_rows w -> row_data k n w = Some d ->
  aData n = d.
Proof.
  intros H Hn. unfold row_data. destruct (instances w !! k) as [t|] eqn:Et; [|done]. cbn.
  destruct (aoData t !! rowIndex n) as [r|] eqn:Er; [|done]. cbn.
  destruct (Nat.eqb_spec (nTr r) (nTr n)) as [He|]; [|done]. intros [= <-].
  by rewrite (body_node w H k t r n Et (list_elem_of_lookup_2 _ _ _ Er) Hn He).
Qed.

(** A row of the table has its data. *)
Lemma row_data_own k t n w : tables_ok w -> instances w !! k = Some t -> n ∈ aoData t ->
  row_data k n w = Some (aData n).
Proof.
  intros H Ht [i Hi]%list_elem_of_lookup. unfold row_data. rewrite Ht. cbn.
  rewrite (nodes_index w H k t i n Ht Hi), Hi. cbn. by rewrite Nat.eqb_refl.
Qed.
