(* ===== verification/JsonView.v ===== *)
(** * The JSON viewer
    (static/components/jquery-jsonview/dist/js/jquery.jsonview.js).

    The formatter that turns a JSON value into HTML, and the collapser: the tree
    of foldable lists, each with the sign of its button, whether it is hidden and
    how many ellipses stand before it.  The objects of a value list their
    properties in the order of enumeration.  A name is taken as escaped, as by
    default: what is clicked in it is the link or a quotation mark. *)

From stdpp Require Import base tactics strings numbers list.
From Stdlib Require Import ZArith Lia.
From S2P Require Import Prelude Regex Json.
Local Open Scope Z_scope.
Local Open Scope st_scope.

Record view_options := mkOptions {
  o_collapsed : bool;
  o_nl2br : bool;
  o_recursive_collapser : bool;
  o_escape : bool;
  o_strict : bool;
}.

Definition defaultOptions : view_options := mkOptions false false false true false.

Definition JSON_VALUE_TYPES : list jsstr :=
  [js "object"; js "array"; js "number"; js "string"; js "boolean"; js "null"].

(** ** Escaping *)
Definition htmlEncode (html : jsstr) : jsstr :=
  let replace p t s := replace_all false (regex p) (λ _, js t) s in
  replace ">" "&gt;" (replace "<" "&lt;"
    (replace_all false (Char 34) (λ _, js "&quot;") (replace "&" "&amp;" html))).

Definition jsString (s : jsstr) : jsstr :=
  let s := quote s in htmlEncode (slice s 1 (-1)).

(** A quoted attribute. *)
Definition attribute (name : string) (v : jsstr) : jsstr := js name ++ [61; 34] ++ v ++ [34].

Definition decorateWithSpan (value : jsstr) (className : string) : jsstr :=
  js "<span " ++ attribute "class" (js className) ++ js ">" ++ htmlEncode value ++ js "</span>".

(** The quotation mark shown beside a link or a name. *)
Definition shown_quote : jsstr := js "<span " ++ attribute "class" (js "q") ++ js ">" ++ [34] ++ js "</span>".

(** ** Values *)
Definition valueType (v : json) : jsstr :=
  match v with
  | JNull => js "null"
  | JBool _ => js "boolean"
  | JNum _ => js "number"
  | JStr _ => js "string"
  | JArr _ => js "array"
  | JObj _ => js "object"
  end.

(** [jQuery.inArray]. *)
Fixpoint inArray (x : jsstr) (l : list jsstr) (i : Z) : Z :=
  match l with
  | [] => -1
  | y :: l' => if jseqb x y then i else inArray x l' (i + 1)
  end.

Definition is_link (s : jsstr) : bool := test true (regex "^(http|https|file):\/\/[^\s]+$") s.

Definition newLinePattern : re := regex "([^>\\r\\n]?)(\\r\\n|\\n\\r|\\r|\\n)".

Definition stringToHTML (o : view_options) (value : jsstr) : jsstr :=
  if is_link value then
    js "<a " ++ attribute "href" (htmlEncode value) ++ js ">" ++ shown_quote ++ jsString value
      ++ shown_quote ++ js "</a>"
  else
    let text := jsString value in
    let multiline := o_nl2br o && test false newLinePattern text in
    let text := if multiline
                then replace_all false newLinePattern (λ c, default [] (c 1%nat) ++ js "<br />") text
                else text in
    js "<span " ++ attribute "class" (js "string" ++ if multiline then js " multiline" else [])
      ++ js ">" ++ [34] ++ text ++ [34] ++ js "</span>".

Definition list_class (kind : string) (level : nat) : jsstr :=
  js kind ++ js " level" ++ dec (Z.of_nat level)
    ++ if (level =? 0)%nat then [] else js " collapsible".

Definition wrap_list (kind open close : string) (level : nat) (output : jsstr) : jsstr :=
  js open ++ js "<ul " ++ attribute "class" (list_class kind level) ++ js ">" ++ output
    ++ js "</ul>" ++ js close.

(** The [numProps > 1] of the loops: a comma after every item but the last. *)
Definition list_item (body : jsstr) (more : bool) : jsstr :=
  js "<li>" ++ body ++ (if more then js "," else []) ++ js "</li>".

Definition property_link (key : jsstr) : jsstr :=
  js "<a " ++ attribute "class" (js "prop") ++ js " " ++ attribute "href" (js "javascript:;")
    ++ js ">" ++ shown_quote ++ key ++ shown_quote ++ js "</a>: ".

(** The loop over the values of an array or the properties of an object. *)
Section Items.
Context {A : Type} (body : A -> result jsstr jsstr).

Fixpoint list_items (l : list A) (numProps : nat) : result jsstr jsstr :=
  match l with
  | [] => Ret []
  | x :: l' =>
      h <-? body x ;;
      rest <-? list_items l' (pred numProps) ;;
      Ret (list_item h (1 <? numProps)%nat ++ rest)
  end.
End Items.

Section Values.
Variable o : view_options.

Definition strict_error (v : json) : bool :=
  o_strict o && (inArray (valueType v) JSON_VALUE_TYPES 0 =? 0).

Definition property_key (prop : jsstr) : jsstr :=
  property_link (if o_escape o then jsString prop else prop).

Fixpoint valueToHTML (v : json) (level : nat) : result jsstr jsstr :=
  if strict_error v then Throw (valueType v ++ js " is not a valid JSON value type")
  else match v with
  | JNull => Ret (decorateWithSpan (js "null") "null")
  | JBool b => Ret (decorateWithSpan (js (if b then "true" else "false")) "bool")
  | JNum z => Ret (decorateWithSpan (dec z) "num")
  | JStr s => Ret (stringToHTML o s)
  | JArr [] => Ret (js "[ ]")
  | JArr l =>
      rmap (wrap_list "array" "[" "]" level)
        (list_items (λ x, valueToHTML x (S level)) l (length l))
  | JObj [] => Ret (js "{ }")
  | JObj ps =>
      rmap (wrap_list "obj" "{" "}" level)
        (list_items (λ p, rmap (λ h, property_key p.1 ++ h) (valueToHTML p.2 (S level)))
           ps (length ps))
  end.

Definition jsonToHTML (v : json) : result jsstr jsstr :=
  rmap (λ h, js "<div " ++ attribute "class" (js "jsonview") ++ js ">" ++ h ++ js "</div>")
    (valueToHTML v 0).
End Values.

(** ** The collapser *)
Record mark := mkMark {
  plus : bool;           (* innerHTML of the button is + *)
  hidden : bool;         (* style.display of the list is none *)
  ellipses : nat;
}.

(** A foldable list in its [li], which is [named] when it is the value of a
    property: the name, a link with a quotation mark on either side, is then what
    stands first in it. *)
Inductive item := Item (named : bool) (m : mark) (children : list item).

(** [expand]; [None] when there is no ellipsis to remove. *)
Definition expand (m : mark) : option mark :=
  if negb (hidden m) then Some m
  else match ellipses m with
       | O => None
       | S n => Some (mkMark false false n)
       end.

Definition collapse (m : mark) : option mark :=
  if hidden m then Some m else Some (mkMark true true (S (ellipses m))).

Inductive view_method := Collapse | Expand | Toggle.

Definition toggle (m : mark) : option mark := if hidden m then expand m else collapse m.

(** [JSONView[method]]. *)
Definition apply_method (me : view_method) (m : mark) : option mark :=
  match me with
  | Collapse => if plus m then Some m else collapse m
  | Expand => if plus m then expand m else Some m
  | Toggle => toggle m
  end.

(** Doing something to every button below, [depth] being the level of the list. *)
Fixpoint on_marks (f : nat -> mark -> option mark) (depth : nat) (it : item) : option item :=
  match it with
  | Item n m its =>
      m' ← f depth m;
      its' ← mapM (on_marks f (S depth)) its;
      Some (Item n m' its')
  end.

(** What is clicked in an item: its button, the link that is its name, or one of
    the quotation marks in the link. *)
Inductive clicked := Button | Name | NameQuote.

(** The element the two listeners of [bindEvent] give to [toggle].  The one on the
    first child of the item takes the first child of the parent of what was
    clicked: for the link this is the button, which has been put before it, for a
    quotation mark it is a quotation mark.  Without a name the first child is text,
    and nothing in it can be clicked. *)
Inductive toggled := TheCollapser | AQuote.

Definition listener (named : bool) (at_ : clicked) : option toggled :=
  match at_ with
  | Button => Some TheCollapser
  | Name => if named then Some TheCollapser else None
  | NameQuote => if named then Some AQuote else None
  end.

(** A click in an item, [Collapser.toggle].  A link holds no foldable list: the
    [collapseTarget] of a quotation mark is undefined, and reading its style throws
    before anything is done. *)
Definition click_item (recursive : bool) (at_ : clicked) (it : item) : option item :=
  match it with
  | Item n m its =>
      match listener n at_ with
      | None => Some it
      | Some AQuote => None
      | Some TheCollapser =>
          if recursive
          then let action := if hidden m then expand else collapse in
               on_marks (λ _, action) 0 it
          else m' ← toggle m; Some (Item n m' its)
      end
  end.

Fixpoint click (recursive : bool) (at_ : clicked) (path : list nat) (its : list item)
    : option (list item) :=
  match path with
  | [] => Some its
  | i :: path' =>
      match its !! i with
      | None => Some its
      | Some (Item n m sub) =>
          it' ← match path' with
                | [] => click_item recursive at_ (Item n m sub)
                | _ => sub' ← click recursive at_ path' sub; Some (Item n m sub')
                end;
          Some (<[i := it']> its)
      end
  end.

Inductive command :=
  | Click (at_ : clicked) (path : list nat)
  | Method (me : view_method) (level : option nat).

Definition run_command (o : view_options) (cmd : command) (its : list item) : option (list item) :=
  match cmd with
  | Click at_ path => click (o_recursive_collapser o) at_ path its
  | Method me level =>
      mapM (on_marks (λ d m, match level with
                             | Some l => if (d =? l)%nat then apply_method me m else Some m
                             | None => apply_method me m
                             end) 1) its
  end.

(** Calls one after the other, and whether each has returned.  One that throws
    leaves the items as they were: only a click on a quotation mark ever does
    ([JsonViewFacts.collapser_refines]), and it throws first of all. *)
Fixpoint run_commands (o : view_options) (cmds : list command) (its : list item)
    : list bool * list item :=
  match cmds with
  | [] => ([], its)
  | cmd :: cmds' =>
      let its' := run_command o cmd its in
      let '(rs, w) := run_commands o cmds' (default its its') in
      (match its' with Some _ => true | None => false end :: rs, w)
  end.

(** The foldable lists inside a value, and [bindEvent] for each. *)
Definition bindEvent (o : view_options) : mark :=
  let m := mkMark (o_collapsed o) false 0 in
  if o_collapsed o then default m (collapse m) else m.

Fixpoint items_of (o : view_options) (v : json) : list item :=
  let one named x := match x with
               | JArr (_ :: _) | JObj (_ :: _) => [Item named (bindEvent o) (items_of o x)]
               | _ => []
               end in
  match v with
  | JArr l => concat (map (one false) l)
  | JObj ps => concat (map (λ p, one true p.2) ps)
  | _ => []
  end.
