(* ===== verification/JsonViewFacts.v ===== *)
(** * The HTML of the JSON viewer and its buttons

    [tokens] reads HTML as a browser does (tags, quoted attributes, the entities
    the viewer writes); what it reads from the formatter's output is exactly the
    JSON text of the value, inside well-nested elements.  The buttons keep their
    sign, the visibility of the list and its ellipsis together. *)

From stdpp Require Import base tactics strings numbers list.
From Stdlib Require Import ZArith Lia.
From S2P Require Import Prelude Regex RegexSteps Json JsonView.
Local Open Scope Z_scope.
Local Open Scope st_scope.

(** ** Escaping *)
Definition subst_char (a : Z) (t : jsstr) (s : jsstr) : jsstr :=
  concat (map (λ c, if c =? a then t else [c]) s).

Lemma replace_char a t s : replace_all false (Char a) (λ _, t) s = subst_char a t s.
Proof.
  unfold replace_all. generalize (@None Z) as prev.
  assert (forall fuel prev, (length s < fuel)%nat ->
            replace_loop false fuel (Char a) (λ _, t) prev s = subst_char a t s) as H;
    [|intros prev; apply H; lia].
  induction s as [|c s IH]; intros fuel prev Hf; (destruct fuel as [|fuel]; [cbn in Hf; lia|]).
  - cbn. done.
  - cbn [replace_loop]. unfold match_here. destruct (Z.eq_dec c a) as [->|Hc].
    + rewrite m_Char. cbn [ms_rest ms_prev]. cbn [length].
      replace ((S (length s) - length s =? 0)%nat) with false
        by (symmetry; apply Nat.eqb_neq; lia).
      rewrite IH by (cbn in Hf; lia). unfold subst_char. cbn. by rewrite Z.eqb_refl.
    + rewrite m_Char_no by done. rewrite IH by (cbn in Hf; lia). unfold subst_char. cbn.
      by rewrite (proj2 (Z.eqb_neq c a) Hc).
Qed.

Definition encode_char (c : Z) : jsstr :=
  if c =? 38 then [38; 97; 109; 112; 59]              (* &amp; *)
  else if c =? 34 then [38; 113; 117; 111; 116; 59]   (* &quot; *)
  else if c =? 60 then [38; 108; 116; 59]             (* &lt; *)
  else if c =? 62 then [38; 103; 116; 59]             (* &gt; *)
  else [c].

Lemma subst_app a t s r : subst_char a t (s ++ r) = subst_char a t s ++ subst_char a t r.
Proof. unfold subst_char. by rewrite map_app, concat_app. Qed.

Lemma htmlEncode_spec s : htmlEncode s = concat (map encode_char s).
Proof.
  unfold htmlEncode.
  change (regex "&") with (Char 38). change (regex "<") with (Char 60).
  change (regex ">") with (Char 62). rewrite !replace_char.
  induction s as [|c s IH]; [done|]. cbn [map concat]. rewrite <- IH.
  change (subst_char 38 (js "&amp;") (c :: s))
    with ((if c =? 38 then js "&amp;" else [c]) ++ subst_char 38 (js "&amp;") s).
  rewrite !subst_app. f_equal. unfold encode_char.
  destruct (c =? 38) eqn:E1; [done|]. cbn. rewrite ?app_nil_r.
  destruct (c =? 34) eqn:E2; [done|]. cbn. destruct (c =? 60) eqn:E3; [done|]. cbn.
  by destruct (c =? 62).
Qed.

(** ** Reading HTML *)
Inductive token := Tag (name : jsstr) | Ch (c : Z).

Inductive html_state :=
  | InText
  | InEntity (acc : jsstr)
  | InTag (name : jsstr) (naming : bool)
  | InQuoted (name : jsstr).

Definition entity (name : jsstr) : jsstr :=
  if jseqb name (js "amp") then [38] else if jseqb name (js "quot") then [34]
  else if jseqb name (js "lt") then [60] else if jseqb name (js "gt") then [62]
  else 38 :: name ++ [59].

Fixpoint tokens (st : html_state) (s : jsstr) : list token :=
  match s with
  | [] => []
  | c :: s' =>
      match st with
      | InText =>
          if c =? 60 then tokens (InTag [] true) s'
          else if c =? 38 then tokens (InEntity []) s'
          else Ch c :: tokens InText s'
      | InEntity acc =>
          if c =? 59 then map Ch (entity acc) ++ tokens InText s'
          else tokens (InEntity (acc ++ [c])) s'
      | InTag name naming =>
          if c =? 62 then Tag name :: tokens InText s'
          else if c =? 34 then tokens (InQuoted name) s'
          else if c =? 32 then tokens (InTag name false) s'
          else tokens (InTag (if naming then name ++ [c] else name) naming) s'
      | InQuoted name =>
          if c =? 34 then tokens (InTag name false) s' else tokens (InQuoted name) s'
      end
  end.

(** The characters a reader sees. *)
Definition text_of (s : jsstr) : jsstr :=
  omap (λ t, match t with Ch c => Some c | Tag _ => None end) (tokens InText s).

(** Every element opened is closed, in order. *)
Fixpoint nested (stack : list jsstr) (ts : list token) : bool :=
  match ts with
  | [] => match stack with [] => true | _ => false end
  | Ch _ :: ts' => nested stack ts'
  | Tag (47 :: name) :: ts' =>
      match stack with
      | top :: stack' => jseqb top name && nested stack' ts'
      | [] => false
      end
  | Tag name :: ts' => nested (name :: stack) ts'
  end.

Lemma tokens_encode s r : tokens InText (htmlEncode s ++ r) = map Ch s ++ tokens InText r.
Proof.
  rewrite htmlEncode_spec. induction s as [|c s IH]; [done|]. cbn [map concat].
  rewrite <- app_assoc. unfold encode_char at 1.
  destruct (Z.eqb_spec c 38) as [->|H1]; [cbn; f_equal; apply IH|].
  destruct (Z.eqb_spec c 34) as [->|H2]; [cbn; f_equal; apply IH|].
  destruct (Z.eqb_spec c 60) as [->|H3]; [cbn; f_equal; apply IH|].
  destruct (Z.eqb_spec c 62) as [->|H4]; [cbn; f_equal; apply IH|].
  cbn. rewrite (proj2 (Z.eqb_neq c 60) H3), (proj2 (Z.eqb_neq c 38) H1). f_equal. apply IH.
Qed.

(** Nothing encoded ends a quoted attribute. *)
Lemma quoted_encode n s r :
  tokens (InQuoted n) (htmlEncode s ++ r) = tokens (InQuoted n) r.
Proof.
  rewrite htmlEncode_spec. induction s as [|c s IH]; [done|]. cbn [map concat].
  rewrite <- app_assoc. unfold encode_char at 1.
  destruct (Z.eqb_spec c 38) as [->|H1]; [cbn; apply IH|].
  destruct (Z.eqb_spec c 34) as [->|H2]; [cbn; apply IH|].
  destruct (Z.eqb_spec c 60) as [->|H3]; [cbn; apply IH|].
  destruct (Z.eqb_spec c 62) as [->|H4]; [cbn; apply IH|].
  cbn. rewrite (proj2 (Z.eqb_neq c 34) H2). apply IH.
Qed.

(** ** The text of a value *)
Fixpoint shown (v : json) : jsstr :=
  match v with
  | JNull => js "null"
  | JBool b => js (if b then "true" else "false")
  | JNum z => dec z
  | JStr s => quote s
  | JArr [] => js "[ ]"
  | JArr l => js "[" ++ join (js ",") (map shown l) ++ js "]"
  | JObj [] => js "{ }"
  | JObj ps => js "{" ++ join (js ",") (map (λ p, quote p.1 ++ js ": " ++ shown p.2) ps) ++ js "}"
  end.

Definition chars (ts : list token) : jsstr :=
  omap (λ t, match t with Ch c => Some c | Tag _ => None end) ts.

(** A piece of HTML that shows [txt] in well-nested elements. *)
Definition reads (h txt : jsstr) : Prop :=
  exists ts, (forall r, tokens InText (h ++ r) = ts ++ tokens InText r)
             /\ chars ts = txt /\ forall st r, nested st (ts ++ r) = nested st r.

Lemma reads_nil : reads [] [].
Proof. by exists []. Qed.

Lemma reads_app h1 t1 h2 t2 : reads h1 t1 -> reads h2 t2 -> reads (h1 ++ h2) (t1 ++ t2).
Proof.
  intros (ts1 & H1 & E1 & N1) (ts2 & H2 & E2 & N2). exists (ts1 ++ ts2). split_and!.
  - intros r. by rewrite <- app_assoc, H1, H2, app_assoc.
  - unfold chars in *. by rewrite omap_app, E1, E2.
  - intros st r. by rewrite <- app_assoc, N1, N2.
Qed.

Lemma chars_map s : chars (map Ch s) = s.
Proof. induction s as [|c s IH]; [done|]. unfold chars in *. cbn. by rewrite IH. Qed.

Lemma nested_map st s r : nested st (map Ch s ++ r) = nested st r.
Proof. by induction s. Qed.

Lemma reads_encode s : reads (htmlEncode s) s.
Proof.
  exists (map Ch s). split_and!; [intros r; apply tokens_encode|apply chars_map|].
  intros; apply nested_map.
Qed.

(** Characters that mean nothing to HTML. *)
Definition plain_char (c : Z) : bool := negb ((c =? 60) || (c =? 38)).

Lemma reads_plain s : forallb plain_char s = true -> reads s s.
Proof.
  intros H. exists (map Ch s). split_and!; [|apply chars_map|intros; apply nested_map].
  intros r. induction s as [|c s IH]; [done|]. cbn in H. apply andb_true_iff in H as [Hc H].
  apply negb_true_iff, orb_false_iff in Hc as [H1 H2]. cbn. rewrite H1, H2. f_equal. by apply IH.
Qed.

(** A quoted value that stays inside its quotation marks. *)
Definition safe (v : jsstr) : Prop :=
  forall n r, tokens (InQuoted n) (v ++ r) = tokens (InQuoted n) r.

Lemma safe_chars v : forallb (λ c, negb (c =? 34)) v = true -> safe v.
Proof.
  intros H n r. induction v as [|c v IH]; [done|]. cbn in H. apply andb_true_iff in H as [Hc H].
  apply negb_true_iff in Hc. cbn. rewrite Hc. by apply IH.
Qed.

Lemma safe_app a b : safe a -> safe b -> safe (a ++ b).
Proof. intros Ha Hb n r. by rewrite <- app_assoc, Ha, Hb. Qed.

Lemma safe_encode s : safe (htmlEncode s).
Proof. intros n r. apply quoted_encode. Qed.

(** An element around what is read. *)
Lemma reads_element op cl name h txt :
  (forall r, tokens InText (op ++ r) = Tag name :: tokens InText r) ->
  (forall r, tokens InText (cl ++ r) = Tag (47 :: name) :: tokens InText r) ->
  (forall st r, nested st (Tag name :: r) = nested (name :: st) r) ->
  reads h txt -> reads (op ++ h ++ cl) txt.
Proof.
  intros Ho Hc Hn (ts & H & E & N). exists (Tag name :: ts ++ [Tag (47 :: name)]). split_and!.
  - intros r. rewrite <- !app_assoc, Ho, H, Hc. cbn [app]. by rewrite <- app_assoc.
  - unfold chars in *. cbn. by rewrite omap_app, E, app_nil_r.
  - intros st r. change ((Tag name :: ts ++ [Tag (47 :: name)]) ++ r)
      with (Tag name :: (ts ++ [Tag (47 :: name)]) ++ r).
    rewrite Hn, <- app_assoc, N. cbn. unfold jseqb. by rewrite bool_decide_true.
Qed.

(** An opening tag with one attribute. *)
Lemma open_tag tag attr v r :
  forallb (λ c, negb ((c =? 62) || (c =? 34) || (c =? 32))) tag = true ->
  forallb (λ c, negb ((c =? 62) || (c =? 34) || (c =? 32))) attr = true -> safe v ->
  tokens InText (60 :: tag ++ 32 :: attr ++ [61; 34] ++ v ++ [34; 62] ++ r)
  = Tag tag :: tokens InText r.
Proof.
  intros Ht Ha Hv.
  assert (forall acc s, tokens (InTag acc true) (tag ++ s) = tokens (InTag (acc ++ tag) true) s) as H1.
  { clear Ha Hv. induction tag as [|c l IH]; intros acc s; [by rewrite app_nil_r|].
    cbn in Ht. apply andb_true_iff in Ht as [Hc Ht].
    apply negb_true_iff in Hc. rewrite !orb_false_iff in Hc. destruct Hc as [[E1 E2] E3].
    cbn. rewrite E1, E2, E3, (IH Ht). by rewrite <- app_assoc. }
  assert (forall n s, tokens (InTag n false) (attr ++ s) = tokens (InTag n false) s) as H2.
  { clear Ht Hv H1. induction attr as [|c l IH]; intros n s; [done|].
    cbn in Ha. apply andb_true_iff in Ha as [Hc Ha].
    apply negb_true_iff in Hc. rewrite !orb_false_iff in Hc. destruct Hc as [[E1 E2] E3].
    cbn. rewrite E1, E2, E3. by apply IH. }
  cbn [tokens Z.eqb]. change (60 =? 60) with true. cbn match. rewrite H1. cbn [app].
  cbn [tokens]. change (32 =? 62) with false. change (32 =? 34) with false.
  change (32 =? 32) with true. cbn match. rewrite H2. cbn. rewrite Hv. done.
Qed.

Definition name_char (c : Z) : bool := negb ((c =? 62) || (c =? 34) || (c =? 32)).

Lemma close_tag tag r : forallb name_char tag = true ->
  tokens InText (60 :: 47 :: tag ++ 62 :: r) = Tag (47 :: tag) :: tokens InText r.
Proof.
  intros Ht. cbn.
  assert (forall acc s, tokens (InTag acc true) (tag ++ s) = tokens (InTag (acc ++ tag) true) s) as H.
  { induction tag as [|c l IH]; intros acc s; [by rewrite app_nil_r|].
    cbn in Ht. apply andb_true_iff in Ht as [Hc Ht]. unfold name_char in Hc.
    apply negb_true_iff in Hc. rewrite !orb_false_iff in Hc. destruct Hc as [[E1 E2] E3].
    cbn. rewrite E1, E2, E3, (IH Ht). by rewrite <- app_assoc. }
  rewrite H. done.
Qed.

Lemma reads_elt (tag attr op cl v h txt : jsstr) :
  op = 60 :: tag ++ [32] -> cl = 60 :: 47 :: tag ++ [62] ->
  forallb name_char tag = true -> head tag <> Some 47 -> forallb name_char attr = true -> safe v ->
  reads h txt -> reads (op ++ (attr ++ [61; 34] ++ v ++ [34]) ++ [62] ++ h ++ cl) txt.
Proof.
  intros -> -> Ht Hh Ha Hv Hr.
  replace ((60 :: tag ++ [32]) ++ (attr ++ [61; 34] ++ v ++ [34]) ++ [62] ++ h ++ 60 :: 47 :: tag ++ [62])
    with ((60 :: tag ++ 32 :: attr ++ [61; 34] ++ v ++ [34; 62]) ++ h ++ 60 :: 47 :: tag ++ [62])
    by (repeat (rewrite <- app_assoc || cbn [app]); done).
  apply (reads_element _ _ tag); [| | |done].
  - intros r. rewrite <- (open_tag tag attr v r Ht Ha Hv). f_equal.
    by repeat (rewrite <- app_assoc || cbn [app]).
  - intros r. rewrite <- (close_tag tag r Ht). f_equal.
    by repeat (rewrite <- app_assoc || cbn [app]).
  - intros st r. cbn. destruct tag as [|c tag]; [done|].
    destruct (Z.eq_dec c 47) as [->|Hc]; [done|].
    destruct c as [|p|p]; try done. by repeat (destruct p as [p|p|]; try done).
Qed.

Ltac elt t a :=
  refine (reads_elt (js t) (js a) _ _ _ _ _ eq_refl eq_refl eq_refl _ eq_refl _ _);
  [by vm_compute|try (by apply safe_chars)|].

Lemma reads_span cls value : safe (js cls) -> reads (decorateWithSpan value cls) value.
Proof. intros H. elt "span" "class". { done. } apply reads_encode. Qed.

(** The text between the quotation marks. *)
Lemma slice_quote s : slice (quote s) 1 (-1) = concat (map quote_char s).
Proof.
  unfold slice, quote, slice_index. set (x := concat _). cbn [length].
  rewrite length_app. cbn [length]. rewrite (Z.min_l 1) by lia.
  change (1 <? 0) with false. change (-1 <? 0) with true. cbn match.
  replace (Z.to_nat (Z.max 0 (Z.of_nat (S (length x + 1)) + -1)) - Z.to_nat 1)%nat
    with (length x) by lia.
  change (drop (Z.to_nat 1) (34 :: x ++ [34])) with (x ++ [34]). by rewrite take_app_length.
Qed.

Lemma reads_jsString s : reads (jsString s) (concat (map quote_char s)).
Proof. unfold jsString. rewrite slice_quote. apply reads_encode. Qed.

(** A quoted text, the marks being read from any two pieces of HTML. *)
Lemma reads_quoted q s : reads q [34] -> reads (q ++ jsString s ++ q) (quote s).
Proof.
  intros Hq. change (quote s) with ([34] ++ concat (map quote_char s) ++ [34]).
  apply reads_app; [done|]. apply reads_app; [apply reads_jsString|done].
Qed.

Lemma reads_mark : reads [34] [34].
Proof. by apply reads_plain. Qed.

Lemma reads_shown_quote : reads shown_quote [34].
Proof. unfold shown_quote. elt "span" "class". apply reads_mark. Qed.

Lemma reads_string o s : o_nl2br o = false -> reads (stringToHTML o s) (quote s).
Proof.
  intros Ho. unfold stringToHTML. destruct (is_link s).
  - replace (shown_quote ++ jsString s ++ shown_quote ++ js "</a>")
      with ((shown_quote ++ jsString s ++ shown_quote) ++ js "</a>") by (by rewrite <- !app_assoc).
    elt "a" "href"; [apply safe_encode|]. apply reads_quoted, reads_shown_quote.
  - rewrite Ho. cbn [andb].
    replace ([34] ++ jsString s ++ [34] ++ js "</span>")
      with (([34] ++ jsString s ++ [34]) ++ js "</span>") by (by rewrite <- !app_assoc).
    elt "span" "class". apply reads_quoted, reads_mark.
Qed.

(** A name and the colon after it. *)
Lemma reads_property p : reads (property_link (jsString p)) (quote p ++ js ": ").
Proof.
  set (op := js "<a " ++ attribute "class" (js "prop") ++ js " "
             ++ attribute "href" (js "javascript:;") ++ js ">").
  replace (property_link (jsString p))
    with ((op ++ (shown_quote ++ jsString p ++ shown_quote) ++ js "</a>") ++ js ": ").
  - apply reads_app; [|by apply reads_plain].
    apply (reads_element _ _ (js "a")); [by intros|by intros|by intros|].
    apply reads_quoted, reads_shown_quote.
  - unfold op, property_link. change (js "</a>: ") with (js "</a>" ++ js ": ").
    by repeat rewrite <- app_assoc.
Qed.

(** ** Lists *)
Lemma safe_list_class kind level : forallb (λ c, negb (c =? 34)) (js kind) = true ->
  safe (list_class kind level).
Proof.
  intros Hk. unfold list_class. apply safe_app; [by apply safe_chars|].
  apply safe_app; [by apply safe_chars|]. apply safe_app.
  - apply safe_chars. destruct (dec_digits (Z.of_nat level) ltac:(lia)) as [_ H].
    induction H as [|c l Hc Hl IH]; [done|]. cbn. rewrite IH, andb_true_r.
    unfold is_digit in Hc. zbool. apply negb_true_iff, Z.eqb_neq. lia.
  - by destruct (level =? 0)%nat; apply safe_chars.
Qed.

Lemma reads_item h txt more : reads h txt ->
  reads (list_item h more) (txt ++ if more then js "," else []).
Proof.
  intros H. unfold list_item.
  replace (js "<li>" ++ h ++ (if more then js "," else []) ++ js "</li>")
    with (js "<li>" ++ (h ++ if more then js "," else []) ++ js "</li>")
    by (by rewrite <- !app_assoc).
  apply (reads_element _ _ (js "li")); [by intros|by intros|by intros|].
  apply reads_app; [done|]. destruct more; [by apply reads_plain|apply reads_nil].
Qed.

Lemma reads_list {A} (body : A -> result jsstr jsstr) (txt : A -> jsstr) l :
  Forall (λ x, exists h, body x = Ret h /\ reads h (txt x)) l ->
  exists h, list_items body l (length l) = Ret h /\ reads h (join (js ",") (map txt l)).
Proof.
  induction 1 as [|x l (h & E & H) Hl (h' & E' & H')]; cbn [list_items length].
  - exists []. split; [done|apply reads_nil].
  - rewrite E. cbn [rbind]. cbn [pred]. rewrite E'. cbn [rbind]. eexists. split; [done|].
    replace (join (js ",") (map txt (x :: l)))
      with ((txt x ++ if (1 <? S (length l))%nat then js "," else []) ++ join (js ",") (map txt l)).
    + by apply reads_app; [apply reads_item|].
    + destruct l as [|y l]; cbn; [by rewrite !app_nil_r|by rewrite <- !app_assoc].
Qed.

Lemma reads_wrapped kind op cl level h txt : forallb (λ c, negb (c =? 34)) (js kind) = true ->
  forallb plain_char (js op) = true -> forallb plain_char (js cl) = true -> reads h txt ->
  reads (wrap_list kind op cl level h) (js op ++ txt ++ js cl).
Proof.
  intros Hk Ho Hc Hr. unfold wrap_list. apply reads_app; [by apply reads_plain|].
  replace (js "<ul " ++ attribute "class" (list_class kind level) ++ js ">" ++ h ++ js "</ul>" ++ js cl)
    with ((js "<ul " ++ attribute "class" (list_class kind level) ++ js ">" ++ h ++ js "</ul>") ++ js cl)
    by (by rewrite <- !app_assoc).
  apply reads_app; [|by apply reads_plain]. elt "ul" "class"; [by apply safe_list_class|done].
Qed.

(** Escaping names and not turning line breaks into elements. *)
Definition faithful (o : view_options) : Prop :=
  o_escape o = true /\ o_nl2br o = false /\ o_strict o = false.

Lemma reads_value o v : faithful o -> forall level,
  exists h, valueToHTML o v level = Ret h /\ reads h (shown v).
Proof.
  intros (He & Hn & Hs).
  assert (forall w, strict_error o w = false) as Hse by (intros w; unfold strict_error; by rewrite Hs).
  induction v as [|b|z|s|l IH|ps IH] using json_induction; intros level;
    cbn [valueToHTML]; rewrite Hse.
  - eexists. split; [done|]. apply reads_span. by apply safe_chars.
  - eexists. split; [done|]. apply reads_span. by apply safe_chars.
  - eexists. split; [done|]. apply reads_span. by apply safe_chars.
  - eexists. split; [done|]. by apply reads_string.
  - destruct l as [|x l]; [eexists; split; [done|by apply reads_plain]|].
    destruct (reads_list (λ x, valueToHTML o x (S level)) shown (x :: l)) as (h & E & H).
    { eapply Forall_impl; [exact IH|]. intros y Hy. apply Hy. }
    rewrite E. cbn [rmap]. eexists. split; [done|]. by apply reads_wrapped.
  - destruct ps as [|p ps]; [eexists; split; [done|by apply reads_plain]|].
    destruct (reads_list (λ p, rmap (λ h, property_key o p.1 ++ h) (valueToHTML o p.2 (S level)))
                (λ p, quote p.1 ++ js ": " ++ shown p.2) (p :: ps)) as (h & E & H).
    { eapply Forall_impl; [exact IH|]. intros q Hq. destruct (Hq (S level)) as (h & E & H).
      cbn beta. rewrite E. eexists. split; [done|]. unfold property_key. rewrite He, app_assoc.
      apply reads_app; [apply reads_property|done]. }
    rewrite E. cbn [rmap]. eexists. split; [done|]. by apply reads_wrapped.
Qed.

(** ** The text is the JSON text of the value *)

(** Dropping the spaces outside strings. *)
Fixpoint compact (in_string escaped : bool) (s : jsstr) : jsstr :=
  match s with
  | [] => []
  | c :: s' =>
      if in_string then
        c :: (if escaped then compact true false s'
              else if c =? 92 then compact true true s'
              else compact (negb (c =? 34)) false s')
      else if c =? 32 then compact false false s'
      else c :: compact (c =? 34) false s'
  end.

Lemma digit_char_plain d : 0 <= d < 16 ->
  (digit_char d =? 34) = false /\ (digit_char d =? 92) = false /\ (digit_char d =? 32) = false.
Proof. intros H. unfold digit_char. destruct (d <? 10) eqn:E; zbool; split_and!; apply Z.eqb_neq; lia. Qed.

Lemma compact_hex d r : 0 <= d < 16 ->
  compact true false (digit_char d :: r) = digit_char d :: compact true false r.
Proof. intros H. destruct (digit_char_plain d H) as (E1 & E2 & _). cbn. by rewrite E1, E2. Qed.

Lemma compact_quote_char c r :
  compact true false (quote_char c ++ r) = quote_char c ++ compact true false r.
Proof.
  unfold quote_char.
  destruct (Z.eqb_spec c 34) as [|H1]; [done|]. destruct (Z.eqb_spec c 92) as [|H2]; [done|].
  destruct (c =? 8); [done|]. destruct (c =? 9); [done|]. destruct (c =? 10); [done|].
  destruct (c =? 12); [done|]. destruct (c =? 13); [done|]. destruct (c <? 32).
  - change (js "\u") with [92; 117]. unfold hex4. cbn [map app].
    assert (forall s, compact true false (92 :: 117 :: s) = 92 :: 117 :: compact true false s)
      as -> by done.
    by rewrite !compact_hex by (apply Z.mod_pos_bound; lia).
  - cbn. by rewrite (proj2 (Z.eqb_neq c 34) H1), (proj2 (Z.eqb_neq c 92) H2).
Qed.

Lemma compact_quote s r : compact false false (quote s ++ r) = quote s ++ compact false false r.
Proof.
  unfold quote. change ((34 :: concat (map quote_char s) ++ [34]) ++ r)
    with (34 :: (concat (map quote_char s) ++ [34]) ++ r). cbn [compact].
  change (34 =? 32) with false. change (34 =? 34) with true. cbn match.
  change ((34 :: concat (map quote_char s) ++ [34]) ++ compact false false r)
    with (34 :: (concat (map quote_char s) ++ [34]) ++ compact false false r). f_equal.
  rewrite <- !app_assoc. induction s as [|c s IH]; [done|]. cbn [map concat].
  rewrite <- !app_assoc, compact_quote_char. by rewrite IH.
Qed.

Definition bare (c : Z) : bool := negb ((c =? 34) || (c =? 32)).

Lemma compact_bare s r : forallb bare s = true ->
  compact false false (s ++ r) = s ++ compact false false r.
Proof.
  induction s as [|c s IH]; [done|]. cbn. intros [Hc H]%andb_true_iff.
  apply negb_true_iff, orb_false_iff in Hc as [E1 E2]. rewrite E1, E2. f_equal. by apply IH.
Qed.

Lemma dec_bare z : forallb bare (dec z) = true.
Proof.
  assert (forall z, 0 <= z -> forallb bare (digits 10 (S (Z.to_nat (Z.log2 z))) z []) = true) as H.
  { intros n Hn. assert (dec n = digits 10 (S (Z.to_nat (Z.log2 n))) n []) as E.
    { unfold dec, to_base. by rewrite (proj2 (Z.ltb_ge n 0) Hn). }
    rewrite <- E. destruct (dec_digits n Hn) as [_ Hd]. clear E.
    induction Hd as [|c l Hc Hl IH]; [done|]. cbn. rewrite IH, andb_true_r. unfold is_digit in Hc.
    zbool. unfold bare. apply negb_true_iff, orb_false_iff. split; apply Z.eqb_neq; lia.
  }
  unfold dec, to_base. destruct (z <? 0) eqn:E; zbool; [cbn [forallb]|]; rewrite H by lia; done.
Qed.

Lemma compact_join {A} (f g : A -> jsstr) l r :
  Forall (λ x, forall r, compact false false (f x ++ r) = g x ++ compact false false r) l ->
  compact false false (join (js ",") (map f l) ++ r)
  = join (js ",") (map g l) ++ compact false false r.
Proof.
  intros H. induction H as [|x l Hx Hl IH]; [done|]. cbn. destruct l as [|y l]; [apply Hx|].
  cbn [map] in *. rewrite <- !app_assoc, Hx. f_equal.
  change (js ",") with [44]. cbn [app compact]. cbn. f_equal. exact IH.
Qed.

Lemma compact_shown v r : compact false false (shown v ++ r) = stringify v ++ compact false false r.
Proof.
  revert r. induction v as [|b|z|s|l IH|ps IH] using json_induction; intros r.
  - by apply compact_bare.
  - by destruct b; apply compact_bare.
  - apply compact_bare, dec_bare.
  - apply compact_quote.
  - destruct l as [|x l]; [done|]. cbn [shown stringify]. set (xs := x :: l) in *.
    rewrite <- !app_assoc. rewrite (compact_bare (js "[")) by done. f_equal.
    rewrite (compact_join shown stringify) by exact IH. by rewrite compact_bare.
  - destruct ps as [|p ps]; [done|]. cbn [shown stringify]. set (xs := p :: ps) in *.
    rewrite <- !app_assoc. rewrite (compact_bare (js "{")) by done. f_equal.
    rewrite (compact_join _ (λ p, quote p.1 ++ js ":" ++ stringify p.2)); [by rewrite compact_bare|].
    eapply Forall_impl; [exact IH|]. intros q Hq s. cbn beta. rewrite <- !app_assoc, compact_quote.
    f_equal. change (js ": ") with [58; 32]. change (js ":") with [58]. cbn. f_equal. apply Hq.
Qed.

(** C34: What a browser shows of a formatted value is exactly the JSON text of the
    value, apart from spaces between its tokens, and the HTML around it is well
    nested: no string or property name of the value can end an attribute, open or
    close an element, or be changed by an entity. *)
Theorem json_view_text o v : faithful o ->
  exists h, jsonToHTML o v = Ret h
  /\ compact false false (text_of h) = stringify v
  /\ nested [] (tokens InText h) = true.
Proof.
  intros Ho. destruct (reads_value o v Ho 0) as (h & E & H). unfold jsonToHTML. rewrite E. cbn [rmap].
  eexists. split; [done|].
  assert (reads (js "<div " ++ attribute "class" (js "jsonview") ++ js ">" ++ h ++ js "</div>")
            (shown v)) as (ts & Ht & Ec & Hn) by (elt "div" "class"; exact H).
  specialize (Ht []). rewrite !app_nil_r in Ht. unfold text_of. rewrite Ht.
  split.
  - unfold chars in Ec. rewrite Ec. rewrite <- (app_nil_r (shown v)), compact_shown. apply app_nil_r.
  - specialize (Hn [] []). rewrite app_nil_r in Hn. by rewrite Hn.
Qed.

Lemma json_view_text_witness :
  let v := JObj [(js "<b>", JStr [60; 34; 38; 62]); (js "n", JArr [JNum (-1); JObj []; JNull])] in
  exists h, jsonToHTML defaultOptions v = Ret h
  /\ compact false false (text_of h) = stringify v /\ nested [] (tokens InText h) = true.
Proof. intros v. apply (json_view_text defaultOptions v). by vm_compute. Defined.

(** ** Strict formatting *)
Fixpoint no_object (v : json) : bool :=
  match v with
  | JObj _ => false
  | JArr l => forallb no_object l
  | _ => true
  end.

Lemma list_items_ret {A} (body : A -> result jsstr jsstr) l n :
  (exists h, list_items body l n = Ret h) <-> Forall (λ x, exists h, body x = Ret h) l.
Proof.
  revert n. induction l as [|x l IH]; intros n; cbn [list_items].
  - split; [constructor|by exists []].
  - rewrite Forall_cons, <- (IH (pred n)). destruct (body x) as [h|e]; cbn [rbind].
    + destruct (list_items body l (pred n)) as [r|e]; cbn [rbind]; split; try done.
      * intros _. split; eauto.
      * eauto.
      * by intros [? ?].
      * by intros [_ [? ?]].
    + split; [by intros [? ?]|by intros [[? ?] _]].
Qed.

(** With [strict] the formatter refuses exactly the values that contain an
    object: the index 0 of [object] among the types is taken for its absence. *)
Lemma strict_rejects_objects o v level : o_strict o = true ->
  (exists h, valueToHTML o v level = Ret h) <-> no_object v = true.
Proof.
  intros Ho. revert level. induction v as [|b|z|s|l IH|ps IH] using json_induction; intros level;
    cbn [valueToHTML no_object]; unfold strict_error; rewrite Ho.
  1-4: split; [done|eauto].
  - change (true && (inArray (valueType (JArr l)) JSON_VALUE_TYPES 0 =? 0)) with false. cbn match.
    destruct l as [|x l]; [split; [done|eauto]|]. set (xs := x :: l) in *.
    transitivity (exists h, list_items (λ x, valueToHTML o x (S level)) xs (length xs) = Ret h).
    { destruct (list_items _ _ _); cbn; split; intros [? ?]; eauto; done. }
    rewrite list_items_ret, forallb_forall, Forall_forall. rewrite Forall_forall in IH.
    split; intros H y Hy.
    + apply list_elem_of_In in Hy. apply (proj1 (IH y Hy (S level))). by apply H.
    + apply (proj2 (IH y Hy (S level))), H. by apply list_elem_of_In.
  - split; [by intros [? ?]|done].
Qed.

(** ** The buttons *)

(** What a user sees of a foldable list: whether it has a name, folded or not. *)
Inductive fold_tree := Fold (named folded : bool) (children : list fold_tree).

Section FoldInduction.
Variable P : fold_tree -> Prop.
Hypothesis PFold : forall n b ts, Forall P ts -> P (Fold n b ts).

Fixpoint fold_induction (t : fold_tree) : P t :=
  match t with
  | Fold n b ts =>
      PFold n b ts ((fix all ts : Forall P ts :=
                     match ts with
                     | [] => List.Forall_nil P
                     | t :: ts' => List.Forall_cons P t ts' (fold_induction t) (all ts')
                     end) ts)
  end.
End FoldInduction.

(** The marks of an unfolded and of a folded list. *)
Definition mark_of (folded : bool) : mark :=
  mkMark folded folded (if folded then 1 else 0).

Fixpoint item_of (t : fold_tree) : item :=
  match t with Fold n b ts => Item n (mark_of b) (map item_of ts) end.

Fixpoint refold (f : nat -> bool -> bool) (depth : nat) (t : fold_tree) : fold_tree :=
  match t with Fold n b ts => Fold n (f depth b) (map (refold f (S depth)) ts) end.

(** The button turns a list over, alone or with all below it, and so does its name;
    the quotation marks of the name do nothing. *)
Definition spec_click_item (recursive : bool) (at_ : clicked) (t : fold_tree) : fold_tree :=
  match t with
  | Fold n b ts =>
      let turned := if recursive then refold (λ _ _, negb b) 0 t else Fold n (negb b) ts in
      match at_ with
      | Button => turned
      | Name => if n then turned else t
      | NameQuote => t
      end
  end.

(** There is such a quotation mark: the list has a name. *)
Fixpoint named_at (path : list nat) (ts : list fold_tree) : bool :=
  match path with
  | [] => false
  | i :: path' =>
      match ts !! i with
      | None => false
      | Some (Fold n _ sub) => match path' with [] => n | _ => named_at path' sub end
      end
  end.

Definition on_quote (cmd : command) (ts : list fold_tree) : bool :=
  match cmd with Click NameQuote path => named_at path ts | _ => false end.

Fixpoint spec_click (recursive : bool) (at_ : clicked) (path : list nat) (ts : list fold_tree)
    : list fold_tree :=
  match path with
  | [] => ts
  | i :: path' =>
      match ts !! i with
      | None => ts
      | Some (Fold n b sub) =>
          <[i := match path' with
                 | [] => spec_click_item recursive at_ (Fold n b sub)
                 | _ => Fold n b (spec_click recursive at_ path' sub)
                 end]> ts
      end
  end.

Definition spec_method (me : view_method) (b : bool) : bool :=
  match me with Collapse => true | Expand => false | Toggle => negb b end.

Definition spec_command (o : view_options) (cmd : command) (ts : list fold_tree) : list fold_tree :=
  match cmd with
  | Click at_ path => spec_click (o_recursive_collapser o) at_ path ts
  | Method me level =>
      map (refold (λ d b, match level with
                          | Some l => if (d =? l)%nat then spec_method me b else b
                          | None => spec_method me b
                          end) 1) ts
  end.

Fixpoint fold_trees (folded : bool) (v : json) : list fold_tree :=
  let one named x := match x with
               | JArr (_ :: _) | JObj (_ :: _) => [Fold named folded (fold_trees folded x)]
               | _ => []
               end in
  match v with
  | JArr l => concat (map (one false) l)
  | JObj ps => concat (map (λ p, one true p.2) ps)
  | _ => []
  end.

Lemma mapM_map {A B C} (f : B -> option C) (g : A -> B) (h : A -> C) l :
  Forall (λ x, f (g x) = Some (h x)) l -> mapM f (map g l) = Some (map h l).
Proof. induction 1 as [|x l E Hl IH]; [done|]. cbn. by rewrite E, IH. Qed.

Lemma on_marks_refold f g t : (forall d b, f d (mark_of b) = Some (mark_of (g d b))) ->
  forall d, on_marks f d (item_of t) = Some (item_of (refold g d t)).
Proof.
  intros H. induction t as [n b ts IH] using fold_induction; intros d. cbn [item_of on_marks refold].
  rewrite H. cbn [mbind option_bind].
  rewrite (mapM_map _ item_of (λ t, item_of (refold g (S d) t))).
  - cbn. by rewrite map_map.
  - eapply Forall_impl; [exact IH|]. intros t Ht. apply Ht.
Qed.

Lemma toggle_mark b : toggle (mark_of b) = Some (mark_of (negb b)).
Proof. by destruct b. Qed.

Definition quoted (n : bool) (at_ : clicked) : bool := n && match at_ with NameQuote => true | _ => false end.

Lemma click_item_spec r at_ n b ts :
  click_item r at_ (item_of (Fold n b ts))
  = if quoted n at_ then None else Some (item_of (spec_click_item r at_ (Fold n b ts))).
Proof.
  assert (click_item r Button (item_of (Fold n b ts))
    = Some (item_of (spec_click_item r Button (Fold n b ts)))) as H.
  { destruct r; [|by destruct b].
    cbn [click_item spec_click_item item_of listener].
    change (Item n (mark_of b) (map item_of ts)) with (item_of (Fold n b ts)).
    apply on_marks_refold. intros d b'. by destruct b, b'. }
  by destruct at_, n.
Qed.

Lemma click_spec r at_ path ts :
  click r at_ path (map item_of ts)
  = if on_quote (Click at_ path) ts then None else Some (map item_of (spec_click r at_ path ts)).
Proof.
  revert ts. induction path as [|i path IH]; intros ts; [by destruct at_|].
  change (on_quote (Click at_ (i :: path)) ts) with
    (match at_ with NameQuote => named_at (i :: path) ts | _ => false end).
  cbn [click spec_click named_at].
  rewrite list_lookup_fmap. destruct (ts !! i) as [[n b sub]|] eqn:E; [|by destruct at_].
  cbn [fmap option_fmap option_map]. cbn [item_of]. destruct path as [|j path].
  - change (Item n (mark_of b) (map item_of sub)) with (item_of (Fold n b sub)).
    rewrite click_item_spec. destruct at_, n; cbn [quoted andb mbind option_bind]; try done;
      f_equal; symmetry; apply list_fmap_insert.
  - rewrite IH. cbn [on_quote]. destruct at_; cbn [mbind option_bind].
    3: destruct (named_at (j :: path) sub); [done|cbn [mbind option_bind]].
    all: f_equal; symmetry; apply (list_fmap_insert item_of).
Qed.

Lemma apply_method_spec me b : apply_method me (mark_of b) = Some (mark_of (spec_method me b)).
Proof. by destruct me, b. Qed.

Lemma run_command_spec o cmd ts :
  run_command o cmd (map item_of ts)
  = if on_quote cmd ts then None else Some (map item_of (spec_command o cmd ts)).
Proof.
  destruct cmd as [at_ path|me level]; [apply click_spec|]. cbn [run_command spec_command on_quote].
  rewrite (mapM_map _ item_of (λ t, item_of (refold (λ d b, match level with
    | Some l => if (d =? l)%nat then spec_method me b else b | None => spec_method me b end) 1 t))).
  - by rewrite map_map.
  - apply Forall_forall. intros t _. apply on_marks_refold. intros d b.
    destruct level as [l|]; [destruct (d =? l)%nat; [|done]|]; apply apply_method_spec.
Qed.

(** A click on a quotation mark leaves the tree as it is. *)
Lemma spec_quote r path ts : spec_click r NameQuote path ts = ts.
Proof.
  revert ts. induction path as [|i path IH]; intros ts; [done|]. cbn [spec_click].
  destruct (ts !! i) as [[n b sub]|] eqn:E; [|done]. apply list_insert_id. rewrite E.
  destruct path; [done|]. by rewrite IH.
Qed.

Lemma spec_on_quote o cmd ts : on_quote cmd ts = true -> spec_command o cmd ts = ts.
Proof. destruct cmd as [[]|]; try done. intros _. apply spec_quote. Qed.

Lemma items_of_spec o v : items_of o v = map item_of (fold_trees (o_collapsed o) v).
Proof.
  assert (bindEvent o = mark_of (o_collapsed o)) as Hb by (unfold bindEvent; by destruct (o_collapsed o)).
  induction v as [|b|z|s|l IH|ps IH] using json_induction; try done; cbn [items_of fold_trees].
  - induction IH as [|x l Hx Hl IHl]; [done|]. cbn [map concat]. rewrite map_app, <- IHl. f_equal.
    destruct x as [| | | |[|]|[|]]; try done; cbn [map item_of]; by rewrite Hb, Hx.
  - induction IH as [|[k x] l Hx Hl IHl]; [done|]. cbn [map concat snd] in *. rewrite map_app, <- IHl. f_equal.
    destruct x as [| | | |[|]|[|]]; try done; cbn [map item_of]; by rewrite Hb, Hx.
Qed.

(** The view as the tree of flags it shows: each command with whether it returns. *)
Fixpoint spec_commands (o : view_options) (cmds : list command) (ts : list fold_tree)
    : list bool * list fold_tree :=
  match cmds with
  | [] => ([], ts)
  | cmd :: cmds' =>
      let '(rs, ts') := spec_commands o cmds' (spec_command o cmd ts) in
      (negb (on_quote cmd ts) :: rs, ts')
  end.

(** C35: whatever is clicked in a formatted value and whatever methods are called on
    it, every foldable list is in one of two states, unfolded with a minus and no
    ellipsis or folded with a plus and one ellipsis: the view is the tree of folded
    flags that the commands describe, a click on the name of a list being one on
    its button.  No command fails but a click on a quotation mark of the name of a
    list, which always throws and changes nothing. *)
Theorem collapser_refines o v cmds :
  let '(returned, ts) := spec_commands o cmds (fold_trees (o_collapsed o) v) in
  run_commands o cmds (items_of o v) = (returned, map item_of ts).
Proof.
  rewrite items_of_spec. generalize (fold_trees (o_collapsed o) v). induction cmds as [|cmd cmds IH];
    intros ts; [done|]. cbn [run_commands spec_commands]. specialize (IH (spec_command o cmd ts)).
  destruct (spec_commands o cmds (spec_command o cmd ts)) as [rs ts'].
  rewrite run_command_spec. destruct (on_quote cmd ts) eqn:E; cbn [default negb].
  - rewrite (spec_on_quote o cmd ts E) in IH. by rewrite IH.
  - unfold id. by rewrite IH.
Qed.
