(* ===== verification/Trace.v ===== *)
(** * The trace of the MQTT client
    (mqttws31.js: getTraceLog 944-955, startTrace 957-962, stopTrace 964-966,
    _trace 1469-1492, _traceMask 1495-1506, the setter of trace 1655-1661).

    The trace keeps its last hundred entries; its buffer exists between
    [startTrace] and [stopTrace].  The arguments traced are seen as the JSON
    data they print to, [None] being [undefined]. *)

From stdpp Require Import base tactics list strings numbers.
From Stdlib Require Import ZArith Lia.
From S2P Require Import Prelude Json.
Local Open Scope Z_scope.
Local Open Scope st_scope.

(** The properties of [ClientImpl] the trace uses, and the records the
    application's trace function was called with. *)
Record trace_state := mkTrace {
  traceBuffer : option (list (option json));
  traceFunction : bool;
  traced : list jsstr;
}.

Definition MAX_TRACE_ENTRIES : nat := 100.

Definition join_args (l : list (option json)) : jsstr :=
  concat (map (λ a, match a with
                    | Some (JStr s) => s
                    | Some j => stringify j
                    | None => []
                    end) l).

(** With a trace function the arguments are replaced by their texts. *)
Definition call_trace_function (arguments : list (option json)) (t : trace_state) :
    list (option json) * trace_state :=
  if traceFunction t then
    let arguments := map (fmap (λ j, JStr (stringify j))) arguments in
    (arguments, mkTrace (traceBuffer t) true (traced t ++ [join_args arguments]))
  else (arguments, t).

(** What the buffer keeps of the argument [i]. *)
Definition trace_entry (i : nat) (a : option json) : option json :=
  match i, a with
  | O, _ => a
  | _, None => None
  | _, Some j => Some (JStr (js "  " ++ stringify j))
  end.

(** [shift] when full, then [push]. *)
Definition trace_push (e : option json) (buffer : list (option json)) : list (option json) :=
  (if (length buffer =? MAX_TRACE_ENTRIES)%nat then tail buffer else buffer) ++ [e].

Fixpoint trace_loop (i : nat) (arguments : list (option json)) (buffer : list (option json)) :
    list (option json) :=
  match arguments with
  | [] => buffer
  | a :: rest => trace_loop (S i) rest (trace_push (trace_entry i a) buffer)
  end.

Definition _trace (arguments : list (option json)) (t : trace_state) : trace_state :=
  let '(arguments, t) := call_trace_function arguments t in
  match traceBuffer t with
  | Some b => mkTrace (Some (trace_loop 0 arguments b)) (traceFunction t) (traced t)
  | None => t
  end.

Definition startTrace (date version : jsstr) (t : trace_state) : trace_state :=
  let t := match traceBuffer t with
           | None => mkTrace (Some []) (traceFunction t) (traced t)
           | Some _ => t
           end in
  _trace [Some (JStr (js "Client.startTrace")); Some (JStr date); Some (JStr version)] t.

(** [delete] uncovers the [null] of the prototype. *)
Definition stopTrace (t : trace_state) : trace_state :=
  mkTrace None (traceFunction t) (traced t).

(** The messages in flight are an object, whose [length] is [undefined]. *)
Definition trace_messages (label : string) (messages : list (jsstr * json)) (t : trace_state) :
    trace_state :=
  foldl (λ t m, _trace [Some (JStr (js label)); Some (JStr m.1); Some m.2] t) t messages.

Definition getTraceLog (date : jsstr) (sentMessages receivedMessages : list (jsstr * json))
    (t : trace_state) : option (list (option json)) * trace_state :=
  match traceBuffer t with
  | None => (None, t)
  | Some _ =>
      let t := _trace [Some (JStr (js "Client.getTraceLog")); Some (JStr date)] t in
      let t := _trace [Some (JStr (js "Client.getTraceLog in flight messages")); None] t in
      let t := trace_messages "_sentMessages " sentMessages t in
      let t := trace_messages "_receivedMessages " receivedMessages t in
      (traceBuffer t, t)
  end.

(** Assigning [client.trace]: anything but a function throws ([None]). *)
Definition setTrace (isFunction : bool) (t : trace_state) : option trace_state :=
  if isFunction then Some (mkTrace (traceBuffer t) true (traced t)) else None.

(** The traced copy of an object with one property hidden. *)
Definition _traceMask (traceObject : list (jsstr * json)) (masked : jsstr) : list (jsstr * json) :=
  map (λ p, if jseqb p.1 masked then (p.1, JStr (js "******")) else p) traceObject.

(** ** The buffer keeps the latest entries *)
Definition last_n {A} (n : nat) (l : list A) : list A := drop (length l - n) l.

(** The entries a call adds. *)
Definition trace_entries (arguments : list (option json)) : list (option json) :=
  imap trace_entry arguments.

Lemma last_n_length {A} n (l : list A) : (length (last_n n l) <= n)%nat.
Proof. unfold last_n. rewrite length_drop. lia. Qed.

Lemma last_n_id {A} n (l : list A) : (length l <= n)%nat -> last_n n l = l.
Proof. intros. unfold last_n. by replace (length l - n)%nat with 0%nat by lia. Qed.

Lemma last_n_app {A} n (l1 l2 : list A) : last_n n (last_n n l1 ++ l2) = last_n n (l1 ++ l2).
Proof.
  unfold last_n. rewrite !length_app, length_drop.
  destruct (decide (length l1 <= n)%nat).
  - by replace (length l1 - n)%nat with 0%nat by lia; rewrite drop_0, Nat.sub_0_r.
  - rewrite <- drop_app_le by lia. rewrite drop_drop. f_equal. lia.
Qed.

Lemma trace_push_last b e : (length b <= MAX_TRACE_ENTRIES)%nat ->
  trace_push e b = last_n MAX_TRACE_ENTRIES (b ++ [e]).
Proof.
  intros Hb. unfold trace_push, last_n. rewrite length_app. cbn [length].
  destruct (Nat.eqb_spec (length b) MAX_TRACE_ENTRIES) as [E|E].
  - rewrite E. replace (MAX_TRACE_ENTRIES + 1 - MAX_TRACE_ENTRIES)%nat with 1%nat by lia.
    destruct b; [discriminate|done].
  - by replace (length b + 1 - MAX_TRACE_ENTRIES)%nat with 0%nat by lia.
Qed.

Lemma trace_loop_last i args b : (length b <= MAX_TRACE_ENTRIES)%nat ->
  trace_loop i args b
  = last_n MAX_TRACE_ENTRIES (b ++ imap (λ n, trace_entry (i + n)) args).
Proof.
  revert i b. induction args as [|a args IH]; intros i b Hb; cbn [trace_loop].
  - cbn. by rewrite app_nil_r, last_n_id.
  - rewrite trace_push_last by done. rewrite IH by apply last_n_length.
    rewrite last_n_app, <- app_assoc. cbn. rewrite Nat.add_0_r.
    f_equal. f_equal. f_equal. apply imap_ext. intros k x _. unfold compose. f_equal. lia.
Qed.

(** What one call of the client does to the trace. *)
Inductive trace_call :=
  | TTrace (arguments : list (option json))
  | TStart (date version : jsstr)
  | TStop
  | TGetLog (date : jsstr) (sent received : list (jsstr * json))
  | TSetTrace (isFunction : bool).

Definition run_trace (c : trace_call) (t : trace_state) : trace_state :=
  match c with
  | TTrace l => _trace l t
  | TStart d v => startTrace d v t
  | TStop => stopTrace t
  | TGetLog d s r => snd (getTraceLog d s r t)
  | TSetTrace f => default t (setTrace f t)
  end.

Definition trace_bounded (t : trace_state) : Prop :=
  forall b, traceBuffer t = Some b -> (length b <= MAX_TRACE_ENTRIES)%nat.

Lemma trace_bounded_trace l t : trace_bounded t -> trace_bounded (_trace l t).
Proof.
  intros Ht b. unfold _trace, call_trace_function. unfold trace_bounded in Ht.
  destruct (traceFunction t); cbn.
  all: destruct (traceBuffer t) as [b0|] eqn:E; cbn; [|congruence].
  all: intros [= <-]; rewrite trace_loop_last by auto; apply last_n_length.
Qed.

Lemma trace_bounded_messages label ms t :
  trace_bounded t -> trace_bounded (trace_messages label ms t).
Proof.
  unfold trace_messages. revert t. induction ms as [|p ms IH]; intros t Ht; cbn; [done|].
  apply IH, trace_bounded_trace, Ht.
Qed.

Lemma trace_bounded_run c t : trace_bounded t -> trace_bounded (run_trace c t).
Proof.
  intros Ht. destruct c; cbn.
  - by apply trace_bounded_trace.
  - apply trace_bounded_trace. destruct (traceBuffer t) eqn:E; [done|].
    intros b. cbn. intros [= <-]. cbn. lia.
  - by intros b [=].
  - unfold getTraceLog. destruct (traceBuffer t) eqn:E; [|done]. cbn.
    by repeat (apply trace_bounded_messages || apply trace_bounded_trace).
  - by destruct isFunction.
Qed.

(** Whatever is traced, started, stopped and read back, the trace buffer
    never holds more than a hundred entries, and without a trace function
    tracing a call leaves the latest hundred of the entries it held and those
    of the call, in order. *)
Theorem trace_keeps_last calls t l b :
  traceBuffer t = None ->
  let t' := foldl (λ t c, run_trace c t) t calls in
  traceBuffer t' = Some b ->
  (length b <= MAX_TRACE_ENTRIES)%nat
  /\ (traceFunction t' = false ->
      traceBuffer (_trace l t') = Some (last_n MAX_TRACE_ENTRIES (b ++ trace_entries l))).
Proof.
  intros H0 t' Hb. assert (trace_bounded t') as Hbounded.
  { subst t'. assert (trace_bounded t) as Ht by (intros ?; congruence).
    clear H0 Hb. revert t Ht. induction calls as [|c calls IH]; intros t Ht; cbn; [done|].
    apply IH, trace_bounded_run, Ht. }
  split; [by apply Hbounded|]. intros Hf. unfold _trace, call_trace_function.
  rewrite Hf, Hb. cbn. rewrite trace_loop_last by auto. done.
Qed.

Lemma trace_keeps_last_witness :
  let t := mkTrace None false [] in
  let calls := TStart (js "now") (js "1") :: replicate 99 (TTrace [Some (JNum 7)]) in
  let t' := foldl (λ t c, run_trace c t) t calls in
  exists b, traceBuffer t' = Some b
  /\ traceBuffer (_trace [Some (JNum 1); Some (JNum 2)] t')
     = Some (last_n MAX_TRACE_ENTRIES (b ++ trace_entries [Some (JNum 1); Some (JNum 2)])).
Proof.
  intros t calls t'. eexists. split; [vm_compute; reflexivity|].
  refine (proj2 (trace_keeps_last calls t [Some (JNum 1); Some (JNum 2)] _ _ _) _);
    vm_compute; reflexivity.
Defined.
