(* ===== verification/Dates.v ===== *)
(** * Formatting dates (ui/js/date.ext.js).

    A date is seen as its fields in local time, which the browser computes:
    [local] is the conversion of a time value, and [now] the current date. *)

From stdpp Require Import base tactics strings numbers list.
From Stdlib Require Import ZArith Lia.
From S2P Require Import Prelude Regex RegexFacts RegexSteps.
Local Open Scope Z_scope.

Record date := mkDate {
  getFullYear : Z;
  getMonth : Z;          (* from 0 *)
  getDate : Z;
  getHours : Z;
  getMinutes : Z;
  getSeconds : Z;
  getMilliseconds : Z;
}.

(** [s.replace(a, b)] for strings: the first occurrence. *)
Definition replace_string (s a b : jsstr) : jsstr :=
  let i := indexOf s a in
  if i =? -1 then s
  else take (Z.to_nat i) s ++ b ++ drop (Z.to_nat i + length a) s.

(** The object [o], in the order the loop visits it. *)
Definition fields (d : date) : list (jsstr * Z) :=
  [(js "M+", getMonth d + 1); (js "d+", getDate d); (js "h+", getHours d);
   (js "m+", getMinutes d); (js "s+", getSeconds d); (js "q+", (getMonth d + 3) / 3);
   (js "S", getMilliseconds d)].

(** What a run of a letter becomes: the number, or its last two digits padded. *)
Definition two_digits (run : jsstr) (v : Z) : jsstr :=
  if (length run =? 1)%nat then dec v
  else substr_from (js "00" ++ dec v) (Z.of_nat (length (dec v))).

Definition format_field (format : jsstr) (k : jsstr) (v : Z) : jsstr :=
  match RegExp (js "(" ++ k ++ js ")") ≫= λ r, exec false r format with
  | Some caps =>
      let run := default [] (caps 1%nat) in
      replace_string format run (two_digits run v)
  | None => format
  end.

Definition format_year (format : jsstr) (year : Z) : jsstr :=
  match exec false (regex "(y+)") format with
  | Some caps =>
      let run := default [] (caps 1%nat) in
      replace_string format run (substr_from (dec year) (4 - Z.of_nat (length run)))
  | None => format
  end.

(** [Date.prototype.format]. *)
Definition format (d : date) (pattern : jsstr) : jsstr :=
  foldl (λ f kv, format_field f kv.1 kv.2) (format_year pattern (getFullYear d)) (fields d).

Section Browser.
Variable local : Z -> date.   (* [new Date(l)], in the browser's time zone *)
Variable now : date.          (* [new Date()] *)

Definition getFormatDate (d : option date) (pattern : option jsstr) : jsstr :=
  format (default now d) (default (js "yyyy-MM-dd hh:mm:ss") pattern).

(** [isFull] is [true], [false] or missing. *)
Definition getSmpFormatDate (d : option date) (isFull : option bool) : jsstr :=
  let pattern := match isFull with
                 | Some true | None => js "yyyy-MM-dd hh:mm:ss"
                 | Some false => js "yyyy-MM-dd"
                 end in
  getFormatDate d (Some pattern).

Definition getSmpFormatNowDate (isFull : option bool) : jsstr := getSmpFormatDate (Some now) isFull.
Definition getSmpFormatDateByLong (l : Z) (isFull : option bool) : jsstr :=
  getSmpFormatDate (Some (local l)) isFull.
Definition getFormatDateByLong (l : Z) (pattern : option jsstr) : jsstr :=
  getFormatDate (Some (local l)) pattern.
End Browser.

(** ** One field after the other *)
Definition clear_of (k : Z) (s : jsstr) : Prop := Forall (λ c, c <> k) s.

Lemma replace_run k pre n post b : clear_of k pre ->
  replace_string (pre ++ replicate (S n) k ++ post) (replicate (S n) k) b = pre ++ b ++ post.
Proof.
  intros H. unfold replace_string, indexOf. rewrite index_run by done.
  replace (0 + Z.of_nat (length pre)) with (Z.of_nat (length pre)) by lia.
  replace (Z.of_nat (length pre) =? -1) with false by (symmetry; apply Z.eqb_neq; lia).
  rewrite Nat2Z.id, take_app_length. f_equal. f_equal.
  rewrite app_assoc, drop_app_length'; [done|]. rewrite length_app. done.
Qed.

Lemma format_run key k pre n post v :
  RegExp (js "(" ++ key ++ js ")") = Some (run_of k) -> clear_of k pre -> head post <> Some k ->
  format_field (pre ++ replicate (S n) k ++ post) key v
  = pre ++ two_digits (replicate (S n) k) v ++ post.
Proof.
  intros Hr Hpre Hpost. unfold format_field. rewrite Hr. cbn [mbind option_bind].
  destruct (exec_run k pre n post Hpre Hpost) as (caps & -> & ->). by apply replace_run.
Qed.

Lemma format_none key k s v : RegExp (js "(" ++ key ++ js ")") = Some (run_of k) ->
  clear_of k s -> format_field s key v = s.
Proof.
  intros Hr Hs. unfold format_field. rewrite Hr. cbn [mbind option_bind]. by rewrite exec_run_none.
Qed.

Lemma year_run pre n post y : clear_of 121 pre -> head post <> Some 121 ->
  format_year (pre ++ replicate (S n) 121 ++ post) y
  = pre ++ substr_from (dec y) (4 - Z.of_nat (S n)) ++ post.
Proof.
  intros Hpre Hpost. unfold format_year. change (regex "(y+)") with (run_of 121).
  destruct (exec_run 121 pre n post Hpre Hpost) as (caps & -> & ->). cbn [default]. unfold id.
  rewrite length_replicate. by apply replace_run.
Qed.

(** ** Numbers in the text *)
Definition digits2 (v : Z) : jsstr := [48 + v / 10; 48 + v mod 10].
Definition digits4 (y : Z) : jsstr :=
  [48 + y / 1000; 48 + y / 100 mod 10; 48 + y / 10 mod 10; 48 + y mod 10].

Lemma two_digits_value k v : 0 <= v < 100 -> two_digits (replicate 2 k) v = digits2 v.
Proof.
  intros Hv. unfold two_digits. rewrite length_replicate. cbn [Nat.eqb].
  pose proof (bounded_forall (λ v, bool_decide
    (substr_from (js "00" ++ dec v) (Z.of_nat (length (dec v))) = digits2 v)) 100) as H.
  eapply bool_decide_eq_true, H; [vm_compute; reflexivity|done].
Qed.

Lemma parse_digits2 v : 0 <= v < 100 -> parseInt 10 (digits2 v) = Num v.
Proof.
  intros Hv. pose proof (bounded_forall (λ v, bool_decide (parseInt 10 (digits2 v) = Num v)) 100) as H.
  eapply bool_decide_eq_true, H; [vm_compute; reflexivity|done].
Qed.

Lemma substr_from_0 s : substr_from s 0 = s.
Proof.
  unfold substr_from, slice_index. replace (0 <? 0) with false by done.
  by replace (Z.to_nat (Z.min 0 _)) with 0%nat by lia.
Qed.

Lemma dec_year y : 1000 <= y < 10000 -> dec y = digits4 y.
Proof.
  intros Hy. unfold dec, to_base. replace (y <? 0) with false by (symmetry; zlia).
  assert (3 <= Z.log2 y) as Hl by (apply (Z.log2_le_mono 8); lia).
  replace (S (Z.to_nat (Z.log2 y))) with (S (S (S (S (Z.to_nat (Z.log2 y - 3)))))) by lia.
  cbn [digits].
  replace (y <? 10) with false by (symmetry; zlia).
  replace (y / 10 <? 10) with false
    by (symmetry; apply Z.ltb_ge; Z.to_euclidean_division_equations; lia).
  replace (y / 10 / 10 <? 10) with false
    by (symmetry; apply Z.ltb_ge; Z.to_euclidean_division_equations; lia).
  replace (y / 10 / 10 / 10 <? 10) with true
    by (symmetry; apply Z.ltb_lt; Z.to_euclidean_division_equations; lia).
  assert (forall z, digit_char (z mod 10) = 48 + z mod 10) as Hc.
  { intros z. unfold digit_char. pose proof (Z.mod_pos_bound z 10 ltac:(lia)).
    by replace (z mod 10 <? 10) with true by (symmetry; zlia). }
  rewrite !Hc. unfold digits4. rewrite !Z.div_div by lia. cbn [Z.mul Pos.mul].
  by rewrite (Z.mod_small (y / 1000)) by (Z.to_euclidean_division_equations; lia).
Qed.

Lemma clear_digits2 k v : 0 <= v < 100 -> 58 <= k -> clear_of k (digits2 v).
Proof.
  intros Hv Hk. unfold clear_of, digits2. rewrite !Forall_cons.
  Z.to_euclidean_division_equations; split_and!; try constructor; lia.
Qed.

Lemma clear_digits4 k y : 1000 <= y < 10000 -> 58 <= k -> clear_of k (digits4 y).
Proof.
  intros Hy Hk. unfold clear_of, digits4. rewrite !Forall_cons.
  Z.to_euclidean_division_equations; split_and!; try constructor; lia.
Qed.

Lemma search_char_none k s prev : clear_of k s -> search false (Group 1 (Char k)) prev s = None.
Proof.
  intros H. revert prev. induction H as [|c s Hc Hs IH]; intros prev; [done|].
  cbn [search]. unfold match_here. rewrite m_Group, m_Char_no by done. apply IH.
Qed.

Lemma format_none_ms s v : clear_of 83 s -> format_field s (js "S") v = s.
Proof.
  intros Hs. unfold format_field. change (RegExp (js "(" ++ js "S" ++ js ")"))
    with (Some (Group 1 (Char 83))). cbn [mbind option_bind]. unfold exec.
  by rewrite search_char_none.
Qed.

(** Shows that some text has none of a letter. *)
Ltac clear_letters :=
  unfold clear_of in *; rewrite ?Forall_app; split_and?;
  first [ apply clear_digits2; lia | apply clear_digits4; lia
        | by repeat constructor | apply Forall_cons; split; [lia|]; clear_letters ].

(** One field of the pattern [yyyy-MM-dd hh:mm:ss] filled in, between [pre]
    and [post]. *)
Ltac next_run pre k key post :=
  match goal with |- context [format_field ?f key ?v] =>
    replace f with (pre ++ replicate 2 k ++ post) by (by rewrite <- ?app_assoc)
  end;
  rewrite (format_run key k pre 1 post) by (done || clear_letters);
  rewrite two_digits_value by lia.

(** The fields of a date, as the calendar bounds them. *)
Definition date_ok (d : date) : Prop :=
  1000 <= getFullYear d < 10000 /\ 0 <= getMonth d < 12 /\ 1 <= getDate d <= 31
  /\ 0 <= getHours d < 24 /\ 0 <= getMinutes d < 60 /\ 0 <= getSeconds d < 60.

Definition full_text (d : date) : jsstr :=
  digits4 (getFullYear d) ++ js "-" ++ digits2 (getMonth d + 1) ++ js "-" ++ digits2 (getDate d)
  ++ js " " ++ digits2 (getHours d) ++ js ":" ++ digits2 (getMinutes d)
  ++ js ":" ++ digits2 (getSeconds d).

Lemma format_full d : date_ok d -> format d (js "yyyy-MM-dd hh:mm:ss") = full_text d.
Proof.
  intros (Hy & Hm & Hd & Hh & Hmi & Hs). unfold format, fields. cbn [foldl fst snd].
  assert (forall k, 58 <= k -> clear_of k (digits4 (getFullYear d))) as Cy
    by (intros; by apply clear_digits4).
  change (js "yyyy-MM-dd hh:mm:ss") with ([] ++ replicate 4 121 ++ js "-MM-dd hh:mm:ss").
  rewrite year_run by (done || constructor). change (4 - Z.of_nat 4) with 0.
  rewrite substr_from_0, dec_year by done.
  change ([] ++ digits4 (getFullYear d) ++ js "-MM-dd hh:mm:ss")
    with ((digits4 (getFullYear d) ++ js "-") ++ replicate 2 77 ++ js "-dd hh:mm:ss").
  next_run (digits4 (getFullYear d) ++ js "-") 77 (js "M+") (js "-dd hh:mm:ss").
  next_run (digits4 (getFullYear d) ++ js "-" ++ digits2 (getMonth d + 1) ++ js "-")
    100 (js "d+") (js " hh:mm:ss").
  next_run (digits4 (getFullYear d) ++ js "-" ++ digits2 (getMonth d + 1) ++ js "-"
    ++ digits2 (getDate d) ++ js " ") 104 (js "h+") (js ":mm:ss").
  next_run (digits4 (getFullYear d) ++ js "-" ++ digits2 (getMonth d + 1) ++ js "-"
    ++ digits2 (getDate d) ++ js " " ++ digits2 (getHours d) ++ js ":") 109 (js "m+") (js ":ss").
  next_run (digits4 (getFullYear d) ++ js "-" ++ digits2 (getMonth d + 1) ++ js "-"
    ++ digits2 (getDate d) ++ js " " ++ digits2 (getHours d) ++ js ":"
    ++ digits2 (getMinutes d) ++ js ":") 115 (js "s+") (@nil Z).
  rewrite (format_none (js "q+") 113), format_none_ms by (done || clear_letters).
  done.
Qed.

(** A date of a four-digit year is formatted as
    [yyyy-MM-dd hh:mm:ss], each field padded, in 19 characters from which its
    fields can be read back; this is what the console shows by default, for the
    current date and for time values alike. *)
Theorem date_format_roundtrip local now d :
  date_ok d ->
  let s := getSmpFormatDate now (Some d) None in
  s = full_text d /\ length s = 19%nat
  /\ parseInt 10 (slice s 0 4) = Num (getFullYear d)
  /\ parseInt 10 (slice s 5 7) = Num (getMonth d + 1)
  /\ parseInt 10 (slice s 8 10) = Num (getDate d)
  /\ parseInt 10 (slice s 11 13) = Num (getHours d)
  /\ parseInt 10 (slice s 14 16) = Num (getMinutes d)
  /\ parseInt 10 (slice s 17 19) = Num (getSeconds d)
  /\ (forall l, local l = d -> getSmpFormatDateByLong local now l (Some true) = s).
Proof.
  intros Hok s. assert (s = full_text d) as -> by (by apply format_full).
  destruct Hok as (Hy & Hm & Hd & Hh & Hmi & Hs). split_and!; [done|done| | | | | | |].
  2-6: rewrite <- parse_digits2 by lia; done.
  - rewrite <- (parseInt_to_base 10 (getFullYear d)) by lia.
    change (to_base 10 (getFullYear d)) with (dec (getFullYear d)). by rewrite dec_year.
  - intros l Hl. unfold getSmpFormatDateByLong, getSmpFormatDate, getFormatDate. cbn [default].
    unfold id. rewrite Hl. by apply format_full.
Qed.

Lemma date_format_roundtrip_witness :
  let d := mkDate 2019 2 5 1 5 4 37 in
  date_ok d /\ getSmpFormatDate d (Some d) None = js "2019-03-05 01:05:04"
  /\ length (getSmpFormatDate d (Some d) None) = 19%nat.
Proof.
  intros d. assert (date_ok d) as H by (unfold date_ok; cbn; lia).
  split; [exact H|]. split; [vm_compute; reflexivity|].
  exact (proj1 (proj2 (date_format_roundtrip (λ _, d) d d H))).
Defined.
