(* ===== verification/Console.v ===== *)
(** * The pages of the web console
    (login.js, ui/js/common.js, ui/js/index.js).

    Each module has the part of the page its handlers read and write as a
    record, the requests sent and the locations visited included, and one
    function per handler.  The responses of the server are JSON data. *)

From stdpp Require Import base tactics strings gmap numbers list.
From Stdlib Require Import ZArith Lia.
From S2P Require Import Prelude Strings Locale Language Json DataTable.
Local Open Scope Z_scope.

(** A message table entry; [None] is [undefined]. *)
Definition msg (p : page) (key : string) : option jsstr := locale_messages p !! js key.

Definition opt_str (o : option jsstr) : jsstr := default (js "undefined") o.

(** A response the console takes as success: [res && res.code === 1 &&
    res.result]. *)
Definition response_ok (res : option json) : bool :=
  json_truthy res
  && match res ≫= λ j, member j "code" with Some (JNum 1) => true | _ => false end
  && json_truthy (res ≫= λ j, member j "result").

(** ** The login page *)
Module Login.
Record state := mkLogin {
  username : jsstr;
  password : jsstr;
  username_error : bool;        (* class has-error on the group *)
  password_error : bool;
  username_help : bool;         (* help text shown *)
  password_help : bool;
  message : option jsstr;       (* text put into the box, in red *)
  posted : list (jsstr * jsstr);  (* url and body of the requests *)
  location : option jsstr;      (* where the page went *)
}.

Definition body (username password : jsstr) : jsstr :=
  stringify (JObj [(js "username", JStr username); (js "password", JStr password)]).

(** The click handler of the login button; it returns [false]. *)
Definition click (s : state) : state * bool :=
  let user_blank := jseqb (trim (username s)) [] in
  let pass_blank := jseqb (trim (password s)) [] in
  let s := mkLogin (username s) (password s) user_blank pass_blank user_blank pass_blank
             (message s) (posted s) (location s) in
  if user_blank || pass_blank then (s, false)
  else
    (mkLogin (username s) (password s) (username_error s) (password_error s)
       (username_help s) (password_help s) (message s)
       (posted s ++ [(js "/login", body (username s) (password s))]) (location s), false).

(** [text] with [undefined] reads and writes nothing. *)
Definition showFailureMessage (m : option jsstr) (s : state) : state :=
  mkLogin (username s) (password s) (username_error s) (password_error s)
    (username_help s) (password_help s) (match m with Some t => Some t | None => message s end)
    (posted s) (location s).

Definition on_success (p : page) (data : option json) (s : state) : state :=
  if response_ok data then
    mkLogin (username s) (password s) (username_error s) (password_error s)
      (username_help s) (password_help s) (message s) (posted s)
      (Some (match data ≫= λ j, member j "location" with
             | Some j => json_str j
             | None => js "undefined"
             end))
  else showFailureMessage (msg p "login_username_password_error") s.

Definition on_error (p : page) (s : state) : state :=
  showFailureMessage (msg p "common_alert_error_content") s.

(** What loading the page does. *)
Definition ready (nav : navigator) (p : page) (s : state) : page * state :=
  (loadAndChangeLanguage (getLanguage nav) p,
   mkLogin (username s) (password s) (username_error s) (password_error s) false false
     (message s) (posted s) (location s)).
End Login.

(** ** Common functions *)
Module Common.
Definition datatables_paging_type : jsstr := js "full_numbers".
Definition datatables_paging_len : Z := 10.

Definition datatables_no_data : draw_data := mkDrawData 1 0 0 [].

Definition icon_tag (icon color : string) : jsstr :=
  js "<i class=" ++ [34] ++ js "fa fa-fw " ++ js icon ++ [34] ++ js " style=" ++ [34]
  ++ js "color:" ++ js color ++ [34] ++ js "></i>&nbsp;".

Definition alert_failed_tag : jsstr := icon_tag "fa-exclamation-circle" "#dd4b39".
Definition alert_succeeded_tag : jsstr := icon_tag "fa-check-circle" "#00a65a".

Definition spinner : jsstr :=
  js "<i class=" ++ [34] ++ js "fa fa-circle-o-notch fa-spin" ++ [34] ++ js "></i>&nbsp;".

Record table_language := mkTableLanguage {
  processing : jsstr;
  zeroRecords : option jsstr;
  info : option jsstr;
  infoEmpty : option jsstr;
  paginate_first : option jsstr;
  paginate_previous : option jsstr;
  paginate_next : option jsstr;
  paginate_last : option jsstr;
  search : option jsstr;
}.

Definition datatablesLanguage (p : page) : table_language :=
  mkTableLanguage (spinner ++ opt_str (msg p "datatables_processing"))
    (msg p "datatables_zeroRecords") (msg p "datatables_info") (msg p "datatables_infoEmpty")
    (msg p "datatables_paginate_first") (msg p "datatables_paginate_previous")
    (msg p "datatables_paginate_next") (msg p "datatables_paginate_last")
    (msg p "datatables_search").

(** The number of the table, [None] for something without [ajax.reload]; a
    missing page number counts as 0. *)
Definition datatablesReload (table : option nat) (pageNum : Z) (dataLen : option Z)
    (rowDeleted : bool) (w : tables) : tables * option ajax_call :=
  let pageNo := pageNum - 1 in
  match table with
  | Some k =>
      if rowDeleted then
        if bool_decide (dataLen = Some 1)
        then reload k true (fst (fnPageChange k (PageNumber (pageNo - 1)) false w))
        else reload k true w
      else reload k true w
  | None => (w, None)
  end.

(** The data of the row that holds an element, whose node is [n]. *)
Definition datatablesRowData (table : option nat) (n : row) (w : tables) : option json :=
  k ← table; row_data k n w.

(** A button that is disabled while its request runs. *)
Record button := mkButton {
  html : jsstr;
  prev_text : option jsstr;
  disabled : bool;
}.

(** [$confirm.html(undefined)] changes nothing. *)
Definition disableConfirm (p : page) (text_of : jsstr -> jsstr) (b : button) : button :=
  mkButton (spinner ++ opt_str (msg p "common_btn_processing")) (Some (text_of (html b))) true.

Definition enableConfirm (b : button) : button :=
  mkButton (default (html b) (prev_text b)) None false.

Record modal := mkModal {
  groups_error : list bool;
  inputs : list jsstr;
  help_shown : list bool;
  confirm : button;
}.

Definition initializeModal (m : modal) : modal :=
  mkModal (map (λ _, false) (groups_error m)) (map (λ _, []) (inputs m))
    (map (λ _, false) (help_shown m)) (enableConfirm (confirm m)).

Record alert := mkAlert { alert_title : jsstr; alert_content : jsstr; alert_shown : bool }.

(** Content given as [undefined] is concatenated as that word. *)
Definition alertMessage (title content : option jsstr) (failed : bool) (a : alert) : alert :=
  mkAlert (default (alert_title a) title)
    ((if failed then alert_failed_tag else alert_succeeded_tag) ++ opt_str content) true.

Definition alertSystemException (p : page) (a : alert) : alert :=
  alertMessage (msg p "common_alert_title") (msg p "common_alert_error_content") true a.

Record notice := mkNotice {
  icon : jsstr; notice_message : jsstr; notice_type : jsstr;
  newest_on_top : bool; allow_dismiss : bool; delay : Z
}.

(** [None] when the notification plugin is missing. *)
Definition showNotify (plugin : bool) (message type : jsstr) : option notice :=
  if plugin then
    let notifyIcon :=
      if jseqb type (js "info") then js "glyphicon glyphicon-info-sign"
      else if jseqb type (js "warning") then js "glyphicon glyphicon-warning-sign"
      else if jseqb type (js "success") then js "glyphicon glyphicon-ok-sign"
      else if jseqb type (js "error") then js "glyphicon glyphicon-exclamation-sign"
      else js "glyphicon glyphicon-info-sign" in
    Some (mkNotice notifyIcon message type true true 1000)
  else None.
(** [.text(x)] with a property that may be missing: [undefined] changes nothing. *)
Definition put_text (o : option json) (old : jsstr) : jsstr :=
  match o with None => old | Some JNull => [] | Some j => json_str j end.

(** What the server answered: a JSON value, or a failed request. *)
Inductive answer := Answered (res : option json) | NoAnswer.

(** [res && res.code === 1]. *)
Definition code_ok (res : option json) : bool :=
  json_truthy res
  && match res ≫= λ j, member j "code" with Some (JNum 1) => true | _ => false end.

Definition result_is (res : option json) (n : Z) : bool :=
  match res ≫= λ j, member j "result" with Some (JNum m) => m =? n | _ => false end.

(** [res.result.total] and [res.result.items], when both are there. *)
Definition rows_of_page (result : json) : option (Z * list json) :=
  match member result "total", member result "items" with
  | Some (JNum total), Some (JArr items) => if total =? 0 then None else Some (total, items)
  | _, _ => None
  end.
End Common.

(** ** The frame of the console *)
Module Index.
Record request := mkRequest { url : jsstr; paramNodeId : option jsstr }.

Record state := mkIndex {
  thisNodeId : option json;
  menus_shown : bool;            (* user and acl menus, shown and hidden together *)
  node_options : option json;    (* the entries of the list of nodes *)
  node_value : option jsstr;
  node_handlers : nat;           (* handlers of select2:select on the list *)
  hash : jsstr;                  (* window.location.hash *)
  open_menus : list nat;         (* the treeviews of class menu-open *)
  content : option jsstr;        (* the page loaded into the content wrapper *)
  modal_open : bool;             (* class modal-open or a backdrop left *)
  sent : list request;
  location : option jsstr;
  went_back : nat;
  the_page : page;
}.

Definition with_request (r : request) (s : state) : state :=
  mkIndex (thisNodeId s) (menus_shown s) (node_options s) (node_value s) (node_handlers s)
    (hash s) (open_menus s) (content s) (modal_open s) (sent s ++ [r]) (location s)
    (went_back s) (the_page s).

Definition with_node (n : option json) (s : state) : state :=
  mkIndex n (menus_shown s) (node_options s) (node_value s) (node_handlers s)
    (hash s) (open_menus s) (content s) (modal_open s) (sent s) (location s)
    (went_back s) (the_page s).

(** [ajaxSetup.beforeSend]: an empty identifier sets no header. *)
Definition beforeSend (s : state) (u : jsstr) : request :=
  mkRequest u (if json_truthy (thisNodeId s) then json_str <$> thisNodeId s else None).

(** [ajaxSetup.complete]. *)
Definition complete (status : Z) (s : state) : state :=
  mkIndex (thisNodeId s) (menus_shown s) (node_options s) (node_value s) (node_handlers s)
    (hash s) (open_menus s) (content s) (modal_open s) (sent s)
    (if status =? 401 then Some (js "/login.html") else location s) (went_back s) (the_page s).

Definition ajax_init (s : state) : state := with_request (beforeSend s (js "/sys/index/init")) s.

Definition initIndexMenu (islocalAuth : bool) (s : state) : state :=
  mkIndex (thisNodeId s) islocalAuth (node_options s) (node_value s) (node_handlers s)
    (hash s) (open_menus s) (content s) (modal_open s) (sent s) (location s)
    (went_back s) (the_page s).

(** [off], then one [on], then the value. *)
Definition initIndexNodeList (nodes : option json) (value : option jsstr) (s : state) : state :=
  mkIndex (thisNodeId s) (menus_shown s) nodes value 1
    (hash s) (open_menus s) (content s) (modal_open s) (sent s) (location s)
    (went_back s) (the_page s).

(** What a response brings into the frame. *)
Definition result_of (res : option json) : option json := res ≫= λ j, member j "result".
Definition node_id (res : option json) : option json := result_of res ≫= λ j, member j "nodeId".
Definition apply_response (res : option json) (s : state) : state :=
  let s := with_node (node_id res) s in
  let s := initIndexMenu (json_truthy (result_of res ≫= λ j, member j "localAuth")) s in
  initIndexNodeList (result_of res ≫= λ j, member j "nodes") (json_str <$> node_id res) s.

Section Frame.
(** jQuery's selection of the menus holding the link [a[id=hash]]; [None] when
    the text is not a valid selector and jQuery throws. *)
Variable menus_of : jsstr -> option (list nat).

Definition with_menus (open : list nat) (s : state) : state :=
  mkIndex (thisNodeId s) (menus_shown s) (node_options s) (node_value s) (node_handlers s)
    (hash s) open (content s) (modal_open s) (sent s) (location s) (went_back s) (the_page s).

Definition with_content (file : jsstr) (s : state) : state :=
  mkIndex (thisNodeId s) (menus_shown s) (node_options s) (node_value s) (node_handlers s)
    (hash s) (open_menus s) (Some file) (modal_open s) (sent s) (location s) (went_back s) (the_page s).

(** The request of [load] is one of jQuery's like the others.  A throw of the
    selection leaves the menus closed and ends the handler, of which this is the
    last call everywhere. *)
Definition loadTemplate (name : jsstr) (s : state) : state :=
  let s := with_menus [] s in
  match menus_of name with
  | None => s
  | Some open =>
      let file := name ++ js ".html" in
      let s := with_menus open s in
      with_content file (with_request (beforeSend s file) s)
  end.

(** The callback of [load], once the page is in place. *)
Definition template_loaded (s : state) : state :=
  mkIndex (thisNodeId s) (menus_shown s) (node_options s) (node_value s) (node_handlers s)
    (hash s) (open_menus s) (content s) false (sent s) (location s)
    (went_back s) (changeLanguage (the_page s)).

Definition initIndex (s : state) : state :=
  loadTemplate (if jseqb (hash s) [] then js "console" else substr_from (hash s) 1) s.

Definition on_popstate (s : state) : state :=
  if jseqb (hash s) [] then
    mkIndex (thisNodeId s) (menus_shown s) (node_options s) (node_value s) (node_handlers s)
      (hash s) (open_menus s) (content s) (modal_open s) (sent s) (location s)
      (S (went_back s)) (the_page s)
  else loadTemplate (substr_from (hash s) 1) s.

(** The response to the first request, and to the one of a selection. *)
Definition on_init (res : option json) (s : state) : state :=
  if response_ok res then apply_response res s else s.

Definition on_selected (res : option json) (s : state) : state :=
  if response_ok res then initIndex (apply_response res s) else s.

(** One handler of [select2:select]: the value chosen, then a request. *)
Definition select_handler (value : jsstr) (s : state) : state :=
  ajax_init (with_node (Some (JStr value)) s).

Definition on_select (value : jsstr) (s : state) : state :=
  Nat.iter (node_handlers s) (select_handler value) s.

Definition on_logout (s : state) : state :=
  mkIndex (thisNodeId s) (menus_shown s) (node_options s) (node_value s) (node_handlers s)
    (hash s) (open_menus s) (content s) (modal_open s) (sent s) (Some (js "/logout"))
    (went_back s) (the_page s).

(** The ready handler: the first request, and the language whose callback is
    [initIndex]. *)
Definition ready (s : state) : state := ajax_init s.

Definition language_ready (nav : navigator) (s : state) : state :=
  match script_at (script_file (getLanguage nav)) with
  | Some l =>
      let s := mkIndex (thisNodeId s) (menus_shown s) (node_options s) (node_value s)
                 (node_handlers s) (hash s) (open_menus s) (content s) (modal_open s) (sent s)
                 (location s) (went_back s) (run_script l (the_page s)) in
      initIndex s
  | None => s
  end.

(** ** Events of the frame *)
Inductive event :=
  | Ready | LanguageReady (nav : navigator) | TemplateLoaded | PopState (newHash : jsstr)
  | InitResponse (res : option json) | Selected (value : jsstr)
  | SelectResponse (res : option json) | Completed (status : Z) | Logout.

Definition set_hash (h : jsstr) (s : state) : state :=
  mkIndex (thisNodeId s) (menus_shown s) (node_options s) (node_value s) (node_handlers s)
    h (open_menus s) (content s) (modal_open s) (sent s) (location s)
    (went_back s) (the_page s).

Definition run (e : event) (s : state) : state :=
  match e with
  | Ready => ready s
  | LanguageReady nav => language_ready nav s
  | TemplateLoaded => template_loaded s
  | PopState h => on_popstate (set_hash h s)
  | InitResponse res => on_init res s
  | Selected v => on_select v s
  | SelectResponse res => on_selected res s
  | Completed st => complete st s
  | Logout => on_logout s
  end.

Definition runs (es : list event) (s : state) : state := foldl (λ s e, run e s) s es.
End Frame.
End Index.
