(* ===== verification/ConsoleFacts.v ===== *)
(** * The handlers of the console do what they are for

    The login button, the choice of a node however often its list was made, and
    the page a table is asked for after a deletion. *)

From stdpp Require Import base tactics strings gmap numbers list.
From Stdlib Require Import ZArith Lia.
From S2P Require Import Prelude Strings Locale Language Json DataTable Console.
Local Open Scope Z_scope.

(** Nothing but white space. *)
Definition blank (s : jsstr) : Prop := Forall (λ c, is_space c = true) s.

Lemma drop_while_spec p s :
  exists l, s = l ++ drop_while p s /\ Forall (λ c, p c = true) l.
Proof.
  induction s as [|c s (l & E & Hl)]; cbn; [by exists []|].
  destruct (p c) eqn:Ec; [|by exists []]. exists (c :: l). split; [by rewrite E at 1|by constructor].
Qed.

Lemma drop_while_head p s c t : drop_while p s = c :: t -> p c = false.
Proof.
  induction s as [|d s IH]; cbn; [done|]. destruct (p d) eqn:E; [done|]. by intros [= -> ->].
Qed.

Lemma drop_while_all p s : Forall (λ c, p c = true) s -> drop_while p s = [].
Proof. induction 1 as [|c s Hc Hs IH]; cbn; [done|by rewrite Hc]. Qed.

Lemma trim_blank s : trim s = [] <-> blank s.
Proof.
  unfold trim. split.
  - intros H. apply (f_equal (@rev Z)) in H. rewrite rev_involutive in H. cbn in H.
    destruct (drop_while_spec is_space (rev (drop_while is_space s))) as (l & E & Hl).
    rewrite H, app_nil_r in E.
    destruct (drop_while_spec is_space s) as (l' & E' & Hl'). rewrite E'.
    apply Forall_app. split; [done|]. apply Forall_rev in Hl. rewrite <- E, rev_involutive in Hl.
    exact Hl.
  - intros H. by rewrite (drop_while_all _ s).
Qed.

(** ** Logging in *)
Section LoginFacts.
Import Login.

Lemma blank_dec s : jseqb (trim s) [] = true <-> blank s.
Proof. unfold jseqb. by rewrite bool_decide_eq_true, trim_blank. Qed.

(** Clicking the login button marks exactly the fields that are blank, and
    posts the two values, as they were typed and as JSON, exactly when neither
    is; the response moves the page to the location it names exactly when it
    reports success, and otherwise shows a message in the chosen language. *)
Theorem login_posts_filled_form s p data :
  let '(s', prevented) := click s in
  prevented = false
  /\ (username_error s' = true <-> blank (username s))
  /\ (password_error s' = true <-> blank (password s))
  /\ username_help s' = username_error s' /\ password_help s' = password_error s'
  /\ (blank (username s) \/ blank (password s) -> posted s' = posted s)
  /\ (~ blank (username s) -> ~ blank (password s) ->
      posted s' = posted s ++ [(js "/login", body (username s) (password s))])
  /\ location s' = location s
  /\ (location (on_success p data s') <> location s' -> response_ok data = true)
  /\ (response_ok data = true -> location (on_success p data s') <> None)
  /\ (response_ok data = false ->
      on_success p data s' = showFailureMessage (msg p "login_username_password_error") s').
Proof.
  unfold click. destruct (jseqb (trim (username s)) []) eqn:Eu, (jseqb (trim (password s)) []) eqn:Ep;
    cbn; pose proof (blank_dec (username s)) as Hu; pose proof (blank_dec (password s)) as Hp;
    rewrite Eu in Hu; rewrite Ep in Hp; split_and!; try done; try tauto;
    unfold on_success; destruct (response_ok data); try done; intros; naive_solver.
Qed.

Lemma login_posts_filled_form_witness :
  let s := mkLogin (js "admin") (js " ") false false false false None [] None in
  password_error (fst (click s)) = true /\ posted (fst (click s)) = [].
Proof.
  intros s. pose proof (login_posts_filled_form s (mkPage [] ∅ None) None) as H.
  destruct (click s) as [s' b] eqn:E. destruct H as (_ & _ & H1 & _ & _ & H2 & _).
  cbn [fst]. split; [apply H1|rewrite H2; [reflexivity|right]]; repeat constructor.
Defined.
End LoginFacts.

(** ** Reloading a table *)
Section TableFacts.
Import Common.

(** The table shows page [n], which exists. *)
Definition on_page (t : dtable) (n : Z) : Prop :=
  1 <= n /\ 0 < iDisplayLength t /\ iDisplayStart t = (n - 1) * iDisplayLength t
  /\ iDisplayStart t < iRecordsDisplay t.

(** A table in use asks for the rows from where it stands. *)
Lemma reload_asks k t w : instances w !! k = Some t ->
  bAjaxDataGet t = true -> bDestroying t = false ->
  reload k true w = (put k (set_asked t) w,
                     Some (mkCall k (iDraw t + 1) (iDisplayStart t) (iDisplayLength t))).
Proof. intros Hk Ha Hd. unfold reload, _fnReDraw, _fnDraw. by rewrite Hk, Ha, Hd. Qed.

(** After a change the table is asked for the page it shows; after deleting
    the only row of page [n > 1], for the page before; but after deleting the
    only row of the first page it is asked for rows from minus a page on, that
    is for page 0. *)
Theorem reload_after_delete w k t n dataLen rowDeleted :
  instances w !! k = Some t -> bAjaxDataGet t = true -> bDestroying t = false -> on_page t n ->
  exists w' call, datatablesReload (Some k) n dataLen rowDeleted w = (w', Some call)
  /\ call_table call = k /\ call_draw call = iDraw t + 1
  /\ (rowDeleted = false \/ dataLen <> Some 1 -> call_start call = iDisplayStart t)
  /\ (rowDeleted = true -> dataLen = Some 1 -> 1 < n ->
      call_start call = iDisplayStart t - iDisplayLength t /\ 0 <= call_start call)
  /\ (rowDeleted = true -> dataLen = Some 1 -> n = 1 ->
      call_start call = - iDisplayLength t /\ call_start call / iDisplayLength t + 1 = 0).
Proof.
  intros Hk Ha Hd (Hn & Hl & Hs & Hr). unfold datatablesReload.
  destruct (rowDeleted && bool_decide (dataLen = Some 1)) eqn:E.
  - apply andb_true_iff in E as [-> Hone]. rewrite Hone. apply bool_decide_eq_true in Hone as ->.
    unfold fnPageChange. rewrite Hk. cbn [fst]. rewrite andb_false_r. cbn [fst].
    assert (page_start (PageNumber (n - 1 - 1)) t = (n - 1 - 1) * iDisplayLength t) as ->.
    { unfold page_start. replace (iRecordsDisplay t =? 0) with false by (symmetry; apply Z.eqb_neq; nia).
      replace (iDisplayLength t =? -1) with false by (symmetry; apply Z.eqb_neq; lia). cbn [orb].
      destruct (Z.gtb_spec ((n - 1 - 1) * iDisplayLength t) (iRecordsDisplay t)); nia. }
    set (t' := set_start _ t).
    rewrite (reload_asks k t') by (try done; apply list_lookup_insert_eq; by apply lookup_lt_Some in Hk).
    do 2 eexists. split; [reflexivity|]. cbn [call_table call_draw call_start t' set_start iDisplayStart iDraw].
    split_and!; [done|done|naive_solver|intros; nia|].
    intros _ _ ->. split; [lia|]. change ((1 - 1 - 1) * iDisplayLength t) with (- 1 * iDisplayLength t).
    rewrite Z.div_mul; lia.
  - exists (put k (set_asked t) w), (mkCall k (iDraw t + 1) (iDisplayStart t) (iDisplayLength t)).
    split; [|cbn; split_and!; [done|done|done|..]; intros -> -> _; by cbn in E].
    destruct rowDeleted; [|by apply reload_asks]. cbn in E. rewrite E. by apply reload_asks.
Qed.

Lemma reload_after_delete_witness :
  let t := mkDtable 1 0 10 1 1 (add_data 0 [JNull]) true false false in
  let w := mkTables [t] (aoData t) 1 in
  exists w' call, datatablesReload (Some 0%nat) 1 (Some 1) true w = (w', Some call)
  /\ call_start call = -10.
Proof.
  intros t w. assert (on_page t 1) as H by (unfold on_page; cbn; lia).
  destruct (reload_after_delete w 0 t 1 (Some 1) true eq_refl eq_refl eq_refl H)
    as (w' & call & E & _ & _ & _ & _ & H1).
  exists w', call. split; [exact E|]. by destruct (H1 eq_refl eq_refl eq_refl) as [-> _].
Defined.
End TableFacts.

(** ** Choosing a node *)
Section IndexFacts.
Import Index.
Variable menus_of : jsstr -> option (list nat).

Definition brings_nodes (e : event) : bool :=
  match e with InitResponse res | SelectResponse res => response_ok res | _ => false end.

Lemma loadTemplate_handlers name s : node_handlers (loadTemplate menus_of name s) = node_handlers s.
Proof. unfold loadTemplate. by destruct (menus_of name). Qed.

Lemma select_handlers v n s :
  node_handlers (Nat.iter n (select_handler v) s) = node_handlers s.
Proof. by induction n as [|n IH]. Qed.

Lemma run_handlers e s :
  node_handlers (run menus_of e s) = if brings_nodes e then 1%nat else node_handlers s.
Proof.
  destruct e; cbn [run brings_nodes]; try done.
  - unfold language_ready. destruct (script_at _); [|done]. by unfold initIndex; rewrite loadTemplate_handlers.
  - unfold on_popstate. destruct (jseqb _ _); [done|]. by rewrite loadTemplate_handlers.
  - unfold on_init. by destruct (response_ok res).
  - apply select_handlers.
  - unfold on_selected. destruct (response_ok res); [|done]. by unfold initIndex; rewrite loadTemplate_handlers.
Qed.

Lemma runs_handlers es s :
  node_handlers (runs menus_of es s)
  = if existsb brings_nodes es then 1%nat else node_handlers s.
Proof.
  unfold runs. revert s. induction es as [|e es IH]; intros s; cbn; [done|].
  rewrite IH, run_handlers. by destruct (brings_nodes e), (existsb brings_nodes es).
Qed.

(** C24: however often the lists of nodes are brought and rebuilt, choosing a
    node sends exactly one request, with the chosen node in its header; before
    the first list it sends none; and the response of the chosen node makes the
    node it names the current one and loads the page of the address again, by one
    request with the node it names in its header. *)
Theorem node_choice_sends_one_request es s value :
  node_handlers s = 0%nat ->
  let s1 := runs menus_of es s in
  let s2 := run menus_of (Selected value) s1 in
  (existsb brings_nodes es = false -> s2 = s1)
  /\ (existsb brings_nodes es = true ->
      thisNodeId s2 = Some (JStr value)
      /\ sent s2 = sent s1 ++ [mkRequest (js "/sys/index/init")
                                 (if jseqb value [] then None else Some value)]
      /\ forall res, response_ok res = true -> menus_of (if jseqb (hash s2) [] then js "console"
           else substr_from (hash s2) 1) <> None ->
         let s3 := run menus_of (SelectResponse res) s2 in
         thisNodeId s3 = node_id res
         /\ content s3 = Some ((if jseqb (hash s2) [] then js "console"
                                else substr_from (hash s2) 1) ++ js ".html")
         /\ sent s3 = sent s2 ++ [mkRequest ((if jseqb (hash s2) [] then js "console"
                                              else substr_from (hash s2) 1) ++ js ".html")
                                   (if json_truthy (node_id res) then json_str <$> node_id res else None)]).
Proof.
  intros H0 s1 s2. pose proof (runs_handlers es s) as Hh. fold s1 in Hh. rewrite H0 in Hh.
  subst s2. cbn [run]. unfold on_select. rewrite Hh.
  split; intros E; rewrite E; [done|]. cbn [Nat.iter nat_rect]. split_and!; [done| |].
  - cbn. by destruct value.
  - intros res Hres Hm. cbn [run]. unfold on_selected. rewrite Hres. unfold initIndex.
    cbn in Hm |- *. unfold loadTemplate.
    destruct (menus_of _) as [l|]; [|done]. done.
Qed.
End IndexFacts.

Definition demo_response : option json :=
  Some (JObj [(js "code", JNum 1);
              (js "result", JObj [(js "nodeId", JStr (js "n1")); (js "localAuth", JBool true);
                                  (js "nodes", JArr [JStr (js "n1"); JStr (js "n2")])])]).

Lemma node_choice_sends_one_request_witness :
  let s := Index.mkIndex None false None None 0 [] [] None false [] None 0 (mkPage [] ∅ None) in
  let menus_of := λ h : jsstr, if jseqb h (js "console") then Some [0%nat] else None in
  let es := [Index.Ready; Index.InitResponse demo_response; Index.InitResponse demo_response] in
  existsb brings_nodes es = true
  /\ length (Index.sent (Index.run menus_of (Index.Selected (js "n2")) (Index.runs menus_of es s)))
     = S (length (Index.sent (Index.runs menus_of es s))).
Proof.
  intros s menus_of es. assert (existsb brings_nodes es = true) as E by (vm_compute; reflexivity).
  split; [exact E|].
  destruct (node_choice_sends_one_request menus_of es s (js "n2") eq_refl) as [_ H].
  destruct (H E) as (_ & -> & _). rewrite length_app. cbn [length]. lia.
Defined.
