(* ===== verification/DataTableFacts.v ===== *)
(** * What holds of the tables of an element

    Whatever the pages do with their tables and in whatever order the answers
    come, every table shows whole pages of the server's rows, draws are numbered
    upwards, and a request belongs to a table that has drawn at least as often. *)

From stdpp Require Import base tactics strings gmap numbers list.
From Stdlib Require Import ZArith Lia.
From S2P Require Import Prelude Json DataTable Console.
Import Common.
Local Open Scope Z_scope.

Lemma elem_delete {A} i (l : list A) x : x ∈ delete i l -> x ∈ l.
Proof. intros H. by eapply elem_of_submseteq, (sublist_submseteq _ _ (sublist_delete _ _)). Qed.

(** ** The tables *)

(** The last table made is the one in use; the others are destroyed. *)
Record grid_ok (w : tables) : Prop := {
  g_tables : tables_ok w;
  g_last : forall k t, instances w !! k = Some t ->
    bDestroying t = negb (k =? length (instances w) - 1)%nat;
  g_pages : forall k t, instances w !! k = Some t ->
    iDisplayLength t = datatables_paging_len /\ (datatables_paging_len | iDisplayStart t);
  g_draw : forall k t, instances w !! k = Some t -> 0 <= iDraw t;
}.

Lemma grid_put k t t' w : grid_ok w -> instances w !! k = Some t ->
  aoData t' = aoData t -> bAjaxDataGet t' = true -> bDestroying t' = bDestroying t ->
  iDisplayLength t' = iDisplayLength t -> (datatables_paging_len | iDisplayStart t') ->
  0 <= iDraw t' -> grid_ok (put k t' w).
Proof.
  intros [H1 H2 H3 H4] Hk Ha Hb Hd Hl Hs Hr.
  assert (forall j u, instances (put k t' w) !! j = Some u ->
            j = k /\ u = t' \/ instances w !! j = Some u) as Hu.
  { intros j u. cbn. rewrite list_lookup_insert_Some. intros [(-> & <- & _)|[_ Hu]]; auto. }
  split.
  - by apply (put_ok k t).
  - intros j u [[-> ->]|E]%Hu; cbn; rewrite length_insert; [rewrite Hd|]; by apply H2.
  - intros j u [[-> ->]|E]%Hu; [|by apply (H3 j)]. rewrite Hl. split; [by apply (H3 k)|done].
  - intros j u [[-> ->]|E]%Hu; [done|by apply (H4 j)].
Qed.

Lemma grid_rows k t w : grid_ok w -> instances w !! k = Some t -> grid_ok (show_rows (aoData t) w).
Proof. intros [H1 H2 H3 H4] Hk. split; try done. by apply (show_rows_ok k). Qed.

Lemma grid_draw k w : grid_ok w -> grid_ok (fst (_fnDraw k w)).
Proof.
  intros H. unfold _fnDraw. destruct (instances w !! k) as [t|] eqn:E; [|done].
  case_match; [|by apply (grid_rows k)]. cbn [fst].
  destruct (g_pages w H k t E). pose proof (g_draw w H k t E).
  apply (grid_put k t); try done; [exact (may_ask w (g_tables w H) k t E)|cbn; lia].
Qed.

Lemma grid_start k t start w : grid_ok w -> instances w !! k = Some t ->
  (datatables_paging_len | start) -> grid_ok (put k (set_start start t) w).
Proof.
  intros H E Hd. apply (grid_put k t); try done;
    [exact (may_ask w (g_tables w H) k t E)|exact (g_draw w H k t E)].
Qed.

Lemma grid_redraw k hold w : grid_ok w -> grid_ok (fst (_fnReDraw k hold w)).
Proof.
  intros H. unfold _fnReDraw. destruct (instances w !! k) as [t|] eqn:E; [|done].
  apply grid_draw. destruct hold; [done|]. by apply grid_start; [..|apply Z.divide_0_r].
Qed.

Lemma page_start_divides action t :
  iDisplayLength t = datatables_paging_len -> (datatables_paging_len | iDisplayStart t) ->
  (datatables_paging_len | page_start action t).
Proof.
  intros Hl Hs. unfold page_start. rewrite Hl. unfold datatables_paging_len in *.
  destruct action; repeat case_match; try apply Z.divide_0_r; try done;
    try (by apply Z.divide_factor_r).
  - apply Z.divide_sub_r; [done|by exists 1].
  - apply Z.divide_add_r; [done|by exists 1].
Qed.

Lemma grid_page k action redraw w : grid_ok w -> grid_ok (fst (fnPageChange k action redraw w)).
Proof.
  intros H. unfold fnPageChange. destruct (instances w !! k) as [t|] eqn:E; [|done].
  destruct (g_pages w H k t E) as [Hl Hs].
  assert (grid_ok (put k (set_start (page_start action t) t) w))
    by by apply grid_start; [..|apply page_start_divides].
  case_match; [by apply grid_draw|done].
Qed.

Lemma grid_click k action w : grid_ok w -> grid_ok (fst (click_page k action w)).
Proof.
  intros H. unfold click_page. destruct (instances w !! k) as [t|]; [|done].
  case_match; [done|]. by apply grid_draw, grid_page.
Qed.

Lemma grid_update k d w : grid_ok w -> grid_ok (_fnAjaxUpdateDraw k d w).
Proof.
  intros H. destruct (instances w !! k) as [t|] eqn:E.
  2: { unfold _fnAjaxUpdateDraw. by rewrite E. }
  pose proof (update_draw_ok k d w (g_tables w H)) as Ht.
  rewrite (update_draw_eq k d t w E) in *. destruct (out_of_sequence d t) eqn:Ho; [done|].
  assert (forall j u, <[k := filled d (next_node w) t]> (instances w) !! j = Some u ->
            j = k /\ u = filled d (next_node w) t \/ instances w !! j = Some u) as Hu.
  { intros j u. rewrite list_lookup_insert_Some. intros [(-> & <- & _)|[_ Hu]]; auto. }
  destruct H as [H1 H2 H3 H4]. split; cbn [instances]; [done|..]; rewrite ?length_insert.
  - intros j u [[-> ->]|Hj]%Hu; [by apply (H2 k t)|by apply H2].
  - intros j u [[-> ->]|Hj]%Hu; [by apply (H3 k t)|by apply (H3 j)].
  - intros j u [[-> ->]|Hj]%Hu; [|by apply (H4 j)]. cbn [filled iDraw].
    pose proof (H4 k t E). unfold out_of_sequence in Ho. destruct (Z.eqb_spec (dd_draw d) 0); [done|].
    cbn in Ho. apply Z.ltb_ge in Ho. lia.
Qed.

(** The tables with one more, before it draws. *)
Definition added (w : tables) : tables :=
  let w1 := fnDestroy (length (instances w) - 1) w in
  mkTables (instances w1 ++ [fresh_table datatables_paging_len]) (body_rows w1) (next_node w1).

Lemma grid_added w : grid_ok w -> grid_ok (added w).
Proof.
  intros [H1 H2 H3 H4]. unfold added.
  set (k := length (instances w)). set (w1 := fnDestroy (k - 1) w).
  assert (tables_ok w1) as Ht by by apply destroy_ok.
  assert (length (instances w1) = k /\ forall j u, instances w1 !! j = Some u ->
            exists t, instances w !! j = Some t /\ bDestroying u = true
            /\ iDisplayLength u = iDisplayLength t /\ iDisplayStart u = iDisplayStart t
            /\ iDraw u = iDraw t) as [Hl Hd].
  { unfold w1, fnDestroy. destruct (instances w !! (k - 1)%nat) as [t|] eqn:E; cbn.
    - split; [apply length_insert|]. intros j u.
      rewrite list_lookup_insert_Some. intros [(Hj & <- & _)|[Hne Hu]];
        [rewrite Hj in E; by exists t|].
      exists u. split_and!; try done. rewrite (H2 j u Hu).
      destruct (Nat.eqb_spec j (length (instances w) - 1)); [unfold k in Hne; lia|done].
    - split; [done|]. intros j u Hu. apply lookup_lt_Some in Hu. apply lookup_ge_None in E.
      unfold k in E. lia. }
  assert (forall j u, (instances w1 ++ [fresh_table datatables_paging_len]) !! j = Some u ->
            (j < k)%nat /\ instances w1 !! j = Some u
            \/ j = k /\ u = fresh_table datatables_paging_len) as Hu.
  { intros j u [Hj|[Hj Hx]]%lookup_app_Some.
    - left. split; [|done]. apply lookup_lt_Some in Hj. lia.
    - apply list_lookup_singleton_Some in Hx as [Hx <-]. right. split; [lia|done]. }
  split; cbn [instances body_rows next_node].
  - apply add_table_ok; done.
  - intros j u [[Hj Hx]|[-> ->]]%Hu; rewrite length_app, Hl; cbn [length].
    + destruct (Hd j u Hx) as (t & _ & -> & _).
      destruct (Nat.eqb_spec j (k + 1 - 1)); [lia|done].
    + replace (k + 1 - 1)%nat with k by lia. by rewrite Nat.eqb_refl.
  - intros j u [[Hj Hx]|[-> ->]]%Hu; [|split; [done|apply Z.divide_0_r]].
    destruct (Hd j u Hx) as (t & Ht' & _ & -> & -> & _). by apply (H3 j).
  - intros j u [[Hj Hx]|[-> ->]]%Hu; [|done].
    destruct (Hd j u Hx) as (t & Ht' & _ & _ & _ & ->). by apply (H4 j).
Qed.

Lemma grid_new w : grid_ok w -> grid_ok (fst (newDataTable datatables_paging_len w)).
Proof. intros H. apply grid_redraw. by apply grid_added. Qed.

Lemma grid_reload pageNum dataLen rowDeleted k w : grid_ok w ->
  grid_ok (fst (datatablesReload k pageNum dataLen rowDeleted w)).
Proof.
  intros H. unfold datatablesReload, reload. destruct k as [k|]; [|done].
  repeat case_match; apply grid_redraw; try done. by apply grid_page.
Qed.

(** What one event does to the tables. *)
Inductive grid_step (w : tables) : tables -> Prop :=
  | grid_same : grid_step w w
  | grid_made : grid_step w (fst (newDataTable datatables_paging_len w))
  | grid_paged k action redraw : grid_step w (fst (fnPageChange k action redraw w))
  | grid_clicked k action : grid_step w (fst (click_page k action w))
  | grid_reloaded k pageNum dataLen rowDeleted :
      grid_step w (fst (datatablesReload k pageNum dataLen rowDeleted w))
  | grid_answered k d : grid_step w (_fnAjaxUpdateDraw k d w).

Lemma grid_step_ok w w' : grid_step w w' -> grid_ok w -> grid_ok w'.
Proof. intros []; auto using grid_new, grid_page, grid_click, grid_reload, grid_update. Qed.


(** Tables stay, and their draws are counted up. *)
Definition grid_le (w w' : tables) : Prop :=
  forall k t, instances w !! k = Some t -> exists t', instances w' !! k = Some t' /\ iDraw t <= iDraw t'.

#[export] Instance grid_le_preorder : PreOrder grid_le.
Proof.
  split; [by intros w k t ?; exists t|].
  intros w1 w2 w3 H1 H2 k t Hk. destruct (H1 k t Hk) as (t' & Hk' & Hle).
  destruct (H2 k t' Hk') as (t'' & ? & ?). exists t''. split; [done|lia].
Qed.

Definition call_ok (r : tables * option ajax_call) : Prop :=
  forall call, r.2 = Some call ->
  exists t, instances r.1 !! call_table call = Some t /\ 0 < call_draw call <= iDraw t.

(** An operation that keeps the tables and asks for data rightly. *)
Definition op_ok (w : tables) (r : tables * option ajax_call) : Prop := grid_le w r.1 /\ call_ok r.

Lemma no_call w w' : grid_le w w' -> op_ok w (w', None).
Proof. by split. Qed.

Lemma le_op w w' r : grid_le w w' -> op_ok w' r -> op_ok w r.
Proof. intros H [H1 H2]. split; [by etransitivity|done]. Qed.

Lemma le_put k t t' w : instances w !! k = Some t -> iDraw t <= iDraw t' -> grid_le w (put k t' w).
Proof.
  intros Hk Hle j u Hj. cbn. destruct (decide (k = j)) as [->|].
  - exists t'. rewrite list_lookup_insert_eq by by apply lookup_lt_Some in Hk.
    split; [done|]. by simplify_eq.
  - exists u. by rewrite list_lookup_insert_ne.
Qed.

Lemma draw_le k w : grid_ok w -> op_ok w (_fnDraw k w).
Proof.
  intros H. unfold _fnDraw. destruct (instances w !! k) as [t|] eqn:E; [|by apply no_call].
  case_match; [|apply no_call; by intros j u ?; exists u]. split; cbn [fst].
  - apply (le_put k t); [done|]. cbn. lia.
  - intros call [= <-]. exists (set_asked t). cbn. pose proof (g_draw w H k t E).
    rewrite list_lookup_insert_eq by by apply lookup_lt_Some in E. split; [done|lia].
Qed.

Lemma redraw_le k hold w : grid_ok w -> op_ok w (_fnReDraw k hold w).
Proof.
  intros H. unfold _fnReDraw. destruct (instances w !! k) as [t|] eqn:E; [|by apply no_call].
  destruct hold; [by apply draw_le|]. apply (le_op w (put k (set_start 0 t) w));
    [by apply (le_put k t)|apply draw_le; by apply grid_start; [..|apply Z.divide_0_r]].
Qed.

Lemma page_le k action redraw w : grid_ok w -> op_ok w (fnPageChange k action redraw w).
Proof.
  intros H. unfold fnPageChange. destruct (instances w !! k) as [t|] eqn:E; [|by apply no_call].
  set (w' := put _ _ w). assert (grid_le w w') as Hw by by apply (le_put k t).
  case_match; [|by apply no_call]. apply (le_op w w' _ Hw), draw_le.
  destruct (g_pages w H k t E). by apply grid_start; [..|apply page_start_divides].
Qed.

Lemma click_le k action w : grid_ok w -> op_ok w (click_page k action w).
Proof.
  intros H. unfold click_page. destruct (instances w !! k) as [t|]; [|by apply no_call].
  case_match; [by apply no_call|]. destruct (page_le k action false w H) as [Hp _].
  apply (le_op w _ _ Hp), draw_le. by apply grid_page.
Qed.

Lemma added_le w : grid_le w (added w).
Proof.
  intros k t Hk. unfold added, fnDestroy.
  destruct (instances w !! (length (instances w) - 1)%nat) as [u|] eqn:E; cbn.
  - assert (iDraw u <= iDraw (set_destroying u)) as Hu by done.
    destruct (le_put _ u (set_destroying u) w E Hu k t Hk) as (t' & Ht & Hle).
    exists t'. split; [by apply lookup_app_l_Some|done].
  - exists t. split; [by apply lookup_app_l_Some|done].
Qed.

Lemma new_le w : grid_ok w -> op_ok w (newDataTable datatables_paging_len w).
Proof.
  intros H. apply (le_op w (added w) _ (added_le w)). apply (redraw_le _ false (added w)).
  by apply grid_added.
Qed.

Lemma reload_le k pageNum dataLen rowDeleted w : grid_ok w ->
  op_ok w (datatablesReload k pageNum dataLen rowDeleted w).
Proof.
  intros H. unfold datatablesReload, reload. destruct k as [k|]; [|by apply no_call].
  repeat case_match; try by apply redraw_le.
  destruct (page_le k (PageNumber (pageNum - 1 - 1)) false w H) as [Hp _].
  apply (le_op w _ _ Hp), redraw_le. by apply grid_page.
Qed.

Lemma update_le k d w : grid_le w (_fnAjaxUpdateDraw k d w).
Proof.
  destruct (instances w !! k) as [t|] eqn:E.
  2: { unfold _fnAjaxUpdateDraw. by rewrite E. }
  rewrite (update_draw_eq k d t w E). destruct (out_of_sequence d t) eqn:Ho; [done|].
  apply (le_put k t _ w E). cbn. unfold out_of_sequence in Ho.
  destruct (Z.eqb_spec (dd_draw d) 0); [done|]. cbn in Ho. apply Z.ltb_ge in Ho. lia.
Qed.

(** Every table has drawn. *)
Definition drawn (w : tables) : Prop := forall k t, instances w !! k = Some t -> 0 < iDraw t.

Lemma drawn_length w w' : length (instances w') = length (instances w) -> grid_le w w' ->
  drawn w -> drawn w'.
Proof.
  intros Hl Hle H k t Hk. destruct (instances w !! k) as [u|] eqn:E.
  - destruct (Hle k u E) as (t' & Ht & ?). specialize (H k u E). rewrite Hk in Ht.
    injection Ht as <-. lia.
  - apply lookup_ge_None in E. apply lookup_lt_Some in Hk. lia.
Qed.

Lemma new_table_drawn w : drawn w -> drawn (fst (newDataTable datatables_paging_len w)).
Proof.
  intros H. pose proof (added_le w) as Hle.
  set (k := length (instances w)).
  assert (length (instances (added w)) = S k) as Hl.
  { unfold added, fnDestroy. cbn. rewrite length_app. case_match; cbn; rewrite ?length_insert; unfold k; lia. }
  assert (instances (added w) !! k = Some (fresh_table datatables_paging_len)) as Hk.
  { unfold added. cbn. apply list_lookup_middle. unfold fnDestroy. case_match; [|done].
    cbn. by rewrite length_insert. }
  assert (instances (fst (newDataTable datatables_paging_len w))
          = <[k := set_asked (fresh_table datatables_paging_len)]> (instances (added w))) as E.
  { change (fst (newDataTable datatables_paging_len w)) with (fst (_fnReDraw k false (added w))).
    unfold _fnReDraw. rewrite Hk. unfold _fnDraw. cbn [instances put].
    rewrite list_lookup_insert_eq by lia. cbn. by rewrite list_insert_insert_eq. }
  intros j t. rewrite E, list_lookup_insert_Some. intros [(_ & <- & _)|[Hne Hj]]; [done|].
  pose proof (lookup_lt_Some _ _ _ Hj). destruct (instances w !! j) as [u|] eqn:Eu.
  - destruct (Hle j u Eu) as (t' & Ht & ?). rewrite Hj in Ht. injection Ht as <-.
    specialize (H j u Eu). lia.
  - apply lookup_ge_None in Eu. unfold k in *. lia.
Qed.

Lemma draw_length k w : length (instances (fst (_fnDraw k w))) = length (instances w).
Proof. unfold _fnDraw. repeat case_match; cbn; by rewrite ?length_insert. Qed.

Lemma redraw_length k hold w : length (instances (fst (_fnReDraw k hold w))) = length (instances w).
Proof.
  unfold _fnReDraw. case_match; [|done]. rewrite draw_length.
  destruct hold; cbn; by rewrite ?length_insert.
Qed.

Lemma page_length k action redraw w :
  length (instances (fst (fnPageChange k action redraw w))) = length (instances w).
Proof.
  unfold fnPageChange. case_match; [|done]. case_match; rewrite ?draw_length; cbn; by rewrite length_insert.
Qed.

Lemma click_length k action w : length (instances (fst (click_page k action w))) = length (instances w).
Proof.
  unfold click_page. destruct (instances w !! k) as [t|]; [|done].
  case_match; [done|]. by rewrite draw_length, page_length.
Qed.

Lemma update_length k d w : length (instances (_fnAjaxUpdateDraw k d w)) = length (instances w).
Proof.
  destruct (instances w !! k) as [t|] eqn:E.
  - rewrite (update_draw_eq k d t w E). destruct (out_of_sequence d t); [done|]. cbn. by rewrite length_insert.
  - unfold _fnAjaxUpdateDraw. by rewrite E.
Qed.

Lemma grid_step_drawn w w' : grid_step w w' -> grid_ok w -> drawn w -> drawn w'.
Proof.
  intros [] Hg H; [done|by apply new_table_drawn|apply (drawn_length w)..]; try done;
    rewrite ?page_length, ?update_length; try done.
  - by apply page_le.
  - apply click_length.
  - by apply click_le.
  - unfold datatablesReload, reload. repeat case_match; try done;
      by rewrite redraw_length, ?page_length.
  - by apply reload_le.
  - apply update_le.
Qed.

Lemma grid_step_le w w' : grid_step w w' -> grid_ok w -> grid_le w w'.
Proof.
  intros [] H; [done|by apply new_le|by apply page_le|by apply click_le|by apply reload_le|apply update_le].
Qed.
