(* ===== verification/Pager.v ===== *)
(** * What a table says about its pages
    (jquery.dataTables.js: [_fnUpdateInfo], [_fnInfoMacros], [fnFormatNumber],
    [_numbers], [full_numbers]; dataTables.bootstrap.js: the buttons).

    Below a table stand the line that counts its rows and the buttons of its
    pages.  Both are drawn from the settings object after every draw, and a button
    acts on the settings it finds when it is clicked.  Theorems: the buttons that
    are offered, what each leads to, and the text of the line. *)

From stdpp Require Import base tactics strings gmap list numbers relations.
From Stdlib Require Import ZArith Lia.
From S2P Require Import Prelude Regex RegexFacts RegexSteps Json Locale Language DataTable Console.
From S2P Require Import DataTableFacts.
Import Common.
Local Open Scope Z_scope.

(** ** Numbers *)

(** [Math.ceil(a / b)]. *)
Definition ceil_div (a b : Z) : Z := - (- a / b).

(** [fnFormatNumber], with the separator of the language. *)
Definition fnFormatNumber (sThousands : jsstr) (toFormat : Z) : jsstr :=
  replace_all false (regex "\B(?=(\d{3})+(?!\d))") (λ _, sThousands) (dec toFormat).

(** ** The texts of a table *)
Record labels := mkLabels {
  sInfo : jsstr;
  sInfoEmpty : jsstr;
  sInfoFiltered : jsstr;
  sInfoPostFix : jsstr;
  sThousands : jsstr;
  sFirst : jsstr;
  sPrevious : jsstr;
  sNext : jsstr;
  sLast : jsstr;
}.

(** [oLanguage]: what the page gives, and the defaults for what it does not. *)
Definition oLanguage (l : table_language) : labels :=
  mkLabels (default (js "Showing _START_ to _END_ of _TOTAL_ entries") (info l))
    (default (js "Showing 0 to 0 of 0 entries") (infoEmpty l))
    (js "(filtered from _MAX_ total entries)") [] (js ",")
    (default (js "First") (paginate_first l)) (default (js "Previous") (paginate_previous l))
    (default (js "Next") (paginate_next l)) (default (js "Last") (paginate_last l)).

(** ** The line that counts the rows *)
Definition fnDisplayEnd (t : dtable) : Z :=
  if iDisplayLength t =? -1 then iDisplayStart t + Z.of_nat (length (aoData t))
  else Z.min (iDisplayStart t + iDisplayLength t) (iRecordsDisplay t).

Definition _fnInfoMacros (lang : labels) (t : dtable) (str : jsstr) : jsstr :=
  let formatter := fnFormatNumber (sThousands lang) in
  let start := iDisplayStart t + 1 in
  let len := iDisplayLength t in
  let vis := iRecordsDisplay t in
  let all := len =? -1 in
  let replace p x s := replace_all false (regex p) (λ _, x) s in
  replace "_PAGES_" (formatter (if all then 1 else ceil_div vis len))
    (replace "_PAGE_" (formatter (if all then 1 else ceil_div start len))
      (replace "_TOTAL_" (formatter vis)
        (replace "_MAX_" (formatter (iRecordsTotal t))
          (replace "_END_" (formatter (fnDisplayEnd t))
            (replace "_START_" (formatter start) str))))).

Definition _fnUpdateInfo (lang : labels) (t : dtable) : jsstr :=
  let max := iRecordsTotal t in
  let total := iRecordsDisplay t in
  let out := if total =? 0 then sInfoEmpty lang else sInfo lang in
  let out := if total =? max then out else out ++ js " " ++ sInfoFiltered lang in
  _fnInfoMacros lang t (out ++ sInfoPostFix lang).

(** ** The buttons of the pages *)
Inductive pbutton := BFirst | BPrevious | BNext | BLast | BEllipsis | BPage (n : Z).

#[export] Instance pbutton_eq_dec : EqDecision pbutton.
Proof. solve_decision. Defined.

Definition numbers_length : Z := 7.

Definition _range (a b : Z) : list pbutton := BPage <$> seqZ a (b - a).

Definition _numbers (page pages : Z) : list pbutton :=
  let buttons := numbers_length in
  let half := buttons / 2 in
  if pages <=? buttons then _range 0 pages
  else if page <=? half then
    _range 0 (buttons - 2) ++ [BEllipsis; BPage (pages - 1)]
  else if page >=? pages - 1 - half then
    BPage 0 :: BEllipsis :: _range (pages - (buttons - 2)) pages
  else
    BPage 0 :: BEllipsis :: _range (page - half + 2) (page + half - 1)
      ++ [BEllipsis; BPage (pages - 1)].

Definition full_numbers (page pages : Z) : list pbutton :=
  [BFirst; BPrevious] ++ _numbers page pages ++ [BNext; BLast].

(** A button as it stands in the page. *)
Record li := mkLi { li_button : pbutton; li_text : jsstr; li_disabled : bool; li_active : bool }.

(** [attach]: a button without a text is left out. *)
Definition attach_one (lang : labels) (page pages : Z) (b : pbutton) : option li :=
  let li := match b with
    | BEllipsis => mkLi b (js "&#x2026;") true false
    | BFirst => mkLi b (sFirst lang) (negb (page >? 0)) false
    | BPrevious => mkLi b (sPrevious lang) (negb (page >? 0)) false
    | BNext => mkLi b (sNext lang) (negb (page <? pages - 1)) false
    | BLast => mkLi b (sLast lang) (negb (page <? pages - 1)) false
    | BPage n => mkLi b (dec (n + 1)) false (page =? n)
    end in
  match li_text li with [] => None | _ => Some li end.

Definition attach (lang : labels) (page pages : Z) (buttons : list pbutton) : list li :=
  omap (attach_one lang page pages) buttons.

(** The page and the number of pages the buttons are drawn with. *)
Definition drawn_page (t : dtable) : Z :=
  if iDisplayLength t =? -1 then 0 else ceil_div (iDisplayStart t) (iDisplayLength t).
Definition drawn_pages (t : dtable) : Z :=
  if iDisplayLength t =? -1 then 1 else ceil_div (iRecordsDisplay t) (iDisplayLength t).

Definition pager (lang : labels) (t : dtable) : list li :=
  attach lang (drawn_page t) (drawn_pages t) (full_numbers (drawn_page t) (drawn_pages t)).

Definition action_of (b : pbutton) : option page_action :=
  match b with
  | BFirst => Some PageFirst
  | BPrevious => Some PagePrevious
  | BNext => Some PageNext
  | BLast => Some PageLast
  | BPage n => Some (PageNumber n)
  | BEllipsis => None
  end.

(** [clickHandler]. *)
Definition click_li (k : nat) (b : li) (w : tables) : tables * option ajax_call :=
  if li_disabled b then (w, None)
  else match action_of (li_button b) with
       | Some action => click_page k action w
       | None => (w, None)
       end.

(** ** Numbers in groups of three *)

(** The regular expression of [fnFormatNumber], read. *)
Definition three_digits : re := Rep (Class false [Digit]) 3 (Some 3%nat) true.
Definition groups_ahead : re :=
  Cat (Rep (Group 1 three_digits) 1 None true) (Look true (Class false [Digit])).

Lemma thousands_re : regex "\B(?=(\d{3})+(?!\d))" = Cat NotBoundary (Look false groups_ahead).
Proof. vm_compute. reflexivity. Qed.

Abbreviation all_digits := (Forall (λ c, is_digit c = true)).

Lemma digit_steps n p q : nsteps (Matches false (Class false [Digit])) n p q ->
  exists l, p.2 = l ++ q.2 /\ length l = n.
Proof.
  induction 1 as [p|n p p' q (c & rest & E & _ & ->) _ (l & El & Hl)]; [by exists []|].
  exists (c :: l). cbn in *. by rewrite E, El, Hl.
Qed.

Lemma digit_steps_all l prev rest : all_digits l ->
  exists prev', nsteps (Matches false (Class false [Digit])) (length l) (prev, l ++ rest) (prev', rest).
Proof.
  intros H. revert prev. induction H as [|c l Hc Hl IH]; intros prev; [exists prev; constructor|].
  destruct (IH (Some c)) as [prev' Hp]. exists prev'. apply nsteps_l with (Some c, l ++ rest); [|done].
  exists c, (l ++ rest). by rewrite digit_in.
Qed.

Lemma group_steps n p q : nsteps (Matches false (Group 1 three_digits)) n p q ->
  exists l, p.2 = l ++ q.2 /\ length l = (3 * n)%nat.
Proof.
  induction 1 as [p|n p p' q (k & Hk & Hk' & Hs) _ (l & El & Hl)]; [by exists []|].
  apply digit_steps in Hs as (l' & El' & Hl'). cbn in Hk'. exists (l' ++ l).
  rewrite El', El, length_app, app_assoc. split; [done|lia].
Qed.

Lemma group_steps_all n l prev : all_digits l -> length l = (3 * n)%nat ->
  exists prev', nsteps (Matches false (Group 1 three_digits)) n (prev, l) (prev', []).
Proof.
  revert l prev. induction n as [|n IH]; intros l prev Hd Hl.
  - exists prev. destruct l; [constructor|done].
  - rewrite <- (take_drop 3 l) in Hd. apply Forall_app in Hd as [H1 H2].
    destruct (digit_steps_all (take 3 l) prev (drop 3 l) H1) as [p1 Hp1].
    rewrite take_drop, length_take_le in Hp1 by lia.
    destruct (IH (drop 3 l) p1 H2) as [p2 Hp2]; [rewrite length_drop; lia|].
    exists p2. apply nsteps_l with (p1, drop 3 l); [|done]. exists 3%nat. by split_and!; [|cbn|].
Qed.

(** A number of digits that is a positive multiple of three lies ahead. *)
Definition groups_of_three (s : jsstr) : bool :=
  negb (length s =? 0)%nat && (length s mod 3 =? 0)%nat.

Lemma groups_ahead_spec prev s caps : all_digits s ->
  is_Some (m false groups_ahead Some (mkM prev s caps)) <-> groups_of_three s = true.
Proof.
  intros Hd. change (m false groups_ahead Some (mkM prev s caps)) with (match_here false groups_ahead (mkM prev s caps)).
  rewrite match_here_spec by done. unfold place_of. cbn [ms_prev ms_rest].
  unfold groups_of_three. rewrite andb_true_iff, negb_true_iff, Nat.eqb_neq, Nat.eqb_eq. split.
  - intros (q & p' & (n & Hn & _ & Hs) & -> & Hno). apply group_steps in Hs as (l & E & Hl). cbn in E.
    assert (p'.2 = []) as Ee.
    { destruct p' as [a [|c rest]]; [done|]. exfalso. apply (Hno (Some c, rest)). exists c, rest.
      split; [done|]. split; [|done]. rewrite digit_in. cbn in E. subst s.
      apply Forall_app in Hd as [_ Hd]. by apply Forall_cons in Hd as [? _]. }
    rewrite E, Ee, app_nil_r, Hl, Nat.mul_comm. split; [lia|apply Nat.Div0.mod_mul].
  - intros [H0 H3]. apply Nat.Div0.mod_divides in H3 as [n Hn].
    destruct (group_steps_all n s prev Hd Hn) as [p1 Hp]. exists (p1, []), (p1, []).
    split; [exists n; split; [lia|by split]|]. split; [done|]. by intros p' (c & rest & ? & _).
Qed.

(** The text with separators where a multiple of three digits lies ahead. *)
Fixpoint grouped (sep s : jsstr) : jsstr :=
  match s with
  | [] => []
  | c :: s' => (if groups_of_three s then sep else []) ++ c :: grouped sep s'
  end.

Definition group_digits (sep s : jsstr) : jsstr :=
  match s with [] => [] | c :: s' => c :: grouped sep s' end.

Lemma digit_word c : is_digit c = true -> is_word c = true.
Proof. unfold is_word. by intros ->. Qed.

Lemma here_spec prev s : all_digits s ->
  match match_here false (Cat NotBoundary (Look false groups_ahead)) (mkM prev s []) with
  | Some e => at_boundary (mkM prev s []) = false /\ groups_of_three s = true /\ ms_rest e = s
  | None => at_boundary (mkM prev s []) = true \/ groups_of_three s = false
  end.
Proof.
  intros Hd. unfold match_here. rewrite m_Cat. cbn [m].
  destruct (at_boundary (mkM prev s [])); [by left|].
  change (m false groups_ahead Some (mkM prev s [])) with (m false groups_ahead Some (mkM prev s [])).
  pose proof (groups_ahead_spec prev s [] Hd) as Hg.
  destruct (m false groups_ahead Some (mkM prev s [])) as [e|].
  - split_and!; [done| |done]. by apply Hg.
  - right. destruct (groups_of_three s); [|done]. by destruct (proj2 Hg eq_refl).
Qed.

(** One turn of the loop, where a match takes no character. *)
Lemma loop_turn r f prev c s n :
  (forall e, match_here false r (mkM prev (c :: s) []) = Some e -> ms_rest e = c :: s) ->
  replace_loop false (S n) r f prev (c :: s)
  = match match_here false r (mkM prev (c :: s) []) with
    | Some e => f (λ k, if (k =? 0)%nat then Some [] else cap (ms_caps e) k)
    | None => []
    end ++ c :: replace_loop false n r f (Some c) s.
Proof.
  intros H. cbn [replace_loop]. destruct (match_here _ _ _) as [e|]; [|done].
  rewrite (H e eq_refl), Nat.sub_diag. done.
Qed.

Lemma grouped_loop sep s c : all_digits (c :: s) ->
  replace_loop false (S (length s)) (Cat NotBoundary (Look false groups_ahead)) (λ _, sep) (Some c) s
  = grouped sep s.
Proof.
  revert c. induction s as [|d s IH]; intros c Hd.
  - cbn [length replace_loop]. apply Forall_cons in Hd as [Hc _].
    pose proof (here_spec (Some c) [] ltac:(constructor)) as H.
    destruct (match_here _ _ _) as [e|]; [|done]. destruct H as (_ & [=] & _).
  - apply Forall_cons in Hd as [Hc Hd]. cbn [length].
    pose proof (here_spec (Some c) (d :: s) Hd) as H.
    assert (at_boundary (mkM (Some c) (d :: s) []) = false) as Hb.
    { unfold at_boundary. cbn. pose proof (proj1 (proj1 (Forall_cons _ _ _) Hd)) as Hd'.
      by rewrite (digit_word c Hc), (digit_word d Hd'). }
    rewrite loop_turn by (intros e He; by rewrite He in H; destruct H as (_ & _ & ?)).
    rewrite (IH d Hd). cbn [grouped]. f_equal. destruct (match_here _ _ _) as [e|].
    + destruct H as (_ & -> & _). done.
    + destruct H as [H|H]; [by rewrite Hb in H|]. by rewrite H.
Qed.

Lemma format_digits sep n : 0 <= n -> fnFormatNumber sep n = group_digits sep (dec n).
Proof.
  intros Hn. destruct (dec_digits n Hn) as [Hne Hd]. unfold fnFormatNumber. rewrite thousands_re.
  destruct (dec n) as [|c s]; [done|]. unfold replace_all. cbn [length].
  pose proof (here_spec None (c :: s) Hd) as H.
  assert (at_boundary (mkM None (c :: s) []) = true) as Hb.
  { unfold at_boundary. cbn. apply Forall_cons in Hd as [Hc _]. by rewrite (digit_word c Hc). }
  rewrite loop_turn by (intros e He; by rewrite He in H; destruct H as (_ & _ & ?)).
  rewrite (grouped_loop sep s c Hd). destruct (match_here _ _ _) as [e|]; [|done].
  destruct H as (H & _). by rewrite Hb in H.
Qed.

(** *** In arithmetic *)
Lemma digits_acc base fuel z acc : digits base fuel z acc = digits base fuel z [] ++ acc.
Proof.
  revert z acc. induction fuel as [|fuel IH]; intros z acc; [done|]. cbn.
  case_match; [done|]. by rewrite IH, (IH _ [_]), <- app_assoc.
Qed.

Lemma digits_more base fuel fuel' z : 2 <= base -> 0 <= z -> z < 2 ^ Z.of_nat fuel ->
  (fuel <= fuel')%nat -> (0 < fuel)%nat -> digits base fuel z [] = digits base fuel' z [].
Proof.
  intros Hb. revert fuel' z. induction fuel as [|fuel IH]; intros fuel' z Hz Hl Hf H0; [lia|].
  destruct fuel' as [|fuel']; [lia|]. cbn. destruct (z <? base) eqn:E; [done|]. apply Z.ltb_ge in E.
  rewrite (digits_acc base fuel), (digits_acc base fuel'). f_equal.
  rewrite Nat2Z.inj_succ, Z.pow_succ_r in Hl by lia.
  assert (z / base < 2 ^ Z.of_nat fuel) by (apply Z.div_lt_upper_bound; [lia|nia]).
  destruct fuel as [|fuel]; [exfalso; cbn in Hl; lia|]. apply IH; [by apply Z.div_pos; lia|done|lia|lia].
Qed.

Lemma digits_turn base fuel z acc : base <= z ->
  digits base (S fuel) z acc = digits base fuel (z / base) (digit_char (z mod base) :: acc).
Proof. intros H. cbn. by replace (z <? base) with false by (symmetry; apply Z.ltb_ge; lia). Qed.

Lemma dec_step z : 10 <= z -> dec z = dec (z / 10) ++ [48 + z mod 10].
Proof.
  intros Hz. pose proof (Z.div_pos z 10 ltac:(lia) ltac:(lia)). unfold dec, to_base.
  replace (z <? 0) with false by (symmetry; apply Z.ltb_ge; lia).
  replace (z / 10 <? 0) with false by (symmetry; apply Z.ltb_ge; lia).
  pose proof (Z.mod_pos_bound z 10 ltac:(lia)).
  replace [48 + z mod 10] with [digit_char (z mod 10)]
    by (unfold digit_char; by replace (z mod 10 <? 10) with true by (symmetry; apply Z.ltb_lt; lia)).
  pose proof (log2_fuel z ltac:(lia)) as Hf.
  rewrite (digits_turn 10 _ z) by lia. rewrite digits_acc. f_equal. symmetry. apply digits_more; [lia|lia| |..].
  - apply log2_fuel. lia.
  - assert (Z.log2 (z / 10) < Z.log2 z); [|pose proof (Z.log2_nonneg (z / 10)); lia].
    apply Z.log2_lt_pow2; [apply Z.div_str_pos; lia|].
    pose proof (Z.log2_spec z ltac:(lia)) as [_ Hs]. rewrite Z.pow_succ_r in Hs by apply Z.log2_nonneg.
    apply Z.div_lt_upper_bound; lia.
  - lia.
Qed.

Definition pad3 (r : Z) : jsstr := [48 + r / 100; 48 + r / 10 mod 10; 48 + r mod 10].

Lemma dec_thousands z : 1000 <= z -> dec z = dec (z / 1000) ++ pad3 (z mod 1000).
Proof.
  intros Hz. rewrite (dec_step z) by lia.
  rewrite (dec_step (z / 10)) by (apply Z.div_le_lower_bound; lia).
  rewrite (dec_step (z / 10 / 10)) by (rewrite Z.div_div by lia; apply Z.div_le_lower_bound; lia).
  rewrite <- !app_assoc, !Z.div_div by lia. unfold pad3. cbn [app].
  change (10 * 10 * 10) with 1000. change (10 * 10) with 100.
  assert (z / 100 mod 10 = z mod 1000 / 100) as -> by (Z.div_mod_to_equations; lia).
  assert (z / 10 mod 10 = z mod 1000 / 10 mod 10) as -> by (Z.div_mod_to_equations; lia).
  by assert (z mod 10 = z mod 1000 mod 10) as -> by (Z.div_mod_to_equations; lia).
Qed.

Lemma grouped_three sep x p : length p = 3%nat -> grouped sep (x ++ p) = grouped sep x ++ sep ++ p.
Proof.
  intros Hp. induction x as [|c x IH]; cbn [app grouped].
  - destruct p as [|a [|b [|c [|]]]]; try done.
  - rewrite IH. assert (groups_of_three (c :: x ++ p) = groups_of_three (c :: x)) as ->.
    { unfold groups_of_three. cbn [length]. rewrite length_app, Hp. f_equal.
      replace (S (length x + 3)) with (S (length x) + 1 * 3)%nat by lia. by rewrite Nat.Div0.mod_add. }
    by rewrite <- app_assoc.
Qed.

Lemma grouped_short sep s : (length s < 3)%nat -> grouped sep s = s.
Proof. intros H. destruct s as [|a [|b [|]]]; cbn in *; try done; lia. Qed.

Lemma dec_short n : 0 <= n < 1000 -> (length (dec n) <=? 3)%nat = true.
Proof. apply (bounded_forall (λ n, (length (dec n) <=? 3)%nat) 1000). vm_compute. reflexivity. Qed.

(** Numbers are written with a separator between the thousands. *)
Lemma format_thousands sep n : 0 <= n ->
  fnFormatNumber sep n
  = if n <? 1000 then dec n else fnFormatNumber sep (n / 1000) ++ sep ++ pad3 (n mod 1000).
Proof.
  intros Hn. rewrite format_digits by done. destruct (n <? 1000) eqn:E.
  - apply Z.ltb_lt in E. pose proof (dec_short n ltac:(lia)) as Hl. apply Nat.leb_le in Hl.
    destruct (dec n) as [|c s]; [done|]. cbn [group_digits] in *. rewrite grouped_short; [done|cbn in Hl; lia].
  - apply Z.ltb_ge in E. rewrite format_digits by (apply Z.div_pos; lia).
    rewrite (dec_thousands n E). pose proof (Z.div_pos n 1000 ltac:(lia) ltac:(lia)) as Hp.
    destruct (dec_digits (n / 1000) Hp) as [Hne _]. destruct (dec (n / 1000)) as [|c s]; [done|].
    cbn [app group_digits]. by rewrite grouped_three.
Qed.

(** ** The line that counts the rows *)

(** A literal text as a regular expression. *)
Fixpoint lit (l : jsstr) : re :=
  match l with
  | [] => Empty
  | [c] => Char c
  | c :: l' => Cat (Char c) (lit l')
  end.

(** Every occurrence of [l] in [s] replaced. *)
Fixpoint subst (fuel : nat) (l v s : jsstr) : jsstr :=
  match fuel with
  | O => s
  | S n =>
      match s with
      | [] => []
      | c :: s' => if is_prefix l s then v ++ subst n l v (drop (length l) s) else c :: subst n l v s'
      end
  end.

Lemma lit_spec l k prev s caps : l <> [] ->
  m false (lit l) k (mkM prev s caps)
  = if is_prefix l s then k (mkM (prev_of prev l) (drop (length l) s) caps) else None.
Proof.
  revert prev s. induction l as [|c l IH]; intros prev s Hl; [done|]. clear Hl.
  assert (forall k', m false (Char c) k' (mkM prev s caps)
          = match s with d :: s' => if c =? d then k' (mkM (Some c) s' caps) else None | [] => None end) as Hc.
  { intros k'. destruct s as [|d s']; [done|]. destruct (Z.eqb_spec c d) as [->|Hne].
    - by rewrite m_Char.
    - rewrite m_Char_no; [done|congruence]. }
  destruct l as [|c' l].
  - cbn [lit is_prefix]. rewrite Hc. destruct s as [|d s]; [done|]. by destruct (c =? d).
  - change (lit (c :: c' :: l)) with (Cat (Char c) (lit (c' :: l))). rewrite m_Cat, Hc.
    cbn [is_prefix]. destruct s as [|d s]; [done|]. destruct (c =? d); [|done].
    rewrite IH by done. rewrite (prev_of_cons prev). done.
Qed.

Lemma replace_lit l v s : l <> [] -> replace_all false (lit l) (λ _, v) s = subst (S (length s)) l v s.
Proof.
  intros Hl. unfold replace_all. generalize (S (length s)) as n, (@None Z) as prev. intros n.
  revert s. induction n as [|n IH]; intros s prev; [done|]. cbn [replace_loop subst].
  unfold match_here. rewrite (lit_spec l Some prev s []) by done. destruct s as [|c s'].
  - destruct l; done.
  - destruct (is_prefix l (c :: s')) eqn:E; [|by rewrite IH].
    cbn [ms_rest ms_prev]. rewrite length_drop.
    assert (1 <= length l <= length (c :: s'))%nat as Hle.
    { apply is_prefix_spec in E as [t E]. rewrite E, length_app. destruct l; [done|cbn; lia]. }
    replace (length (c :: s') - (length (c :: s') - length l))%nat with (length l) by lia.
    replace (length l =? 0)%nat with false by (symmetry; apply Nat.eqb_neq; lia).
    by rewrite IH.
Qed.

(** A stretch without the first character of the literal is kept. *)
Lemma subst_clear c l v a b : Forall (λ x, x <> c) a ->
  subst (S (length (a ++ b))) (c :: l) v (a ++ b) = a ++ subst (S (length b)) (c :: l) v b.
Proof.
  induction 1 as [|x a Hx Ha IH]; [done|]. cbn [app length]. remember (S (length (a ++ b))) as n.
  cbn [subst is_prefix]. rewrite (proj2 (Z.eqb_neq c x)) by congruence. cbn [andb]. by rewrite IH.
Qed.

Definition no_macro : jsstr -> Prop := Forall (λ x, x <> chr "_").

Lemma format_no_macro n : 0 <= n -> no_macro (fnFormatNumber (js ",") n).
Proof.
  intros Hn. rewrite format_digits by done. destruct (dec_digits n Hn) as [_ Hd].
  assert (forall s, all_digits s -> no_macro s) as Hno.
  { intros s Hs. eapply Forall_impl; [exact Hs|]. intros x Hx ->. done. }
  assert (forall s, all_digits s -> no_macro (grouped (js ",") s)) as Hg.
  { intros s Hs. induction Hs as [|c s Hc Hs IH]; [constructor|]. cbn [grouped].
    apply Forall_app. split; [case_match; [by apply Forall_singleton|constructor]|]. constructor; [|done].
    intros ->. done. }
  destruct (dec n) as [|c s]; [constructor|]. apply Forall_cons in Hd as [Hc Hd]. cbn. constructor; [|by apply Hg].
  intros ->. done.
Qed.

Lemma subst_fuel n l v s : l <> [] -> (length s < n)%nat -> subst n l v s = subst (S (length s)) l v s.
Proof.
  intros Hl. revert s. induction n as [n IH] using lt_wf_ind. intros s Hn. destruct n as [|n]; [lia|].
  destruct s as [|c s]; [done|]. cbn [length] in Hn |- *. remember (S (length s)) as k eqn:Ek.
  cbn [subst]. destruct (is_prefix l (c :: s)).
  - f_equal. assert (length (drop (length l) (c :: s)) < k)%nat as Hd.
    { rewrite length_drop. cbn [length]. destruct l; [done|cbn [length]; lia]. }
    destruct (decide (n = k)) as [->|Hne]; [done|]. rewrite (IH n), (IH k); lia || done.
  - f_equal. destruct (decide (n = k)) as [->|Hne]; [done|]. rewrite (IH n), (IH k); lia || done.
Qed.

(** One macro replaced in a text. *)
Definition pass (l v s : jsstr) : jsstr := replace_all false (lit l) (λ _, v) s.

(** The name of a macro: capital letters between two underscores. *)
Definition macro (w : string) : jsstr := 95 :: js w ++ [95].

Lemma pass_eq w v s : pass (macro w) v s = subst (S (length s)) (macro w) v s.
Proof. by apply replace_lit. Qed.

Lemma pass_clear w v a b : no_macro a -> pass (macro w) v (a ++ b) = a ++ pass (macro w) v b.
Proof. intros Ha. rewrite !pass_eq. by apply (subst_clear 95 (js w ++ [95])). Qed.

Lemma pass_none w v a : no_macro a -> pass (macro w) v a = a.
Proof. intros Ha. rewrite <- (app_nil_r a) at 1. rewrite pass_clear, pass_eq by done. apply app_nil_r. Qed.

Lemma pass_hit w v b : pass (macro w) v (macro w ++ b) = v ++ pass (macro w) v b.
Proof.
  rewrite !pass_eq. remember (S (length (macro w ++ b))) as n eqn:En.
  assert (exists k, n = S (S k) /\ length b < S k)%nat as (k & -> & Hk).
  { exists (n - 2)%nat. rewrite En, length_app. unfold macro. cbn [length]. rewrite length_app. cbn. lia. }
  change (subst (S (S k)) (macro w) v (macro w ++ b))
    with (if is_prefix (macro w) (macro w ++ b)
          then v ++ subst (S k) (macro w) v (drop (length (macro w)) (macro w ++ b))
          else 95 :: subst (S k) (macro w) v ((js w ++ [95]) ++ b)).
  rewrite is_prefix_app, drop_app_length. by rewrite (subst_fuel (S k)) by done.
Qed.

Lemma pass_miss w v c s : is_prefix (macro w) (c :: s) = false ->
  pass (macro w) v (c :: s) = c :: pass (macro w) v s.
Proof.
  intros H. rewrite !pass_eq. remember (S (length s)) as k eqn:Ek. cbn [length].
  rewrite <- Ek. cbn [subst]. by rewrite H.
Qed.

(** Another macro is kept, whatever it is followed by that is not its continuation. *)
Lemma pass_other w w' v b : no_macro (js w') ->
  is_prefix (macro w) (macro w' ++ b) = false -> is_prefix (macro w) (95 :: b) = false ->
  pass (macro w) v (macro w' ++ b) = macro w' ++ pass (macro w) v b.
Proof.
  intros Hw H1 H2. unfold macro at 2 3. cbn [app]. rewrite pass_miss by exact H1. f_equal.
  rewrite <- !app_assoc. rewrite pass_clear by done. f_equal. cbn [app]. by rewrite pass_miss.
Qed.

Lemma macro_regex :
  regex "_START_" = lit (macro "START") /\ regex "_END_" = lit (macro "END")
  /\ regex "_MAX_" = lit (macro "MAX") /\ regex "_TOTAL_" = lit (macro "TOTAL")
  /\ regex "_PAGE_" = lit (macro "PAGE") /\ regex "_PAGES_" = lit (macro "PAGES").
Proof. split_and!; vm_compute; reflexivity. Qed.

(** The texts of the console's tables, in the two languages. *)
Definition console_labels (l : language) : labels :=
  oLanguage (datatablesLanguage (mkPage [] (list_to_map (messages l)) None)).

(** The line that counts the rows, as it is meant. *)
Definition info_text (l : language) (first last total : jsstr) : jsstr :=
  match l with
  | En => js "Showing " ++ first ++ js " to " ++ last ++ js " of " ++ total ++ js " entries"
  | Zh => js "从 第 " ++ first ++ js " 条 到 第 " ++ last ++ js " 条 共 " ++ total ++ js " 条记录"
  end.

Definition empty_text (l : language) : jsstr :=
  match l with
  | En => js "Showing 0 to 0 of 0 entries"
  | Zh => js "共 0 条记录"
  end.

Lemma console_info l :
  sInfo (console_labels l) = info_text l (macro "START") (macro "END") (macro "TOTAL")
  /\ sInfoEmpty (console_labels l) = empty_text l /\ sInfoPostFix (console_labels l) = []
  /\ sThousands (console_labels l) = js ",".
Proof. destruct l; split_and!; vm_compute; reflexivity. Qed.

Lemma no_macro_dec s : forallb (λ x, negb (x =? 95)) s = true -> no_macro s.
Proof.
  rewrite forallb_forall. intros H. apply Forall_forall. intros x Hx%list_elem_of_In.
  specialize (H x Hx). apply negb_true_iff, Z.eqb_neq in H. exact H.
Qed.

(** A text that does not begin with a capital letter cannot continue a macro. *)
Definition no_capital (s : jsstr) : Prop :=
  exists h t, s = h :: t /\ (h < 65 \/ 90 < h) /\ h <> 95.

Lemma no_capital_dec s :
  match s with h :: _ => ((h <? 65) || (90 <? h)) && negb (h =? 95) | [] => false end = true -> no_capital s.
Proof. destruct s as [|h t]; [done|]. intros H. exists h, t. split; [done|]. lia. Qed.

Lemma no_capital_app s t : no_capital s -> no_capital (s ++ t).
Proof. intros (h & u & -> & H). by exists h, (u ++ t). Qed.

Lemma no_capital_prefix w b : w ∈ ["START"; "END"; "MAX"; "TOTAL"; "PAGE"; "PAGES"]%string -> no_capital b ->
  is_prefix (macro w) (95 :: b) = false.
Proof.
  intros Hw (h & t & -> & Hh & _). repeat (apply elem_of_cons in Hw as [->|Hw]); [..|by apply elem_of_nil in Hw];
    unfold macro; [set (l := js "START")|set (l := js "END")|set (l := js "MAX")|set (l := js "TOTAL")
                  |set (l := js "PAGE")|set (l := js "PAGES")];
    vm_compute in l; subst l; cbn [app is_prefix]; rewrite Z.eqb_refl; cbn [andb];
    apply andb_false_iff; left; apply Z.eqb_neq; lia.
Qed.

(** The macros of the line, one after the other: none is taken for another, and
    no number is taken for one. *)
Lemma info_passes p q r s a b c x y z : no_macro p -> no_macro q -> no_macro r -> no_macro s ->
  no_capital q -> no_capital r -> no_capital s -> no_macro a -> no_macro b -> no_macro c ->
  pass (macro "PAGES") x (pass (macro "PAGE") y (pass (macro "TOTAL") c
    (pass (macro "MAX") z (pass (macro "END") b (pass (macro "START") a
      (p ++ macro "START" ++ q ++ macro "END" ++ r ++ macro "TOTAL" ++ s))))))
  = p ++ a ++ q ++ b ++ r ++ c ++ s.
Proof.
  intros Hp Hq Hr Hs Cq Cr Cs Ha Hb Hc.
  assert (forall w w' v u, w ∈ ["START"; "END"; "MAX"; "TOTAL"; "PAGE"; "PAGES"]%string ->
            no_macro (js w') -> is_prefix (macro w) (macro w' ++ u) = false -> no_capital u ->
            pass (macro w) v (macro w' ++ u) = macro w' ++ pass (macro w) v u) as Ho.
  { intros w w' v u Hw Hn Hx Hu. apply pass_other; [done|done|by apply no_capital_prefix]. }
  assert (no_macro (js "END") /\ no_macro (js "TOTAL")) as [HE HT] by (split; by apply no_macro_dec).
  rewrite (pass_clear _ _ p), pass_hit, (pass_clear _ _ q), Ho, (pass_clear _ _ r), Ho, (pass_none _ _ s)
    by (done || set_solver || by apply no_capital_app).
  rewrite (pass_clear "END" _ p), (pass_clear "END" _ a), (pass_clear "END" _ q), pass_hit,
    (pass_clear "END" _ r), Ho, (pass_none "END" _ s) by (done || set_solver || by apply no_capital_app).
  rewrite (pass_clear "MAX" _ p), (pass_clear "MAX" _ a), (pass_clear "MAX" _ q), (pass_clear "MAX" _ b),
    (pass_clear "MAX" _ r), Ho, (pass_none "MAX" _ s) by (done || set_solver || by apply no_capital_app).
  rewrite (pass_clear "TOTAL" _ p), (pass_clear "TOTAL" _ a), (pass_clear "TOTAL" _ q), (pass_clear "TOTAL" _ b),
    (pass_clear "TOTAL" _ r), pass_hit, (pass_none "TOTAL" _ s) by done.
  rewrite (pass_none "PAGE"), (pass_none "PAGES"); [done|..]; repeat (apply Forall_app; split); done.
Qed.

(** What the line says of a table of the console whose first row shown is one of
    its rows: the numbers of the first and the last row shown and of all rows. *)
Lemma update_info l t : 0 <= iDisplayStart t < iRecordsDisplay t -> 0 < iDisplayLength t ->
  iRecordsTotal t = iRecordsDisplay t ->
  let number := fnFormatNumber (js ",") in
  _fnUpdateInfo (console_labels l) t
  = info_text l (number (iDisplayStart t + 1))
      (number (Z.min (iDisplayStart t + iDisplayLength t) (iRecordsDisplay t)))
      (number (iRecordsDisplay t)).
Proof.
  intros Hs Hl Ht number. unfold _fnUpdateInfo. destruct (console_info l) as (E1 & _ & E2 & E3).
  rewrite Ht, Z.eqb_refl, E1, E2, app_nil_r, (proj2 (Z.eqb_neq (iRecordsDisplay t) 0)) by lia.
  unfold _fnInfoMacros. rewrite E3. destruct macro_regex as (-> & -> & -> & -> & -> & ->).
  unfold fnDisplayEnd. rewrite (proj2 (Z.eqb_neq (iDisplayLength t) (-1))) by lia.
  assert (forall n, 0 <= n -> no_macro (number n)) as Hn by (intros; by apply format_no_macro).
  destruct l; unfold info_text; apply info_passes; try (apply Hn; lia); try (by apply no_macro_dec);
    by apply no_capital_dec.
Qed.

(** ** The buttons *)
Definition page_no (b : pbutton) : option Z := match b with BPage n => Some n | _ => None end.

(** Neighbouring buttons are neighbouring pages, or have an ellipsis between them
    that stands for two pages at least. *)
Inductive seamless : Z -> list pbutton -> Z -> Prop :=
  | seamless_one n : seamless n [BPage n] n
  | seamless_next n l last : seamless (n + 1) l last -> seamless n (BPage n :: l) last
  | seamless_gap n m l last : n + 3 <= m -> seamless m l last ->
      seamless n (BPage n :: BEllipsis :: l) last.

Lemma seamless_range n k : 0 < k -> seamless n (_range n (n + k)) (n + k - 1).
Proof.
  intros Hk. unfold _range. replace (n + k - n) with k by lia.
  rewrite <- (Z2Nat.id k) by lia. assert (0 < Z.to_nat k)%nat as H by lia. clear Hk.
  revert n. induction (Z.to_nat k) as [|j IH]; [lia|]. intros n.
  rewrite seqZ_cons by lia. cbn [fmap list_fmap].
  replace (Z.pred (Z.of_nat (S j))) with (Z.of_nat j) by lia. destruct (decide (j = 0%nat)) as [->|Hj].
  - change (seqZ (Z.succ n) (Z.of_nat 0)) with (@nil Z).
    replace (n + Z.of_nat 1 - 1) with n by lia. apply seamless_one.
  - constructor. replace (Z.succ n) with (n + 1) by lia.
    replace (n + Z.of_nat (S j) - 1) with (n + 1 + Z.of_nat j - 1) by lia. apply IH. lia.
Qed.

Lemma seamless_app n l m k l' last : seamless n l m -> m + 3 <= k -> seamless k l' last ->
  seamless n (l ++ BEllipsis :: l') last.
Proof.
  intros H Hm Hl. induction H as [n|n l q H IH|n p l q Hp H IH].
  - by apply (seamless_gap n k).
  - constructor. by apply IH.
  - apply (seamless_gap n p); [done|]. by apply IH.
Qed.

Lemma seamless_bounds n l last : seamless n l last -> n <= last
  /\ (forall p, BPage p ∈ l -> n <= p <= last) /\ BPage n ∈ l /\ BPage last ∈ l.
Proof.
  induction 1 as [n|n l q H (H1 & H2 & H3 & H4)|n p l q Hp H (H1 & H2 & H3 & H4)].
  - split_and!; [lia| |set_solver..]. intros p [= ->]%list_elem_of_singleton. lia.
  - split_and!; [lia| |set_solver..]. intros p [[= ->]|Hp]%elem_of_cons; [lia|]. specialize (H2 p Hp). lia.
  - split_and!; [lia| |set_solver..]. intros x [[= ->]|[Hx|Hx]%elem_of_cons]%elem_of_cons; [lia|done|].
    specialize (H2 x Hx). lia.
Qed.

Lemma seamless_kinds n l last x : seamless n l last -> x ∈ l ->
  x = BEllipsis \/ exists m, x = BPage m /\ n <= m.
Proof.
  induction 1 as [n|n l q H IH|n p l q Hp H IH].
  - intros ->%list_elem_of_singleton. right. exists n. split; [done|lia].
  - intros [->|Hx]%elem_of_cons; [right; exists n; split; [done|lia]|].
    destruct (IH Hx) as [|(m & ? & ?)]; [by left|right; exists m; split; [done|lia]].
  - intros [->|[->|Hx]%elem_of_cons]%elem_of_cons; [right; exists n; split; [done|lia]|by left|].
    destruct (IH Hx) as [|(m & ? & ?)]; [by left|right; exists m; split; [done|lia]].
Qed.

Lemma range_length a b : length (_range a b) = Z.to_nat (b - a).
Proof. unfold _range. by rewrite length_fmap, length_seqZ. Qed.

Lemma range_elem a b n : BPage n ∈ _range a b <-> a <= n < b.
Proof.
  unfold _range. rewrite list_elem_of_fmap. split.
  - intros (m & [= ->] & Hm%elem_of_seqZ). lia.
  - intros H. exists n. split; [done|]. apply elem_of_seqZ. lia.
Qed.

Lemma numbers_spec page pages : 0 <= page < pages ->
  let l := _numbers page pages in
  (length l <= 7)%nat /\ seamless 0 l (pages - 1)
  /\ forall n, 0 <= n < pages -> page - 1 <= n <= page + 1 -> BPage n ∈ l.
Proof.
  intros Hp. unfold _numbers. change (numbers_length / 2) with 3. change (numbers_length - 2) with 5.
  unfold numbers_length. destruct (Z.leb_spec pages 7) as [H7|H7].
  { split_and!; [rewrite range_length; lia| |intros; apply range_elem; lia].
    replace (pages - 1) with (0 + pages - 1) by lia. replace pages with (0 + pages) at 1 by lia.
    apply seamless_range. lia. }
  destruct (Z.leb_spec page 3) as [H3|H3].
  { split_and!.
    - rewrite length_app, range_length. cbn. lia.
    - apply (seamless_app 0 _ 4 (pages - 1)); [by apply (seamless_range 0 5)|lia|constructor].
    - intros n Hn Hn'. apply elem_of_app. left. apply range_elem. lia. }
  destruct (Z.geb_spec page (pages - 1 - 3)) as [He|He].
  { split_and!.
    - cbn. rewrite range_length. lia.
    - apply (seamless_gap 0 (pages - 5)); [lia|].
      pose proof (seamless_range (pages - 5) 5 ltac:(lia)) as Hr.
      by replace (pages - 5 + 5) with pages in Hr by lia.
    - intros n Hn Hn'. apply elem_of_cons. right. apply elem_of_cons. right. apply range_elem. lia. }
  replace (page - 3 + 2) with (page - 1) by lia. replace (page + 3 - 1) with (page - 1 + 3) by lia.
  split_and!.
  - cbn. rewrite length_app, range_length. cbn. lia.
  - apply (seamless_gap 0 (page - 1)); [lia|].
    apply (seamless_app _ _ (page - 1 + 3 - 1) (pages - 1)); [by apply seamless_range|lia|constructor].
  - intros n Hn Hn'. apply elem_of_cons. right. apply elem_of_cons. right. apply elem_of_app. left.
    apply range_elem. lia.
Qed.


(** Where a button leads, with the page and the number of pages at the click. *)
Definition leads_to (page pages : Z) (b : pbutton) : option Z :=
  match b with
  | BFirst => if page >? 0 then Some 0 else None
  | BPrevious => if page >? 0 then Some (page - 1) else None
  | BNext => if page <? pages - 1 then Some (page + 1) else None
  | BLast => if page <? pages - 1 then Some (pages - 1) else None
  | BEllipsis => None
  | BPage n => if page =? n then None else Some n
  end.

(** The table is asked for the page [n]. *)
Definition ask_page (k : nat) (t : dtable) (n : Z) (w : tables) : tables * option ajax_call :=
  let start := n * iDisplayLength t in
  (put k (set_asked (set_start start t)) w,
   Some (mkCall k (iDraw t + 1) start (iDisplayLength t))).

Lemma attach_button lang page pages x b : attach_one lang page pages x = Some b -> li_button b = x.
Proof. unfold attach_one. destruct x; cbn; repeat case_match; try done; by intros [= <-]. Qed.

Lemma pager_button lang t b : b ∈ pager lang t ->
  li_button b ∈ full_numbers (drawn_page t) (drawn_pages t)
  /\ attach_one lang (drawn_page t) (drawn_pages t) (li_button b) = Some b.
Proof.
  unfold pager, attach. intros (x & Hx & E)%list_elem_of_omap.
  by rewrite (attach_button _ _ _ _ _ E).
Qed.

Lemma click_asks k t action n w : instances w !! k = Some t -> bAjaxDataGet t = true ->
  bDestroying t = false -> page_start action t = n * iDisplayLength t ->
  match action with PageNumber m => current_page t <> m | _ => True end ->
  click_page k action w = ask_page k t n w.
Proof.
  intros Hk Ha Hd Hs Hc. pose proof (lookup_lt_Some _ _ _ Hk) as Hl. unfold click_page. rewrite Hk.
  assert (match action with PageNumber m => current_page t =? m | _ => false end = false) as ->
    by (destruct action; [by apply Z.eqb_neq|done..]).
  unfold fnPageChange. rewrite Hk, andb_false_r. cbn [fst]. rewrite Hs. unfold _fnDraw.
  cbn [put instances]. rewrite list_lookup_insert_eq by done. cbn [bDestroying set_start bAjaxDataGet].
  rewrite Ha, Hd. cbn [negb andb]. unfold ask_page, put. cbn [instances body_rows next_node].
  by rewrite list_insert_insert_eq.
Qed.

Lemma page_arith t : iDisplayLength t = datatables_paging_len ->
  (datatables_paging_len | iDisplayStart t) -> 0 <= iDisplayStart t < iRecordsDisplay t ->
  exists page, iDisplayStart t = page * 10 /\ drawn_page t = page /\ current_page t = page
  /\ 0 <= page < drawn_pages t /\ (iRecordsDisplay t - 1) / 10 = drawn_pages t - 1
  /\ (iDisplayStart t + 10 <? iRecordsDisplay t) = (page <? drawn_pages t - 1).
Proof.
  unfold datatables_paging_len. intros Hl [page Hd] Hs. exists page.
  unfold drawn_page, drawn_pages, current_page, ceil_div. rewrite Hl, Hd. cbn [Z.eqb].
  split_and!; try (Z.div_mod_to_equations; lia).
Qed.

Lemma dec_text n : 0 <= n -> dec n <> [].
Proof. intros Hn. by destruct (dec_digits n Hn). Qed.

Lemma number_shown lang t x : 0 <= drawn_page t < drawn_pages t ->
  x ∈ _numbers (drawn_page t) (drawn_pages t) -> exists b, b ∈ pager lang t /\ li_button b = x.
Proof.
  intros Hp Hx. destruct (numbers_spec _ _ Hp) as (_ & Hs & _).
  assert (is_Some (attach_one lang (drawn_page t) (drawn_pages t) x)) as [b Hb].
  { destruct (seamless_kinds _ _ _ x Hs Hx) as [->|(n & -> & Hn)]; [by eexists|].
    unfold attach_one. cbn [li_text]. pose proof (dec_text (n + 1) ltac:(lia)). by destruct (dec (n + 1)). }
  exists b. split; [|by apply attach_button in Hb]. apply list_elem_of_omap. exists x. split; [|done].
  unfold full_numbers. set_solver.
Qed.

(** The page that is shown has its button, marked. *)
Lemma active_shown lang t : 0 <= drawn_page t < drawn_pages t ->
  exists b, b ∈ pager lang t /\ li_button b = BPage (drawn_page t) /\ li_active b = true.
Proof.
  intros Hp. destruct (numbers_spec _ _ Hp) as (_ & _ & Hn).
  destruct (number_shown lang t (BPage (drawn_page t)) Hp) as (b & Hb & Ex); [apply Hn; lia|].
  exists b. split_and!; [done|done|]. apply pager_button in Hb as [_ Hb]. rewrite Ex in Hb.
  unfold attach_one in Hb. cbn [li_text] in Hb. rewrite Z.eqb_refl in Hb. case_match; [done|].
  by injection Hb as <-.
Qed.

Definition disabled_in (page pages : Z) (b : pbutton) : bool :=
  match b with
  | BEllipsis => true
  | BFirst | BPrevious => negb (page >? 0)
  | BNext | BLast => negb (page <? pages - 1)
  | BPage _ => false
  end.

Lemma attach_disabled lang page pages x b : attach_one lang page pages x = Some b ->
  li_disabled b = disabled_in page pages x.
Proof. unfold attach_one. destruct x; cbn; case_match; try done; by intros [= <-]. Qed.

(** What a click on a button does. *)
Lemma click_leads lang k t w b : grid_ok w -> instances w !! k = Some t -> bDestroying t = false ->
  0 <= iDisplayStart t < iRecordsDisplay t -> b ∈ pager lang t ->
  match leads_to (drawn_page t) (drawn_pages t) (li_button b) with
  | Some n => 0 <= n < drawn_pages t /\ click_li k b w = ask_page k t n w
  | None => click_li k b w = (w, None)
  end.
Proof.
  intros Hw Hk Hd Hs Hb. destruct (g_pages w Hw k t Hk) as [Hl Hdiv].
  pose proof (may_ask w (g_tables w Hw) k t Hk) as Ha.
  destruct (page_arith t Hl Hdiv Hs) as (page & Es & Ep & Ec & Hp & Elast & Enext). rewrite Ep in *.
  assert (forall action n, page_start action t = n * iDisplayLength t ->
            match action with PageNumber m => current_page t <> m | _ => True end ->
            click_page k action w = ask_page k t n w) as Hclick by (intros; by apply click_asks).
  assert (forall action, page_start action t
    = match action with PageNumber n => let start := n * 10 in if start >? iRecordsDisplay t then 0 else start
      | PageFirst => 0 | PagePrevious => let start := iDisplayStart t - 10 in if start <? 0 then 0 else start
      | PageNext => if iDisplayStart t + 10 <? iRecordsDisplay t then iDisplayStart t + 10 else iDisplayStart t
      | PageLast => (iRecordsDisplay t - 1) / 10 * 10 end) as Hstart.
  { intros action. unfold page_start. rewrite Hl. unfold datatables_paging_len.
    by rewrite (proj2 (Z.eqb_neq (iRecordsDisplay t) 0)) by lia. }
  unfold datatables_paging_len in Hl. rewrite Hl in Hclick.
  apply pager_button in Hb as [Hb Eb]. rewrite Ep in *. apply attach_disabled in Eb.
  unfold click_li. rewrite Eb. destruct (li_button b) as [| | | | |n]; cbn [disabled_in action_of leads_to].
  - destruct (Z.gtb_spec page 0); [|done]. split; [lia|]. apply Hclick; [by rewrite Hstart|done].
  - destruct (Z.gtb_spec page 0); [|done]. split; [lia|]. apply Hclick; [|done].
    rewrite Hstart. cbn zeta. rewrite (proj2 (Z.ltb_ge _ _)); lia.
  - destruct (Z.ltb_spec page (drawn_pages t - 1)); [|done]. split; [lia|]. apply Hclick; [|done].
    rewrite Hstart, Enext. lia.
  - destruct (Z.ltb_spec page (drawn_pages t - 1)); [|done]. split; [lia|]. apply Hclick; [|done].
    rewrite Hstart. lia.
  - done.
  - destruct (Z.eqb_spec page n) as [->|Hne].
    + unfold click_page. by rewrite Hk, Ec, Z.eqb_refl.
    + destruct (numbers_spec page (drawn_pages t) Hp) as (_ & Hn & _).
      assert (BPage n ∈ _numbers page (drawn_pages t)) as Hin by (unfold full_numbers in Hb; set_solver).
      destruct (seamless_bounds _ _ _ Hn) as (_ & Hr & _). specialize (Hr n Hin). split; [lia|].
      apply Hclick; [|by rewrite Ec]. rewrite Hstart. cbn zeta.
      destruct (Z.gtb_spec (n * 10) (iRecordsDisplay t)); [|done].
      exfalso. Z.div_mod_to_equations. lia.
Qed.

(** C33: the buttons below a table lead everywhere.  There are seven numbers at
    most, in order and without a hole that has no ellipsis, from the first page to
    the last; the page shown and the ones beside it are among them, and an ellipsis
    never stands for a single page.  A click asks the server for the rows of the
    page the button names, which is one of the table's pages, and the buttons that
    have no page to lead to do nothing. *)
Theorem pager_leads lang k t w : grid_ok w -> instances w !! k = Some t -> bDestroying t = false ->
  0 <= iDisplayStart t < iRecordsDisplay t ->
  let page := drawn_page t in
  let pages := drawn_pages t in
  iDisplayStart t = page * iDisplayLength t /\ 0 <= page < pages
  /\ (length (_numbers page pages) <= 7)%nat /\ seamless 0 (_numbers page pages) (pages - 1)
  /\ (forall n, 0 <= n < pages -> page - 1 <= n <= page + 1 -> BPage n ∈ _numbers page pages)
  /\ (forall x, x ∈ _numbers page pages -> exists b, b ∈ pager lang t /\ li_button b = x)
  /\ forall b, b ∈ pager lang t ->
     match leads_to page pages (li_button b) with
     | Some n => 0 <= n < pages /\ click_li k b w = ask_page k t n w
     | None => click_li k b w = (w, None)
     end.
Proof.
  intros Hw Hk Hd Hs page pages. destruct (g_pages w Hw k t Hk) as [Hl Hdiv].
  destruct (page_arith t Hl Hdiv Hs) as (q & Es & Ep & _ & Hp & _).
  destruct (numbers_spec page pages) as (N1 & N2 & N3); [by unfold page; rewrite Ep|].
  split_and!; try done.
  - unfold page. by rewrite Es, Ep, Hl.
  - unfold page. lia.
  - unfold page, pages. lia.
  - intros x Hx. apply number_shown; [by rewrite Ep|done].
  - intros b Hb. by apply (click_leads lang).
Qed.

(** A table of 113 rows on its first page. *)
Definition demo_grid : tables :=
  _fnAjaxUpdateDraw 0 (mkDrawData 1 113 113 []) (fst (newDataTable datatables_paging_len no_tables)).

Lemma demo_grid_ok : grid_ok demo_grid.
Proof. apply grid_update, grid_new. split; [exact no_tables_ok|by intros..]. Qed.

Lemma pager_leads_witness :
  exists t, instances demo_grid !! 0%nat = Some t
  /\ _numbers (drawn_page t) (drawn_pages t)
     = [BPage 0; BPage 1; BPage 2; BPage 3; BPage 4; BEllipsis; BPage 11]
  /\ click_li 0 (mkLi BNext (js "Next") false false) demo_grid = ask_page 0 t 1 demo_grid.
Proof.
  destruct (instances demo_grid !! 0%nat) as [t|] eqn:Et; [|vm_compute in Et; discriminate].
  exists t. split; [reflexivity|].
  assert (t = mkDtable 1 0 10 113 113 [] true false false) as E
    by (vm_compute in Et; injection Et as <-; reflexivity).
  destruct (pager_leads (console_labels En) 0 t demo_grid demo_grid_ok Et) as (_ & _ & _ & _ & _ & _ & H).
  - rewrite E. reflexivity.
  - rewrite E. split; [discriminate|reflexivity].
  - split; [rewrite E; vm_compute; reflexivity|].
    specialize (H (mkLi BNext (js "Next") false false)). rewrite E in H |- *. apply H.
    apply list_elem_of_omap. exists BNext. split; [|vm_compute; reflexivity].
    apply (bool_decide_unpack _). vm_compute. exact I.
Defined.
