(* ===== verification/Validator.v ===== *)
(** * The form validator
    (static/components/jquery-validation/jquery.validate.js).

    A form is its text fields (inputs and text areas) in document order; the
    state of a validator is the record of what it keeps between calls, with the
    form groups its callbacks write.  The console never inserts the error labels
    of the validator into the page (its [errorPlacement] copies their text), so
    no label is ever found again, and [showLabel] always makes one.

    Modelled choices: radio buttons, check boxes and selections, rules with
    dependencies and grouped fields do not occur in the console's forms; a rule
    that asks the server is in Remote.v; the rules a field's markup gives it are part of the field.  A message
    of the tables that is a function ([$.validator.format]) and one that is a
    string with numbered places are filled in alike. *)

From stdpp Require Import base tactics strings gmap numbers list.
From Stdlib Require Import ZArith Lia.
From S2P Require Import Prelude Regex.
Local Open Scope Z_scope.

(** ** Rules and fields *)
Inductive param :=
  | PBool (b : bool)
  | PNum (z : Z)
  | PRange (lo hi : Z)
  | PStr (s : jsstr).

#[export] Instance param_eq_dec : EqDecision param.
Proof. solve_decision. Defined.

(** The rules of a field in the order of the object's properties. *)
Abbreviation rule_list := (list (jsstr * param)).

Inductive input_type := TText | TNumber (badInput : bool) | TFile.

Record field := mkField {
  fname : jsstr;
  fid : jsstr;
  ftype : input_type;
  fvalue : jsstr;
  visible : bool;
  enabled : bool;
  markup_rules : rule_list;     (* from its class, attributes and data *)
  ftitle : jsstr;
}.

(** The field with another value. *)
Definition with_value (f : field) (x : jsstr) : field :=
  mkField (fname f) (fid f) (ftype f) x (visible f) (enabled f) (markup_rules f) (ftitle f).

Record settings := mkSettings {
  s_rules : list (jsstr * rule_list);
  s_messages : list (jsstr * list (jsstr * option jsstr));
  default_messages : gmap jsstr jsstr;   (* $.validator.messages *)
}.

(** The messages the plugin comes with. *)
Definition plugin_messages : gmap jsstr jsstr :=
  list_to_map
    [(js "required", js "This field is required.");
     (js "remote", js "Please fix this field.");
     (js "email", js "Please enter a valid email address.");
     (js "url", js "Please enter a valid URL.");
     (js "date", js "Please enter a valid date.");
     (js "dateISO", js "Please enter a valid date (ISO).");
     (js "number", js "Please enter a valid number.");
     (js "digits", js "Please enter only digits.");
     (js "equalTo", js "Please enter the same value again.");
     (js "maxlength", js "Please enter no more than {0} characters.");
     (js "minlength", js "Please enter at least {0} characters.");
     (js "rangelength", js "Please enter a value between {0} and {1} characters long.");
     (js "range", js "Please enter a value between {0} and {1}.");
     (js "max", js "Please enter a value less than or equal to {0}.");
     (js "min", js "Please enter a value greater than or equal to {0}.");
     (js "step", js "Please enter a multiple of {0}.")].

(** What a method answers. *)
Inductive check_answer := Yes | No | Mismatch.   (* "dependency-mismatch" *)

(** What the methods read besides the value: the form, and the state of the
    switches of the page. *)
Record context := mkContext {
  fields : list field;
  switch_on : jsstr -> bool;
}.

Definition assoc {A} (k : jsstr) (l : list (jsstr * A)) : option A :=
  snd <$> head (List.filter (λ e, jseqb e.1 k) l).

(** ** elementValue *)
Fixpoint last_index (c : Z) (s : jsstr) : option nat :=
  match s with
  | [] => None
  | d :: s' =>
      match last_index c s' with
      | Some n => Some (S n)
      | None => if d =? c then Some 0%nat else None
      end
  end.

Definition file_name (v : jsstr) : jsstr :=
  if jseqb (substr v 0 12) (js "C:\fakepath\") then substr_from v 12
  else match last_index (chr "/") v with
       | Some i => drop (S i) v
       | None => match last_index 92 v with Some i => drop (S i) v | None => v end
       end.

(** A value without carriage returns, which jQuery's [val] never gives. *)
Definition clean_value (s : jsstr) : jsstr := List.filter (λ c, negb (c =? 13)) s.

Definition elementValue (f : field) : jsstr :=
  match ftype f with
  | TNumber bad => if bad then js "NaN" else clean_value (fvalue f)
  | TFile => file_name (clean_value (fvalue f))
  | TText => clean_value (fvalue f)
  end.

(** [$(selector).val()] for a selector [#id]; [None] is [undefined]. *)
Definition val_of (ctx : context) (selector : jsstr) : option jsstr :=
  clean_value ∘ fvalue <$> head (List.filter (λ f, jseqb (35 :: fid f) selector) (fields ctx)).

(** ** The methods of the validator the console uses *)
Abbreviation method := (context -> jsstr -> field -> param -> check_answer).

Definition answer_of (b : bool) : check_answer := if b then Yes else No.

Definition required_value (value : jsstr) : bool := (0 <? length value)%nat.

(** [this.optional(element)] is true of an empty field. *)
Definition optional (f : field) : bool := negb (required_value (elementValue f)).

Definition or_optional (f : field) (b : bool) : check_answer :=
  if optional f then Mismatch else answer_of b.

Definition required : method := λ _ value f p,
  match p with
  | PBool false => Mismatch          (* depend(param) *)
  | _ => answer_of (required_value value)
  end.

Definition len (value : jsstr) : Z := Z.of_nat (length value).

Definition minlength : method := λ _ value f p,
  or_optional f match p with PNum n => len value >=? n | _ => false end.
Definition maxlength : method := λ _ value f p,
  or_optional f match p with PNum n => len value <=? n | _ => false end.
Definition rangelength : method := λ _ value f p,
  or_optional f match p with PRange a b => (len value >=? a) && (len value <=? b) | _ => false end.

Definition equalTo : method := λ ctx value f p,
  answer_of match p with PStr sel => bool_decide (Some value = val_of ctx sel) | _ => false end.

(** Patterns. *)
Definition email : method := λ _ value f _, or_optional f (test false (regex
  "^[a-zA-Z0-9.!#$%&'*+\/=?^_`{|}~-]+@[a-zA-Z0-9](?:[a-zA-Z0-9-]{0,61}[a-zA-Z0-9])?(?:\.[a-zA-Z0-9](?:[a-zA-Z0-9-]{0,61}[a-zA-Z0-9])?)*$") value).
Definition url : method := λ _ value f _, or_optional f (test true (regex
  "^(?:(?:(?:https?|ftp):)?\/\/)(?:\S+(?::\S*)?@)?(?:(?!(?:10|127)(?:\.\d{1,3}){3})(?!(?:169\.254|192\.168)(?:\.\d{1,3}){2})(?!172\.(?:1[6-9]|2\d|3[0-1])(?:\.\d{1,3}){2})(?:[1-9]\d?|1\d\d|2[01]\d|22[0-3])(?:\.(?:1?\d{1,2}|2[0-4]\d|25[0-5])){2}(?:\.(?:[1-9]\d?|1\d\d|2[0-4]\d|25[0-4]))|(?:(?:[a-z\u00a1-\uffff0-9]-*)*[a-z\u00a1-\uffff0-9]+)(?:\.(?:[a-z\u00a1-\uffff0-9]-*)*[a-z\u00a1-\uffff0-9]+)*(?:\.(?:[a-z\u00a1-\uffff]{2,})).?)(?::\d{2,5})?(?:[/?#]\S*)?$") value).
Definition dateISO : method := λ _ value f _, or_optional f (test false (regex
  "^\d{4}[\/\-](0?[1-9]|1[012])[\/\-](0?[1-9]|[12][0-9]|3[01])$") value).
Definition number : method := λ _ value f _, or_optional f (test false (regex
  "^(?:-?\d+|-?\d{1,3}(?:,\d{3})+)?(?:\.\d+)?$") value).
Definition digits_method : method := λ _ value f _, or_optional f (test false (regex "^\d+$") value).

(** ** The methods the console adds (ui/js/validation.js) *)
Definition swtichCondRequired : method := λ ctx value _ p,
  match p with
  | PStr sel => if switch_on ctx sel then answer_of (required_value value) else Yes
  | _ => Yes
  end.

Definition notEqualTo : method := λ ctx value f p,
  if negb (visible f) then Yes
  else match p with
       | PStr sel => answer_of (negb (bool_decide (Some value = val_of ctx sel)))
       | _ => Yes
       end.

Definition methods : list (jsstr * method) :=
  [(js "required", required); (js "email", email); (js "url", url); (js "dateISO", dateISO);
   (js "number", number); (js "digits", digits_method); (js "minlength", minlength);
   (js "maxlength", maxlength); (js "rangelength", rangelength); (js "equalTo", equalTo);
   (js "swtichCondRequired", swtichCondRequired); (js "notEqualTo", notEqualTo)].

(** ** The rules of a field *)

(** [$.extend(a, b)] on rules: a property of both keeps its place. *)
Fixpoint put_rule (k : jsstr) (p : param) (l : rule_list) : rule_list :=
  match l with
  | [] => [(k, p)]
  | e :: l' => if jseqb e.1 k then (k, p) :: l' else e :: put_rule k p l'
  end.

Definition extend_rules (a b : rule_list) : rule_list := foldl (λ a e, put_rule e.1 e.2 a) a b.

(** A rule whose parameter is [false] is dropped. *)
Definition normalizeRules (l : rule_list) : rule_list :=
  List.filter (λ e, negb (bool_decide (e.2 = PBool false))) l.

Definition param_truthy (p : param) : bool :=
  match p with PBool b => b | PNum z => negb (z =? 0) | PStr [] => false | _ => true end.

(** [required] is moved to the front. *)
Definition required_first (l : rule_list) : rule_list :=
  match assoc (js "required") l with
  | Some p =>
      if param_truthy p
      then (js "required", p) :: List.filter (λ e, negb (jseqb e.1 (js "required"))) l
      else l
  | None => l
  end.

Definition rules (s : settings) (f : field) : rule_list :=
  required_first (normalizeRules
    (extend_rules (markup_rules f) (default [] (assoc (fname f) (s_rules s))))).

(** ** Messages *)
Definition substitute (source : jsstr) (i : nat) (n : jsstr) : jsstr :=
  match RegExp (js "\{" ++ dec (Z.of_nat i) ++ js "\}") with
  | Some r => replace_all false r (λ _, n) source
  | None => source
  end.

Definition param_list (p : param) : list jsstr :=
  match p with
  | PBool true => [js "true"]
  | PBool false => [js "false"]
  | PNum z => [dec z]
  | PRange a b => [dec a; dec b]
  | PStr s => [s]
  end.

(** [$.validator.format]. *)
Definition validator_format (source : jsstr) (params : list jsstr) : jsstr :=
  snd (foldl (λ '(i, s) n, (S i, substitute s i n)) (0%nat, source) params).

Definition customMessage (s : settings) (name method : jsstr) : option jsstr :=
  match assoc name (s_messages s) with
  | Some m => mjoin (assoc method m)
  | None => None
  end.

Definition findDefined (l : list (option jsstr)) (last : jsstr) : jsstr :=
  default last (mjoin (head (List.filter (λ o, match o with Some _ => true | None => false end) l))).

(** [${0}] and [{0}] are the same place; the parameters of the rule fill them. *)
Definition message_with (s : settings) (f : field) (method : jsstr) (params : list jsstr) : jsstr :=
  let message := findDefined
    [customMessage s (fname f) method;
     if jseqb (ftitle f) [] then None else Some (ftitle f);
     default_messages s !! method]
    (js "<strong>Warning: No message defined for " ++ fname f ++ js "</strong>") in
  let theregex := regex "\$?\{(\d+)\}" in
  if test false theregex message then
    validator_format
      (replace_all false theregex (λ c, js "{" ++ default [] (c 1%nat) ++ js "}") message)
      params
  else message.

Definition defaultMessage (s : settings) (f : field) (method : jsstr) (p : param) : jsstr :=
  message_with s f method (param_list p).

(** ** Checking one field *)
Inductive verdict :=
  | Passed
  | Failed (method : jsstr) (p : param)
  | Undetermined                 (* check returned undefined *)
  | Unknown (method : jsstr).    (* no such method: a TypeError *)

Fixpoint check_rules (ctx : context) (f : field) (count : nat) (mismatch : bool)
    (l : rule_list) : verdict :=
  match l with
  | [] => if mismatch then Undetermined else Passed
  | (m, p) :: l' =>
      match assoc m methods with
      | None => Unknown m
      | Some f_m =>
          match f_m ctx (elementValue f) f p with
          | Mismatch => check_rules ctx f count (count =? 1)%nat l'
          | Yes => check_rules ctx f count false l'
          | No => Failed m p
          end
      end
  end.

Definition verdict_of (s : settings) (ctx : context) (f : field) : verdict :=
  let l := rules s f in check_rules ctx f (length l) false l.

(** ** The validator *)
Record error_entry := mkError { e_message : jsstr; e_field : jsstr; e_method : jsstr }.

(** A form group: its help text and its error class. *)
Record group := mkGroup { help : jsstr; help_shown : bool; has_error : bool }.

(** What [invalid] holds for a field: a message or a boolean. *)
Inductive invalid_mark := MarkMessage (m : jsstr) | MarkBool (b : bool).

Record validator := mkValidator {
  v_settings : settings;
  v_context : context;
  submitted : gmap jsstr jsstr;
  invalid : gmap jsstr invalid_mark;
  errorList : list error_entry;
  errorMap : gmap jsstr jsstr;
  successList : list jsstr;
  error_class : gmap jsstr bool;      (* class error of a field; absent: untouched *)
  groups_of : gmap jsstr group;       (* the group around each field, by name *)
  bound : list jsstr;                 (* targets with a blur handler for equalTo *)
  thrown : bool;
}.

Definition reset (v : validator) : validator :=
  mkValidator (v_settings v) (v_context v) (submitted v) (invalid v) [] ∅ []
    (error_class v) (groups_of v) (bound v) (thrown v).

Definition formatAndAdd (f : field) (m : jsstr) (p : param) (v : validator) : validator :=
  let message := defaultMessage (v_settings v) f m p in
  mkValidator (v_settings v) (v_context v) (<[fname f := message]> (submitted v)) (invalid v)
    (errorList v ++ [mkError message (fname f) m]) (<[fname f := message]> (errorMap v))
    (successList v) (error_class v) (groups_of v) (bound v) (thrown v).

Definition push_success (f : field) (v : validator) : validator :=
  mkValidator (v_settings v) (v_context v) (submitted v) (invalid v) (errorList v) (errorMap v)
    (successList v ++ [fname f]) (error_class v) (groups_of v) (bound v) (thrown v).

Definition set_thrown (v : validator) : validator :=
  mkValidator (v_settings v) (v_context v) (submitted v) (invalid v) (errorList v) (errorMap v)
    (successList v) (error_class v) (groups_of v) (bound v) true.

(** Every [equalTo] rule run binds its target once. *)
Definition bind_targets (l : rule_list) (v : validator) : validator :=
  let targets := omap (λ e, if jseqb e.1 (js "equalTo") then
                              match e.2 with PStr s => Some s | _ => None end else None) l in
  mkValidator (v_settings v) (v_context v) (submitted v) (invalid v) (errorList v) (errorMap v)
    (successList v) (error_class v) (groups_of v)
    (foldl (λ b t, if existsb (jseqb t) b then b else b ++ [t]) (bound v) targets) (thrown v).

(** The rules reached before the check ends. *)
Fixpoint reached (ctx : context) (f : field) (l : rule_list) : rule_list :=
  match l with
  | [] => []
  | (m, p) :: l' =>
      match assoc m methods with
      | None => []
      | Some f_m =>
          (m, p) :: match f_m ctx (elementValue f) f p with
                    | No => []
                    | _ => reached ctx f l'
                    end
      end
  end.

(** [check]: the result is [None] for [undefined]. *)
Definition check (f : field) (v : validator) : option bool * validator :=
  let l := rules (v_settings v) f in
  let v := bind_targets (reached (v_context v) f l) v in
  match verdict_of (v_settings v) (v_context v) f with
  | Passed => (Some true, match l with [] => v | _ => push_success f v end)
  | Failed m p => (Some false, formatAndAdd f m p v)
  | Undetermined => (None, v)
  | Unknown _ => (None, set_thrown v)
  end.

(** [elements]: the fields that are neither hidden nor disabled and have rules,
    the first of each name. *)
Fixpoint first_of_each (seen : list jsstr) (l : list field) : list field :=
  match l with
  | [] => []
  | f :: l' =>
      if existsb (jseqb (fname f)) seen then first_of_each seen l'
      else f :: first_of_each (fname f :: seen) l'
  end.

Definition elements (v : validator) : list field :=
  first_of_each []
    (List.filter (λ f, visible f && enabled f
                       && match rules (v_settings v) f with [] => false | _ => true end)
       (fields (v_context v))).

(** ** The callbacks of the console (ui/js/validation.js) *)
Definition errorPlacement4Valid (error_text : jsstr) (g : group) : group :=
  mkGroup error_text true true.

Definition handleError4Valid (message : jsstr) (g : group) : group := mkGroup message true true.

Definition success4Valid (g : group) : group := mkGroup [] false false.

Definition alter_group (name : jsstr) (h : group -> group) (v : validator) : validator :=
  mkValidator (v_settings v) (v_context v) (submitted v) (invalid v) (errorList v) (errorMap v)
    (successList v) (error_class v)
    (match groups_of v !! name with
     | Some g => <[name := h g]> (groups_of v)
     | None => groups_of v
     end) (bound v) (thrown v).

Definition set_class (name : jsstr) (b : bool) (v : validator) : validator :=
  mkValidator (v_settings v) (v_context v) (submitted v) (invalid v) (errorList v) (errorMap v)
    (successList v) (<[name := b]> (error_class v)) (groups_of v) (bound v) (thrown v).

Definition with_context (ctx : context) (v : validator) : validator :=
  mkValidator (v_settings v) ctx (submitted v) (invalid v) (errorList v) (errorMap v)
    (successList v) (error_class v) (groups_of v) (bound v) (thrown v).

Section Display.
(** The text of a message read as HTML ([error.text()]). *)
Variable text_of : jsstr -> jsstr.

(** [showLabel]: a new label is placed, and a label without message succeeds. *)
Definition showLabel (name : jsstr) (message : option jsstr) (v : validator) : validator :=
  let html := default [] message in
  let v := alter_group name (errorPlacement4Valid (text_of html)) v in
  if jseqb html [] then alter_group name success4Valid v else v.

(** [defaultShowErrors], over the fields being checked. *)
Definition show_error (v : validator) (e : error_entry) : validator :=
  showLabel (e_field e) (Some (e_message e)) (set_class (e_field e) true v).

Definition defaultShowErrors (current : list field) (v : validator) : validator :=
  let errs := errorList v in
  let oks := successList v in
  let v := foldl show_error v errs in
  let v := foldl (λ v n, showLabel n None v) v oks in
  foldl (λ v f, if existsb (λ e, jseqb (e_field e) (fname f)) errs then v
                else set_class (fname f) false v) v current.

Definition valid (v : validator) : bool := (length (errorList v) =? 0)%nat.

Definition checkForm (v : validator) : validator :=
  let v := reset v in
  foldl (λ v f, if thrown v then v else snd (check f v)) v (elements v).

(** The second half of [form]. *)
Definition show_form (v : validator) : validator :=
  let v := mkValidator (v_settings v) (v_context v) (errorMap v ∪ submitted v)
             (MarkMessage <$> errorMap v) (errorList v) (errorMap v) (successList v)
             (error_class v) (groups_of v) (bound v) (thrown v) in
  defaultShowErrors (elements v) v.

(** [form]; [None] when a check threw. *)
Definition form (v : validator) : option bool * validator :=
  let v := checkForm v in
  if thrown v then (None, v)
  else let v := show_form v in (Some (valid v), v).

Definition set_invalid (name : jsstr) (b : bool) (v : validator) : validator :=
  mkValidator (v_settings v) (v_context v) (submitted v) (<[name := MarkBool b]> (invalid v))
    (errorList v) (errorMap v) (successList v) (error_class v) (groups_of v) (bound v) (thrown v).

(** [element] of the validator: an ignored field is only forgotten; a check that throws ends it. *)
Definition check_element (f : field) (v : validator) : bool * validator :=
  if visible f then
    let '(r, v) := check f (reset v) in
    if thrown v then (false, v) else
    let rs := match r with Some false => false | _ => true end in
    let v := set_invalid (fname f) (negb rs) v in
    (rs, defaultShowErrors [f] v)
  else
    (true, mkValidator (v_settings v) (v_context v) (submitted v) (delete (fname f) (invalid v))
             (errorList v) (errorMap v) (successList v) (error_class v) (groups_of v) (bound v)
             (thrown v)).

(** [onfocusout] and [onkeyup]. *)
Definition in_map {A} (k : jsstr) (m : gmap jsstr A) : bool :=
  match m !! k with Some _ => true | None => false end.

Definition onfocusout (f : field) (v : validator) : validator :=
  if negb (visible f) then v   (* the delegate skips ignored fields *)
  else if in_map (fname f) (submitted v) || negb (optional f) then snd (check_element f v) else v.

Definition excludedKeys : list Z := [16; 17; 18; 20; 35; 36; 37; 38; 39; 40; 45; 144; 225].

Definition onkeyup (f : field) (which keyCode : Z) (v : validator) : validator :=
  if negb (visible f) then v
  else if ((which =? 9) && jseqb (elementValue f) []) || existsb (Z.eqb keyCode) excludedKeys then v
  else if in_map (fname f) (submitted v) || in_map (fname f) (invalid v)
  then snd (check_element f v) else v.

(** A field after a key was pressed in it, and after it lost the focus: the
    fields that must equal it are checked first. *)
Definition key_pressed (i : nat) (which keyCode : Z) (ctx : context) (v : validator) : validator :=
  match fields ctx !! i with
  | Some f => onkeyup f which keyCode (with_context ctx v)
  | None => v
  end.

Definition must_equal (v : validator) (target : jsstr) (g : field) : bool :=
  existsb (λ r, jseqb r.1 (js "equalTo") && bool_decide (r.2 = PStr target))
    (rules (v_settings v) g).

Definition focus_lost (i : nat) (ctx : context) (v : validator) : validator :=
  match fields ctx !! i with
  | Some f =>
      let v := with_context ctx v in
      let target := 35 :: fid f in
      let v := if existsb (jseqb target) (bound v)
               then foldl (λ v g, snd (check_element g v)) v
                      (List.filter (must_equal v target) (fields ctx))
               else v in
      onfocusout f v
  | None => v
  end.
End Display.

Definition objectLength (m : gmap jsstr invalid_mark) : nat :=
  length (List.filter (λ e, match e.2 with MarkBool false => false | _ => true end)
            (map_to_list m)).

Definition numberOfInvalids (v : validator) : nat := objectLength (invalid v).

(** [resetForm]: the error and valid classes go, the groups stay. *)
Definition resetForm (v : validator) : validator :=
  let v' := reset v in
  mkValidator (v_settings v') (v_context v') ∅ ∅ (errorList v') (errorMap v') (successList v')
    (foldl (λ m f, delete (fname f) m) (error_class v') (elements v')) (groups_of v') (bound v')
    (thrown v').
