(* ===== verification/Forms.v ===== *)
(** * The rules of the console's forms (ui/js/validation.js)

    The rules and messages of each form, and the fields the pages give it. *)

From stdpp Require Import base tactics strings gmap numbers list.
From Stdlib Require Import ZArith Lia.
From S2P Require Import Prelude Validator.
Local Open Scope Z_scope.

Definition addAdminRules : list (jsstr * rule_list) :=
  [(js "add-admin-account", [(js "required", PBool true); (js "maxlength", PNum 30)]);
   (js "add-admin-desc", [(js "maxlength", PNum 100)]);
   (js "add-admin-passwd", [(js "required", PBool true); (js "rangelength", PRange 6 16)]);
   (js "add-admin-passwd-conf",
     [(js "required", PBool true); (js "rangelength", PRange 6 16);
      (js "equalTo", PStr (js "#add-admin-passwd"))])].

Definition editAdminRules : list (jsstr * rule_list) :=
  [(js "edit-admin-desc", [(js "maxlength", PNum 100)]);
   (js "edit-admin-old-passwd",
     [(js "swtichCondRequired", PStr (js "#edit-admin-passwd-update"));
      (js "rangelength", PRange 6 16)]);
   (js "edit-admin-passwd",
     [(js "swtichCondRequired", PStr (js "#edit-admin-passwd-update"));
      (js "rangelength", PRange 6 16);
      (js "notEqualTo", PStr (js "#edit-admin-old-passwd"))]);
   (js "edit-admin-passwd-conf",
     [(js "swtichCondRequired", PStr (js "#edit-admin-passwd-update"));
      (js "rangelength", PRange 6 16);
      (js "equalTo", PStr (js "#edit-admin-passwd"))])].

Definition addUserRules : list (jsstr * rule_list) :=
  [(js "add-conn-username", [(js "required", PBool true); (js "maxlength", PNum 30)]);
   (js "add-user-desc", [(js "maxlength", PNum 100)]);
   (js "add-user-passwd", [(js "required", PBool true); (js "rangelength", PRange 6 16)]);
   (js "add-user-passwd-conf",
     [(js "required", PBool true); (js "rangelength", PRange 6 16);
      (js "equalTo", PStr (js "#add-user-passwd"))])].

Definition editUserRules : list (jsstr * rule_list) :=
  [(js "edit-user-desc", [(js "maxlength", PNum 100)]);
   (js "edit-user-admin-passwd",
     [(js "swtichCondRequired", PStr (js "#edit-user-passwd-update"));
      (js "rangelength", PRange 6 16)]);
   (js "edit-user-passwd",
     [(js "swtichCondRequired", PStr (js "#edit-user-passwd-update"));
      (js "rangelength", PRange 6 16)]);
   (js "edit-user-passwd-conf",
     [(js "swtichCondRequired", PStr (js "#edit-user-passwd-update"));
      (js "rangelength", PRange 6 16);
      (js "equalTo", PStr (js "#edit-user-passwd"))])].

Definition aclRules : list (jsstr * rule_list) :=
  [(js "acl-target", [(js "required", PBool true); (js "maxlength", PNum 1024)]);
   (js "acl-topic", [(js "required", PBool true); (js "maxlength", PNum 1024)])].

(** The messages of the forms, read from [locale_messages] when they are made. *)
Section Messages.
Variable locale_messages : gmap jsstr jsstr.

Definition locale_text (key : string) : option jsstr := locale_messages !! js key.

Abbreviation message_list := (list (jsstr * list (jsstr * option jsstr))).

Definition addAdminMessages : message_list :=
  [(js "add-admin-passwd-conf", [(js "equalTo", locale_text "common_passwd_equal")])].

Definition editAdminMessages : message_list :=
  [(js "edit-admin-old-passwd",
     [(js "swtichCondRequired", locale_text "common_swtich_cond_required")]);
   (js "edit-admin-passwd",
     [(js "swtichCondRequired", locale_text "common_swtich_cond_required");
      (js "notEqualTo", locale_text "common_passwd_not_equal")]);
   (js "edit-admin-passwd-conf",
     [(js "swtichCondRequired", locale_text "common_swtich_cond_required");
      (js "equalTo", locale_text "common_passwd_equal")])].

Definition addUserMessages : message_list :=
  [(js "add-user-passwd-conf", [(js "equalTo", locale_text "common_passwd_equal")])].

Definition editUserMessages : message_list :=
  [(js "edit-user-admin-passwd",
     [(js "swtichCondRequired", locale_text "common_swtich_cond_required")]);
   (js "edit-user-passwd",
     [(js "swtichCondRequired", locale_text "common_swtich_cond_required")]);
   (js "edit-user-passwd-conf",
     [(js "swtichCondRequired", locale_text "common_swtich_cond_required");
      (js "equalTo", locale_text "common_passwd_equal")])].
End Messages.

(** ** The fields of the forms (ui/page/admin.html, user.html, acl.html)

    Text and password inputs with the same name and identifier. *)
Definition input (name : string) (shown : bool) (value : jsstr) : field :=
  mkField (js name) (js name) TText value shown true [] [].

(** The form of a new account. *)
Definition add_fields (account desc passwd conf : string) (a d p c : jsstr) : list field :=
  [input account true a; input desc true d; input passwd true p; input conf true c].

(** The fields below the switch are shown with it. *)
Definition edit_fields (desc old passwd conf : string) (on : bool) (d o p c : jsstr) : list field :=
  [input desc true d; input old on o; input passwd on p; input conf on c].
