(* ===== verification/FormsFacts.v ===== *)
(** * What a form needs to be valid, and what it shows

    [form] against its specification: the verdict of each field by its own
    rules, and the messages and groups that follow; then the rules of the
    console's forms spelled out. *)

From stdpp Require Import base tactics strings gmap numbers list.
From Stdlib Require Import ZArith Lia.
From S2P Require Import Prelude Regex Validator Forms.
Local Open Scope Z_scope.

Lemma jseqb_refl s : jseqb s s = true.
Proof. unfold jseqb. by apply bool_decide_eq_true. Qed.

Lemma jseqb_eq a b : jseqb a b = true <-> a = b.
Proof. unfold jseqb. by rewrite bool_decide_eq_true. Qed.

(** ** The fields checked *)
Lemma first_of_each_in seen l f : f ∈ first_of_each seen l -> f ∈ l /\ fname f ∉ seen.
Proof.
  revert seen. induction l as [|g l IH]; intros seen; cbn; [set_solver|].
  destruct (existsb (jseqb (fname g)) seen) eqn:E.
  - intros H. apply IH in H as [? ?]. set_solver.
  - intros H. apply elem_of_cons in H as [->|H].
    + split; [set_solver|]. intros Hin. apply not_true_iff_false in E. apply E.
      apply existsb_exists. exists (fname g). split; [by apply list_elem_of_In|apply jseqb_refl].
    + apply IH in H as [? ?]. set_solver.
Qed.

Lemma first_of_each_nodup seen l : NoDup (fname <$> first_of_each seen l).
Proof.
  revert seen. induction l as [|g l IH]; intros seen; cbn; [constructor|].
  destruct (existsb (jseqb (fname g)) seen); [apply IH|].
  cbn. constructor; [|apply IH]. intros (f & E & Hf)%list_elem_of_fmap.
  apply first_of_each_in in Hf as [_ Hf]. set_solver.
Qed.

Lemma elements_nodup v : NoDup (fname <$> elements v).
Proof. apply first_of_each_nodup. Qed.

Definition error_of (s : settings) (ctx : context) (f : field) : option error_entry :=
  match verdict_of s ctx f with
  | Failed m p => Some (mkError (defaultMessage s f m p) (fname f) m)
  | _ => None
  end.

Definition success_of (s : settings) (ctx : context) (f : field) : option jsstr :=
  match verdict_of s ctx f with
  | Passed => match rules s f with [] => None | _ => Some (fname f) end
  | _ => None
  end.

Lemma error_of_field s ctx f e : error_of s ctx f = Some e -> e_field e = fname f.
Proof. unfold error_of. destruct (verdict_of s ctx f); intros; by simplify_eq. Qed.

Lemma success_of_field s ctx f n : success_of s ctx f = Some n -> n = fname f.
Proof.
  unfold success_of. destruct (verdict_of s ctx f); try done.
  destruct (rules s f); intros; by simplify_eq.
Qed.

(** Every rule of the fields is a known method. *)
Definition known (s : settings) (f : field) : Prop :=
  Forall (λ e, assoc e.1 methods <> None) (rules s f).

Lemma check_rules_known ctx f n mis l :
  Forall (λ e : jsstr * param, assoc e.1 methods <> None) l ->
  forall m, check_rules ctx f n mis l <> Unknown m.
Proof.
  intros H. revert mis. induction H as [|[k p] l Hk Hl IH]; intros mis m; cbn.
  - by destruct mis.
  - cbn in Hk. destruct (assoc k methods) as [g|]; [|done].
    by destruct (g ctx (elementValue f) f p).
Qed.

Lemma checked f v : known (v_settings v) f -> thrown v = false ->
  let v' := snd (check f v) in
  v_settings v' = v_settings v /\ v_context v' = v_context v /\ groups_of v' = groups_of v
  /\ error_class v' = error_class v /\ thrown v' = false
  /\ errorList v' = errorList v ++ option_list (error_of (v_settings v) (v_context v) f)
  /\ successList v' = successList v ++ option_list (success_of (v_settings v) (v_context v) f)
  /\ errorMap v' = match error_of (v_settings v) (v_context v) f with
                   | Some e => <[fname f := e_message e]> (errorMap v)
                   | None => errorMap v
                   end.
Proof.
  intros Hk Ht. unfold check, error_of, success_of. cbn [bind_targets v_settings v_context].
  assert (forall m, verdict_of (v_settings v) (v_context v) f <> Unknown m) as Hu
    by (apply check_rules_known, Hk).
  destruct (verdict_of (v_settings v) (v_context v) f) as [|m p| |m] eqn:E; try done.
  - destruct (rules (v_settings v) f); cbn; rewrite ?app_nil_r; split_and!; done.
  - cbn. rewrite app_nil_r. by split_and!.
  - cbn. rewrite !app_nil_r. by split_and!.
  - by destruct (Hu m).
Qed.

Lemma checked_all es v : Forall (known (v_settings v)) es -> thrown v = false ->
  let v' := foldl (λ v f, if thrown v then v else snd (check f v)) v es in
  v_settings v' = v_settings v /\ v_context v' = v_context v /\ groups_of v' = groups_of v
  /\ error_class v' = error_class v /\ thrown v' = false
  /\ errorList v' = errorList v ++ omap (error_of (v_settings v) (v_context v)) es
  /\ successList v' = successList v ++ omap (success_of (v_settings v) (v_context v)) es
  /\ errorMap v' = foldl (λ m e, <[e_field e := e_message e]> m) (errorMap v)
                         (omap (error_of (v_settings v) (v_context v)) es).
Proof.
  revert v. induction es as [|f es IH]; intros v Hk Ht; cbn [foldl].
  - cbn. rewrite !app_nil_r. by split_and!.
  - inversion Hk as [|? ? Hf Hes]; subst. rewrite Ht.
    destruct (checked f v Hf Ht) as (E1 & E2 & E3 & E4 & E5 & E6 & E7 & E8).
    destruct (IH (snd (check f v))) as (F1 & F2 & F3 & F4 & F5 & F6 & F7 & F8);
      [by rewrite E1|done|].
    rewrite E1, E2 in *. cbv zeta. rewrite F1, F2, F3, F4, F6, F7, F8, E3, E4, E6, E7, E8.
    split_and!; try done; cbn.
    + rewrite <- app_assoc. f_equal. by destruct (error_of _ _ f).
    + rewrite <- app_assoc. f_equal. by destruct (success_of _ _ f).
    + destruct (error_of _ _ f) as [e|] eqn:E; [|done]. cbn. by rewrite (error_of_field _ _ _ _ E).
Qed.

(** ** Lists with distinct keys *)
Section Keyed.
Context {A B G : Type} (key : A -> jsstr) (step : B -> A -> B) (get : B -> jsstr -> option G)
  (h : A -> option G -> option G).
Hypothesis step_get : forall b a n,
  get (step b a) n = if decide (key a = n) then h a (get b n) else get b n.

Lemma fold_other (l : list A) b (n : jsstr) : n ∉ key <$> l -> get (foldl step b l) n = get b n.
Proof.
  revert b. induction l as [|a l IH]; intros b H; cbn; [done|].
  rewrite IH, step_get by set_solver. rewrite decide_False; set_solver.
Qed.

Lemma fold_at (l : list A) b a : NoDup (key <$> l) -> a ∈ l ->
  get (foldl step b l) (key a) = h a (get b (key a)).
Proof.
  revert b. induction l as [|a' l IH]; intros b Hd Hin; [by apply elem_of_nil in Hin|].
  cbn in *. apply NoDup_cons in Hd as [Hn Hd]. apply elem_of_cons in Hin as [<-|Hin].
  - by rewrite fold_other, step_get, decide_True.
  - rewrite IH, step_get by done. rewrite decide_False; [done|].
    intros E. apply Hn. rewrite E. by apply list_elem_of_fmap_2.
Qed.
End Keyed.

Section Omap.
Context {A C : Type} (key : A -> jsstr) (key' : C -> jsstr) (g : A -> option C).
Hypothesis g_key : forall a c, g a = Some c -> key' c = key a.

Lemma omap_keys (l : list A) (n : jsstr) : n ∈ key' <$> omap g l -> n ∈ key <$> l.
Proof.
  intros (c & -> & (a & Hin & E)%list_elem_of_omap)%list_elem_of_fmap.
  rewrite (g_key a c E). by apply list_elem_of_fmap_2.
Qed.

Lemma omap_nodup (l : list A) : NoDup (key <$> l) -> NoDup (key' <$> omap g l).
Proof.
  induction l as [|a l IH]; cbn; [done|]. intros [Hn Hd]%NoDup_cons.
  destruct (g a) as [c|] eqn:E; cbn; [|by apply IH]. constructor; [|by apply IH].
  rewrite (g_key a c E). intros H. by apply Hn, omap_keys.
Qed.

Lemma omap_absent (l : list A) (a : A) : NoDup (key <$> l) -> a ∈ l -> g a = None -> key a ∉ key' <$> omap g l.
Proof.
  induction l as [|b l IH]; [by intros _ ?%elem_of_nil|]. cbn.
  intros [Hn Hd]%NoDup_cons [->|Hin]%elem_of_cons E.
  - rewrite E. intros H. by apply Hn, omap_keys.
  - destruct (g b) as [c|] eqn:Eb; cbn; [|by apply IH].
    intros [H|H]%elem_of_cons; [|by apply (IH Hd Hin E)].
    rewrite (g_key b c Eb) in H. apply Hn. rewrite <- H. by apply list_elem_of_fmap_2.
Qed.
End Omap.

(** ** What is shown *)
Section Outcome.
Variable text_of : jsstr -> jsstr.

(** The group after a message was placed in it. *)
Definition label_group (html : jsstr) : group :=
  if jseqb html [] then mkGroup [] false false else mkGroup (text_of html) true true.

Lemma alter_group_at name h v n :
  groups_of (alter_group name h v) !! n
  = if decide (name = n) then h <$> (groups_of v !! n) else groups_of v !! n.
Proof.
  unfold alter_group. cbn. destruct (groups_of v !! name) as [g|] eqn:E; case_decide; subst.
  - by rewrite lookup_insert_eq, E.
  - by rewrite lookup_insert_ne.
  - by rewrite E.
  - done.
Qed.

Lemma showLabel_group name m v n :
  groups_of (showLabel text_of name m v) !! n
  = if decide (name = n) then (λ _, label_group (default [] m)) <$> (groups_of v !! n)
    else groups_of v !! n.
Proof.
  unfold showLabel, label_group. destruct (jseqb (default [] m) []);
    rewrite !alter_group_at; case_decide; try done; by destruct (groups_of v !! n).
Qed.

Lemma showLabel_class name m v : error_class (showLabel text_of name m v) = error_class v.
Proof. unfold showLabel. by destruct (jseqb _ _). Qed.

Lemma show_error_group v e n :
  groups_of (show_error text_of v e) !! n
  = if decide (e_field e = n) then (λ _, label_group (e_message e)) <$> (groups_of v !! n)
    else groups_of v !! n.
Proof. unfold show_error. by rewrite showLabel_group. Qed.

Lemma show_error_class v e n :
  error_class (show_error text_of v e) !! n
  = if decide (e_field e = n) then Some true else error_class v !! n.
Proof.
  unfold show_error. rewrite showLabel_class. cbn. case_decide; subst;
    [by rewrite lookup_insert_eq|by rewrite lookup_insert_ne].
Qed.

Lemma unmark_group errs current v :
  groups_of (foldl (λ v f, if existsb (λ e, jseqb (e_field e) (fname f)) errs then v
                           else set_class (fname f) false v) v current) = groups_of v.
Proof.
  revert v. induction current as [|f l IH]; intros v; cbn; [done|].
  rewrite IH. by destruct (existsb _ _).
Qed.

Definition reported (errs : list error_entry) (n : jsstr) : bool :=
  existsb (λ e, jseqb (e_field e) n) errs.

Lemma unmark_class errs current v n :
  error_class (foldl (λ v f, if reported errs (fname f) then v
                             else set_class (fname f) false v) v current) !! n
  = if reported errs n then error_class v !! n
    else if bool_decide (n ∈ fname <$> current) then Some false else error_class v !! n.
Proof.
  revert v. induction current as [|f l IH]; intros v; cbn; [by destruct (reported errs n)|].
  rewrite IH. destruct (reported errs n) eqn:E.
  - destruct (reported errs (fname f)) eqn:Ef; [done|]. cbn.
    apply lookup_insert_ne. intros H. by rewrite H, E in Ef.
  - destruct (decide (n ∈ fname <$> l)) as [H|H].
    + rewrite !bool_decide_true; [done|by apply elem_of_cons; right|done].
    + rewrite bool_decide_false by done. destruct (decide (n = fname f)) as [->|Hn].
      * rewrite E. rewrite bool_decide_true by (by apply elem_of_cons; left). cbn.
        apply lookup_insert_eq.
      * rewrite bool_decide_false by (by rewrite elem_of_cons; intros [?|?]).
        destruct (reported errs (fname f)); [done|]. cbn. by apply lookup_insert_ne.
Qed.

(** What [defaultShowErrors] leaves of a group and a class. *)
Lemma defaultShowErrors_group current v n :
  NoDup (e_field <$> errorList v) -> NoDup (successList v) ->
  (forall e, e ∈ errorList v -> e_field e ∉ successList v) ->
  groups_of (defaultShowErrors text_of current v) !! n
  = match List.find (λ e, jseqb (e_field e) n) (errorList v) with
    | Some e => (λ _, label_group (e_message e)) <$> (groups_of v !! n)
    | None => if bool_decide (n ∈ successList v)
              then (λ _, mkGroup [] false false) <$> (groups_of v !! n)
              else groups_of v !! n
    end.
Proof.
  intros Hd1 Hd2 Hdis. unfold defaultShowErrors. rewrite unmark_group.
  pose proof (λ a b c, showLabel_group b None a c) as Hok.
  destruct (List.find _ _) as [e|] eqn:E.
  - apply find_some in E as [Hin <-%jseqb_eq]. apply list_elem_of_In in Hin.
    rewrite (fold_other (λ n : jsstr, n) _ (λ v n, groups_of v !! n) (λ _ o, (λ _, label_group []) <$> o) Hok)
      by (rewrite list_fmap_id; by apply Hdis).
    by rewrite (fold_at e_field _ (λ v n, groups_of v !! n)
                 (λ e o, (λ _, label_group (e_message e)) <$> o) show_error_group).
  - assert (n ∉ e_field <$> errorList v) as Hn.
    { intros (e & -> & Hin)%list_elem_of_fmap.
      apply list_elem_of_In in Hin. pose proof (find_none _ _ E e Hin) as H. cbn in H.
      by rewrite jseqb_refl in H. }
    case_bool_decide as H.
    + rewrite (fold_at (λ n : jsstr, n) _ (λ v n, groups_of v !! n) (λ _ o, (λ _, label_group []) <$> o) Hok)
        by (rewrite ?list_fmap_id; done).
      by rewrite (fold_other e_field _ (λ v n, groups_of v !! n)
                 (λ e o, (λ _, label_group (e_message e)) <$> o) show_error_group).
    + rewrite (fold_other (λ n : jsstr, n) _ (λ v n, groups_of v !! n) (λ _ o, (λ _, label_group []) <$> o) Hok)
        by (rewrite list_fmap_id; done).
      by rewrite (fold_other e_field _ (λ v n, groups_of v !! n)
                 (λ e o, (λ _, label_group (e_message e)) <$> o) show_error_group).
Qed.

Lemma shown_class errs v n :
  error_class (foldl (show_error text_of) v errs) !! n
  = if reported errs n then Some true else error_class v !! n.
Proof.
  revert v. induction errs as [|e l IH]; intros v; cbn; [done|].
  rewrite IH, show_error_class.
  destruct (jseqb (e_field e) n) eqn:E; cbn; destruct (reported l n) eqn:E'; unfold reported in *;
    rewrite ?E', ?orb_false_r, ?orb_true_r; try done.
  - by rewrite decide_True by by apply jseqb_eq.
  - rewrite decide_False; [done|]. intros H%jseqb_eq. congruence.
Qed.

Lemma succeeded_class oks v :
  error_class (foldl (λ v n, showLabel text_of n None v) v oks) = error_class v.
Proof.
  revert v. induction oks as [|n l IH]; intros v; cbn; [done|]. by rewrite IH, showLabel_class.
Qed.

Lemma defaultShowErrors_class current v n : n ∈ fname <$> current ->
  error_class (defaultShowErrors text_of current v) !! n = Some (reported (errorList v) n).
Proof.
  intros Hin. unfold defaultShowErrors.
  rewrite (unmark_class (errorList v)), succeeded_class, shown_class.
  destruct (reported (errorList v) n); [done|]. by rewrite bool_decide_true.
Qed.

Lemma errors_map (l : list error_entry) (m : gmap jsstr jsstr) n : NoDup (e_field <$> l) ->
  foldl (λ m e, <[e_field e := e_message e]> m) m l !! n
  = match List.find (λ e, jseqb (e_field e) n) l with
    | Some e => Some (e_message e)
    | None => m !! n
    end.
Proof.
  revert m. induction l as [|e l IH]; intros m Hd; cbn; [done|].
  cbn in Hd. apply NoDup_cons in Hd as [Hn Hd]. rewrite IH by done.
  destruct (jseqb (e_field e) n) eqn:E.
  - apply jseqb_eq in E as <-. destruct (List.find _ _) as [e'|] eqn:F.
    + apply find_some in F as [Hin E%jseqb_eq]. destruct Hn. rewrite <- E.
      apply list_elem_of_fmap_2. by apply list_elem_of_In.
    + apply lookup_insert_eq.
  - destruct (List.find _ _); [done|]. apply lookup_insert_ne. intros H%jseqb_eq. congruence.
Qed.
End Outcome.

Lemma find_error s ctx es f : NoDup (fname <$> es) -> f ∈ es ->
  List.find (λ e, jseqb (e_field e) (fname f)) (omap (error_of s ctx) es) = error_of s ctx f.
Proof.
  induction es as [|g es IH]; cbn; [by intros _ ?%elem_of_nil|].
  intros [Hn Hd]%NoDup_cons [->|Hin]%elem_of_cons.
  - destruct (error_of s ctx g) as [e|] eqn:E; cbn.
    + by rewrite (error_of_field _ _ _ _ E), jseqb_refl.
    + destruct (List.find _ _) as [e|] eqn:F; [|done].
      apply find_some in F as [Hin Ef%jseqb_eq]. destruct Hn. rewrite <- Ef.
      apply (omap_keys fname e_field (error_of s ctx) (error_of_field s ctx)).
      apply list_elem_of_fmap_2. by apply list_elem_of_In.
  - destruct (error_of s ctx g) as [e|] eqn:E; cbn; [|by apply IH].
    destruct (jseqb (e_field e) (fname f)) eqn:F; [|by apply IH].
    apply jseqb_eq in F. rewrite (error_of_field _ _ _ _ E) in F. destruct Hn. rewrite F.
    by apply list_elem_of_fmap_2.
Qed.

Lemma reported_find errs n :
  reported errs n = match List.find (λ e, jseqb (e_field e) n) errs with
                    | Some _ => true
                    | None => false
                    end.
Proof. induction errs as [|e l IH]; cbn; [done|]. by destruct (jseqb _ _). Qed.

Lemma elem_success s ctx es f : NoDup (fname <$> es) -> f ∈ es ->
  fname f ∈ omap (success_of s ctx) es <-> success_of s ctx f = Some (fname f).
Proof.
  intros Hd Hin. rewrite list_elem_of_omap. split; [|by exists f].
  intros (g & Hg & E). pose proof (success_of_field _ _ _ _ E) as En.
  assert (f = g) as ->; [|done]. revert Hd Hin Hg. clear E. induction es as [|h es IH]; cbn.
  - by intros _ ?%elem_of_nil.
  - intros [Hn Hd]%NoDup_cons [->|Hin]%elem_of_cons [->|Hg]%elem_of_cons; try done.
    + destruct Hn. rewrite En. by apply list_elem_of_fmap_2.
    + destruct Hn. rewrite <- En. by apply list_elem_of_fmap_2.
    + by apply IH.
Qed.

Lemma elements_rules v f : f ∈ elements v -> rules (v_settings v) f <> [].
Proof.
  intros [Hin _]%first_of_each_in. apply list_elem_of_In, filter_In in Hin as [_ H].
  by destruct (rules (v_settings v) f); [rewrite andb_false_r in H|].
Qed.

Lemma checkForm_spec v : Forall (known (v_settings v)) (elements v) -> thrown v = false ->
  let v' := checkForm v in
  v_settings v' = v_settings v /\ v_context v' = v_context v /\ groups_of v' = groups_of v
  /\ thrown v' = false
  /\ errorList v' = omap (error_of (v_settings v) (v_context v)) (elements v)
  /\ successList v' = omap (success_of (v_settings v) (v_context v)) (elements v)
  /\ forall f, f ∈ elements v ->
     errorMap v' !! fname f = e_message <$> error_of (v_settings v) (v_context v) f.
Proof.
  intros Hk Ht. unfold checkForm. change (elements (reset v)) with (elements v).
  destruct (checked_all (elements v) (reset v) Hk Ht) as (E1 & E2 & E3 & _ & E4 & E5 & E6 & E7).
  split_and!; try done. intros f Hf. rewrite E7, errors_map.
  - rewrite find_error; [|apply elements_nodup|done]. by destruct (error_of _ _ f).
  - apply (omap_nodup fname e_field); [apply error_of_field|apply elements_nodup].
Qed.

Definition holds (s : settings) (ctx : context) (f : field) : bool :=
  match verdict_of s ctx f with Failed _ _ => false | _ => true end.

Lemma no_errors s ctx es :
  (length (omap (error_of s ctx) es) =? 0)%nat = forallb (holds s ctx) es.
Proof.
  induction es as [|f es IH]; [done|]. cbn. unfold error_of at 1, holds at 1.
  by destruct (verdict_of s ctx f).
Qed.

Lemma error_not_success s ctx es : NoDup (fname <$> es) ->
  forall e, e ∈ omap (error_of s ctx) es -> e_field e ∉ omap (success_of s ctx) es.
Proof.
  intros Hd e (f & Hin & E)%list_elem_of_omap. rewrite (error_of_field _ _ _ _ E).
  rewrite elem_success by done. unfold error_of, success_of in *.
  by destruct (verdict_of s ctx f).
Qed.

(** Showing errors changes classes and groups only. *)
Definition same_record (v w : validator) : Prop :=
  errorList w = errorList v /\ errorMap w = errorMap v /\ invalid w = invalid v
  /\ submitted w = submitted v /\ v_settings w = v_settings v /\ v_context w = v_context v
  /\ thrown w = thrown v.

#[local] Instance same_record_refl : Reflexive same_record.
Proof. intros v. by split_and!. Qed.

#[local] Instance same_record_trans : Transitive same_record.
Proof.
  intros u v w (E1 & E2 & E3 & E4 & E5 & E6 & E7) (F1 & F2 & F3 & F4 & F5 & F6 & F7).
  split_and!; by etransitivity.
Qed.

Lemma fold_same {A} (step : validator -> A -> validator) l v :
  (forall v a, same_record v (step v a)) -> same_record v (foldl step v l).
Proof.
  intros H. revert v. induction l as [|a l IH]; intros v; cbn; [done|].
  transitivity (step v a); auto.
Qed.

Lemma showLabel_same text_of n m v : same_record v (showLabel text_of n m v).
Proof. unfold showLabel. by destruct (jseqb _ _). Qed.

Lemma defaultShowErrors_same text_of current v :
  same_record v (defaultShowErrors text_of current v).
Proof.
  unfold defaultShowErrors.
  etransitivity; [|apply fold_same; intros w f; by destruct (existsb _ _)].
  etransitivity; [|apply fold_same; intros w n; apply showLabel_same].
  apply fold_same. intros w e. apply (showLabel_same text_of _ _ (set_class (e_field e) true w)).
Qed.

Lemma form_result text_of v : thrown v = false -> Forall (known (v_settings v)) (elements v) ->
  fst (form text_of v) = Some (forallb (holds (v_settings v) (v_context v)) (elements v)).
Proof.
  intros Ht Hk. unfold form, show_form.
  destruct (checkForm_spec v Hk Ht) as (E1 & E2 & E3 & E4 & E5 & E6 & E7). rewrite E4. cbn [fst].
  f_equal. set (w := mkValidator _ _ _ _ _ _ _ _ _ _ _).
  destruct (defaultShowErrors_same text_of (elements w) w) as (F & _).
  unfold valid. rewrite F. cbn. rewrite E5. apply no_errors.
Qed.

(** Checking one field. *)
Definition outcome text_of (s : settings) (ctx : context) (f : field) (g : option group)
    : option group :=
  match verdict_of s ctx f with
  | Failed m p => (λ _, label_group text_of (defaultMessage s f m p)) <$> g
  | Passed => (λ _, mkGroup [] false false) <$> g
  | _ => g
  end.

Lemma element_outcome text_of f v :
  thrown v = false -> visible f = true -> known (v_settings v) f -> rules (v_settings v) f <> [] ->
  let '(r, v') := check_element text_of f v in
  r = holds (v_settings v) (v_context v) f /\ thrown v' = false
  /\ v_settings v' = v_settings v /\ v_context v' = v_context v
  /\ invalid v' !! fname f = Some (MarkBool (negb r)) /\ error_class v' !! fname f = Some (negb r)
  /\ groups_of v' !! fname f
     = outcome text_of (v_settings v) (v_context v) f (groups_of v !! fname f).
Proof.
  intros Ht Hv Hk Hr. unfold check_element. rewrite Hv.
  destruct (checked f (reset v) Hk Ht) as (E1 & E2 & E3 & _ & E4 & E5 & E6 & _).
  assert (match fst (check f (reset v)) with Some false => false | _ => true end
          = holds (v_settings v) (v_context v) f) as Eh
    by (unfold check, holds; cbn; by destruct (verdict_of _ _ f)).
  destruct (check f (reset v)) as [r w]. cbn [fst snd] in *. rewrite E4, Eh.
  set (w' := set_invalid _ _ _).
  destruct (defaultShowErrors_same text_of [f] w') as (_ & _ & F1 & _ & F2 & F3 & F4).
  rewrite F1, F2, F3, F4.
  assert (errorList w' = option_list (error_of (v_settings v) (v_context v) f)) as G1 by done.
  assert (successList w' = option_list (success_of (v_settings v) (v_context v) f)) as G2 by done.
  rewrite defaultShowErrors_class by (apply elem_of_cons; by left).
  rewrite defaultShowErrors_group; rewrite ?G1, ?G2.
  - cbn [w' set_invalid invalid thrown v_settings v_context groups_of]. rewrite E1, E2, E3, E4.
    split_and!; try done; [apply lookup_insert_eq|..].
    + unfold error_of, holds. destruct (verdict_of _ _ f); cbn; by rewrite ?jseqb_refl.
    + unfold outcome, error_of, success_of. cbn [reset groups_of].
      destruct (verdict_of _ _ f); cbn; rewrite ?jseqb_refl; try done.
      destruct (rules _ f); [done|]. cbn. by rewrite bool_decide_true by by apply list_elem_of_singleton.
  - destruct (error_of _ _ f); cbn; [apply NoDup_singleton|constructor].
  - destruct (success_of _ _ f); cbn; [apply NoDup_singleton|constructor].
  - unfold error_of, success_of. intros e He.
    destruct (verdict_of _ _ f); try (by apply elem_of_nil in He); apply not_elem_of_nil.
Qed.

(** In terms of the verdict the validator computes. *)
Lemma form_verdicts text_of v :
  thrown v = false -> Forall (known (v_settings v)) (elements v) ->
  let '(r, v') := form text_of v in
  r = Some (forallb (holds (v_settings v) (v_context v)) (elements v))
  /\ forall f, f ∈ elements v ->
     let n := fname f in
     match verdict_of (v_settings v) (v_context v) f with
     | Failed m p =>
         let message := defaultMessage (v_settings v) f m p in
         errorMap v' !! n = Some message /\ invalid v' !! n = Some (MarkMessage message)
         /\ submitted v' !! n = Some message /\ error_class v' !! n = Some true
         /\ groups_of v' !! n = (λ _, label_group text_of message) <$> (groups_of v !! n)
     | Passed =>
         errorMap v' !! n = None /\ invalid v' !! n = None /\ error_class v' !! n = Some false
         /\ groups_of v' !! n = (λ _, mkGroup [] false false) <$> (groups_of v !! n)
     | _ =>
         errorMap v' !! n = None /\ invalid v' !! n = None /\ error_class v' !! n = Some false
         /\ groups_of v' !! n = groups_of v !! n
     end.
Proof.
  intros Ht Hk. pose proof (form_result text_of v Ht Hk) as Hr. unfold form, show_form in *.
  destruct (checkForm_spec v Hk Ht) as (E1 & E2 & E3 & E4 & E5 & E6 & E7). rewrite E4 in *.
  set (w := mkValidator _ _ _ _ _ _ _ _ _ _ _).
  assert (elements w = elements v) as Ew by (unfold elements; cbn; by rewrite E1, E2).
  split; [done|]. rewrite Ew.
  destruct (defaultShowErrors_same text_of (elements v) w) as (F1 & F2 & F3 & F4 & _).
  pose proof (elements_nodup v) as Hd.
  - intros f Hf. specialize (E7 f Hf). rewrite F2, F3, F4. cbn [errorMap invalid submitted w].
    rewrite (defaultShowErrors_class text_of (elements v) w (fname f)) by by apply list_elem_of_fmap_2.
    rewrite (defaultShowErrors_group text_of (elements v) w (fname f)); cbn [w errorList successList groups_of];
      rewrite ?E5, ?E6, ?E3;
      [|by apply (omap_nodup fname e_field _ (error_of_field _ _))
       |rewrite <- (list_fmap_id (omap _ _));
        apply (omap_nodup fname (λ n, n) _ (success_of_field _ _) _ Hd)
       |by apply error_not_success].
    rewrite find_error by done. rewrite lookup_fmap, lookup_union, E7.
    rewrite (bool_decide_ext _ _ (elem_success _ _ _ _ Hd Hf)).
    replace (reported (omap (error_of (v_settings v) (v_context v)) (elements v)) (fname f))
      with (negb (holds (v_settings v) (v_context v) f)).
    + unfold error_of, success_of, holds. pose proof (elements_rules v f Hf).
      destruct (verdict_of (v_settings v) (v_context v) f); cbn; [|by rewrite union_Some_l|done|done].
      destruct (rules (v_settings v) f); [done|]. cbn. by rewrite bool_decide_true.
    + rewrite reported_find, find_error by done. unfold error_of, holds.
      by destruct (verdict_of _ _ _).
Qed.

(** ** In terms of the rules *)
Section Rules.
Context (ctx : context) (f : field).

(** What the method of a rule says of the field's value. *)
Definition answer (r : jsstr * param) : option check_answer :=
  (λ method, method ctx (elementValue f) f r.2) <$> assoc r.1 methods.

Definition passes (r : jsstr * param) : Prop := answer r = Some Yes \/ answer r = Some Mismatch.

Lemma all_pass l :
  forallb (λ r, match answer r with Some Yes | Some Mismatch => true | _ => false end) l = true ->
  Forall passes l.
Proof.
  rewrite forallb_forall. intros H. apply Forall_forall. intros r Hr%list_elem_of_In.
  specialize (H r Hr). unfold passes. destruct (answer r) as [[]|]; auto; done.
Qed.

(** The rule [(m, p)] is the first of [l] that fails. *)
Definition first_fails (l : rule_list) (m : jsstr) (p : param) : Prop :=
  exists pre post, l = pre ++ (m, p) :: post /\ Forall passes pre /\ answer (m, p) = Some No.

(** The one rule there is does not apply, as to a blank field it is optional for. *)
Definition not_applied (l : rule_list) : Prop := exists r, l = [r] /\ answer r = Some Mismatch.

Lemma check_rules_step n mis r l : check_rules ctx f n mis (r :: l) =
  match answer r with
  | Some Yes => check_rules ctx f n false l
  | Some No => Failed r.1 r.2
  | Some Mismatch => check_rules ctx f n (n =? 1)%nat l
  | None => Unknown r.1
  end.
Proof. destruct r as [m p]. unfold answer. cbn. destruct (assoc m methods) as [g|]; [|done]. cbn. by destruct (g _ _ _ _). Qed.

Lemma check_rules_fails n l m p : first_fails l m p -> forall mis, check_rules ctx f n mis l = Failed m p.
Proof.
  intros (pre & post & -> & Hp & Ha). induction Hp as [|r pre Hr _ IH]; intros mis; cbn [app].
  - by rewrite check_rules_step, Ha.
  - rewrite check_rules_step. destruct Hr as [-> | ->]; apply IH.
Qed.

Lemma check_rules_passes n l : Forall passes l -> n <> 1%nat -> check_rules ctx f n false l = Passed.
Proof.
  intros Hp Hn. induction Hp as [|r l Hr _ IH]; [done|]. rewrite check_rules_step.
  rewrite (proj2 (Nat.eqb_neq n 1)) by done. by destruct Hr as [-> | ->].
Qed.

Lemma rules_split l : Forall (λ e : jsstr * param, assoc e.1 methods <> None) l ->
  Forall passes l \/ exists m p, first_fails l m p.
Proof.
  induction 1 as [|[m p] l Hr _ IH]; [left; constructor|].
  assert (answer (m, p) = Some No \/ passes (m, p)) as [Ha|Ha].
  { unfold passes, answer. cbn in *. destruct (assoc m methods) as [g|]; [|done]. cbn.
    destruct (g _ _ _ _); auto. }
  - right. exists m, p, [], l. by split_and!.
  - destruct IH as [IH|(m' & p' & pre & post & -> & Hp & Hf)]; [left; by constructor|].
    right. exists m', p', ((m, p) :: pre), post. split_and!; [done|by constructor|done].
Qed.
End Rules.

Lemma verdict_fails s ctx f m p : first_fails ctx f (rules s f) m p -> verdict_of s ctx f = Failed m p.
Proof. intros H. by apply check_rules_fails. Qed.

Lemma verdict_passes s ctx f : Forall (passes ctx f) (rules s f) ->
  (not_applied ctx f (rules s f) /\ verdict_of s ctx f = Undetermined)
  \/ (~ not_applied ctx f (rules s f) /\ verdict_of s ctx f = Passed).
Proof.
  unfold verdict_of. intros Hp. destruct (rules s f) as [|r [|r' l]] eqn:E.
  - right. split; [by intros (? & ? & _)|done].
  - apply Forall_cons_1 in Hp as [[Hr|Hr] _]; rewrite check_rules_step, Hr; [right|left].
    + split; [|done]. intros (? & [= <-] & Hm). congruence.
    + split; [by exists r|done].
  - right. split; [by intros (? & ? & _)|by apply check_rules_passes].
Qed.

Lemma holds_passes s ctx f : known s f ->
  holds s ctx f = true <-> Forall (passes ctx f) (rules s f).
Proof.
  intros Hk. unfold holds. destruct (rules_split ctx f _ Hk) as [Hp|(m & p & Hf)].
  - split; [done|]. by destruct (verdict_passes s ctx f Hp) as [[_ ->]|[_ ->]].
  - rewrite (verdict_fails s ctx f m p Hf). split; [done|]. destruct Hf as (pre & post & -> & _ & Ha).
    intros Hp. apply Forall_app in Hp as [_ Hp]. apply Forall_cons_1 in Hp as [[Hp|Hp] _]; congruence.
Qed.

(** C25: submitting a form whose rules all have their methods.  It is valid exactly
    when no rule of any checked field fails.  Afterwards each field one of whose
    rules fails carries the error class, and its group shows the message of the
    first of them in the order of its rules, which is also the one recorded; a
    field whose rules all pass has no error recorded and a cleared group, but a
    field whose only rule does not apply, as to a blank optional field, keeps the
    group it had. *)
Theorem form_outcome text_of v :
  thrown v = false -> Forall (known (v_settings v)) (elements v) ->
  let s := v_settings v in
  let ctx := v_context v in
  let '(r, v') := form text_of v in
  (exists b, r = Some b
     /\ (b = true <-> forall f, f ∈ elements v -> Forall (passes ctx f) (rules s f)))
  /\ forall f, f ∈ elements v ->
     let n := fname f in
     (forall m p, first_fails ctx f (rules s f) m p ->
        let message := defaultMessage s f m p in
        errorMap v' !! n = Some message /\ invalid v' !! n = Some (MarkMessage message)
        /\ submitted v' !! n = Some message /\ error_class v' !! n = Some true
        /\ groups_of v' !! n = (λ _, label_group text_of message) <$> (groups_of v !! n))
     /\ (Forall (passes ctx f) (rules s f) ->
        errorMap v' !! n = None /\ invalid v' !! n = None /\ error_class v' !! n = Some false
        /\ (not_applied ctx f (rules s f) -> groups_of v' !! n = groups_of v !! n)
        /\ (~ not_applied ctx f (rules s f) ->
            groups_of v' !! n = (λ _, mkGroup [] false false) <$> (groups_of v !! n))).
Proof.
  intros Ht Hk s ctx. pose proof (form_verdicts text_of v Ht Hk) as H. destruct (form text_of v) as [r v'].
  destruct H as [-> H]. split.
  - rewrite Forall_forall in Hk. eexists. split; [done|]. rewrite forallb_forall. split; intros Hall f Hf.
    + apply holds_passes; [by apply Hk|]. by apply Hall, list_elem_of_In.
    + apply list_elem_of_In in Hf. apply holds_passes; [by apply Hk|by apply Hall].
  - intros f Hf. specialize (H f Hf). split.
    + intros m p Hm. apply verdict_fails in Hm. fold s ctx in H. by rewrite Hm in H.
    + intros Hp. fold s ctx in H. by destruct (verdict_passes s ctx f Hp) as [[Hn E]|[Hn E]]; rewrite E in H;
        destruct H as (H1 & H2 & H3 & H4); split_and!.
Qed.
