(* ===== verification/ConsoleForms.v ===== *)
(** * What the console's forms accept

    The forms of [Forms], those of the pages of administrators, users and access
    rules: each form is valid exactly when the lengths and passwords it asks for are right, whatever happened to
    the form before. *)

From stdpp Require Import base tactics strings gmap numbers list.
From Stdlib Require Import ZArith Lia.
From S2P Require Import Prelude Validator Forms FormsFacts.
Local Open Scope Z_scope.

(** ** Rules one by one *)
Definition rule_ok (ctx : context) (f : field) (e : jsstr * param) : bool :=
  match assoc e.1 methods with
  | Some g => match g ctx (elementValue f) f e.2 with No => false | _ => true end
  | None => false
  end.

Lemma check_rules_ok ctx f n mis l : Forall (λ e : jsstr * param, assoc e.1 methods <> None) l ->
  match check_rules ctx f n mis l with Failed _ _ => false | _ => true end
  = forallb (rule_ok ctx f) l.
Proof.
  intros H. revert mis. induction H as [|[k p] l Hk Hl IH]; intros mis; cbn.
  - by destruct mis.
  - unfold rule_ok at 1. cbn in *. destruct (assoc k methods) as [g|]; [|done].
    by destruct (g ctx (elementValue f) f p); cbn.
Qed.

Lemma holds_ok s ctx f : known s f -> holds s ctx f = forallb (rule_ok ctx f) (rules s f).
Proof. apply check_rules_ok. Qed.

Lemma optional_spec f : optional f = (len (elementValue f) =? 0).
Proof.
  unfold optional, required_value, len. destruct (elementValue f) as [|c s]; [done|].
  cbn [length]. symmetry. apply Z.eqb_neq. lia.
Qed.

Lemma required_len s : required_value s = (1 <=? len s).
Proof. unfold required_value, len. destruct s as [|c s]; [done|]. cbn [length]. symmetry. apply Z.leb_le. lia. Qed.

Lemma answer_ok b : match answer_of b with No => false | _ => true end = b.
Proof. by destruct b. Qed.

Lemma rule_ok_required ctx f :
  rule_ok ctx f (js "required", PBool true) = (1 <=? len (elementValue f)).
Proof.
  rewrite <- required_len. apply answer_ok.
Qed.

Lemma rule_ok_switch ctx f sel :
  rule_ok ctx f (js "swtichCondRequired", PStr sel)
  = negb (switch_on ctx sel) || (1 <=? len (elementValue f)).
Proof.
  change (match (if switch_on ctx sel then answer_of (required_value (elementValue f)) else Yes)
          with No => false | _ => true end
          = negb (switch_on ctx sel) || (1 <=? len (elementValue f))).
  destruct (switch_on ctx sel); [|done]. rewrite <- required_len. apply answer_ok.
Qed.

Lemma or_optional_ok f b :
  match or_optional f b with No => false | _ => true end = (len (elementValue f) =? 0) || b.
Proof. unfold or_optional. rewrite optional_spec. destruct (_ =? _); [done|]. by destruct b. Qed.

Lemma rule_ok_maxlength ctx f n : 0 <= n ->
  rule_ok ctx f (js "maxlength", PNum n) = (len (elementValue f) <=? n).
Proof.
  intros Hn. etransitivity; [apply or_optional_ok|]. unfold len in *.
  destruct (_ =? 0) eqn:E; [|done]. apply Z.eqb_eq in E. rewrite E. symmetry. by apply Z.leb_le.
Qed.

Lemma rule_ok_range ctx f a b :
  rule_ok ctx f (js "rangelength", PRange a b)
  = (len (elementValue f) =? 0) || (len (elementValue f) >=? a) && (len (elementValue f) <=? b).
Proof. apply or_optional_ok. Qed.

Lemma rule_ok_equal ctx f sel :
  rule_ok ctx f (js "equalTo", PStr sel)
  = bool_decide (Some (elementValue f) = val_of ctx sel).
Proof. apply answer_ok. Qed.

Lemma rule_ok_differ ctx f sel : visible f = true ->
  rule_ok ctx f (js "notEqualTo", PStr sel)
  = negb (bool_decide (Some (elementValue f) = val_of ctx sel)).
Proof.
  intros Hv. transitivity (match notEqualTo ctx (elementValue f) f (PStr sel)
                           with No => false | _ => true end); [done|].
  unfold notEqualTo. rewrite Hv. apply answer_ok.
Qed.

(** ** The forms of the pages *)
(** A form that was used before, now with these fields. *)
Definition at_form (s : settings) (ctx : context) (v : validator) : validator :=
  mkValidator s ctx (submitted v) (invalid v) (errorList v) (errorMap v) (successList v)
    (error_class v) (groups_of v) (bound v) false.

Section Pages.
Context (text_of : jsstr -> jsstr) (locale_messages default_messages : gmap jsstr jsstr)
  (v : validator).

Definition accepts (rules : list (jsstr * rule_list))
    (messages : list (jsstr * list (jsstr * option jsstr))) (on : bool) (fs : list field) : bool :=
  bool_decide (fst (form text_of (at_form (mkSettings rules messages default_messages)
                                    (mkContext fs (λ _, on)) v)) = Some true).

Definition add_admin (on : bool) (a d p c : jsstr) : bool :=
  accepts addAdminRules (addAdminMessages locale_messages) on
    (add_fields "add-admin-account" "add-admin-desc" "add-admin-passwd" "add-admin-passwd-conf"
       a d p c).

Definition edit_admin (on : bool) (d o p c : jsstr) : bool :=
  accepts editAdminRules (editAdminMessages locale_messages) on
    (edit_fields "edit-admin-desc" "edit-admin-old-passwd" "edit-admin-passwd"
       "edit-admin-passwd-conf" on d o p c).

Definition add_user (on : bool) (a d p c : jsstr) : bool :=
  accepts addUserRules (addUserMessages locale_messages) on
    (add_fields "add-conn-username" "add-user-desc" "add-user-passwd" "add-user-passwd-conf"
       a d p c).

Definition edit_user (on : bool) (d o p c : jsstr) : bool :=
  accepts editUserRules (editUserMessages locale_messages) on
    (edit_fields "edit-user-desc" "edit-user-admin-passwd" "edit-user-passwd"
       "edit-user-passwd-conf" on d o p c).

Definition save_acl (on : bool) (target topic : jsstr) : bool :=
  accepts aclRules [] on [input "acl-target" true target; input "acl-topic" true topic].

(** A form of the fields of a table, in its order: the hidden fields are not
    checked, and the others have the rules of their line. *)
Definition table_ok (rs : list (jsstr * rule_list)) : bool :=
  bool_decide (NoDup (fst <$> rs))
  && forallb (λ e, bool_decide (required_first (normalizeRules (extend_rules [] e.2)) = e.2)
                   && negb (bool_decide (e.2 = []))
                   && forallb (λ r, existsb (jseqb r.1) (fst <$> methods)) e.2) rs.

Lemma known_method k : existsb (jseqb k) (fst <$> methods) = true -> assoc k methods <> None.
Proof.
  generalize methods. induction l as [|[k' g] l IH]; [done|]. unfold assoc. cbn.
  destruct (jseqb k' k) eqn:E; [done|]. intros H. apply IH.
  destruct (jseqb k k') eqn:E'; [|done].
  apply jseqb_eq in E' as ->. by rewrite jseqb_refl in E.
Qed.

Lemma assoc_in {A} (l : list (jsstr * A)) e : NoDup (fst <$> l) -> e ∈ l -> assoc e.1 l = Some e.2.
Proof.
  unfold assoc. induction l as [|d l IH]; [by intros _ ?%elem_of_nil|]. cbn.
  intros [Hn Hd]%NoDup_cons [<-|Hin]%elem_of_cons; [by rewrite jseqb_refl|].
  destruct (jseqb d.1 e.1) eqn:E; [|by apply IH].
  destruct Hn. apply jseqb_eq in E as ->. by apply list_elem_of_fmap_2.
Qed.

Lemma first_of_each_all seen l : NoDup (fname <$> l) -> (forall f, f ∈ l -> fname f ∉ seen) ->
  first_of_each seen l = l.
Proof.
  revert seen. induction l as [|f l IH]; intros seen Hd Hs; cbn; [done|].
  cbn in Hd. apply NoDup_cons in Hd as [Hn Hd].
  replace (existsb (jseqb (fname f)) seen) with false; [f_equal; apply IH; [done|]|].
  - intros g Hg. apply not_elem_of_cons. split; [|apply Hs; set_solver].
    intros E. apply Hn. rewrite <- E. by apply list_elem_of_fmap_2.
  - symmetry. apply not_true_iff_false. intros (n & Hin & E%jseqb_eq)%existsb_exists.
    apply (Hs f); [set_solver|]. rewrite E. by apply list_elem_of_In.
Qed.

Definition plain (f : field) : Prop := enabled f = true /\ markup_rules f = [].

(** A field and the rules of its line. *)
Definition ruled (s : settings) (p : field * (jsstr * rule_list)) : Prop :=
  enabled p.1 = true /\ rules s p.1 = p.2.2 /\ p.2.2 <> [] /\ known s p.1.

Lemma table_ruled rs ms fs : table_ok rs = true -> fname <$> fs = fst <$> rs -> Forall plain fs ->
  Forall (ruled (mkSettings rs ms default_messages)) (zip fs rs).
Proof.
  intros [Hd%bool_decide_eq_true Ht]%andb_true_iff Hn Hp.
  set (s := mkSettings rs ms default_messages). apply Forall_forall. intros [f e] Hin.
  assert (fname f = e.1) as En.
  { clear - Hn Hin. revert rs Hn Hin. induction fs as [|g fs IH]; intros [|d rs] Hn Hin;
      cbn in *; try by apply elem_of_nil in Hin.
    injection Hn as Eh Et. apply elem_of_cons in Hin as [[= -> ->]|Hin]; [done|by apply (IH rs)]. }
  pose proof (elem_of_zip_l _ _ _ _ Hin) as Hf. pose proof (elem_of_zip_r _ _ _ _ Hin) as He.
  destruct (proj1 (Forall_forall _ _) Hp f Hf) as [Hen Hm].
  apply list_elem_of_In in He. pose proof (proj1 (forallb_forall _ _) Ht e He) as H.
  apply andb_true_iff in H as [[H1%bool_decide_eq_true H2%negb_true_iff]%andb_true_iff H3].
  assert (rules s f = e.2) as Er.
  { unfold rules. rewrite Hm, En. cbn [s_rules s]. rewrite assoc_in by (done || by apply list_elem_of_In).
    apply H1. }
  split_and!; cbn [fst snd]; [done|done|by apply bool_decide_eq_false in H2|].
  unfold known. rewrite Er. apply Forall_forall. intros r Hr%list_elem_of_In.
  apply known_method. by apply (proj1 (forallb_forall _ _) H3).
Qed.

Lemma ruled_holds s ctx l : Forall (ruled s) l ->
  let shown := List.filter (λ f, visible f && enabled f
                 && match rules s f with [] => false | _ => true end) (fst <$> l) in
  Forall (known s) shown /\ sublist (fname <$> shown) (fname <$> (fst <$> l))
  /\ forallb (holds s ctx) shown
     = forallb (λ p, negb (visible p.1) || forallb (rule_ok ctx p.1) p.2.2) l.
Proof.
  induction 1 as [|[f e] l (He & Hr & Hn & Hk) Hl IH]; [by split_and!|].
  destruct IH as (IH1 & IH2 & IH3). cbn in *. rewrite He, Hr. destruct (visible f); cbn.
  - destruct e.2 as [|r rs] eqn:E; [done|]. cbn. split_and!; [by constructor|by constructor|].
    by rewrite IH3, holds_ok, Hr, ?E.
  - split_and!; [done|by constructor|done].
Qed.

Lemma accepts_spec rs ms on fs :
  table_ok rs = true -> fname <$> fs = fst <$> rs -> Forall plain fs ->
  accepts rs ms on fs
  = forallb (λ p, negb (visible p.1) || forallb (rule_ok (mkContext fs (λ _, on)) p.1) p.2.2)
      (zip fs rs).
Proof.
  intros Ht Hn Hp. pose proof (table_ruled rs ms fs Ht Hn Hp) as Hr.
  pose proof (f_equal length Hn) as Hl. rewrite !length_fmap in Hl.
  set (s := mkSettings rs ms default_messages) in *. set (ctx := mkContext fs (λ _, on)).
  destruct (ruled_holds s ctx _ Hr) as (H1 & H2 & H3). rewrite fst_zip in H1, H2, H3 by lia.
  assert (NoDup (fname <$> fs)) as Hd
    by (rewrite Hn; apply andb_true_iff in Ht as [Ht _]; by apply bool_decide_eq_true in Ht).
  assert (elements (at_form s ctx v) = List.filter (λ f, visible f && enabled f
    && match rules s f with [] => false | _ => true end) fs) as Ee.
  { apply first_of_each_all; [|intros; apply not_elem_of_nil].
    by apply (sublist_NoDup _ _ Hd H2). }
  unfold accepts. fold s ctx. rewrite form_result; [|done|rewrite Ee; exact H1].
  rewrite Ee. rewrite <- H3. cbn [v_settings v_context at_form]. by destruct (forallb _ _).
Qed.
End Pages.

Lemma input_value name b x : elementValue (input name b x) = clean_value x.
Proof. done. Qed.

Lemma input_visible name b x : visible (input name b x) = b.
Proof. done. Qed.

Lemma some_eq {A} (x y : A) : Some x = Some y <-> x = y.
Proof. split; [by intros [= ->]|by intros ->]. Qed.

Lemma len_nonneg x : 0 <= len x.
Proof. unfold len. lia. Qed.

Create Rewrite HintDb rule_prop.
#[local] Hint Rewrite andb_true_iff orb_true_iff negb_true_iff bool_decide_eq_true
  bool_decide_eq_false Z.leb_le Z.eqb_eq Z.geb_le (@some_eq jsstr) : rule_prop.

(** The rules of a form, field by field. *)
Ltac form_rules table :=
  rewrite accepts_spec; [|by vm_compute|by vm_compute|by repeat constructor];
  unfold table; cbn [zip zip_with forallb fst snd negb orb add_fields edit_fields];
  rewrite ?rule_ok_differ by done; rewrite ?rule_ok_maxlength by lia;
  rewrite ?rule_ok_required, ?rule_ok_switch, ?rule_ok_range, ?rule_ok_equal,
    ?input_visible, ?input_value;
  cbn [switch_on negb orb].

(** What they come to; [confirmed] is the value the confirmation is compared with. *)
Ltac form_meaning :=
  repeat (rewrite_strat (topdown (hints rule_prop)));
  repeat match goal with x : jsstr |- _ =>
    lazymatch goal with
    | _ : 0 <= len (clean_value x) |- _ => fail
    | _ => pose proof (len_nonneg (clean_value x))
    end end;
  split; [intros; destruct_and?; split_and?; (lia || done)
         |intros; destruct_and?;
          repeat match goal with H : clean_value _ = clean_value _ |- _ => rewrite H end;
          split_and?; try lia; auto with lia].

Section Accepted.
Context (text_of : jsstr -> jsstr) (lm dm : gmap jsstr jsstr) (v : validator) (a d o p c : jsstr).
Let n x := len (clean_value x).
Let same x y := clean_value x = clean_value y.

Lemma add_admin_accepts on : add_admin text_of lm dm v on a d p c = true
  <-> 1 <= n a <= 30 /\ n d <= 100 /\ 6 <= n p <= 16 /\ same c p.
Proof.
  unfold add_admin, n, same. form_rules addAdminRules.
  change (val_of _ _) with (Some (clean_value p)). form_meaning.
Qed.

Lemma add_user_accepts on : add_user text_of lm dm v on a d p c = true
  <-> 1 <= n a <= 30 /\ n d <= 100 /\ 6 <= n p <= 16 /\ same c p.
Proof.
  unfold add_user, n, same. form_rules addUserRules.
  change (val_of _ _) with (Some (clean_value p)). form_meaning.
Qed.

Lemma edit_admin_accepts : edit_admin text_of lm dm v true d o p c = true
  <-> n d <= 100 /\ 6 <= n o <= 16 /\ 6 <= n p <= 16 /\ ~ same p o /\ same c p.
Proof.
  unfold edit_admin, n, same. form_rules editAdminRules.
  change (val_of _ (js "#edit-admin-passwd")) with (Some (clean_value p)).
  change (val_of _ (js "#edit-admin-old-passwd")) with (Some (clean_value o)). form_meaning.
Qed.

Lemma edit_user_accepts : edit_user text_of lm dm v true d o p c = true
  <-> n d <= 100 /\ 6 <= n o <= 16 /\ 6 <= n p <= 16 /\ same c p.
Proof.
  unfold edit_user, n, same. form_rules editUserRules.
  change (val_of _ _) with (Some (clean_value p)). form_meaning.
Qed.

Lemma edit_admin_description : edit_admin text_of lm dm v false d o p c = true <-> n d <= 100.
Proof. unfold edit_admin, n. form_rules editAdminRules. form_meaning. Qed.

Lemma edit_user_description : edit_user text_of lm dm v false d o p c = true <-> n d <= 100.
Proof. unfold edit_user, n. form_rules editUserRules. form_meaning. Qed.

Lemma save_acl_accepts on : save_acl text_of dm v on a d = true <-> 1 <= n a <= 1024 /\ 1 <= n d <= 1024.
Proof. unfold save_acl, n. form_rules aclRules. form_meaning. Qed.
End Accepted.

(** C26: The forms accept exactly what the pages ask for: an account of 1 to 30
    characters, descriptions of at most 100, passwords of 6 to 16 with their
    confirmation equal, and, while the switch of an edit form is on, the old
    password too, which for an administrator must differ from the new one; with
    the switch off only the description counts; a target and a topic of 1 to 1024
    characters for an access rule.  This holds whatever state earlier checks left
    the validator in. *)
Theorem console_forms_accept text_of lm dm v on (a d o p c : jsstr) :
  let n x := len (clean_value x) in
  let same x y := clean_value x = clean_value y in
  (add_admin text_of lm dm v on a d p c = true
   <-> 1 <= n a <= 30 /\ n d <= 100 /\ 6 <= n p <= 16 /\ same c p)
  /\ (add_user text_of lm dm v on a d p c = true
      <-> 1 <= n a <= 30 /\ n d <= 100 /\ 6 <= n p <= 16 /\ same c p)
  /\ (edit_admin text_of lm dm v true d o p c = true
      <-> n d <= 100 /\ 6 <= n o <= 16 /\ 6 <= n p <= 16 /\ ~ same p o /\ same c p)
  /\ (edit_user text_of lm dm v true d o p c = true
      <-> n d <= 100 /\ 6 <= n o <= 16 /\ 6 <= n p <= 16 /\ same c p)
  /\ (edit_admin text_of lm dm v false d o p c = true <-> n d <= 100)
  /\ (edit_user text_of lm dm v false d o p c = true <-> n d <= 100)
  /\ (save_acl text_of dm v on a d = true <-> 1 <= n a <= 1024 /\ 1 <= n d <= 1024).
Proof.
  exact (conj (add_admin_accepts text_of lm dm v a d o p c on)
        (conj (add_user_accepts text_of lm dm v a d o p c on)
        (conj (edit_admin_accepts text_of lm dm v a d o p c)
        (conj (edit_user_accepts text_of lm dm v a d o p c)
        (conj (edit_admin_description text_of lm dm v a d o p c)
        (conj (edit_user_description text_of lm dm v a d o p c)
              (save_acl_accepts text_of dm v a d o p c on))))))).
Qed.

(** ** A message that stays *)
Lemma one_rule_verdict s ctx f n : rules s f = [(js "maxlength", PNum n)] ->
  verdict_of s ctx f
  = if len (elementValue f) =? 0 then Undetermined
    else if len (elementValue f) <=? n then Passed else Failed (js "maxlength") (PNum n).
Proof.
  intros Hr. unfold verdict_of. rewrite Hr.
  change (match maxlength ctx (elementValue f) f (PNum n) with
          | Mismatch => Undetermined | Yes => Passed | No => Failed (js "maxlength") (PNum n) end
          = if len (elementValue f) =? 0 then Undetermined
            else if len (elementValue f) <=? n then Passed else Failed (js "maxlength") (PNum n)).
  unfold maxlength, or_optional. rewrite optional_spec.
  destruct (_ =? 0); [done|]. by destruct (_ <=? n).
Qed.

(** A field whose only rule is an optional length, like the descriptions of
    the console: once its error has been shown, clearing the field makes it pass
    but leaves the error message and the error mark of its group as they were. *)
Theorem optional_error_sticks text_of v f n g x :
  thrown v = false -> visible f = true -> ftype f = TText ->
  rules (v_settings v) f = [(js "maxlength", PNum n)] ->
  groups_of v !! fname f = Some g -> 0 <= n < len (clean_value x) ->
  jseqb (defaultMessage (v_settings v) f (js "maxlength") (PNum n)) [] = false ->
  let message := defaultMessage (v_settings v) f (js "maxlength") (PNum n) in
  let '(r1, v1) := check_element text_of (with_value f x) v in
  let '(r2, v2) := check_element text_of (with_value f []) v1 in
  r1 = false /\ r2 = true
  /\ groups_of v1 !! fname f = Some (mkGroup (text_of message) true true)
  /\ groups_of v2 !! fname f = Some (mkGroup (text_of message) true true)
  /\ error_class v1 !! fname f = Some true /\ error_class v2 !! fname f = Some false
  /\ invalid v2 !! fname f = Some (MarkBool false).
Proof.
  intros Ht Hv Hty Hr Hg Hx Hm message.
  assert (forall y, rules (v_settings v) (with_value f y) = [(js "maxlength", PNum n)]) as Hry
    by (intros y; exact Hr).
  assert (forall y, known (v_settings v) (with_value f y)) as Hk
    by (intros y; unfold known; rewrite Hry; by repeat constructor).
  assert (forall y, elementValue (with_value f y) = clean_value y) as He
    by (intros y; unfold elementValue; cbn; by rewrite Hty).
  pose proof (element_outcome text_of (with_value f x) v Ht Hv (Hk x) ltac:(by rewrite Hry)) as H1.
  destruct (check_element text_of (with_value f x) v) as [r1 v1].
  destruct H1 as (R1 & T1 & S1 & _ & _ & C1 & G1).
  pose proof (element_outcome text_of (with_value f []) v1 T1 Hv) as H2. rewrite S1 in H2.
  specialize (H2 (Hk []) ltac:(by rewrite Hry)).
  destruct (check_element text_of (with_value f []) v1) as [r2 v2].
  destruct H2 as (R2 & _ & _ & _ & I2 & C2 & G2).
  cbn [fname with_value] in *. unfold holds, outcome in *.
  rewrite (one_rule_verdict _ _ _ n (Hry x)), He in R1, G1. rewrite Hg in G1.
  rewrite (one_rule_verdict _ _ _ n (Hry [])), He in R2, G2.
  destruct (Z.eqb_spec (len (clean_value x)) 0); [lia|].
  destruct (Z.leb_spec (len (clean_value x)) n); [lia|].
  cbn in R1, G1, R2, G2. subst. unfold label_group in G1.
  change (defaultMessage _ (with_value f x) _ _) with message in G1. fold message in Hm. rewrite Hm in G1.
  rewrite G1 in G2. by split_and!.
Qed.

(** ** A form on a page *)
Definition fresh (s : settings) (ctx : context) : validator :=
  mkValidator s ctx ∅ ∅ [] ∅ [] ∅
    (list_to_map ((λ f, (fname f, mkGroup [] true false)) <$> fields ctx)) [] false.

Definition admin_settings : settings :=
  mkSettings addAdminRules (addAdminMessages ∅) plugin_messages.

Definition admin_page : validator :=
  fresh admin_settings
    (mkContext (add_fields "add-admin-account" "add-admin-desc" "add-admin-passwd"
                  "add-admin-passwd-conf" (js "root") [] (js "abc") (js "abc")) (λ _, true)).

Lemma known_all s es :
  forallb (λ f, forallb (λ r, existsb (jseqb r.1) (fst <$> methods)) (rules s f)) es = true ->
  Forall (known s) es.
Proof.
  intros H. apply Forall_forall. intros f Hf%list_elem_of_In.
  apply Forall_forall. intros r Hr%list_elem_of_In. apply known_method.
  by apply (proj1 (forallb_forall _ _) (proj1 (forallb_forall _ _) H f Hf)).
Qed.

Lemma form_outcome_witness :
  first_fails (v_context admin_page) (input "add-admin-passwd" true (js "abc"))
    (rules admin_settings (input "add-admin-passwd" true (js "abc"))) (js "rangelength") (PRange 6 16)
  /\ fst (form id admin_page) = Some false
  /\ groups_of (snd (form id admin_page)) !! js "add-admin-passwd"
     = Some (mkGroup (js "Please enter a value between 6 and 16 characters long.") true true)
  /\ groups_of (snd (form id admin_page)) !! js "add-admin-account" = Some (mkGroup [] false false).
Proof.
  assert (Forall (known (v_settings admin_page)) (elements admin_page)) as Hk
    by (apply known_all; vm_compute; reflexivity).
  assert (first_fails (v_context admin_page) (input "add-admin-passwd" true (js "abc"))
    (rules admin_settings (input "add-admin-passwd" true (js "abc"))) (js "rangelength") (PRange 6 16)) as Hf.
  { exists [(js "required", PBool true)], []. split_and!; [vm_compute; reflexivity| |vm_compute; reflexivity].
    constructor; [left; vm_compute; reflexivity|constructor]. }
  pose proof (form_outcome id admin_page eq_refl Hk) as H.
  destruct (form id admin_page) as [r v']. destruct H as [(b & H1 & Hb) H2]. cbn [fst snd].
  assert (input "add-admin-passwd" true (js "abc") ∈ elements admin_page) as Hin
    by (apply list_elem_of_In; vm_compute; auto).
  split_and!; [exact Hf| | |].
  - rewrite H1. destruct b; [|reflexivity]. specialize (proj1 Hb eq_refl _ Hin) as Hp.
    change (v_settings admin_page) with admin_settings in Hp.
    destruct Hf as (pre & post & E & _ & Ha). rewrite E in Hp.
    apply Forall_app in Hp as [_ Hp]. apply Forall_cons_1 in Hp as [[Hp|Hp] _]; congruence.
  - refine (eq_trans (proj2 (proj2 (proj2 (proj2 (proj1 (H2 _ Hin) _ _ Hf))))) _).
    vm_compute. reflexivity.
  - assert (input "add-admin-account" true (js "root") ∈ elements admin_page) as Hin'
      by (apply list_elem_of_In; vm_compute; auto).
    refine (eq_trans (proj2 (proj2 (proj2 (proj2 (proj2 (H2 _ Hin') _)))) _) _).
    + apply all_pass. vm_compute. reflexivity.
    + intros (q & Hl & _). apply (f_equal length) in Hl. vm_compute in Hl. discriminate Hl.
    + vm_compute. reflexivity.
Defined.

Definition edit_page : validator :=
  fresh (mkSettings editAdminRules (editAdminMessages ∅) plugin_messages)
    (mkContext (edit_fields "edit-admin-desc" "edit-admin-old-passwd" "edit-admin-passwd"
                  "edit-admin-passwd-conf" false [] [] [] []) (λ _, false)).

Lemma optional_error_sticks_witness :
  let v := edit_page in let f := input "edit-admin-desc" true [] in
  let v1 := snd (check_element id (with_value f (repeat 97 101)) v) in
  let '(r, v2) := check_element id (with_value f []) v1 in
  r = true /\ groups_of v2 !! js "edit-admin-desc"
              = Some (mkGroup (js "Please enter no more than 100 characters.") true true).
Proof.
  pose proof (optional_error_sticks id edit_page (input "edit-admin-desc" true []) 100
    (mkGroup [] true false) (repeat 97 101) eq_refl eq_refl eq_refl ltac:(by vm_compute)
    ltac:(by vm_compute) ltac:(by vm_compute) ltac:(by vm_compute)) as H.
  cbv zeta in *. destruct (check_element id (with_value _ (repeat 97 101)) edit_page) as [r1 v1].
  cbn [snd]. destruct (check_element id _ v1) as [r2 v2]. destruct H as (_ & H2 & _ & H4 & _).
  split; [exact H2|]. refine (eq_trans H4 _). vm_compute. reflexivity.
Defined.
