(* ===== verification/Callbacks.v ===== *)
(** * Lists of callbacks (jquery.js: [jQuery.Callbacks])

    A list of callbacks is fired with values, and the functions in it may add
    functions to it, fire it or lock it while it is being fired.  This file holds
    the state of one list and the pieces of its operations between which functions
    run; [Deferred] puts them together. *)

From stdpp Require Import base tactics numbers list.
From Stdlib Require Import ZArith Lia.
From S2P Require Import Prelude.
Local Open Scope Z_scope.

(** The options of a list. *)
Record flags := mkFlags { once : bool; keeps : bool; unique : bool; stopOnFalse : bool }.

Definition once_memory : flags := mkFlags true true false false.
Definition only_memory : flags := mkFlags false true false false.

Section Lists.
Context {F V : Type} `{EqDecision F}.

(** [memory] is [None] when it is [undefined], [false] or the empty text, and
    [members] is [None] when the list is spent (the empty text). *)
Record clist := mkList {
  options : flags;
  firing : bool;
  memory : option V;
  fired : bool;
  locked : bool;
  members : option (list F);
  queue : list V;
  firingIndex : Z;
}.

Definition Callbacks (o : flags) : clist := mkList o false None false false (Some []) [] (-1).

Definition list_length (c : clist) : Z := Z.of_nat (length (default [] (members c))).

Definition has (f : F) (c : clist) : bool := bool_decide (f ∈ default [] (members c)).

(** One function of the arguments of [add]. *)
Definition push_one (c : clist) (f : F) : clist :=
  if unique (options c) && has f c then c
  else mkList (options c) (firing c) (memory c) (fired c) (locked c)
         ((λ ms, ms ++ [f]) <$> members c) (queue c) (firingIndex c).

(** [add]: with values from an earlier run the list is to be fired again, from the
    first of the new functions on. *)
Definition add (fs : list F) (c : clist) : clist * bool :=
  match members c with
  | None => (c, false)
  | Some _ =>
      match memory c with
      | Some v =>
          if firing c then (foldl push_one c fs, false)
          else (foldl push_one
                  (mkList (options c) (firing c) (memory c) (fired c) (locked c) (members c)
                     (queue c ++ [v]) (list_length c - 1)) fs, true)
      | None => (foldl push_one c fs, false)
      end
  end.

(** [remove] of one function: all its places, the index following. *)
Fixpoint remove_from (f : F) (i : Z) (ms : list F) (index : Z) : list F * Z :=
  match ms with
  | [] => ([], index)
  | g :: ms' =>
      if decide (g = f)
      then remove_from f i ms' (if i <=? index then index - 1 else index)
      else let '(r, index) := remove_from f (i + 1) ms' index in (g :: r, index)
  end.

Definition remove (f : F) (c : clist) : clist :=
  match members c with
  | None => c
  | Some ms =>
      let '(r, index) := remove_from f 0 ms (firingIndex c) in
      mkList (options c) (firing c) (memory c) (fired c) (locked c) (Some r) (queue c) index
  end.

Definition empty (c : clist) : clist :=
  mkList (options c) (firing c) (memory c) (fired c) (locked c) ((λ _, []) <$> members c)
    (queue c) (firingIndex c).

Definition disable (c : clist) : clist :=
  mkList (options c) (firing c) None (fired c) true None [] (firingIndex c).

Definition lock (c : clist) : clist :=
  match memory c with
  | None => if firing c
            then mkList (options c) (firing c) (memory c) (fired c) true (members c) [] (firingIndex c)
            else mkList (options c) (firing c) None (fired c) true None [] (firingIndex c)
  | Some _ => mkList (options c) (firing c) (memory c) (fired c) true (members c) [] (firingIndex c)
  end.

(** [fireWith]; the second part tells that [fire] is called. *)
Definition fireWith (v : V) (c : clist) : clist * bool :=
  if locked c then (c, false)
  else (mkList (options c) (firing c) (memory c) (fired c) (locked c) (members c) (queue c ++ [v])
          (firingIndex c), negb (firing c)).

(** ** The parts of [fire] *)

(** Before its loops. *)
Definition fire_begin (c : clist) : clist :=
  mkList (options c) true (memory c) true (locked c || once (options c)) (members c) (queue c)
    (firingIndex c).

(** A turn of the outer loop begins: [None] when it is over. *)
Definition fire_shift (c : clist) : option clist :=
  match queue c with
  | [] => None
  | v :: q => Some (mkList (options c) (firing c) (Some v) (fired c) (locked c) (members c) q
                      (firingIndex c))
  end.

(** A turn of the inner loop: the index is moved and the function there, if any, is
    to be called. *)
Definition fire_next (c : clist) : clist * option F :=
  let i := firingIndex c + 1 in
  (mkList (options c) (firing c) (memory c) (fired c) (locked c) (members c) (queue c) i,
   if i <? list_length c then default [] (members c) !! Z.to_nat i else None).

(** The inner loop is over. *)
Definition fire_rewind (c : clist) : clist :=
  mkList (options c) (firing c) (memory c) (fired c) (locked c) (members c) (queue c) (-1).

(** A function has returned [false] or something else. *)
Definition fire_returned (is_false : bool) (c : clist) : clist :=
  if is_false && stopOnFalse (options c) then
    mkList (options c) (firing c) None (fired c) (locked c) (members c) (queue c) (list_length c)
  else c.

(** After the loops. *)
Definition fire_end (c : clist) : clist :=
  let memory := if keeps (options c) then memory c else None in
  mkList (options c) false memory (fired c) (locked c)
    (if locked c then match memory with Some _ => Some [] | None => None end else members c)
    (queue c) (firingIndex c).
End Lists.
Arguments clist : clear implicits.

(** ** Functions are removed while the list is fired *)
Section Removal.
Context {F V : Type} `{EqDecision F}.
Implicit Types (f : F) (ms : list F) (c : clist F V).

Definition without (f : F) (ms : list F) : list F := filter (λ g, g <> f) ms.

Lemma without_cons f g ms : without f (g :: ms) = if decide (g = f) then without f ms else g :: without f ms.
Proof.
  unfold without. rewrite filter_cons. destruct (decide (g = f)) as [->|H]; [by rewrite decide_False by auto|].
  by rewrite decide_True.
Qed.

Lemma remove_beyond f i ms index : index < i -> remove_from f i ms index = (without f ms, index).
Proof.
  revert i. induction ms as [|g ms IH]; intros i Hx; [done|]. cbn [remove_from]. rewrite without_cons.
  destruct (decide (g = f)) as [->|Hg].
  - destruct (Z.leb_spec i index); [lia|]. by apply IH.
  - by rewrite IH by lia.
Qed.

(** The index stays behind the same functions. *)
Lemma remove_index f i ms n : (n <= length ms)%nat ->
  remove_from f i ms (i + Z.of_nat n - 1)
  = (without f ms, i + Z.of_nat (length (without f (take n ms))) - 1).
Proof.
  revert i n. induction ms as [|g ms IH]; intros i n Hn.
  { destruct n; [|cbn in Hn; lia]. cbn. by rewrite Z.add_0_r. }
  destruct n as [|n].
  { rewrite remove_beyond by lia. cbn. by rewrite Z.add_0_r. }
  cbn [remove_from take]. rewrite !without_cons. cbn in Hn. destruct (decide (g = f)) as [->|Hg].
  - destruct (Z.leb_spec i (i + Z.of_nat (S n) - 1)); [|lia].
    replace (i + Z.of_nat (S n) - 1 - 1) with (i + Z.of_nat n - 1) by lia. apply IH. lia.
  - replace (i + Z.of_nat (S n) - 1) with (i + 1 + Z.of_nat n - 1) by lia. rewrite IH by lia.
    f_equal. cbn [length]. lia.
Qed.

(** A function removed while the list is being fired, in all its places, is not
    called again, and no other function is skipped or called twice for it: those
    that are still to be called are those that were, without it, and likewise
    those that were called. *)
Theorem remove_keeps_place f c ms : members c = Some ms -> -1 <= firingIndex c < Z.of_nat (length ms) ->
  let c' := remove f c in
  let called c := take (Z.to_nat (firingIndex c + 1)) (default [] (members c)) in
  let rest c := drop (Z.to_nat (firingIndex c + 1)) (default [] (members c)) in
  called c' = without f (called c) /\ rest c' = without f (rest c) /\ queue c' = queue c /\ memory c' = memory c.
Proof.
  intros Em Hi. cbn zeta. unfold remove. rewrite Em.
  assert (firingIndex c = 0 + Z.of_nat (Z.to_nat (firingIndex c + 1)) - 1) as E by lia.
  set (n := Z.to_nat (firingIndex c + 1)) in *. rewrite E, remove_index by lia. cbn [firingIndex members default queue memory].
  replace (Z.to_nat (0 + Z.of_nat (length (without f (take n ms))) - 1 + 1)) with (length (without f (take n ms))) by lia.
  cbn. assert (without f ms = without f (take n ms) ++ without f (drop n ms)) as ->
    by (unfold without; by rewrite <- filter_app, take_drop).
  by rewrite take_app_length, drop_app_length.
Qed.
End Removal.

Lemma remove_keeps_place_witness :
  let c : clist Z Z := mkList only_memory true (Some 0) true false (Some [7; 8; 7; 9; 7]) [] 2 in
  members c = Some [7; 8; 7; 9; 7] /\ members (remove 7 c) = Some [8; 9] /\ firingIndex (remove 7 c) = 0.
Proof.
  destruct (remove_keeps_place 7 (mkList only_memory true (Some 0) true false (Some [7; 8; 7; 9; 7]) [] 2 : clist Z Z)
              [7; 8; 7; 9; 7]) as (H1 & H2 & _); [reflexivity|vm_compute; split; congruence|].
  split; [reflexivity|]. split; [vm_compute; reflexivity|vm_compute; reflexivity].
Defined.
