(* ===== verification/Deferred.v ===== *)
(** * Deferreds (jquery.js: [jQuery.Deferred])

    A deferred has a list of callbacks for each of progress, success and failure,
    and behind each a list of the handlers of [then].  The functions in the lists
    run to their ends one inside the other, so the state has a stack: below a
    function that runs stands the list that called it.  A function may do anything
    to the deferred while it runs, return, or throw; the inputs say what it does.

    Modelled choices: [then], [pipe] and [when] are not modelled, so the lists of
    handlers stay empty; [always] is [done] followed by [fail]; the value a list is
    fired with stands for its context and arguments. *)

From stdpp Require Import base tactics numbers list.
From Stdlib Require Import ZArith Lia.
From S2P Require Import Prelude Callbacks.
Local Open Scope Z_scope.

Inductive list_id := Progress | ProgressH | Done | DoneH | Fail | FailH | Complete.

#[export] Instance list_id_eq_dec : EqDecision list_id.
Proof. solve_decision. Defined.

Inductive dstate := Unsettled | Resolved | Rejected.

#[export] Instance dstate_eq_dec : EqDecision dstate.
Proof. solve_decision. Defined.

(** What stands in the lists: functions of the callers, and those the deferred puts
    there itself. *)
Inductive fn :=
  | User (k : nat)
  | SetState (s : dstate)
  | DisableOf (l : list_id)
  | LockOf (l : list_id)
  | FireOf (l : list_id).

#[export] Instance fn_eq_dec : EqDecision fn.
Proof. solve_decision. Defined.

Section Machine.
(** The values, and what else may wait on the stack. *)
Context {V A : Type}.

(** A list that is being fired (in its outer or its inner loop), a function that
    runs, or something else that waits. *)
Inductive frame := Firing (l : list_id) (outer : bool) | Body (k : nat) | Ext (a : A).

Inductive entry := Added (l : list_id) (k : nat) | Called (l : list_id) (k : nat) (v : V) | Threw.

Record world := mkWorld {
  lists : list_id -> clist fn V;
  state : dstate;
  stack : list frame;
  log : list entry;
}.

Definition set_list (l : list_id) (c : clist fn V) (w : world) : world :=
  mkWorld (λ l', if decide (l' = l) then c else lists w l') (state w) (stack w) (log w).
Definition set_stack (st : list frame) (w : world) : world := mkWorld (lists w) (state w) st (log w).
Definition set_state (s : dstate) (w : world) : world := mkWorld (lists w) s (stack w) (log w).
Definition push_frame (f : frame) (w : world) : world := set_stack (f :: stack w) w.
Definition record_entry (e : entry) (w : world) : world :=
  mkWorld (lists w) (state w) (stack w) (log w ++ [e]).

(** [fire]: the list is put on the stack. *)
Definition start_fire (l : list_id) (w : world) : world :=
  push_frame (Firing l true) (set_list l (fire_begin (lists w l)) w).

Definition do_add (l : list_id) (fs : list fn) (w : world) : world :=
  let '(c, again) := add fs (lists w l) in
  let w := set_list l c w in
  if again then start_fire l w else w.

Definition do_fireWith (l : list_id) (v : V) (w : world) : world :=
  let '(c, now) := fireWith v (lists w l) in
  let w := set_list l c w in
  if now then start_fire l w else w.

(** An exception: everything is left that is not a function of a caller, who may
    catch it. *)
Fixpoint unwind (st : list frame) : list frame :=
  match st with
  | Body k :: st' => Body k :: st'
  | _ :: st' => unwind st'
  | [] => []
  end.

Definition throw (w : world) : world := record_entry Threw (set_stack (unwind (tail (stack w))) w).

(** A function of list [l] is called. *)
Definition call (l : list_id) (f : fn) (v : V) (w : world) : world :=
  match f with
  | User k => push_frame (Body k) (record_entry (Called l k v) w)
  | SetState s => set_state s w
  | DisableOf l' => set_list l' (disable (lists w l')) w
  | LockOf l' => set_list l' (lock (lists w l')) w
  | FireOf l' => do_fireWith l' v w
  end.

(** The list on top of the stack goes on. *)
Definition fire_on (w : world) : world :=
  match stack w with
  | Firing l true :: st =>
      match fire_shift (lists w l) with
      | Some c => set_stack (Firing l false :: st) (set_list l c w)
      | None => set_stack st (set_list l (fire_end (lists w l)) w)
      end
  | Firing l false :: st =>
      let '(c, f) := fire_next (lists w l) in
      match f with
      | None => set_stack (Firing l true :: st) (set_list l (fire_rewind c) w)
      | Some f =>
          match memory c with
          | Some v => call l f v (set_list l c w)
          | None => throw (set_list l c w)
          end
      end
  | _ => w
  end.

(** The function on top of the stack returns. *)
Definition return_from (is_false : bool) (w : world) : world :=
  match stack w with
  | Body _ :: Firing l b :: st =>
      set_stack (Firing l b :: st) (set_list l (fire_returned is_false (lists w l)) w)
  | Body _ :: st => set_stack st w
  | _ => w
  end.

(** ** The deferred *)
Definition other (l : list_id) : list_id :=
  match l with Done => Fail | Fail => Done | DoneH => FailH | FailH => DoneH | l => l end.

Definition handlers (l : list_id) : list_id :=
  match l with Progress => ProgressH | Done => DoneH | Fail => FailH | l => l end.

Definition settles (l : list_id) : option dstate :=
  match l with Done => Some Resolved | Fail => Some Rejected | _ => None end.

(** What the deferred adds to a list when it is made. *)
Definition own_functions (l : list_id) : list fn :=
  match settles l with
  | Some s => [SetState s; DisableOf (other l); DisableOf (handlers (other l));
               LockOf Progress; LockOf ProgressH]
  | None => []
  end ++ [FireOf (handlers l)].

Definition new_list (l : list_id) : clist fn V :=
  match l with
  | Progress => fst (add (own_functions l) (Callbacks only_memory))
  | Done | Fail => fst (add (own_functions l) (Callbacks once_memory))
  | ProgressH => Callbacks only_memory
  | DoneH | FailH | Complete => Callbacks once_memory
  end.

Definition fresh_world : world := mkWorld new_list Unsettled [] [].

(** [done], [fail] and [progress] of functions of the callers. *)
Definition add_users (l : list_id) (ks : list nat) (w : world) : world :=
  do_add l (map User ks)
    (mkWorld (lists w) (state w) (stack w) (log w ++ map (Added l) ks)).

(** What a function, or the page between functions, may do. *)
Inductive input :=
  | AddTo (l : list_id) (ks : list nat)
  | FireWith (l : list_id) (v : V)
  | Return (is_false : bool)
  | Throw
  | Go.

(** The lists of a deferred that the callers reach. *)
Definition public (l : list_id) : bool :=
  match l with Progress | Done | Fail => true | _ => false end.

(** While a list is being fired nothing else happens. *)
Definition step (i : input) (w : world) : world :=
  match stack w with
  | Firing _ _ :: _ => fire_on w
  | st =>
      match i, st with
      | AddTo l ks, _ => if public l then add_users l ks w else w
      | FireWith l v, _ => if public l then do_fireWith l v w else w
      | Return b, Body _ :: _ => return_from b w
      | Throw, Body _ :: _ => throw w
      | _, _ => w
      end
  end.

Definition run_deferred (es : list input) : world := foldl (λ w e, step e w) fresh_world es.
End Machine.
Arguments frame : clear implicits.
Arguments world : clear implicits.
Arguments entry : clear implicits.
Arguments input : clear implicits.
