(* ===== verification/DeferredFacts.v ===== *)
(** * What a deferred promises

    Whatever the functions in its lists do, a deferred settles at most once, each
    function is called at most once, with the one value it was settled with and in
    the order the functions were added, and none is left out unless one throws. *)

From stdpp Require Import base tactics numbers sets list.
From Stdlib Require Import ZArith Lia.
From S2P Require Import Prelude Callbacks Deferred.
Local Open Scope Z_scope.

Section Facts.
Context {V A : Type}.
Implicit Types (w : world V A) (c : clist fn V) (l : list_id).

(** ** What the log says of a list *)
Definition regs_of (l : list_id) (t : list (entry V)) : list nat :=
  omap (λ e, match e with Added l' k => if decide (l' = l) then Some k else None | _ => None end) t.

Definition calls_of (l : list_id) (t : list (entry V)) : list (nat * V) :=
  omap (λ e, match e with Called l' k v => if decide (l' = l) then Some (k, v) else None | _ => None end) t.

Definition users (ms : list fn) : list nat :=
  omap (λ f, match f with User k => Some k | _ => None end) ms.

#[local] Arguments regs_of : simpl never.
#[local] Arguments calls_of : simpl never.

Lemma users_app a b : users (a ++ b) = users a ++ users b.
Proof. apply omap_app. Qed.

Lemma users_map ks : users (map User ks) = ks.
Proof. unfold users. induction ks as [|k ks IH]; [done|]. cbn. by rewrite IH. Qed.

(** The loop a list is in, if it is on the stack. *)
Fixpoint frame_of (l : list_id) (st : list (frame A)) : option bool :=
  match st with
  | Firing l' b :: st' => if decide (l' = l) then Some b else frame_of l st'
  | _ :: st' => frame_of l st'
  | [] => None
  end.

(** ** The life of a list that is fired once *)
Inductive stage :=
  | Fresh
  | Spent
  | Starting (v : V)   (* fired, or functions were added after that *)
  | Running (v : V)
  | Ending (v : V)
  | Resting (v : V)
  | Stuck (v : V).     (* a function threw *)

(** What was added splits into what was called and what is still to be. *)
Definition called_with (v : V) (rg : list nat) (cl : list (nat * V)) (rest : list nat) : Prop :=
  rg = cl.*1 ++ rest /\ Forall (λ x, x.2 = v) cl.

Definition at_stage (st : stage) (c : clist fn V) (on_stack : option bool) (rg : list nat)
    (cl : list (nat * V)) : Prop :=
  options c = once_memory /\
  match st with
  | Fresh => on_stack = None /\ firing c = false /\ memory c = None /\ locked c = false /\ queue c = []
      /\ firingIndex c = -1 /\ cl = [] /\ exists ms, members c = Some ms /\ users ms = rg
  | Spent => on_stack = None /\ firing c = false /\ memory c = None /\ locked c = true
      /\ members c = None /\ cl = []
  | Starting v => on_stack = Some true /\ firing c = true /\ locked c = true /\ queue c = [v]
      /\ firingIndex c = -1 /\ exists ms, members c = Some ms /\ called_with v rg cl (users ms)
  | Running v => on_stack = Some false /\ firing c = true /\ locked c = true /\ queue c = []
      /\ memory c = Some v /\ -1 <= firingIndex c
      /\ exists ms, members c = Some ms /\ firingIndex c < Z.of_nat (length ms)
      /\ called_with v rg cl (users (drop (Z.to_nat (firingIndex c + 1)) ms))
  | Ending v => on_stack = Some true /\ firing c = true /\ locked c = true /\ queue c = []
      /\ memory c = Some v /\ firingIndex c = -1 /\ called_with v rg cl []
  | Resting v => on_stack = None /\ firing c = false /\ locked c = true /\ queue c = []
      /\ memory c = Some v /\ firingIndex c = -1 /\ members c = Some [] /\ called_with v rg cl []
  | Stuck v => on_stack = None /\ firing c = true /\ locked c = true /\ memory c = Some v
      /\ exists rest, called_with v rg cl rest
  end.

Definition stage_of (l : list_id) (st : stage) (w : world V A) : Prop :=
  at_stage st (lists w l) (frame_of l (stack w)) (regs_of l (log w)) (calls_of l (log w)).

(** The list is as it was, and so is what concerns it. *)
Record quiet (l : list_id) (w w' : world V A) : Prop := {
  qu_list : lists w' l = lists w l;
  qu_frame : frame_of l (stack w') = frame_of l (stack w);
  qu_regs : regs_of l (log w') = regs_of l (log w);
  qu_calls : calls_of l (log w') = calls_of l (log w);
  qu_threw : Threw ∈ log w -> Threw ∈ log w';
}.

Lemma stage_quiet l st w w' : quiet l w w' -> stage_of l st w -> stage_of l st w'.
Proof. intros [E1 E2 E3 E4 _]. unfold stage_of. by rewrite E1, E2, E3, E4. Qed.

#[global] Instance quiet_refl l : Reflexive (quiet l).
Proof. by split. Qed.
#[global] Instance quiet_trans l : Transitive (quiet l).
Proof. intros w1 w2 w3 [] []. split; [by etransitivity..|auto]. Qed.

Lemma quiet_set_list l l' c w : l' <> l -> quiet l w (set_list l' c w).
Proof. intros H. split; try done. cbn. by rewrite decide_False. Qed.

Lemma quiet_state l s w : quiet l w (set_state s w).
Proof. by split. Qed.

Lemma quiet_start l l' w : l' <> l -> quiet l w (start_fire l' w).
Proof.
  intros H. split; try done; cbn; by rewrite decide_False.
Qed.

Lemma quiet_add l l' fs w : l' <> l -> quiet l w (do_add l' fs w).
Proof.
  intros H. unfold do_add. destruct (add fs (lists w l')) as [c []].
  - etransitivity; [by apply (quiet_set_list l l' c)|by apply quiet_start].
  - by apply quiet_set_list.
Qed.

Lemma quiet_fireWith l l' v w : l' <> l -> quiet l w (do_fireWith l' v w).
Proof.
  intros H. unfold do_fireWith. destruct (fireWith v (lists w l')) as [c []].
  - etransitivity; [by apply (quiet_set_list l l' c)|by apply quiet_start].
  - by apply quiet_set_list.
Qed.

Lemma regs_added l ks (t : list (entry V)) : regs_of l (t ++ map (Added l) ks) = regs_of l t ++ ks.
Proof.
  unfold regs_of. rewrite omap_app. f_equal. induction ks as [|k ks IH]; [done|].
  cbn. rewrite decide_True by done. by rewrite IH.
Qed.

Lemma calls_added l l' ks (t : list (entry V)) : calls_of l (t ++ map (Added l') ks) = calls_of l t.
Proof.
  unfold calls_of. rewrite omap_app. replace (omap _ (map _ ks)) with (@nil (nat * V)); [by rewrite app_nil_r|].
  by induction ks.
Qed.

Lemma regs_added_other l l' ks (t : list (entry V)) : l' <> l ->
  regs_of l (t ++ map (Added l') ks) = regs_of l t.
Proof.
  intros H. unfold regs_of. rewrite omap_app. replace (omap _ (map _ ks)) with (@nil nat); [by rewrite app_nil_r|].
  induction ks as [|k ks IH]; [done|]. cbn. by rewrite decide_False.
Qed.

Lemma calls_called l k v (t : list (entry V)) : calls_of l (t ++ [Called l k v]) = calls_of l t ++ [(k, v)].
Proof. unfold calls_of. rewrite omap_app. cbn. by rewrite decide_True. Qed.

Lemma calls_called_other l l' k v (t : list (entry V)) : l' <> l ->
  calls_of l (t ++ [Called l' k v]) = calls_of l t.
Proof. intros H. unfold calls_of. rewrite omap_app. cbn. rewrite decide_False by done. apply app_nil_r. Qed.

Lemma regs_called l l' k v (t : list (entry V)) : regs_of l (t ++ [Called l' k v]) = regs_of l t.
Proof. unfold regs_of. rewrite omap_app. apply app_nil_r. Qed.

(** Functions added to a list that takes doubles come to its end. *)
Lemma push_all (fs : list fn) (c : clist fn V) : unique (options c) = false ->
  foldl push_one c fs
  = mkList (options c) (firing c) (memory c) (fired c) (locked c) ((λ ms, ms ++ fs) <$> members c)
      (queue c) (firingIndex c).
Proof.
  revert c. induction fs as [|f fs IH]; intros c Hu.
  - cbn. destruct c as [o fi me fd lo [ms|] q i]; [|done]. cbn. by rewrite app_nil_r.
  - cbn. rewrite IH; unfold push_one; rewrite Hu; [|done]. cbn. f_equal.
    destruct (members c) as [ms|]; [|done]. cbn. by rewrite <- app_assoc.
Qed.

Lemma called_with_more v rg cl rest ks : called_with v rg cl rest -> called_with v (rg ++ ks) cl (rest ++ ks).
Proof. intros [-> H]. split; [by rewrite app_assoc|done]. Qed.

(** Adding functions to a list. *)
Definition after_add (st : stage) : stage :=
  match st with Resting v => Starting v | st => st end.

Lemma add_own l st ks w : stage_of l st w -> frame_of l (stack w) <> Some true ->
  stage_of l (after_add st) (add_users l ks w).
Proof.
  intros [Ho Hst] Hf. unfold add_users, do_add. set (w1 := mkWorld _ _ _ _). cbn [lists].
  change (lists w1 l) with (lists w l). set (c := lists w l) in *.
  assert (unique (options c) = false) as Hu by (by rewrite Ho).
  unfold stage_of, add. destruct st as [| |v|v|v|v|v]; cbn [after_add].
  - destruct Hst as (E1 & E2 & E3 & E4 & E5 & E6 & E7 & ms & E8 & E9).
    rewrite E8, E3, push_all by done. cbn. rewrite decide_True, E8, regs_added, calls_added by done.
    split; [done|]. split_and!; try done. exists (ms ++ map User ks).
    rewrite users_app, users_map, E9. done.
  - destruct Hst as (E1 & E2 & E3 & E4 & E5 & E6). rewrite E5. cbn. rewrite decide_True, calls_added by done.
    by split.
  - by destruct Hst as (E1 & _).
  - destruct Hst as (E1 & E2 & E3 & E4 & E5 & E6 & ms & E7 & E8 & E9).
    rewrite E7, E5, E2, push_all by done. cbn. rewrite decide_True, E7, regs_added, calls_added by done.
    split; [done|]. split_and!; try done. exists (ms ++ map User ks). rewrite length_app.
    split; [done|]. cbn [firingIndex]. split; [lia|]. rewrite drop_app_le, users_app, users_map by lia.
    by apply called_with_more.
  - by destruct Hst as (E1 & _).
  - destruct Hst as (E1 & E2 & E3 & E4 & E5 & E6 & E7 & E8).
    rewrite E7, E5, E2, push_all by done. cbn. rewrite decide_True, calls_added by done. cbn.
    rewrite decide_True by done. unfold list_length. cbn. rewrite E7, E4, E3. cbn.
    split; [done|]. split_and!; try done; [by rewrite decide_True|].
    exists (map User ks). split; [done|].
    rewrite regs_added, users_map. exact (called_with_more _ _ _ [] ks E8).
  - destruct Hst as (E1 & E2 & E3 & E4 & rest & E5). rewrite E4, E2, push_all by done.
    destruct (members c); cbn; rewrite decide_True, regs_added, calls_added by done;
      (split; [done|]); split_and!; try done; exists (rest ++ ks); by apply called_with_more.
Qed.

(** Firing it. *)
Definition after_fire (v : V) (st : stage) : stage :=
  match st with Fresh => Starting v | st => st end.

Lemma fire_own l st v w : stage_of l st w -> stage_of l (after_fire v st) (do_fireWith l v w).
Proof.
  intros [Ho Hst]. unfold do_fireWith, fireWith, stage_of. set (c := lists w l) in *.
  assert (locked c = true -> lists (set_list l c w) l = c) as Hl by (cbn; by rewrite decide_True).
  destruct st as [| |u|u|u|u|u]; cbn [after_fire].
  - destruct Hst as (E1 & E2 & E3 & E4 & E5 & E6 & E7 & ms & E8 & E9).
    rewrite E4, E2. cbn. rewrite !decide_True, E5, Ho by done. cbn.
    split; [done|]. split_and!; try done. exists ms. split; [done|]. rewrite E7, E9. by split.
  - destruct Hst as (E1 & E2 & E3 & E4 & E5). rewrite E4, Hl by done. by split.
  - destruct Hst as (E1 & E2 & E3 & E4). rewrite E3, Hl by done. by split.
  - destruct Hst as (E1 & E2 & E3 & E4). rewrite E3, Hl by done. by split.
  - destruct Hst as (E1 & E2 & E3 & E4). rewrite E3, Hl by done. by split.
  - destruct Hst as (E1 & E2 & E3 & E4). rewrite E3, Hl by done. by split.
  - destruct Hst as (E1 & E2 & E3 & E4). rewrite E3, Hl by done. by split.
Qed.

(** ** What is being fired *)
Definition on_top (l : list_id) (outer : bool) (w : world V A) : Prop :=
  exists st, stack w = Firing l outer :: st /\ frame_of l st = None.

Lemma on_top_frame l b w : on_top l b w -> frame_of l (stack w) = Some b.
Proof. intros (st & -> & _). cbn. by rewrite decide_True. Qed.

(** The outer loop. *)
Definition after_turn (st : stage) : stage :=
  match st with Starting v => Running v | Ending v => Resting v | st => st end.

Lemma turn_own l st w : stage_of l st w -> on_top l true w ->
  stage_of l (after_turn st) (fire_on w) /\ (exists v, st = Starting v \/ st = Ending v).
Proof.
  intros [Ho Hst] (fs & Es & Hf). unfold stage_of, fire_on, fire_shift.
  assert (frame_of l (stack w) = Some true) as Ef by (apply on_top_frame; by exists fs).
  rewrite Es, Ef in *. set (c := lists w l) in *.
  destruct st as [| |v|v|v|v|v]; try by destruct Hst as (E1 & _).
  - destruct Hst as (E1 & E2 & E3 & E4 & E5 & ms & E6 & E7). rewrite E4. split; [|exists v; by left].
    cbn. rewrite !decide_True by done. split; [done|]. rewrite E5. split_and!; try done.
    exists ms. split; [done|]. split; [cbn; lia|]. by rewrite drop_0.
  - destruct Hst as (E1 & E2 & E3 & E4 & E5 & E6 & E7). rewrite E4. split; [|exists v; by right].
    cbn. rewrite decide_True by done. unfold fire_end. rewrite E3, E5, Ho. cbn.
    by split_and!.
Qed.

(** The inner loop: a function of a caller is called, one of the deferred's own acts
    at once, or the end is reached. *)
Definition moved (l : list_id) (w : world V A) : world V A :=
  set_list l (fst (fire_next (lists w l))) w.

Lemma next_own l v w : stage_of l (Running v) w -> on_top l false w ->
  match snd (fire_next (lists w l)) with
  | None => stage_of l (Ending v) (fire_on w)
  | Some f => fire_on w = call l f v (moved l w)
      /\ match f with
         | User k => stage_of l (Running v) (fire_on w)
         | _ => stage_of l (Running v) (moved l w)
         end
  end.
Proof.
  intros [Ho Hst] (fs & Es & Hf). assert (frame_of l (stack w) = Some false) as Ef by (apply on_top_frame; by exists fs).
  destruct Hst as (_ & E2 & E3 & E4 & E5 & E6 & ms & E7 & E8 & E9).
  unfold moved, fire_on. rewrite Es. unfold fire_next, list_length. set (c := lists w l) in *.
  rewrite E7. cbn [default fst snd from_option id]. set (i := firingIndex c + 1) in *.
  destruct (Z.ltb_spec i (Z.of_nat (length ms))) as [Hi|Hi].
  - destruct (lookup_lt_is_Some_2 ms (Z.to_nat i) ltac:(lia)) as [f Hfi].
    rewrite Hfi. cbn [memory]. rewrite E5. split; [done|].
    assert (users (drop (Z.to_nat i) ms) = users [f] ++ users (drop (Z.to_nat (i + 1)) ms)) as Eu.
    { replace (Z.to_nat (i + 1)) with (S (Z.to_nat i)) by lia. by rewrite (drop_S _ _ _ Hfi), <- users_app. }
    rewrite Eu in E9. destruct E9 as [E9 E10].
    destruct f as [k|x|x|x|x];
      (unfold stage_of; cbn; rewrite decide_True, ?calls_called, ?regs_called by done;
       split; [done|]; rewrite ?Es; cbn; rewrite ?decide_True by done;
       split_and!; try done; try lia; exists ms; split; [done|]; split; [lia|]).
    + split; [|apply Forall_app; split; [done|by constructor]].
      rewrite E9, fmap_app, <- app_assoc. done.
    + by split.
    + by split.
    + by split.
    + by split.
  - unfold stage_of. cbn. rewrite !decide_True by done. split; [done|].
    split_and!; try done. rewrite drop_ge in E9 by lia. exact E9.
Qed.

(** Coming back to a list, and leaving it by an exception. *)
Lemma return_own l st b w : stage_of l st w -> stage_of l st (return_from b w).
Proof.
  intros H. unfold return_from. destruct (stack w) as [|[| |] fs] eqn:Es; [done..| |done].
  assert (frame_of l fs = frame_of l (stack w)) as Ef by (by rewrite Es).
  destruct fs as [|[l' o| |] fs']; [|destruct (decide (l' = l)) as [->|Hne]| |];
    try (apply (stage_quiet l st w); [by split|done]).
  - unfold stage_of in *. cbn [stack log lists set_stack set_list]. rewrite decide_True by done.
    unfold fire_returned. rewrite (proj1 H). rewrite andb_false_r. by rewrite Ef.
  - apply (stage_quiet l st w); [|done]. split; try done. cbn. by rewrite decide_False.
Qed.

(** ** What holds of the lists and the stack whatever happens *)
Definition inner (f : frame A) : Prop := match f with Firing _ true => False | _ => True end.

Definition actives (st : list (frame A)) : list list_id :=
  omap (λ f, match f with Firing l _ => Some l | _ => None end) st.

Definition flags_of (l : list_id) : flags :=
  match l with Progress | ProgressH => only_memory | _ => once_memory end.

(** The functions a deferred puts into a list, and those of the callers. *)
Definition belongs (l : list_id) (f : fn) : Prop :=
  (exists k, f = User k) \/ public l = true /\ f ∈ own_functions l.

Record machine_ok w : Prop := {
  mo_once : NoDup (actives (stack w));
  mo_inner : Forall inner (tail (stack w));
  mo_firing : forall l, frame_of l (stack w) <> None -> firing (lists w l) = true;
  mo_loop : forall l, frame_of l (stack w) = Some false ->
    memory (lists w l) <> None \/ members (lists w l) = None;
  mo_flags : forall l, options (lists w l) = flags_of l;
  mo_own : forall l ms f, members (lists w l) = Some ms -> f ∈ ms -> belongs l f;
}.

Lemma frame_active l st : frame_of l st <> None <-> l ∈ actives st.
Proof.
  induction st as [|[l' b|k|a] st IH]; cbn.
  - split; [done|]. by intros ?%elem_of_nil.
  - destruct (decide (l' = l)) as [->|H]; [split; [left|done]|].
    rewrite IH, elem_of_cons. split; [by right|]. by intros [->|].
  - done.
  - done.
Qed.

(** A list changed in its fields only. *)
Record list_ok (l : list_id) (on_stack : option bool) (c : clist fn V) : Prop := {
  lo_firing : on_stack <> None -> firing c = true;
  lo_loop : on_stack = Some false -> memory c <> None \/ members c = None;
  lo_flags : options c = flags_of l;
  lo_own : forall ms f, members c = Some ms -> f ∈ ms -> belongs l f;
}.

Lemma lists_ok w l : machine_ok w -> list_ok l (frame_of l (stack w)) (lists w l).
Proof. intros []. split; auto. apply mo_own0. Qed.

Lemma ok_set_list l c w : machine_ok w -> list_ok l (frame_of l (stack w)) c -> machine_ok (set_list l c w).
Proof.
  intros [M1 M2 M3 M4 M5 M6] [L1 L2 L3 L4]. split; try done; cbn; intros l'; destruct (decide (l' = l)) as [->|];
    eauto.
Qed.

(** Only what the log says, or the state of the deferred. *)
Lemma ok_log w st t : machine_ok w -> machine_ok (mkWorld (lists w) st (stack w) t).
Proof. by intros []. Qed.

Lemma ok_start_fire l w : machine_ok w -> firing (lists w l) = false -> Forall inner (stack w) ->
  machine_ok (start_fire l w).
Proof.
  intros [M1 M2 M3 M4 M5 M6] Hf Hi. assert (l ∉ actives (stack w)) as Hn.
  { intros H%frame_active%M3. congruence. }
  split; cbn; try done.
  - by apply NoDup_cons.
  - intros l'. destruct (decide (l = l')) as [->|Hne]; [by rewrite decide_True|].
    rewrite decide_False by done. apply M3.
  - intros l'. destruct (decide (l = l')) as [->|Hne]; [done|]. rewrite decide_False by done. apply M4.
  - intros l'. destruct (decide (l' = l)) as [->|Hne]; cbn; auto.
  - intros l' ms f. destruct (decide (l' = l)) as [->|Hne]; cbn; apply M6.
Qed.

Lemma ok_pushed l w ks : list_ok l (frame_of l (stack w)) (lists w l) ->
  (forall ms f, (λ ms, ms ++ map User ks) <$> members (lists w l) = Some ms -> f ∈ ms -> belongs l f).
Proof.
  intros [_ _ _ L4] ms f. destruct (members (lists w l)) as [ms0|] eqn:E; [|done]. cbn.
  intros [= <-] [H|H]%elem_of_app; [by apply (L4 ms0)|].
  apply list_elem_of_fmap in H as (k & -> & _). left. by exists k.
Qed.

Lemma unique_off l : unique (flags_of l) = false.
Proof. by destruct l. Qed.

Lemma ok_add l ks w : machine_ok w -> Forall inner (stack w) -> machine_ok (do_add l (map User ks) w).
Proof.
  intros H Hi. pose proof (lists_ok w l H) as L. pose proof (ok_pushed l w ks L) as Ho.
  unfold do_add, add. destruct (members (lists w l)) as [ms|] eqn:Em.
  2:{ apply ok_set_list; [done|]. by destruct L. }
  destruct L as [L1 L2 L3 L4].
  assert (unique (options (lists w l)) = false) as Hu by (rewrite L3; apply unique_off).
  destruct (memory (lists w l)) as [v|] eqn:Ev.
  - destruct (firing (lists w l)) eqn:Ef; rewrite push_all by done.
    + apply ok_set_list; [done|]. split; cbn; rewrite ?Em, ?Ev; try done. by left.
    + cbn. apply ok_start_fire; [|cbn; by rewrite decide_True|done].
      apply ok_set_list; [done|]. split; cbn; rewrite ?Em, ?Ev; try done.
      intros _. by left.
  - rewrite push_all by done. apply ok_set_list; [done|]. split; cbn; rewrite ?Em, ?Ev; try done.
    intros Hx. destruct (L2 Hx); [by left|congruence].
Qed.

Lemma ok_add_users l ks w : machine_ok w -> Forall inner (stack w) -> machine_ok (add_users l ks w).
Proof. intros H Hi. unfold add_users. apply ok_add; [by apply ok_log|done]. Qed.

Lemma ok_fireWith l v w : machine_ok w -> Forall inner (stack w) -> machine_ok (do_fireWith l v w).
Proof.
  intros H Hi. pose proof (lists_ok w l H) as [L1 L2 L3 L4].
  unfold do_fireWith, fireWith. destruct (locked (lists w l)).
  { by apply ok_set_list. }
  destruct (firing (lists w l)) eqn:Ef; cbn [negb].
  - by apply ok_set_list.
  - apply ok_start_fire; [|cbn; by rewrite decide_True|done].
    apply ok_set_list; [done|]. by split.
Qed.

Lemma ok_disable l w : machine_ok w -> machine_ok (set_list l (disable (lists w l)) w).
Proof.
  intros H. apply ok_set_list; [done|]. destruct (lists_ok w l H). split; try done. by right.
Qed.

Lemma ok_lock l w : machine_ok w -> machine_ok (set_list l (lock (lists w l)) w).
Proof.
  intros H. apply ok_set_list; [done|]. destruct (lists_ok w l H) as [L1 L2 L3 L4]. unfold lock.
  destruct (memory (lists w l)) eqn:Em; [|destruct (firing (lists w l)) eqn:Ef]; split; cbn; rewrite ?Em; try done;
    intros Hx; first [by left|by right|destruct (L2 Hx); [by left|by right]].
Qed.

Lemma ok_call l f v w : machine_ok w -> Forall inner (stack w) -> machine_ok (call l f v w).
Proof.
  intros H Hi. destruct f as [k|s|l'|l'|l']; cbn.
  - destruct H as [M1 M2 M3 M4 M5 M6]. by split.
  - by apply ok_log.
  - by apply ok_disable.
  - by apply ok_lock.
  - by apply ok_fireWith.
Qed.

(** The list on top of the stack is in another loop, or is done. *)
Lemma ok_head l b b' st c w : machine_ok w -> stack w = Firing l b :: st ->
  list_ok l (Some b') c -> (b' = true -> True) ->
  machine_ok (set_stack (Firing l b' :: st) (set_list l c w)).
Proof.
  intros [M1 M2 M3 M4 M5 M6] Es [L1 L2 L3 L4] _. rewrite Es in *. cbn in M1, M2.
  split; cbn; try done; intros l'; specialize (M3 l'); specialize (M4 l'); cbn in M3, M4;
    destruct (decide (l' = l)) as [->|Hne]; rewrite ?decide_True, ?decide_False in * by done; eauto.
Qed.

Lemma ok_popped l b st c w : machine_ok w -> stack w = Firing l b :: st ->
  list_ok l None c -> machine_ok (set_stack st (set_list l c w)).
Proof.
  intros [M1 M2 M3 M4 M5 M6] Es [L1 L2 L3 L4]. rewrite Es in *. cbn in M1, M2.
  apply NoDup_cons in M1 as [Hn M1]. rewrite <- frame_active in Hn. apply dec_stable in Hn.
  split; cbn; try done.
  - destruct st; [done|]. cbn. by apply Forall_cons in M2 as [_ M2].
  - intros l' Hf. specialize (M3 l'). cbn in M3.
    destruct (decide (l' = l)) as [->|Hne]; [congruence|]. rewrite decide_False in M3 by done. auto.
  - intros l' Hf. specialize (M4 l'). cbn in M4.
    destruct (decide (l' = l)) as [->|Hne]; [congruence|]. rewrite decide_False in M4 by done. auto.
  - intros l'. destruct (decide (l' = l)) as [->|]; auto.
  - intros l' ms f. destruct (decide (l' = l)) as [->|]; [apply L4|apply M6].
Qed.

Lemma next_found l w f : snd (fire_next (lists w l)) = Some f ->
  exists ms, members (lists w l) = Some ms /\ f ∈ ms.
Proof.
  unfold fire_next, list_length. cbn. destruct (members (lists w l)) as [ms|] eqn:E.
  - cbn. case_match; [|done]. intros Hf. exists ms. split; [done|]. by apply list_elem_of_lookup_2 in Hf.
  - cbn. case_match; [by rewrite lookup_nil|done].
Qed.

Lemma ok_fire_on w : machine_ok w -> machine_ok (fire_on w).
Proof.
  intros H. unfold fire_on. destruct (stack w) as [|[l b|k|a] st] eqn:Es; try done.
  pose proof (lists_ok w l H) as L. rewrite Es in L. cbn in L. rewrite decide_True in L by done.
  destruct L as [L1 L2 L3 L4].
  assert (Forall inner st) as Hin by (pose proof (mo_inner w H) as Hi; by rewrite Es in Hi).
  destruct b.
  - unfold fire_shift. destruct (queue (lists w l)) as [|v q].
    + apply (ok_popped l true st _ w); [done|done|]. unfold fire_end. split; cbn; try done.
      intros ms f. repeat case_match; try done; [intros [= <-] Hf; by apply elem_of_nil in Hf|apply L4].
    + apply (ok_head l true false st _ w); [done|done| |done]. split; cbn; try done; [by rewrite L1|by left].
  - destruct (fire_next (lists w l)) as [c f] eqn:En.
    assert (c = fst (fire_next (lists w l))) as Ec by (by rewrite En).
    destruct f as [f|].
    + destruct (next_found l w f) as (ms & Em & Hf); [by rewrite En|].
      assert (machine_ok (set_list l c w)) as H1.
      { apply ok_set_list; [done|]. rewrite Es. cbn. rewrite decide_True by done. subst c. by split. }
      destruct (memory c) as [v|] eqn:Ev.
      * apply ok_call; [done|]. cbn. rewrite Es. by constructor.
      * exfalso. subst c. cbn in Ev. destruct (L2 eq_refl); congruence.
    + apply (ok_head l false true st _ w); [done|done| |done]. subst c. split; cbn; try done. by rewrite L1.
Qed.

Lemma actives_unwind st : sublist (actives (unwind st)) (actives st).
Proof. induction st as [|[l b|k|a] st IH]; cbn; [done|by apply sublist_cons|done|exact IH].
Qed.

Lemma unwind_frame l st : NoDup (actives st) ->
  frame_of l (unwind st) = frame_of l st \/ frame_of l (unwind st) = None.
Proof.
  induction st as [|[l' b|k|a] st IH]; cbn; intros Hd; [by left| |by left|auto].
  apply NoDup_cons in Hd as [Hn Hd]. destruct (decide (l' = l)) as [->|]; [|auto].
  right. destruct (IH Hd) as [->|]; [|done]. apply dec_stable. by rewrite frame_active.
Qed.

Lemma unwind_inner st : Forall inner st -> Forall inner (unwind st).
Proof. induction 1 as [|[l b|k|a] st Hx Hst IH]; cbn; [done|done|by constructor|done]. Qed.

Lemma forall_tail {B} (P : B -> Prop) (st : list B) : Forall P st -> Forall P (tail st).
Proof. by destruct 1. Qed.

Lemma ok_throw w k st : machine_ok w -> stack w = Body k :: st -> machine_ok (throw w).
Proof.
  intros [M1 M2 M3 M4 M5 M6] Es. unfold throw. rewrite Es in *. cbn in M1, M2, M3, M4 |- *.
  split; cbn; try done.
  - apply (sublist_NoDup _ (actives st)); [done|]. apply actives_unwind.
  - by apply forall_tail, unwind_inner.
  - intros l Hf. apply M3. by destruct (unwind_frame l st M1) as [<-|].
  - intros l Hf. apply M4. by destruct (unwind_frame l st M1) as [<-|]; [|congruence].
Qed.

Lemma ok_return b w : machine_ok w -> machine_ok (return_from b w).
Proof.
  intros H. unfold return_from. destruct (stack w) as [|[l b'|k|a] st] eqn:Es; try done.
  assert (machine_ok (set_stack st w)) as H1.
  { destruct H as [M1 M2 M3 M4 M5 M6]. rewrite Es in *. split; try done. cbn in *. by apply forall_tail. }
  destruct st as [|[l o| |] st]; try done.
  assert (fire_returned b (lists w l) = lists w l) as ->.
  { unfold fire_returned. rewrite (mo_flags w H). destruct l; by rewrite andb_false_r. }
  apply (ok_set_list l _ (set_stack (Firing l o :: st) w)); [done|].
  exact (lists_ok _ l H1).
Qed.

Lemma ok_step i w : machine_ok w -> machine_ok (step i w).
Proof.
  intros H. unfold step. destruct (stack w) as [|[l b|k|a] st] eqn:Es.
  - destruct i; try done; case_match; try done; [apply ok_add_users|apply ok_fireWith]; by rewrite ?Es.
  - by apply ok_fire_on.
  - assert (Forall inner (stack w)) as Hi.
    { rewrite Es. constructor; [done|]. pose proof (mo_inner w H) as Hi. by rewrite Es in Hi. }
    destruct i; try done; try (case_match; try done); [by apply ok_add_users|by apply ok_fireWith|by apply ok_return|].
    by apply (ok_throw w k st).
  - assert (Forall inner (stack w)) as Hi.
    { rewrite Es. constructor; [done|]. pose proof (mo_inner w H) as Hi. by rewrite Es in Hi. }
    destruct i; try done; case_match; try done; [by apply ok_add_users|by apply ok_fireWith].
Qed.

(** ** What goes on in another list *)
Definition touches (l : list_id) (f : fn) : Prop :=
  f = DisableOf l \/ f = LockOf l \/ f = FireOf l.

Lemma quiet_call l l' f v w : l' <> l -> ~ touches l f -> quiet l w (call l' f v w).
Proof.
  intros Hne Hf. destruct f as [k|s|x|x|x]; cbn.
  - split; try done; cbn; [apply regs_called|by apply calls_called_other|].
    intros Ht. apply elem_of_app. by left.
  - apply quiet_state.
  - apply quiet_set_list. intros ->. apply Hf. by left.
  - apply quiet_set_list. intros ->. apply Hf. by right; left.
  - apply quiet_fireWith. intros ->. apply Hf. by right; right.
Qed.

Lemma quiet_head l l' b b' st c w : l' <> l -> stack w = Firing l' b :: st ->
  quiet l w (set_stack (Firing l' b' :: st) (set_list l' c w)).
Proof. intros Hne Es. split; try done; cbn; [by rewrite decide_False|rewrite Es; cbn]. by rewrite !decide_False. Qed.

Lemma quiet_popped l l' b st c w : l' <> l -> stack w = Firing l' b :: st ->
  quiet l w (set_stack st (set_list l' c w)).
Proof. intros Hne Es. split; try done; cbn; [by rewrite decide_False|rewrite Es; cbn]. by rewrite decide_False. Qed.

Lemma quiet_fire_on l l' b st w : machine_ok w -> stack w = Firing l' b :: st -> l' <> l ->
  (forall f, belongs l' f -> ~ touches l f) -> quiet l w (fire_on w).
Proof.
  intros H Es Hne Hf. unfold fire_on. rewrite Es. destruct b.
  - destruct (fire_shift (lists w l')); [by apply (quiet_head l l' true)|by apply (quiet_popped l l' true)].
  - destruct (fire_next (lists w l')) as [c f] eqn:En. destruct f as [f|].
    + destruct (next_found l' w f) as (ms & Em & Hfm); [by rewrite En|].
      pose proof (mo_loop w H l') as Hl. rewrite Es in Hl. cbn in Hl. rewrite decide_True in Hl by done.
      assert (c = fst (fire_next (lists w l'))) as Ec by (by rewrite En).
      destruct (memory c) as [v|] eqn:Ev; [|subst c; cbn in Ev; destruct (Hl eq_refl); congruence].
      etransitivity; [by apply (quiet_set_list l l' c)|]. apply quiet_call; [done|].
      apply Hf. by apply (mo_own w H l' ms f).
    + by apply (quiet_head l l' false).
Qed.

(** ** Settling *)
Definition fresh_list l w : Prop :=
  stage_of l Fresh w /\ exists us, members (lists w l) = Some (own_functions l ++ map User us).

(** What is left of the functions of the deferred once the other side is disabled. *)
Definition later (l : list_id) (f : fn) : Prop :=
  match f with
  | User _ => True
  | SetState _ => False
  | DisableOf l' => l' = handlers (other l)
  | LockOf l' => l' = Progress \/ l' = ProgressH
  | FireOf l' => l' = handlers l
  end.

Definition settled_stage (v : V) (st : stage) (t : list (entry V)) : Prop :=
  match st with
  | Starting u | Running u | Ending u | Resting u => u = v
  | Stuck u => u = v /\ Threw ∈ t
  | Fresh | Spent => False
  end.

Lemma settled_stage_mono v st t t' : (Threw ∈ t -> Threw ∈ t') -> settled_stage v st t -> settled_stage v st t'.
Proof. intros H. destruct st; try done. cbn. intros [E Ht]. auto. Qed.

Definition rest_later (l : list_id) (st : stage) (c : clist fn V) : Prop :=
  match st with
  | Ending _ | Stuck _ => True
  | _ => forall ms f, members c = Some ms -> f ∈ drop (Z.to_nat (firingIndex c + 1)) ms -> later l f
  end.

Record settled (l : list_id) (v : V) w : Prop := {
  se_state : settles l = Some (state w);
  se_other : stage_of (other l) Spent w;
  se_stage : exists st, stage_of l st w /\ settled_stage v st (log w) /\ rest_later l st (lists w l);
}.

Definition unsettled w : Prop := fresh_list Done w /\ fresh_list Fail w /\ state w = Unsettled.

(** The first functions of the deferred run: nothing else can. *)
Record settling (l : list_id) (v : V) w : Prop := {
  sg_side : exists s, settles l = Some s;
  sg_other : fresh_list (other l) w;
  sg_calls : calls_of l (log w) = [];
  sg_members : exists us, members (lists w l) = Some (own_functions l ++ map User us);
  sg_stage : exists st, stack w = Firing l true :: st /\ stage_of l (Starting v) w /\ state w = Unsettled
    \/ stack w = Firing l false :: st /\ stage_of l (Running v) w
       /\ (firingIndex (lists w l) = -1 /\ state w = Unsettled
           \/ firingIndex (lists w l) = 0 /\ settles l = Some (state w));
}.

Definition deferred_ok w : Prop :=
  machine_ok w /\ (unsettled w \/ exists l v, settling l v w \/ settled l v w).

Lemma sides l s : settles l = Some s -> (l = Done \/ l = Fail) /\ other (other l) = l /\ other l <> l.
Proof. destruct l; try done; intros _; (split; [tauto|by split]). Qed.

Lemma fresh_quiet l w w' : quiet l w w' -> fresh_list l w -> fresh_list l w'.
Proof.
  intros Q [H1 H2]. split; [by apply (stage_quiet l _ w)|]. by rewrite (qu_list _ _ _ Q).
Qed.

Lemma unsettled_quiet w w' : quiet Done w w' -> quiet Fail w w' -> state w' = state w ->
  unsettled w -> unsettled w'.
Proof.
  intros Q1 Q2 E (H1 & H2 & H3). split_and!; [by apply (fresh_quiet _ w)..|by rewrite E].
Qed.

Lemma settled_quiet l v w w' : quiet Done w w' -> quiet Fail w w' -> state w' = state w ->
  settled l v w -> settled l v w'.
Proof.
  intros Q1 Q2 E [S1 S2 (st & S3 & S4 & S5)].
  destruct (sides l _ S1) as ([->| ->] & _);
    (split; [by rewrite E|by apply (stage_quiet _ _ w)|exists st];
     split_and!; [by apply (stage_quiet _ _ w)|apply (settled_stage_mono _ _ (log w)); [apply Q1|done]|];
     first [by rewrite (qu_list _ _ _ Q1)|by rewrite (qu_list _ _ _ Q2)]).
Qed.

Lemma state_add l fs w : state (do_add l fs w) = state w.
Proof. unfold do_add. by destruct (add _ _) as [c []]. Qed.

Lemma state_fireWith l v w : state (do_fireWith l v w) = state w.
Proof. unfold do_fireWith. by destruct (fireWith _ _) as [c []]. Qed.

Definition side (l : list_id) : Prop := l = Done \/ l = Fail.

(** Firing a list of progress or of handlers concerns neither side. *)
Lemma elsewhere l b st w : machine_ok w -> stack w = Firing l b :: st -> ~ side l ->
  quiet Done w (fire_on w) /\ quiet Fail w (fire_on w) /\ state (fire_on w) = state w.
Proof.
  intros H Es Hl.
  assert (forall f, belongs l f -> ~ touches Done f /\ ~ touches Fail f /\ forall s, f <> SetState s) as Hf.
  { unfold touches. intros f [[k ->]|[Hp Hin]]; [by split_and!; [intros [|[|]]..|]|].
    destruct l; try done; [|exfalso; apply Hl; by left|exfalso; apply Hl; by right].
    apply list_elem_of_singleton in Hin as ->. split_and!; [by intros [|[|]]..|done]. }
  split_and!.
  - apply (quiet_fire_on _ l b st); try done; [intros ->; apply Hl; by left|intros f Hb; by apply Hf].
  - apply (quiet_fire_on _ l b st); try done; [intros ->; apply Hl; by right|intros f Hb; by apply Hf].
  - unfold fire_on. rewrite Es. destruct b; [by destruct (fire_shift _)|].
    destruct (fire_next (lists w l)) as [c [f|]] eqn:En; [|done].
    destruct (next_found l w f) as (ms & Em & Hin); [by rewrite En|].
    destruct (Hf f (mo_own w H l ms f Em Hin)) as (_ & _ & Hs). destruct (memory c) as [v|]; [|done].
    destruct f as [k|s|x|x|x]; try done; [by destruct (Hs s)|]. cbn. by rewrite state_fireWith.
Qed.

Lemma drop_in {B} (x : B) n (xs : list B) : x ∈ drop n xs -> x ∈ xs.
Proof. intros H. rewrite <- (take_drop n xs). apply elem_of_app. by right. Qed.

(** Functions are added. *)
Lemma quiet_add_users x l ks w : x <> l -> quiet x w (add_users l ks w).
Proof.
  intros Hx. unfold add_users. etransitivity; [|by apply quiet_add].
  split; try done; cbn; [by apply regs_added_other|by apply calls_added|].
  intros Ht. apply elem_of_app. by left.
Qed.

Lemma log_add_users l ks w : log (add_users l ks w) = log w ++ map (Added l) ks.
Proof. unfold add_users, do_add. by destruct (add _ _) as [c []]. Qed.

Lemma added_later l st ks w : stage_of l st w -> rest_later l st (lists w l) ->
  rest_later l (after_add st) (lists (add_users l ks w) l).
Proof.
  intros S3 S5. unfold add_users, do_add, add. cbn [lists].
  destruct S3 as [Hfl S3]. assert (unique (options (lists w l)) = false) as Hu by (by rewrite Hfl).
  destruct (members (lists w l)) as [ms0|] eqn:Em.
  2:{ cbn. rewrite decide_True by done. destruct st; cbn in *; try done;
        intros ms f; rewrite Em; done. }
  assert (forall f i, f ∈ drop i (ms0 ++ map User ks) -> f ∈ drop i ms0 \/ exists k, f = User k) as Hd.
  { intros f i Hin. rewrite drop_app in Hin. apply elem_of_app in Hin as [|Hin]; [by left|right].
    apply drop_in, list_elem_of_fmap in Hin as (k & -> & _). by exists k. }
  destruct st as [| |v|v|v|v|v]; cbn [after_add]; try done.
  - destruct S3 as (_ & _ & -> & _). rewrite push_all by done. cbn. rewrite decide_True by done. cbn.
    intros ms f. rewrite Em. intros [= <-] [Hin|[k ->]]%Hd; [by apply (S5 ms0)|done].
  - by destruct S3 as (_ & _ & _ & _ & E & _); congruence.
  - destruct S3 as (_ & -> & _). destruct (memory (lists w l)); rewrite push_all by done; cbn; rewrite decide_True by done; cbn;
    intros ms f; rewrite Em; intros [= <-] [Hin|[k ->]]%Hd; try done; by apply (S5 ms0).
  - destruct S3 as (_ & -> & _). destruct (memory (lists w l)); rewrite push_all by done; cbn; rewrite decide_True by done; cbn;
    intros ms f; rewrite Em; intros [= <-] [Hin|[k ->]]%Hd; try done; by apply (S5 ms0).
  - destruct S3 as (_ & -> & _ & _ & -> & _ & E7 & _). injection E7 as ->.
    rewrite push_all by done. cbn. rewrite !decide_True by done. cbn. rewrite ?Em.
    intros ms f [= <-] Hin%drop_in. apply list_elem_of_fmap in Hin as (k & -> & _). done.
Qed.

Lemma settled_add l v l' ks w : machine_ok w -> Forall inner (stack w) -> settled l v w ->
  settled l v (add_users l' ks w).
Proof.
  intros H Hi S. destruct (sides l _ (se_state _ _ _ S)) as (Hs & Ho & Hne).
  assert (forall x, x <> l' -> quiet x w (add_users l' ks w)) as Hq.
  { intros x Hx. by apply quiet_add_users. }
  assert (state (add_users l' ks w) = state w) as Es by (unfold add_users; by rewrite state_add).
  assert (forall x, frame_of x (stack w) <> Some true) as Hfr.
  { clear -Hi. induction (stack w) as [|[y []|k|a] st IH]; intros x; cbn; try done;
      apply Forall_cons in Hi as [Hf Hi]; try done; [|by apply IH..].
    destruct (decide (y = x)); [done|by apply IH]. }
  destruct S as [S1 S2 (st & S3 & S4 & S5)]. split.
  - by rewrite Es.
  - destruct (decide (other l = l')) as [<-|Hx].
    + apply (add_own (other l) Spent); [done|by apply Hfr].
    + apply (stage_quiet _ _ w); [by apply Hq|done].
  - destruct (decide (l = l')) as [<-|Hx].
    2:{ exists st. split_and!; [by apply (stage_quiet _ _ w); [apply Hq|]| |].
        { apply (settled_stage_mono _ _ (log w)); [|done]. by apply (Hq l). }
        by rewrite (qu_list _ _ _ (Hq l Hx)). }
    exists (after_add st). split_and!; [apply add_own; [done|by apply Hfr]| |].
    { apply (settled_stage_mono _ _ (log w)); [|by destruct st]. rewrite log_add_users.
      intros Ht. apply elem_of_app. by left. }
    by apply added_later.
Qed.

Lemma fresh_add l l' ks w : machine_ok w -> fresh_list l w -> fresh_list l (add_users l' ks w).
Proof.
  intros H [F (us & E)]. destruct (decide (l = l')) as [<-|Hx].
  - split.
    + apply (add_own l Fresh); [done|]. destruct F as (_ & -> & _). done.
    + unfold add_users, do_add, add. cbn [lists]. rewrite E.
      destruct F as (Hfl & _ & E2 & E3 & _). rewrite E3, push_all by (by rewrite Hfl). cbn.
      rewrite decide_True by done. cbn. rewrite E. exists (us ++ ks). cbn.
      by rewrite <- app_assoc, map_app.
  - apply (fresh_quiet _ w); [|by split; [|exists us]]. by apply quiet_add_users.
Qed.

(** A list is fired. *)
Lemma locked_fire l v w : locked (lists w l) = true ->
  (forall x, quiet x w (do_fireWith l v w)) /\ state (do_fireWith l v w) = state w.
Proof.
  intros E. unfold do_fireWith, fireWith. rewrite E. split; [|done].
  intros x. split; try done. cbn. by destruct (decide (x = l)) as [->|].
Qed.

Lemma settled_locked l v w x : settled l v w -> side x -> locked (lists w x) = true.
Proof.
  intros [S1 S2 (st & S3 & S4 & _)] Hx. destruct (decide (x = l)) as [->|Hne].
  - destruct st; try done; by destruct S3 as (_ & _ & _ & ? & _) || destruct S3 as (_ & _ & _ & ? & _).
  - assert (x = other l) as -> by (destruct (sides l _ S1) as ([->| ->] & _); by destruct Hx as [->| ->]).
    by destruct S2 as (_ & _ & _ & _ & ? & _).
Qed.

Lemma fires l u w : machine_ok w -> public l = true ->
  (unsettled w -> unsettled (do_fireWith l u w) \/ settling l u (do_fireWith l u w))
  /\ (forall x v, settled x v w -> settled x v (do_fireWith l u w)).
Proof.
  intros H Hp. assert (side l \/ l = Progress) as Hl by (destruct l; try done; [by right|left; by left|left; by right]).
  destruct Hl as [Hl| ->].
  - split.
    + intros U. right. assert (fresh_list l w /\ fresh_list (other l) w /\ other l <> l /\ state w = Unsettled
        /\ exists s, settles l = Some s) as ([F (us & Em)] & Fo & Hne & Es & Hs).
      { destruct U as (U1 & U2 & U3). destruct Hl as [->| ->]; split_and!; try done; by eexists. }
      assert (members (lists (do_fireWith l u w) l) = members (lists w l)
              /\ stack (do_fireWith l u w) = Firing l true :: stack w) as [Em' Ek].
      { destruct F as (_ & _ & E1 & _ & E3 & _). unfold do_fireWith, fireWith. rewrite E3, E1.
        cbn. by rewrite !decide_True. }
      split; [done|apply (fresh_quiet _ w); [by apply quiet_fireWith|done]| |exists us; by rewrite Em'|].
      { destruct F as (_ & _ & _ & _ & _ & _ & _ & Hc & _). unfold do_fireWith. by destruct (fireWith _ _) as [c []]. }
      exists (stack w). left. split_and!; [done|by apply (fire_own l Fresh)|by rewrite state_fireWith].
    + intros x v S. destruct (locked_fire l u w (settled_locked _ _ _ _ S Hl)) as [Q E].
      by apply (settled_quiet _ _ w).
  - assert (quiet Done w (do_fireWith Progress u w) /\ quiet Fail w (do_fireWith Progress u w)
            /\ state (do_fireWith Progress u w) = state w) as (Q1 & Q2 & Q3).
    { split_and!; [by apply quiet_fireWith..|apply state_fireWith]. }
    split; [intros U; left; by apply (unsettled_quiet w)|intros x v S; by apply (settled_quiet _ _ w)].
Qed.

(** A function returns or throws. *)
Lemma quiet_return x b w : machine_ok w -> quiet x w (return_from b w).
Proof.
  intros H. unfold return_from. destruct (stack w) as [|[| |] fs] eqn:Es; [done..| |done].
  destruct fs as [|[l o| |] fs'].
  - split; try done. cbn. by rewrite Es.
  - assert (fire_returned b (lists w l) = lists w l) as ->.
    { unfold fire_returned. rewrite (mo_flags w H). destruct l; by rewrite andb_false_r. }
    split; try done; cbn; [by destruct (decide (x = l)) as [->|]|by rewrite Es].
  - split; try done. cbn. by rewrite Es.
  - split; try done. cbn. by rewrite Es.
Qed.

Lemma state_return b w : state (return_from b w) = state w.
Proof. unfold return_from. by repeat case_match. Qed.

Lemma threw_same l st k fs w : machine_ok w -> stack w = Body k :: fs -> stage_of l st w ->
  stage_of l st (throw w) \/ exists v, st = Running v /\ stage_of l (Stuck v) (throw w).
Proof.
  intros [M1 M2 M3 M4 M5 M6] Es H. rewrite Es in M1, M2. cbn in M1, M2.
  assert (regs_of l (log (throw w)) = regs_of l (log w) /\ calls_of l (log (throw w)) = calls_of l (log w)
          /\ lists (throw w) = lists w) as (E1 & E2 & E3).
  { split_and!; [| |done]; cbn; unfold regs_of, calls_of; rewrite omap_app; apply app_nil_r. }
  assert (frame_of l (stack w) = frame_of l fs) as Ef by (by rewrite Es).
  destruct (unwind_frame l fs M1) as [Eu|Eu].
  { left. unfold stage_of in *. rewrite E1, E2, E3. cbn. rewrite Es. cbn. by rewrite Eu, <- Ef. }
  destruct (frame_of l fs) as [[]|] eqn:El.
  - exfalso. clear -M2 El. induction fs as [|[y []|j|a] fs IH]; cbn in *; try done;
      apply Forall_cons in M2 as [M0 M2]; try done; [|by apply IH..]. destruct (decide (y = l)); [done|by apply IH].
  - right. destruct H as [Ho H]. rewrite Ef in H.
    destruct st as [| |v|v|v|v|v]; try by destruct H as (E & _).
    exists v. split; [done|]. destruct H as (_ & H2 & H3 & _ & H5 & _ & ms & _ & _ & H8).
    unfold stage_of. rewrite E1, E2, E3. cbn. rewrite Es. cbn. rewrite Eu. split; [done|].
    split_and!; try done. by eexists.
  - left. unfold stage_of in *. rewrite E1, E2, E3. cbn. rewrite Es. cbn. by rewrite Eu, <- Ef.
Qed.

Lemma fresh_throw l k fs w : machine_ok w -> stack w = Body k :: fs -> fresh_list l w ->
  fresh_list l (throw w).
Proof.
  intros H Es [F M]. destruct (threw_same l Fresh k fs w H Es F) as [F'|(v & [=] & _)]. by split.
Qed.

Lemma settled_throw l v k fs w : machine_ok w -> stack w = Body k :: fs -> settled l v w ->
  settled l v (throw w).
Proof.
  intros H Es [S1 S2 (st & S3 & S4 & S5)]. split; [done| |].
  - by destruct (threw_same (other l) Spent k fs w H Es S2) as [F'|(u & [=] & _)].
  - assert (Threw ∈ log (throw w)) as Ht by (cbn; apply elem_of_app; right; by left).
    destruct (threw_same l st k fs w H Es S3) as [F'|(u & -> & F')]; [exists st|by exists (Stuck u)].
    split_and!; [done|by apply (settled_stage_mono _ _ (log w))|done].
Qed.

(** ** A side is being fired *)
Lemma top_of l b st w : machine_ok w -> stack w = Firing l b :: st -> on_top l b w.
Proof.
  intros H Es. exists st. split; [done|]. pose proof (mo_once w H) as Hd. rewrite Es in Hd. cbn in Hd.
  apply NoDup_cons in Hd as [Hd _]. rewrite <- frame_active in Hd. by apply dec_stable.
Qed.

Lemma later_untouched l f v w : (exists s, settles l = Some s) -> later l f ->
  (forall k, f <> User k) ->
  quiet Done w (call l f v w) /\ quiet Fail w (call l f v w) /\ state (call l f v w) = state w.
Proof.
  intros [s Hs] Hf Hu. assert (handlers l <> Done /\ handlers l <> Fail /\ handlers (other l) <> Done
    /\ handlers (other l) <> Fail) as (N1 & N2 & N3 & N4) by (by destruct l).
  destruct f as [k|x|x|x|x]; cbn in Hf; [by destruct (Hu k)|done| | |]; cbn.
  - subst x. split_and!; [by apply quiet_set_list..|done].
  - destruct Hf as [->| ->]; (split_and!; [by apply quiet_set_list..|done]).
  - subst x. split_and!; [by apply quiet_fireWith..|apply state_fireWith].
Qed.

Lemma moved_on l w x : x <> l -> quiet x w (moved l w).
Proof. intros Hne. by apply quiet_set_list. Qed.

Lemma settled_fire_on l v b st w : machine_ok w -> settled l v w -> stack w = Firing l b :: st ->
  settled l v (fire_on w).
Proof.
  intros H S Es. pose proof (top_of l b st w H Es) as Ht.
  destruct S as [S1 S2 (sg & S3 & S4 & S5)]. destruct (sides l _ S1) as (_ & _ & Hne).
  assert (forall w', quiet (other l) w w' -> stage_of (other l) Spent w') as Ho
    by (intros w' Q; by apply (stage_quiet _ _ w)).
  destruct b.
  - destruct (turn_own l sg w S3 Ht) as [T (u & Hu)].
    assert (quiet (other l) w (fire_on w) /\ state (fire_on w) = state w) as [Q Est].
    { unfold fire_on. rewrite Es. destruct (fire_shift (lists w l)); (split; [|done]);
        [by apply (quiet_head _ l true)|by apply (quiet_popped _ l true)]. }
    split; [by rewrite Est|by apply Ho|]. exists (after_turn sg). split_and!; [done|by destruct Hu as [->| ->]|].
    destruct Hu as [->| ->]; cbn.
    + unfold fire_on. rewrite Es. destruct S3 as (_ & _ & _ & _ & E & _). unfold fire_shift. rewrite E.
      cbn. rewrite decide_True by done. exact S5.
    + destruct T as (_ & _ & _ & _ & _ & _ & _ & E & _). rewrite E. intros ms f [= <-].
      rewrite drop_nil. by intros ?%elem_of_nil.
  - assert (frame_of l (stack w) = Some false) as Ef by (by apply on_top_frame).
    assert (exists u, sg = Running u) as [u ->].
    { destruct S3 as (_ & S3). rewrite Ef in S3. destruct sg; try by destruct S3 as (? & _). by eexists. }
    cbn in S4. subst u. pose proof (next_own l v w S3 Ht) as N. cbn in S5.
    destruct (snd (fire_next (lists w l))) as [f|] eqn:Ef'.
    + destruct N as [N1 N2].
      assert (forall ms f, members (lists (moved l w) l) = Some ms ->
        f ∈ drop (Z.to_nat (firingIndex (lists (moved l w) l) + 1)) ms -> later l f) as Hl.
      { intros ms g. cbn. rewrite decide_True by done. cbn. intros Em Hg. apply (S5 ms); [done|].
        destruct S3 as (_ & _ & _ & _ & _ & _ & Hi & _).
        replace (Z.to_nat (firingIndex (lists w l) + 1 + 1)) with (1 + Z.to_nat (firingIndex (lists w l) + 1))%nat in Hg by lia.
        rewrite Nat.add_comm, <- drop_drop in Hg. by apply drop_in in Hg. }
      assert (later l f) as Hf.
      { destruct (next_found l w f Ef') as (ms & Em & _). apply (S5 ms); [done|].
        unfold fire_next, list_length in Ef'. cbn in Ef'. rewrite Em in Ef'. cbn in Ef'.
        destruct (_ <? _); [|done].
        apply (list_elem_of_lookup_2 _ 0). by rewrite lookup_drop, Nat.add_0_r. }
      assert ((exists k, f = User k) \/ forall k, f <> User k) as [[k ->]|Hk]
        by (destruct f; [left; by eexists|by right..]).
      * rewrite N1 in N2 |- *. split; [exact S1|apply Ho|exists (Running v); split_and!; [exact N2|done|exact Hl]].
        etransitivity; [by apply moved_on|]. apply quiet_call; [done|]. by intros [|[|]].
      * assert (settled l v (moved l w)) as Sm.
        { split; [done|apply Ho; by apply moved_on|exists (Running v)]. split_and!; [|done|exact Hl].
          destruct f as [k| | | |]; [by destruct (Hk k)|done..]. }
        destruct (later_untouched l f v (moved l w)) as (Q1 & Q2 & Q3); [by eexists|done|done|].
        rewrite N1. by apply (settled_quiet _ _ (moved l w)).
    + assert (quiet (other l) w (fire_on w) /\ state (fire_on w) = state w) as [Q Est].
      { unfold fire_on. rewrite Es. destruct (fire_next (lists w l)) as [c g]. cbn in Ef'. subst g.
        split; [by apply (quiet_head _ l false)|done]. }
      split; [by rewrite Est|by apply Ho|]. by exists (Ending v).
Qed.

(** The function at the place the index moves to. *)
Lemma next_at l i f w ms : firingIndex (lists w l) = i -> members (lists w l) = Some ms -> -1 <= i ->
  ms !! Z.to_nat (i + 1) = Some f -> snd (fire_next (lists w l)) = Some f.
Proof.
  intros Ei Em Hi Hf. unfold fire_next, list_length. cbn. rewrite Ei, Em. cbn.
  pose proof (lookup_lt_Some _ _ _ Hf). destruct (Z.ltb_spec (i + 1) (Z.of_nat (length ms))); [done|lia].
Qed.

Lemma settling_fire_on l v w : machine_ok w -> settling l v w ->
  settling l v (fire_on w) \/ settled l v (fire_on w).
Proof.
  intros H [[s Hs] Fo Hc (us & Em) (st & G)]. destruct (sides l s Hs) as (Hsd & Hoo & Hne).
  destruct G as [(Es & G & Eu)|(Es & G & Hi)]; pose proof (top_of l _ st w H Es) as Ht.
  - left. assert (quiet (other l) w (fire_on w) /\ state (fire_on w) = state w
      /\ stack (fire_on w) = Firing l false :: st /\ members (lists (fire_on w) l) = members (lists w l)
      /\ firingIndex (lists (fire_on w) l) = -1 /\ log (fire_on w) = log w) as (Q & E1 & E2 & E3 & E4 & E5).
    { destruct G as (_ & _ & _ & _ & E & Ei & _). unfold fire_on, fire_shift. rewrite Es, E.
      split_and!; [by apply (quiet_head _ l true)|done|done| | |done]; cbn; by rewrite decide_True. }
    split; [by exists s|by apply (fresh_quiet _ w)|by rewrite E5|exists us; by rewrite E3|].
    exists st. right. split_and!; [done|apply (turn_own l (Starting v) w G Ht)|left]. by rewrite E1.
  - pose proof (next_own l v w G Ht) as N.
    assert (firingIndex (lists (moved l w) l) = firingIndex (lists w l) + 1
            /\ members (lists (moved l w) l) = members (lists w l)) as [Mi Mm].
    { cbn. by rewrite decide_True. }
    destruct Hi as [[Hi Eu]|[Hi Est]].
    + left. assert (snd (fire_next (lists w l)) = Some (SetState s)) as Ef.
      { apply (next_at l (-1) _ w (own_functions l ++ map User us)); try done. unfold own_functions.
        by rewrite Hs. }
      rewrite Ef in N. destruct N as [N1 N2]. rewrite N1. cbn.
      split; [by exists s|apply (fresh_quiet _ w); [etransitivity; [by apply (moved_on l w)|apply quiet_state]|done]|done|exists us; by rewrite <- Em, <- Mm|].
      exists st. right. split_and!; [done|done|right]. split; [|done]. change (firingIndex (lists (moved l w) l) = 0).
      by rewrite Mi, Hi.
    + right. assert (snd (fire_next (lists w l)) = Some (DisableOf (other l))) as Ef.
      { apply (next_at l 0 _ w (own_functions l ++ map User us)); try done. unfold own_functions.
        by rewrite Hs. }
      rewrite Ef in N. destruct N as [N1 N2]. rewrite N1. cbn [call]. set (w1 := moved l w) in *.
      assert (quiet l w1 (set_list (other l) (disable (lists w1 (other l))) w1)) as Q
        by by apply quiet_set_list.
      split; [done| |].
      * destruct Fo as [Fo _]. apply (stage_quiet _ _ _ w1) in Fo; [|by apply moved_on].
        destruct Fo as (Ho & F1 & F2 & _ & _ & _ & _ & F7 & _). unfold stage_of. cbn.
        rewrite decide_True by done. by split_and!.
      * exists (Running v). split_and!; [by apply (stage_quiet _ _ w1)|done|].
        rewrite (qu_list _ _ _ Q). intros ms f. rewrite Mm, Mi, Em, Hi. intros [= <-].
        unfold own_functions. rewrite Hs. change (Z.to_nat (0 + 1 + 1)) with 2%nat. cbn. rewrite !elem_of_cons.
        intros [->|[->|[->|[->|Hin]]]]; cbn; [done|by left|by right|done|].
        by apply list_elem_of_fmap in Hin as (k & -> & _).
Qed.

(** ** Every step *)
Lemma deferred_fresh_ok : deferred_ok fresh_world.
Proof.
  split.
  - split; try done; try (by constructor); [by intros []|]. intros l ms f. unfold belongs.
    destruct l; intros [= <-] Hf; try (by apply elem_of_nil in Hf); by right.
  - left. split_and!; [..|done]; (split; [|by exists []]); (split; [done|]); split_and!; try done; by eexists.
Qed.

Lemma not_settling l v w : settling l v w -> exists b st, stack w = Firing l b :: st.
Proof. intros [_ _ _ _ (st & [(E & _)|(E & _)])]; by eexists _, st. Qed.

(** Firing a list while the sides are in either condition. *)
Lemma unsettled_fire_on w : machine_ok w -> unsettled w -> unsettled (fire_on w).
Proof.
  intros H U. destruct (stack w) as [|[x b|k|a] st] eqn:Es; try (unfold fire_on; by rewrite Es).
  assert (~ side x) as Hx.
  { destruct U as ([(_ & U1 & _) _] & [(_ & U2 & _) _] & _). rewrite Es in U1, U2. cbn in U1, U2.
    intros [->| ->]; by rewrite ?decide_True in * by done. }
  destruct (elsewhere x b st w H Es Hx) as (Q1 & Q2 & Q3). by apply (unsettled_quiet w).
Qed.

Lemma settled_fire_any l v w : machine_ok w -> settled l v w -> settled l v (fire_on w).
Proof.
  intros H S. destruct (stack w) as [|[x b|k|a] st] eqn:Es; try (unfold fire_on; by rewrite Es).
  destruct (sides l _ (se_state _ _ _ S)) as (Hl & _ & _).
  destruct (decide (x = l)) as [->|Hne]; [by apply (settled_fire_on l v b st)|].
  assert (~ side x) as Hx.
  { intros Hx. assert (x = other l) as -> by (by destruct Hl as [->| ->], Hx as [->| ->]).
    destruct (se_other _ _ _ S) as (_ & F & _). rewrite Es in F. cbn in F. by rewrite decide_True in F. }
  destruct (elsewhere x b st w H Es Hx) as (Q1 & Q2 & Q3). by apply (settled_quiet _ _ w).
Qed.

Definition decided l (v : V) w : Prop := settling l v w \/ settled l v w.

Lemma decided_fire_on l v w : machine_ok w -> decided l v w -> decided l v (fire_on w).
Proof. intros H [G|S]; [by apply settling_fire_on|right; by apply settled_fire_any]. Qed.

Lemma step_ok i w : deferred_ok w -> deferred_ok (step i w).
Proof.
  intros [H D]. split; [by apply ok_step|]. pose proof (ok_step i w H) as H'. unfold step in *.
  destruct (stack w) as [|[x b|k|a] st] eqn:Es.
  2:{ destruct D as [U|(l & v & D)]; [left; by apply unsettled_fire_on|].
      right. exists l, v. by apply decided_fire_on. }
  all: assert (Forall inner (stack w)) as Hi
    by (rewrite Es; try (constructor; [done|]); try constructor; pose proof (mo_inner w H) as Hi; rewrite Es in Hi; exact Hi).
  all: assert (unsettled w \/ exists l v, settled l v w) as D'
    by (destruct D as [U|(l & v & [G|S])]; [by left|destruct (not_settling l v w G) as (? & ? & E); congruence|right; by exists l, v]).
  all: assert (forall l ks, unsettled (add_users l ks w) \/ exists x v, settling x v (add_users l ks w) \/ settled x v (add_users l ks w)) as Ha
    by (intros l ks; destruct D' as [(U1 & U2 & U3)|(x & v & S)];
        [left; split_and!; [by apply fresh_add..|unfold add_users; by rewrite state_add]
        |right; exists x, v; right; by apply settled_add]).
  all: assert (forall l u, public l = true -> unsettled (do_fireWith l u w) \/ exists x v, settling x v (do_fireWith l u w) \/ settled x v (do_fireWith l u w)) as Hf
    by (intros l u Hp; destruct (fires l u w H Hp) as [F1 F2]; destruct D' as [U|(x & v & S)];
        [destruct (F1 U); [by left|right; exists l, u; by left]|right; exists x, v; right; by apply F2]).
  - destruct i as [l ks|l u|b| |]; try done; destruct (public l) eqn:Hp; auto.
  - destruct i as [l ks|l u|b| |]; try done; try (destruct (public l) eqn:Hp; by auto).
    + assert (quiet Done w (return_from b w) /\ quiet Fail w (return_from b w)) as [Q1 Q2] by (by split; apply quiet_return).
      destruct D' as [U|(x & v & S)]; [left; apply (unsettled_quiet w); by rewrite ?state_return|].
      right. exists x, v. right. apply (settled_quiet _ _ w); by rewrite ?state_return.
    + destruct D' as [(U1 & U2 & U3)|(x & v & S)].
      * left. split_and!; [by apply (fresh_throw _ k st)..|done].
      * right. exists x, v. right. by apply (settled_throw _ _ k st).
  - destruct i as [l ks|l u|b| |]; try done; destruct (public l) eqn:Hp; auto.
Qed.

(** The state changes once. *)
Lemma step_state i w : deferred_ok w -> state w <> Unsettled -> state (step i w) = state w.
Proof.
  intros [H D] Hs. pose proof (ok_step i w H) as H'. unfold step in *.
  destruct (stack w) as [|[x b|k|a] st] eqn:Es.
  2:{ destruct D as [(_ & _ & U)|(l & v & [G|S])]; [done| |].
      - destruct G as [Hl Fo Hc (us & Em) (st' & [(_ & _ & E)|(E & G & [[_ E']|[Hi Est]])])]; try done.
        pose proof (top_of l _ _ w H E) as Ht. pose proof (next_own l v w G Ht) as N.
        assert (snd (fire_next (lists w l)) = Some (DisableOf (other l))) as Ef.
        { apply (next_at l 0 _ w (own_functions l ++ map User us)); try done. unfold own_functions.
          by rewrite Est. }
        rewrite Ef in N. destruct N as [N1 _]. by rewrite N1.
      - pose proof (se_state _ _ _ (settled_fire_any l v w H S)) as E1.
        rewrite (se_state _ _ _ S) in E1. by injection E1. }
  - destruct i; try done; case_match; try done; [unfold add_users; by rewrite state_add|apply state_fireWith].
  - destruct i; try done; try (case_match; try done);
      [unfold add_users; by rewrite state_add|apply state_fireWith|apply state_return].
  - destruct i; try done; case_match; try done; [unfold add_users; by rewrite state_add|apply state_fireWith].
Qed.

Lemma deferred_run_ok es w : deferred_ok w -> deferred_ok (foldl (λ w e, step e w) w es).
Proof. revert w. induction es as [|e es IH]; intros w H; [done|]. cbn. by apply IH, step_ok. Qed.

Lemma run_state es w : deferred_ok w -> state w <> Unsettled ->
  state (foldl (λ w e, step e w) w es) = state w.
Proof.
  revert w. induction es as [|e es IH]; intros w H Hs; [done|]. cbn.
  pose proof (step_state e w H Hs) as E. rewrite IH; [done|by apply step_ok|by rewrite E].
Qed.

(** What a side that was fired has called. *)
Lemma called_prefix v rg cl rest : called_with v rg cl rest ->
  cl = map (λ k, (k, v)) (take (length cl) rg).
Proof.
  intros [-> H]. rewrite take_app_le by (by rewrite length_fmap). rewrite take_ge by (by rewrite length_fmap).
  induction H as [|[k u] cl E H IH]; [done|]. cbn in *. by rewrite E, <- IH.
Qed.

Lemma settled_called l v w : settled l v w ->
  exists rest, called_with v (regs_of l (log w)) (calls_of l (log w)) rest
  /\ (stack w = [] -> Threw ∉ log w -> rest = []).
Proof.
  intros [_ _ (st & (_ & S3) & S4 & _)]. destruct st as [| |u|u|u|u|u]; try done; cbn in S4.
  - subst u. destruct S3 as (E & _ & _ & _ & _ & ms & _ & C). exists (users ms). split; [done|].
    intros Es. by rewrite Es in E.
  - subst u. destruct S3 as (E & _ & _ & _ & _ & _ & ms & _ & _ & C). eexists. split; [exact C|].
    intros Es. by rewrite Es in E.
  - subst u. destruct S3 as (E & _ & _ & _ & _ & _ & C). eexists. by split; [exact C|].
  - subst u. destruct S3 as (E & _ & _ & _ & _ & _ & _ & C). eexists. by split; [exact C|].
  - destruct S4 as [-> Ht]. destruct S3 as (_ & _ & _ & _ & rest & C). exists rest. by split.
Qed.

Lemma settles_inj l l' s : settles l = Some s -> settles l' = Some s -> l = l'.
Proof. by destruct l, l'; intros [= <-]. Qed.

(** The side that the state does not name has called nothing. *)
Lemma side_calls w l s : deferred_ok w -> settles l = Some s ->
  calls_of l (log w) = [] /\ (state w = s -> stack w <> []) \/ state w = s /\ exists v, settled l v w.
Proof.
  intros [H D] Hs. assert (fresh_list l w -> calls_of l (log w) = []) as Hf.
  { by intros [(_ & _ & _ & _ & _ & _ & _ & E & _) _]. }
  destruct D as [(U1 & U2 & U3)|(x & v & [G|S])].
  - left. split; [|intros E; rewrite U3 in E; subst s; by destruct l].
    destruct (sides l s Hs) as ([->| ->] & _); by apply Hf.
  - left. destruct (not_settling x v w G) as (b & st & Es). rewrite Es. split; [|done].
    destruct G as [[s' Hs'] Fo Hc _ _]. destruct (sides x s' Hs') as (Hx & _ & _).
    destruct (decide (l = x)) as [->|Hne]; [done|].
    assert (l = other x) as -> by (by destruct l, x). by apply Hf.
  - pose proof (se_state _ _ _ S) as Ex. destruct (decide (l = x)) as [->|Hne].
    + right. split; [congruence|by exists v].
    + left. assert (l = other x) as El by (by destruct l, x). split.
      * destruct (se_other _ _ _ S) as (_ & _ & _ & _ & _ & _ & E). by rewrite El.
      * intros E. exfalso. apply Hne. apply (settles_inj _ _ s Hs). by rewrite Ex, E.
Qed.

(** C12: what a deferred promises, whatever the functions in its lists do: add
    functions, settle it again, give news, return or throw.  It settles at most
    once.  Functions of the side it did not settle on are never called; those of
    the other side are called in the order they were added, each once, all with one
    value; and when no function runs and none has thrown, none is left out. *)
Theorem deferred_promise (es es' : list (input V)) :
  let w : world V A := run_deferred es in
  (state w <> Unsettled -> state (run_deferred (es ++ es') : world V A) = state w)
  /\ forall l s, settles l = Some s ->
     let calls := calls_of l (log w) in
     let added := regs_of l (log w) in
     (state w <> s -> calls = [])
     /\ calls.*1 = take (length calls) added
     /\ (forall x y, x ∈ calls -> y ∈ calls -> x.2 = y.2)
     /\ (state w = s -> stack w = [] -> Threw ∉ log w -> calls.*1 = added).
Proof.
  intros w. assert (deferred_ok w) as H by (apply deferred_run_ok, deferred_fresh_ok). split.
  { intros Hs. unfold run_deferred. rewrite foldl_app. by apply run_state. }
  intros l s Hl. cbn zeta. destruct (side_calls w l s H Hl) as [[E Hst]|[Es [v S]]].
  - rewrite E. split_and!; [done|done|by intros x y ?%elem_of_nil|]. intros E1 E2. by destruct (Hst E1).
  - destruct (settled_called l v w S) as (rest & C & Hr). pose proof (called_prefix _ _ _ _ C) as Ec.
    split_and!; [by intros []| | |].
    + rewrite Ec at 1. rewrite <- list_fmap_compose. apply list_fmap_id.
    + destruct C as [_ C]. rewrite Forall_forall in C. intros x y Hx Hy. by rewrite (C x Hx), (C y Hy).
    + intros _ E1 E2. rewrite (Hr E1 E2) in C. destruct C as [-> _]. by rewrite app_nil_r.
Qed.
End Facts.

(** A function of the list adds another while it runs; the deferred is settled
    again, the other way; more functions come late. *)
Definition example_inputs : list (input Z) :=
  [AddTo Done [1; 2]%nat; AddTo Fail [3]%nat; FireWith Done 7]
  ++ repeat Go 11 ++ [AddTo Done [4]%nat; FireWith Fail 8; Return false]
  ++ repeat Go 1 ++ [Return false] ++ repeat Go 1 ++ [Return true] ++ repeat Go 4
  ++ [AddTo Done [5]%nat] ++ repeat Go 2 ++ [Return false] ++ repeat Go 3.

Lemma deferred_promise_witness :
  let w : world Z unit := run_deferred example_inputs in
  (calls_of Done (log w)).*1 = [1; 2; 4; 5]%nat /\ calls_of Fail (log w) = [].
Proof.
  destruct (deferred_promise (A:=unit) example_inputs []) as [_ H].
  destruct (H Done Resolved eq_refl) as (_ & _ & _ & Hd). destruct (H Fail Rejected eq_refl) as (Hf & _).
  split; [|apply Hf; by vm_compute].
  rewrite Hd; [vm_compute; reflexivity|vm_compute; reflexivity|vm_compute; reflexivity|].
  intros Ht. vm_compute in Ht. repeat (apply elem_of_cons in Ht as [Ht|Ht]; [discriminate|]).
  by apply elem_of_nil in Ht.
Defined.
