(* ===== verification/Ajax.v ===== *)
(** * Requests (jquery.js: [ajaxHandleResponses], [ajaxConvert], [jQuery.ajax] and the
    transport over XMLHttpRequest, with the console's change for sessions that
    have ended)

    A request has a deferred for its success or failure and a list of callbacks for
    its completion.  It is sent after [beforeSend]; then the browser loads an
    answer, reports an error or a timer runs out, and the page may cancel it at any
    time.  Between these events functions run as in [Deferred]; what is left to do
    of [ajax] and [done] while they run waits on the same stack.

    Modelled choices: requests are asynchronous and of the page's own origin; the
    global events have no handlers, and are not triggered, but their counter is
    kept; [dataFilter], [throws] and [ifModified] are not used; of a request's
    headers only the type of the content is read. *)

From stdpp Require Import base tactics strings numbers sets list.
From Stdlib Require Import ZArith Lia.
From S2P Require Import Prelude Regex Json Callbacks Deferred.
From S2P Require Import Strings.
Local Open Scope Z_scope.

(** ** Answers and their types *)
Inductive data := DUndefined | DText (t : jsstr) | DBinary | DValue (j : json).

(** [ajaxSettings.contents]. *)
Definition contents : list (jsstr * re) :=
  [(js "xml", regex "\bxml\b"); (js "html", regex "\bhtml"); (js "json", regex "\bjson\b");
   (js "script", regex "\b(?:java|ecma)script\b")].

(** [ajaxSettings.converters]; the flag marks [true], no conversion. *)
Definition converters : list (jsstr * jsstr * bool) :=
  [(js "*", js "text", false); (js "text", js "html", true); (js "text", js "json", false);
   (js "text", js "xml", false); (js "text", js "script", false)].

Definition converter_at (a b : jsstr) : option bool :=
  snd <$> head (List.filter (λ c, jseqb c.1.1 a && jseqb c.1.2 b) converters).

Fixpoint skip_auto (l : list jsstr) : bool * list jsstr :=
  match l with
  | t :: l' => if jseqb t (js "*") then (true, snd (skip_auto l')) else (false, l)
  | [] => (false, [])
  end.

(** [ajaxHandleResponses]: the response, and the types it is to go through. *)
Definition ajaxHandleResponses (types : list jsstr) (content_type : option jsstr)
    (responses : list (jsstr * data)) : data * list jsstr :=
  let '(auto, types) := skip_auto types in
  let types :=
    match content_type with
    | Some (_ :: _ as ct) =>
        if auto then
          match head (List.filter (λ c, test false (snd c) ct) contents) with
          | Some c => fst c :: types
          | None => types
          end
        else types
    | _ => types
    end in
  let find t := head (List.filter (λ r, jseqb (fst r) t) responses) in
  let final :=
    match head types ≫= find with
    | Some r => Some r
    | None =>
        match head (List.filter (λ r, match head types with
                                      | None => true
                                      | Some t => match converter_at (fst r) t with Some _ => true | None => false end
                                      end) responses) with
        | Some r => Some r
        | None => head responses
        end
    end in
  match final with
  | Some (t, d) => (d, match head types with
                       | Some t' => if jseqb t t' then types else t :: types
                       | None => t :: types
                       end)
  | None => (DUndefined, types)
  end.

Inductive converted := Converted (d : data) | ParserError (e : jsstr).

Section Convert.
(** The functions that convert (String, JSON.parse, parseXML, globalEval), by the
    types they convert from and to; an error when one throws. *)
Variable convert : jsstr -> jsstr -> data -> data + jsstr.

(** What to do to get from one type to another: the conversion to apply, if any,
    and the type this leads to. *)
Inductive conversion := Nothing | Apply (a b : jsstr) | Missing.

Definition direct (prev current : jsstr) : option conversion :=
  match converter_at prev current with
  | Some true => Some Nothing
  | Some false => Some (Apply prev current)
  | None =>
      match converter_at (js "*") current with
      | Some true => Some Nothing
      | Some false => Some (Apply (js "*") current)
      | None => None
      end
  end.

(** The first converter to [current] whose source can be reached. *)
Definition indirect (prev current : jsstr) : conversion * option jsstr :=
  match head (omap (λ c : jsstr * jsstr * bool, if jseqb (snd (fst c)) current
                         then match direct prev (fst (fst c)) with Some d => Some (c, d) | None => None end
                         else None) converters) with
  | Some ((a, b, same), Nothing) => (if (same : bool) then Nothing else Apply a b, None)
  | Some ((a, b, same), conv) => (conv, if (same : bool) then None else Some a)
  | None => (Missing, None)
  end.

(** [ajaxConvert], with as many turns as there are types and types between them. *)
Fixpoint convert_loop (turns : nat) (prev : jsstr) (types : list jsstr) (response : data) : converted :=
  match turns, types with
  | S n, current :: rest =>
      if jseqb current [] then Converted response
      else if jseqb current (js "*") then convert_loop n prev rest response
      else if jseqb prev (js "*") || jseqb prev current then convert_loop n current rest response
      else
        let '(conv, current, rest) :=
          match direct prev current with
          | Some conv => (conv, current, rest)
          | None =>
              match indirect prev current with
              | (conv, Some between) => (conv, between, current :: rest)
              | (conv, None) => (conv, current, rest)
              end
          end in
        match conv with
        | Nothing => convert_loop n current rest response
        | Apply a b =>
            match convert a b response with
            | inl d => convert_loop n current rest d
            | inr e => ParserError e
            end
        | Missing => ParserError (js "No conversion from " ++ prev ++ js " to " ++ current)
        end
  | _, _ => Converted response
  end.

Definition ajaxConvert (types : list jsstr) (response : data) : converted :=
  match types with
  | [] => Converted response
  | t :: rest => if jseqb t [] then Converted response
                 else convert_loop (2 * length types) t rest response
  end.
End Convert.

(** ** A request *)

(** What the functions of a request are called with. *)
Inductive value :=
  | Succeeded (d : data) (statusText : jsstr)
  | Failed (statusText error : jsstr)
  | Completed (statusText : jsstr).

(** What is left to do of [ajax] and of [done]. *)
Inductive act :=
  | BeforeSend
  | BeforeSent                      (* while [beforeSend] runs *)
  | CheckSend (is_false : bool)
  | InstallOn (l : list_id) (ks : list nat)
  | SetTimer
  | Send
  | FireList (l : list_id) (v : value)
  | CountDown.

Record ajax_settings := mkSettings {
  s_url : jsstr;
  s_head : bool;                    (* the method is HEAD *)
  s_dataTypes : list jsstr;
  s_mimeType : option jsstr;
  s_timeout : Z;
  s_beforeSend : option nat;
  s_success : list nat;
  s_error : list nat;
  s_complete : list nat;
  s_statusCode : list (Z * list nat);
}.

Record request := mkRequest {
  settings : ajax_settings;
  w : world value (list act);
  completed : option bool;
  statusCodes : list (Z * list nat);
  strAbort : jsstr;
  transport : bool;
  callback : bool;                  (* the browser's events are listened to *)
  timer : bool;
  status : Z;
  statusText : jsstr;
  active : Z;
  location : option jsstr;
}.

Definition set_w (u : world value (list act)) (r : request) : request :=
  mkRequest (settings r) u (completed r) (statusCodes r) (strAbort r) (transport r) (callback r)
    (timer r) (status r) (statusText r) (active r) (location r).
Definition set_completed (b : bool) (r : request) : request :=
  mkRequest (settings r) (w r) (Some b) (statusCodes r) (strAbort r) (transport r) (callback r)
    (timer r) (status r) (statusText r) (active r) (location r).
Definition set_codes (m : list (Z * list nat)) (r : request) : request :=
  mkRequest (settings r) (w r) (completed r) m (strAbort r) (transport r) (callback r)
    (timer r) (status r) (statusText r) (active r) (location r).
Definition set_transport (b listening : bool) (r : request) : request :=
  mkRequest (settings r) (w r) (completed r) (statusCodes r) (strAbort r) b listening
    (timer r) (status r) (statusText r) (active r) (location r).
Definition set_timer (b : bool) (r : request) : request :=
  mkRequest (settings r) (w r) (completed r) (statusCodes r) (strAbort r) (transport r) (callback r)
    b (status r) (statusText r) (active r) (location r).
Definition set_abort (t : jsstr) (r : request) : request :=
  mkRequest (settings r) (w r) (completed r) (statusCodes r) t (transport r) (callback r)
    (timer r) (status r) (statusText r) (active r) (location r).
Definition set_status (z : Z) (t : jsstr) (r : request) : request :=
  mkRequest (settings r) (w r) (completed r) (statusCodes r) (strAbort r) (transport r) (callback r)
    (timer r) z t (active r) (location r).
Definition set_active (n : Z) (r : request) : request :=
  mkRequest (settings r) (w r) (completed r) (statusCodes r) (strAbort r) (transport r) (callback r)
    (timer r) (status r) (statusText r) n (location r).
Definition go_to (u : jsstr) (r : request) : request :=
  mkRequest (settings r) (w r) (completed r) (statusCodes r) (strAbort r) (transport r) (callback r)
    (timer r) (status r) (statusText r) (active r) (Some u).

Definition push_acts (acts : list act) (r : request) : request := set_w (push_frame (Ext acts) (w r)) r.

(** The functions of [statusCode] for a status. *)
Definition for_status (z : Z) (m : list (Z * list nat)) : list nat :=
  concat (map snd (List.filter (λ e, fst e =? z) m)).

Definition is_success (z : Z) : bool := (200 <=? z) && (z <? 300) || (z =? 304).

Section Request.
Variable convert : jsstr -> jsstr -> data -> data + jsstr.

(** The outcome of [done]: which list is fired, with what, and the texts. *)
Definition outcome (st : ajax_settings) (z : Z) (native : jsstr) (content_type : option jsstr)
    (responses : list (jsstr * data)) : list_id * value * jsstr :=
  let content_type := match s_mimeType st with Some (_ :: _ as m) => Some m | _ => content_type end in
  let '(response, types) :=
    match responses with
    | [] => (DUndefined, s_dataTypes st)
    | _ => ajaxHandleResponses (s_dataTypes st) content_type responses
    end in
  let result := ajaxConvert convert types response in
  if is_success z then
    if (z =? 204) || s_head st then (Done, Succeeded DUndefined (js "nocontent"), js "nocontent")
    else if z =? 304 then (Done, Succeeded DUndefined (js "notmodified"), js "notmodified")
    else match result with
         | Converted d => (Done, Succeeded d (js "success"), js "success")
         | ParserError e => (Fail, Failed (js "parsererror") e, js "parsererror")
         end
  else
    let text := if negb (z =? 0) || jseqb native [] then js "error" else native in
    (Fail, Failed text native, text).

(** [done]: its own calls are put on the stack. *)
Definition done_ (z : Z) (native : jsstr) (content_type : option jsstr) (responses : list (jsstr * data))
    (r : request) : request :=
  if match completed r with Some true => true | _ => false end then r
  else
    let '(l, v, text) := outcome (settings r) z native content_type responses in
    let z' := if is_success z then z else if z <? 0 then 0 else z in
    let r := set_timer false (set_transport false (callback r) (set_completed true r)) in
    let r := set_status z' (match native with [] => text | _ => native end) r in
    let codes := for_status z' (statusCodes r) in
    push_acts [FireList l v; InstallOn Done codes; InstallOn Fail codes;
               FireList Complete (Completed text); CountDown] (set_codes [] r).

(** [abort]: the transport stops listening. *)
Definition abort (text : option jsstr) (r : request) : request :=
  let final := match text with Some (_ :: _ as t) => t | _ => strAbort r end in
  let r := if transport r then set_transport true false r else r in
  done_ 0 final None [] r.

(** The next of the acts that wait on top of the stack. *)
Definition act_on (r : request) : request :=
  match stack (w r) with
  | Ext [] :: st => set_w (set_stack st (w r)) r
  | Ext (BeforeSent :: _) :: _ => r
  | Ext (a :: acts) :: st =>
      let r := set_w (set_stack (Ext acts :: st) (w r)) r in
      match a with
      | BeforeSend =>
          let r := set_active (active r + 1) r in
          match s_beforeSend (settings r) with
          | Some k => set_w (push_frame (Body k) (set_stack (Ext (BeforeSent :: acts) :: st) (w r))) r
          | None => set_abort (js "abort") r
          end
      | BeforeSent => r
      | CheckSend is_false =>
          if is_false || match completed r with Some b => b | None => false end
          then abort None (set_w (set_stack st (w r)) r)
          else set_abort (js "abort") r
      | InstallOn l ks => set_w (add_users l ks (w r)) r
      | SetTimer => set_timer (0 <? s_timeout (settings r)) (set_transport true false r)
      | Send => set_completed false (set_transport true true r)
      | FireList l v => set_w (do_fireWith l v (w r)) r
      | CountDown => set_active (active r - 1) r
      end
  | _ => r
  end.

(** [ajax]. *)
Definition ajax (st : ajax_settings) : request :=
  mkRequest st
    (set_stack [Ext [BeforeSend; InstallOn Complete (s_complete st); InstallOn Done (s_success st);
                     InstallOn Fail (s_error st); SetTimer; Send]] fresh_world)
    None (s_statusCode st) (js "canceled") false false false 0 [] 0 None.

(** ** What happens to a request *)
Inductive event :=
  | Does (i : input value)             (* a function runs, or the page between functions *)
  | Cancel (text : option jsstr)
  | OnStatus (m : list (Z * list nat))
  | SendThrows (error : jsstr)
  | Load (z : Z) (text : jsstr) (content_type : option jsstr) (responseURL : jsstr) (body : data)
  | XhrError (z : Z) (text : jsstr)
  | TimeOut.

(** The page a session that has ended is sent to. *)
Definition session_ended (url responseURL : jsstr) : bool :=
  endsWith url (js ".html") && negb (jseqb responseURL []) && endsWith responseURL (js "login.html").

Definition xhr_status (z : Z) : Z := if z =? 0 then 200 else if z =? 1223 then 204 else z.

Definition on_load (z : Z) (text : jsstr) (content_type : option jsstr) (responseURL : jsstr) (body : data)
    (r : request) : request :=
  let r := set_transport (transport r) false r in
  if session_ended (s_url (settings r)) responseURL then go_to (js "/") r
  else done_ (xhr_status z) text content_type
         [(match body with DBinary => js "binary" | _ => js "text" end, body)] r.

Definition step_ajax (e : event) (r : request) : request :=
  match stack (w r) with
  | Firing _ _ :: _ => set_w (fire_on (w r)) r
  | Ext (Send :: _) :: _ =>
      match e with
      | SendThrows error => done_ (-1) error None [] (act_on r)
      | _ => act_on r
      end
  | Ext _ :: _ => act_on r
  | st =>
      match e with
      | Does (AddTo l ks) => if public l then set_w (add_users l ks (w r)) r else r
      | Does (Return b) =>
          match st with
          | Body _ :: Ext (BeforeSent :: acts) :: st' =>
              set_w (set_stack (Ext (CheckSend b :: acts) :: st') (w r)) r
          | Body _ :: _ => set_w (return_from b (w r)) r
          | _ => r
          end
      | Does Throw => match st with Body _ :: _ => set_w (throw (w r)) r | _ => r end
      | Does _ => r
      | Cancel text => abort text r
      | OnStatus m =>
          match completed r with
          | Some true => push_acts [InstallOn Done (for_status (status r) m);
                                    InstallOn Fail (for_status (status r) m)] r
          | _ => set_codes (statusCodes r ++ m) r
          end
      | Load z text ct u b => match st with [] => if callback r then on_load z text ct u b r else r | _ => r end
      | XhrError z text =>
          match st with
          | [] => if callback r then done_ z text None [] (set_transport (transport r) false r) else r
          | _ => r
          end
      | TimeOut => match st with [] => if timer r then abort (Some (js "timeout")) (set_timer false r) else r | _ => r end
      | SendThrows _ => r
      end
  end.

Definition run_ajax (st : ajax_settings) (es : list event) : request := foldl (λ r e, step_ajax e r) (ajax st) es.
End Request.
