(* ===== verification/AjaxFacts.v ===== *)
(** * What a request promises

    Whatever its functions do and whatever the browser reports: a request calls its
    success functions or its error functions, never both, each once and in order,
    then its completion functions, once an answer has come; and when the session
    has ended the page is left and none of them is called. *)

From stdpp Require Import base tactics strings numbers sets list.
From Stdlib Require Import ZArith Lia.
From S2P Require Import Prelude Json Callbacks Deferred DeferredFacts Ajax.
Local Open Scope Z_scope.

Section Facts.
Context (convert : jsstr -> jsstr -> data -> data + jsstr).
#[local] Abbreviation world := (Deferred.world value (list act)).
Implicit Types (u : world) (r : request).

(** ** The stack without what waits on it *)
Lemma restack u st : deferred_ok u -> (forall l v, ~ settling l v u) ->
  (forall l, frame_of l st = frame_of l (stack u)) -> actives st = actives (stack u) ->
  Forall inner (tail st) -> deferred_ok (set_stack st u).
Proof.
  intros [[M1 M2 M3 M4 M5 M6] D] Hn Hf Ha Hi.
  assert (forall l, quiet l u (set_stack st u)) as Q by (intros l; by split).
  split.
  - split; cbn [stack set_stack lists log]; try done; [by rewrite Ha|intros l; rewrite Hf; apply M3|intros l; rewrite Hf; apply M4].
  - destruct D as [U|(l & v & [G|S])]; [left; by apply (unsettled_quiet u)|by destruct (Hn l v)|].
    right. exists l, v. right. by apply (settled_quiet _ _ u).
Qed.

(** Nothing is being fired. *)
Definition calm u : Prop := match stack u with Firing _ _ :: _ => False | _ => True end.

Lemma calm_not_settling u : calm u -> forall l v, ~ settling l v u.
Proof. intros H l v G. destruct (not_settling l v u G) as (b & st & E). unfold calm in H. by rewrite E in H. Qed.

Lemma calm_inner u : deferred_ok u -> calm u -> Forall inner (stack u).
Proof.
  intros [H _] Hc. pose proof (mo_inner u H) as Hi. unfold calm in Hc.
  destruct (stack u) as [|[l b|k|a] st]; try done; by constructor.
Qed.

Lemma ok_push f u : deferred_ok u -> calm u -> match f with Firing _ _ => False | _ => True end ->
  deferred_ok (push_frame f u).
Proof.
  intros H Hc Hf. apply restack; [done|by apply calm_not_settling|by destruct f|by destruct f|].
  by apply calm_inner.
Qed.

Lemma ok_ext a a' st u : deferred_ok u -> stack u = Ext a :: st -> deferred_ok (set_stack (Ext a' :: st) u).
Proof.
  intros H Es. assert (calm u) as Hc by (unfold calm; by rewrite Es).
  apply restack; [done|by apply calm_not_settling|by rewrite Es..|].
  pose proof (calm_inner u H Hc) as Hi. rewrite Es in Hi. by inversion Hi.
Qed.

Lemma ok_ext_pop a st u : deferred_ok u -> stack u = Ext a :: st -> deferred_ok (set_stack st u).
Proof.
  intros H Es. assert (calm u) as Hc by (unfold calm; by rewrite Es).
  apply restack; [done|by apply calm_not_settling|by rewrite Es..|].
  pose proof (calm_inner u H Hc) as Hi. rewrite Es in Hi. inversion Hi. by apply forall_tail.
Qed.

(** ** The functions called at the end *)
Definition completing (v : value) u : Prop :=
  exists st, stage_of Complete st u /\ settled_stage v st (log u).

Lemma completing_quiet v u u' : quiet Complete u u' -> completing v u -> completing v u'.
Proof.
  intros Q (st & S1 & S2). exists st. split; [by apply (stage_quiet _ _ u)|].
  apply (settled_stage_mono _ _ (log u)); [apply Q|done].
Qed.

Lemma untouched l f : belongs l f -> ~ touches Complete f.
Proof.
  unfold touches. intros [[k ->]|[Hp Hin]]; [by intros [|[|]]|].
  destruct l; try done; cbn in Hin; rewrite !elem_of_cons in Hin;
    repeat destruct Hin as [->|Hin]; try (by intros [|[|]]); by apply elem_of_nil in Hin.
Qed.

Lemma complete_fire_on u : deferred_ok u ->
  (stage_of Complete Fresh u -> stage_of Complete Fresh (fire_on u))
  /\ (forall v, completing v u -> completing v (fire_on u)).
Proof.
  intros [H _]. destruct (stack u) as [|[l b|k|a] st] eqn:Es; try (unfold fire_on; by rewrite Es).
  destruct (decide (l = Complete)) as [->|Hne].
  2:{ assert (quiet Complete u (fire_on u)) as Q by (by apply (quiet_fire_on _ l b st); [..|apply untouched]).
      split; [by apply stage_quiet|intros v; by apply completing_quiet]. }
  pose proof (top_of Complete b st u H Es) as Ht. split.
  { intros (_ & E & _). by rewrite (on_top_frame _ _ _ Ht) in E. }
  intros v (sg & S1 & S2).
  destruct b.
  - destruct (turn_own Complete sg u S1 Ht) as [T (x & [->| ->])]; eexists; split; [exact T|done|exact T|done].
  - assert (exists x, sg = Running x) as [x ->].
    { destruct S1 as (_ & S1). rewrite (on_top_frame _ _ _ Ht) in S1. destruct sg; try by destruct S1 as (? & _). by eexists. }
    pose proof (next_own Complete x u S1 Ht) as N. destruct (snd (fire_next (lists u Complete))) as [f|] eqn:Ef.
    + destruct (next_found Complete u f Ef) as (ms & Em & Hin).
      destruct (mo_own u H Complete ms f Em Hin) as [[k ->]|[[=] _]].
      destruct N as [N1 N2]. by exists (Running x).
    + by exists (Ending x).
Qed.

Lemma complete_elsewhere u u' : quiet Complete u u' ->
  (stage_of Complete Fresh u -> stage_of Complete Fresh u') /\ (forall v, completing v u -> completing v u').
Proof. intros Q. split; [by apply stage_quiet|intros v; by apply completing_quiet]. Qed.

Lemma complete_add l ks u : deferred_ok u -> calm u ->
  (stage_of Complete Fresh u -> stage_of Complete Fresh (add_users l ks u))
  /\ (forall v, completing v u -> completing v (add_users l ks u)).
Proof.
  intros H Hc. destruct (decide (l = Complete)) as [->|Hne]; [|by apply complete_elsewhere, quiet_add_users].
  assert (frame_of Complete (stack u) <> Some true) as Hf.
  { intros E. pose proof (calm_inner u H Hc) as Hi. clear -E Hi.
    induction (stack u) as [|[y []|k|a] st IH]; cbn in *; try done; apply Forall_cons in Hi as [Hx Hi]; try done; [|by apply IH..].
    by destruct (decide (y = Complete)); [|apply IH]. }
  split; [intros F; by apply (add_own Complete Fresh)|].
  intros v (st & S1 & S2). exists (after_add st). split; [by apply add_own|].
  apply (settled_stage_mono _ _ (log u)); [|by destruct st].
  rewrite log_add_users. intros Ht. apply elem_of_app. by left.
Qed.

Lemma complete_throw k st u : deferred_ok u -> stack u = Body k :: st ->
  (stage_of Complete Fresh u -> stage_of Complete Fresh (throw u))
  /\ (forall v, completing v u -> completing v (throw u)).
Proof.
  intros [H _] Es. split.
  - intros F. by destruct (threw_same Complete Fresh k st u H Es F) as [|(v & [=] & _)].
  - intros v (sg & S1 & S2). assert (Threw ∈ log (throw u)) as Ht by (cbn; apply elem_of_app; right; by left).
    destruct (threw_same Complete sg k st u H Es S1) as [F|(x & -> & F)]; [exists sg|exists (Stuck x)].
    + split; [done|]. by apply (settled_stage_mono _ _ (log u)).
    + by split.
Qed.

(** Nothing is called while a list waits for its values. *)
Lemma fresh_add_stack l ks u : stage_of l Fresh u -> stack (add_users l ks u) = stack u.
Proof.
  intros (Ho & _ & _ & E & _). unfold add_users, do_add, add. cbn [lists].
  rewrite E. by destruct (members (lists u l)).
Qed.

(** ** What happens to the stack and to the log *)
Definition is_ext (f : frame (list act)) : bool := match f with Ext _ => true | _ => false end.

Record grows (u u' : world) (st : list (frame (list act))) : Prop := {
  gr_stack : exists pre, stack u' = pre ++ st /\ Forall (λ f, is_ext f = false) pre;
  gr_log : exists t, log u' = log u ++ t;
}.

Lemma grows_set l c u : grows u (set_list l c u) (stack u).
Proof. split; [by exists []|exists []; by rewrite app_nil_r]. Qed.

Lemma grows_start l u u' st : grows u u' st -> grows u (start_fire l u') st.
Proof. intros [(pre & E & H) L]. split; [|exact L]. exists (Firing l true :: pre). cbn. rewrite E. by split; [|constructor]. Qed.

Lemma grows_add l fs u : grows u (do_add l fs u) (stack u).
Proof. unfold do_add. destruct (add fs _) as [c []]; [apply grows_start|]; apply grows_set. Qed.

Lemma grows_fireWith l v u : grows u (do_fireWith l v u) (stack u).
Proof. unfold do_fireWith. destruct (fireWith v _) as [c []]; [apply grows_start|]; apply grows_set. Qed.

Lemma grows_add_users l ks u : grows u (add_users l ks u) (stack u).
Proof.
  unfold add_users. destruct (grows_add l (map User ks) (mkWorld (lists u) (state u) (stack u) (log u ++ map (Added l) ks)))
    as [G (t & E)]. split; [exact G|]. exists (map (Added l) ks ++ t). rewrite E. cbn. by rewrite app_assoc.
Qed.

Lemma grows_fire_on l b st u : machine_ok u -> stack u = Firing l b :: st -> grows u (fire_on u) st.
Proof.
  intros H Es. unfold fire_on. rewrite Es. destruct b.
  - destruct (fire_shift _); (split; [|exists []; cbn; by rewrite app_nil_r]);
      [exists [Firing l false]; split; [done|by repeat constructor]|by exists []].
  - destruct (fire_next (lists u l)) as [c f] eqn:En. destruct f as [f|].
    2:{ split; [|exists []; cbn; by rewrite app_nil_r]. exists [Firing l true]. split; [done|by repeat constructor]. }
    destruct (next_found l u f) as (ms & Em & Hfm); [by rewrite En|].
    pose proof (mo_loop u H l) as Hl. rewrite Es in Hl. cbn in Hl. rewrite decide_True in Hl by done.
    assert (c = fst (fire_next (lists u l))) as Ec by (by rewrite En).
    destruct (memory c) as [v|] eqn:Ev; [|subst c; cbn in Ev; destruct (Hl eq_refl); congruence].
    assert (forall u', stack u' = stack u -> log u' = log u -> grows u u' st) as Hs.
    { intros u' E1 E2. split; [exists [Firing l false]; rewrite E1; split; [done|by repeat constructor]|].
      exists []. by rewrite E2, app_nil_r. }
    destruct f as [k|x|x|x|x]; cbn [call]; try by apply Hs.
    + split; [|by eexists]. exists [Body k; Firing l false]. cbn. rewrite Es. split; [done|by repeat constructor].
    + destruct (grows_fireWith x v (set_list l c u)) as [(pre & E1 & F) (t & E2)]. split; [|by exists t].
      exists (pre ++ [Firing l false]). rewrite E1. cbn. rewrite Es, <- app_assoc. split; [done|].
      apply Forall_app. by split; [|repeat constructor].
Qed.

Definition acts_of (st : list (frame (list act))) : list act :=
  concat (omap (λ f, match f with Ext a => Some a | _ => None end) st).

Lemma acts_app pre st : Forall (λ f, is_ext f = false) pre -> acts_of (pre ++ st) = acts_of st.
Proof. unfold acts_of. induction 1 as [|[l b|k|a] pre Hf Hp IH]; cbn; done. Qed.

(** ** Sending waits for [beforeSend], and comes last *)
Definition is_sending (a : act) : bool :=
  match a with BeforeSend | BeforeSent | CheckSend _ => true | _ => false end.

Definition is_fire (a : act) : bool := match a with FireList _ _ => true | _ => false end.

Definition installs_ok (a : act) : Prop :=
  match a with InstallOn l _ => l = Done \/ l = Fail \/ l = Complete | _ => True end.

(** What is left of [ajax] fires no list; what is left of [done] sends nothing. *)
Definition plan_ok (acts : list act) : Prop :=
  Send ∉ removelast acts /\ Forall installs_ok acts
  /\ (Forall (λ a, is_sending a = false) acts \/ Forall (λ a, is_fire a = false) acts).

Lemma plan_tail a acts : plan_ok (a :: acts) -> plan_ok acts.
Proof.
  intros (H & I & U). apply Forall_cons in I as [_ I]. split_and!; [|done|].
  - destruct acts as [|b acts]; [done|]. intros Hs. apply H. cbn [removelast]. by right.
  - by destruct U as [U|U]; apply Forall_cons in U as [_ U]; [left|right].
Qed.

Lemma plan_end acts : plan_ok (Send :: acts) -> acts = [].
Proof. destruct acts as [|b acts]; [done|]. intros [H _]. destruct H. by left. Qed.

(** One act of [ajax] in the place of another. *)
Lemma plan_replace a b acts : is_sending a = true -> is_sending b = true -> plan_ok (a :: acts) -> plan_ok (b :: acts).
Proof.
  intros Ha Hb (H & I & U). apply Forall_cons in I as [_ I]. split_and!; [|by constructor; [destruct b|]|].
  - destruct acts as [|c acts]; [by destruct b|]. intros Hs. apply H. cbn [removelast] in *.
    apply elem_of_cons in Hs as [<-|Hs]; [done|by right].
  - destruct U as [U|U]; apply Forall_cons in U as [Hx U]; [congruence|right].
    constructor; [by destruct b|done].
Qed.

Lemma plan_no_fire a acts l v : is_sending a = true -> plan_ok (a :: acts) -> FireList l v ∉ a :: acts.
Proof.
  intros Ha (_ & _ & [U|U]); [apply Forall_cons in U as [Hx _]; congruence|].
  rewrite Forall_forall in U. intros Hin. by specialize (U _ Hin).
Qed.

Definition below (f : frame (list act)) : Prop :=
  match f with Ext acts => (Send ∈ acts -> head acts = Some BeforeSent) /\ plan_ok acts | _ => True end.

Definition foremost (c : option bool) (f : frame (list act)) : Prop :=
  match f with
  | Ext acts =>
      (Send ∈ acts -> c <> Some true \/ head acts = Some BeforeSent \/ exists b, head acts = Some (CheckSend b))
      /\ plan_ok acts
  | _ => True
  end.

Definition sends_ok (c : option bool) (st : list (frame (list act))) : Prop :=
  match st with [] => True | f :: st' => foremost c f /\ Forall below st' end.

Lemma below_ok c st : Forall below st -> sends_ok c st.
Proof.
  destruct 1 as [|[l b|k|a] st H Hst]; [done|done|done|]. destruct H as [H1 H2].
  split; [|done]. split; [|done]. intros Hs. right; left. by apply H1.
Qed.

Lemma sends_under c st : sends_ok c st -> (forall acts st', st = Ext acts :: st' -> Send ∉ acts) ->
  Forall below st.
Proof.
  destruct st as [|f st]; [by constructor|]. intros [Hf Hst] Hn. constructor; [|done].
  destruct f as [l b|k|a]; [done|done|]. destruct Hf as [_ Hl]. split; [|done]. intros Hs.
  by destruct (Hn a st).
Qed.

Lemma sends_grow c pre st : Forall (λ f, is_ext f = false) pre -> Forall below st -> sends_ok c (pre ++ st).
Proof.
  intros Hp Hst. apply below_ok. apply Forall_app. split; [|done].
  eapply Forall_impl; [exact Hp|]. by intros [].
Qed.

Lemma below_unwind st : Forall below st -> Forall below (unwind st).
Proof. induction 1 as [|[l b|k|a] st Hx Hst IH]; cbn; [done|done|by constructor|done]. Qed.
End Facts.

(** ** Conversions *)
Section Conversions.
Context (convert : jsstr -> jsstr -> data -> data + jsstr).

Definition targets : list jsstr := [js "text"; js "html"; js "json"; js "xml"; js "script"].

(** Nothing converts to any type at all, anything to text. *)
Lemma direct_any prev : direct prev (js "*") = None.
Proof.
  unfold direct, converter_at, converters. cbn [List.filter fst snd].
  destruct (jseqb (js "*") prev), (jseqb (js "text") prev); by vm_compute.
Qed.

Lemma direct_text prev : direct prev (js "text") = Some (Apply (js "*") (js "text")) \/ prev = js "*".
Proof.
  unfold direct, converter_at, converters. cbn [List.filter fst snd].
  destruct (jseqb (js "*") prev) eqn:E; [right; symmetry; by apply bool_decide_eq_true in E|left].
  destruct (jseqb (js "text") prev); by vm_compute.
Qed.

(** ** Conversions without a loop *)

(** The conversions from one type to another: text is on the way to all of them. *)
Definition steps_to (prev t : jsstr) : option (list (jsstr * jsstr)) :=
  let to_text := if jseqb prev (js "text") then [] else [(js "*", js "text")] in
  if jseqb t (js "text") then Some [(js "*", js "text")]
  else if jseqb t (js "html") then Some to_text
  else if bool_decide (t ∈ [js "json"; js "xml"; js "script"]) then Some (to_text ++ [(js "text", t)])
  else None.

Fixpoint apply_all (steps : list (jsstr * jsstr)) (d : data) : data + jsstr :=
  match steps with
  | [] => inl d
  | (a, b) :: steps => match convert a b d with inl d' => apply_all steps d' | inr e => inr e end
  end.

Fixpoint path (prev : jsstr) (types : list jsstr) (d : data) : converted :=
  match types with
  | [] => Converted d
  | t :: rest =>
      if jseqb t [] then Converted d
      else if jseqb t (js "*") then path prev rest d
      else if jseqb prev (js "*") || jseqb prev t then path t rest d
      else match steps_to prev t with
           | Some steps => match apply_all steps d with inl d' => path t rest d' | inr e => ParserError e end
           | None => ParserError (js "No conversion from " ++ prev ++ js " to " ++ t)
           end
  end.

(** What the loop finds, type by type. *)
Definition found (prev t : jsstr) : conversion * option jsstr :=
  match direct prev t with Some c => (c, None) | None => indirect prev t end.

Lemma found_text prev : prev <> js "*" -> found prev (js "text") = (Apply (js "*") (js "text"), None).
Proof. intros Hp. unfold found. by destruct (direct_text prev) as [->|]. Qed.

Lemma found_other prev t : prev <> js "*" -> prev <> js "text" -> t ∈ [js "html"; js "json"; js "xml"; js "script"] ->
  found prev t = (Apply (js "*") (js "text"), if jseqb t (js "html") then None else Some (js "text")).
Proof.
  intros Hp Hn Hin. assert (direct prev t = None) as E.
  { unfold direct, converter_at, converters. cbn [List.filter fst snd].
    assert (jseqb (js "*") prev = false) as -> by (apply bool_decide_eq_false; congruence).
    assert (jseqb (js "text") prev = false) as -> by (apply bool_decide_eq_false; congruence).
    repeat (apply elem_of_cons in Hin as [->|Hin]); [..|by apply elem_of_nil in Hin]; by vm_compute. }
  destruct (direct_text prev) as [Ht|]; [|done].
  unfold found. rewrite E. unfold indirect, converters. cbn [omap list_omap fst snd]. rewrite direct_any, Ht.
  repeat (apply elem_of_cons in Hin as [->|Hin]); [..|by apply elem_of_nil in Hin]; by vm_compute.
Qed.

Lemma found_missing prev t : t ∉ targets -> t <> js "*" -> found prev t = (Missing, None).
Proof.
  intros Hn Hs. assert (forall x, x ∈ targets -> jseqb x t = false) as Hj.
  { intros x Hin. apply bool_decide_eq_false. by intros ->. }
  unfold found, direct, indirect, converter_at, converters. cbn [omap list_omap List.filter fst snd].
  rewrite !Hj by (repeat first [by left|right]). by rewrite !andb_false_r.
Qed.

Definition after_conversion (n : nat) (prev : jsstr) (d : data) (c : conversion * jsstr * list jsstr) : converted :=
  match c with
  | (Nothing, t, types) => convert_loop convert n t types d
  | (Apply a b, t, types) =>
      match convert a b d with inl d' => convert_loop convert n t types d' | inr e => ParserError e end
  | (Missing, t, _) => ParserError (js "No conversion from " ++ prev ++ js " to " ++ t)
  end.

Lemma conversion_turn n prev t types d :
  convert_loop convert (S n) prev (t :: types) d
  = if jseqb t [] then Converted d
    else if jseqb t (js "*") then convert_loop convert n prev types d
    else if jseqb prev (js "*") || jseqb prev t then convert_loop convert n t types d
    else after_conversion n prev d
           match direct prev t with
           | Some c => (c, t, types)
           | None => match indirect prev t with (c, Some b) => (c, b, t :: types) | (c, None) => (c, t, types) end
           end.
Proof. done. Qed.

(** One type after the other. *)
Lemma turn_path n prev t types d : jseqb t [] = false -> jseqb t (js "*") = false -> prev <> js "*" ->
  (forall d, convert_loop convert n t types d = path t types d) ->
  (forall d, convert_loop convert (S n) t types d = path t types d) ->
  after_conversion (S n) prev d
    match found prev t with (c, Some b) => (c, b, t :: types) | (c, None) => (c, t, types) end
  = match steps_to prev t with
    | Some steps => match apply_all steps d with inl d' => path t types d' | inr e => ParserError e end
    | None => ParserError (js "No conversion from " ++ prev ++ js " to " ++ t)
    end.
Proof.
  intros E0 E1 Hp IH IH'. assert (forall a b, after_conversion (S n) prev d (Apply a b, t, types)
    = match apply_all [(a, b)] d with inl d' => path t types d' | inr e => ParserError e end) as Ha.
  { intros a b. cbn [after_conversion apply_all]. by destruct (convert a b d). }
  unfold steps_to. destruct (jseqb t (js "text")) eqn:Et.
  { apply bool_decide_eq_true in Et as ->. rewrite found_text by done. apply Ha. }
  destruct (decide (t ∈ [js "html"; js "json"; js "xml"; js "script"])) as [Hin|Hn].
  2:{ rewrite found_missing; [|intros [->|?]%elem_of_cons; done|by intros ->].
      destruct (jseqb t (js "html")) eqn:Eh; [apply bool_decide_eq_true in Eh as ->; by destruct Hn; left|].
      rewrite bool_decide_eq_false_2; [done|]. intros Hx. apply Hn. by right. }
  destruct (jseqb prev (js "text")) eqn:Ep.
  - apply bool_decide_eq_true in Ep as ->.
    repeat (apply elem_of_cons in Hin as [->|Hin]); [..|by apply elem_of_nil in Hin];
      [cbn [after_conversion found]; exact (IH' d)|exact (Ha _ _)..].
  - apply bool_decide_eq_false in Ep. rewrite found_other by done.
    destruct (jseqb t (js "html")) eqn:Eh; [apply Ha|].
    assert (t ∈ [js "json"; js "xml"; js "script"]) as Ht
      by (apply elem_of_cons in Hin as [->|Hin]; [by vm_compute in Eh|done]).
    rewrite bool_decide_eq_true_2 by done. cbn [after_conversion app apply_all].
    destruct (convert _ (js "text") d) as [d'|]; [|done].
    rewrite conversion_turn, E0, E1.
    assert (jseqb (js "text") t = false) as -> by (apply bool_decide_eq_false; apply bool_decide_eq_false in Et; congruence).
    assert (direct (js "text") t = Some (Apply (js "text") t)) as ->
      by (repeat (apply elem_of_cons in Ht as [->|Ht]); [..|by apply elem_of_nil in Ht]; by vm_compute).
    cbn [orb after_conversion]. change (jseqb (js "text") (js "*")) with false. cbn [orb].
    destruct (convert (js "text") t d'); [apply IH|done].
Qed.

Lemma loop_path n prev types d : (2 * length types <= n)%nat ->
  convert_loop convert n prev types d = path prev types d.
Proof.
  revert n prev d. induction types as [|t types IH]; intros n prev d Hn; [by destruct n|].
  cbn in Hn. destruct n as [|[|n]]; try lia. rewrite conversion_turn. cbn [path].
  destruct (jseqb t []) eqn:E0; [done|]. destruct (jseqb t (js "*")) eqn:E1; [apply IH; lia|].
  destruct (jseqb prev (js "*") || jseqb prev t) eqn:E2; [apply IH; lia|].
  apply orb_false_iff in E2 as [E2 _]. apply bool_decide_eq_false in E2.
  rewrite <- (turn_path n); [|done..|intros x; apply IH; lia|intros x; apply IH; lia].
  unfold found. by destruct (direct prev t).
Qed.

(** C37: the loop of [ajaxConvert], which puts types between those it was given, comes
    to its end and does for each type what can be said without it: nothing for the
    same type or any type, through text to the four other types, and an error for
    a type it does not know. *)
Theorem conversion_path types d :
  ajaxConvert convert types d
  = match types with
    | [] => Converted d
    | t :: rest => if jseqb t [] then Converted d else path t rest d
    end.
Proof.
  destruct types as [|t rest]; [done|]. unfold ajaxConvert. destruct (jseqb t []); [done|].
  apply loop_path. cbn. lia.
Qed.
End Conversions.
