(* ===== verification/AjaxPromise.v ===== *)
(** * What a request promises

    Whatever its functions do and whatever the browser reports: a request calls its
    success functions or its error functions, never both, each once and in order,
    then its completion functions, once an answer has come; and when the session
    has ended the page is left and none of them is called. *)

From stdpp Require Import base tactics strings numbers sets list.
From Stdlib Require Import ZArith Lia.
From S2P Require Import Prelude Json Callbacks Deferred DeferredFacts Ajax AjaxFacts.
From S2P Require Import Strings.
Local Open Scope Z_scope.

Section Promise.
Context (convert : jsstr -> jsstr -> data -> data + jsstr).
#[local] Abbreviation world := (Deferred.world value (list act)).
Implicit Types (u : world) (r : request).

(** ** What a step leaves of a request's lists and of what waits *)
Record carries (u u' : world) : Prop := {
  ca_ok : machine_ok u';
  ca_unsettled : unsettled u -> unsettled u';
  ca_decided : forall l v, decided l v u -> decided l v u';
  ca_fresh : stage_of Complete Fresh u -> stage_of Complete Fresh u';
  ca_completing : forall v, completing v u -> completing v u';
  ca_threw : Threw ∈ log u -> Threw ∈ log u';
}.

#[local] Instance carries_trans : Transitive carries.
Proof. intros u1 u2 u3 [] []. split; auto. Qed.

Lemma carries_ok u u' : carries u u' -> deferred_ok u -> deferred_ok u'.
Proof.
  intros C [_ [U|(l & v & D)]]; (split; [apply C|]); [left; by apply C|right]. exists l, v. by apply C.
Qed.

(** Only the stack changes, and not what is fired. *)
Lemma carries_restack u st : deferred_ok u -> (forall l v, ~ settling l v u) ->
  (forall l, frame_of l st = frame_of l (stack u)) -> actives st = actives (stack u) ->
  Forall inner (tail st) -> carries u (set_stack st u).
Proof.
  intros H Hc Hf Ha Hi. assert (deferred_ok (set_stack st u)) as [M _]
    by (by apply restack).
  assert (forall l, quiet l u (set_stack st u)) as Q by (intros l; by split).
  split; [done| | | | |done].
  - by apply unsettled_quiet.
  - intros l v [G|S]; [by destruct (Hc l v)|right]. by apply (settled_quiet _ _ u).
  - by apply stage_quiet.
  - intros v. by apply completing_quiet.
Qed.

Lemma unsettled_not_settling u : unsettled u -> forall l v, ~ settling l v u.
Proof.
  intros ([(_ & U1 & _) _] & [(_ & U2 & _) _] & _) l v [[s Hs] _ _ _ (st & G)].
  assert (exists b, stack u = Firing l b :: st) as [b Es] by (destruct G as [(E & _)|(E & _)]; by eexists).
  rewrite Es in *. destruct (sides l s Hs) as ([->| ->] & _); cbn in *; by rewrite ?decide_True in * by done.
Qed.

Lemma carries_fire_on u : deferred_ok u -> carries u (fire_on u).
Proof.
  intros H. destruct (complete_fire_on u H) as [C1 C2]. destruct H as [H D]. split.
  - by apply ok_fire_on.
  - by apply unsettled_fire_on.
  - intros l v. by apply decided_fire_on.
  - done.
  - done.
  - destruct (stack u) as [|[l b|k|a] st] eqn:Es; try (unfold fire_on; by rewrite Es).
    destruct (grows_fire_on l b st u H Es) as [_ (t & ->)]. intros Ht. apply elem_of_app. by left.
Qed.

Lemma decided_calm l v u : calm u -> decided l v u -> settled l v u.
Proof. intros Hc [G|S]; [by destruct (calm_not_settling u Hc l v)|done]. Qed.

Lemma carries_add l ks u : deferred_ok u -> calm u -> carries u (add_users l ks u).
Proof.
  intros H Hc. destruct (complete_add l ks u H Hc) as [C1 C2]. pose proof (calm_inner u H Hc) as Hi.
  destruct H as [H D]. split.
  - by apply ok_add_users.
  - intros (U1 & U2 & U3). split_and!; [by apply fresh_add..|unfold add_users; by rewrite state_add].
  - intros x v Dx. right. apply settled_add; [done..|]. by apply decided_calm.
  - done.
  - done.
  - rewrite log_add_users. intros Ht. apply elem_of_app. by left.
Qed.

Lemma carries_return b u : deferred_ok u -> calm u -> carries u (return_from b u).
Proof.
  intros [H D] Hc. assert (forall l, quiet l u (return_from b u)) as Q by (intros l; by apply quiet_return).
  split.
  - by apply ok_return.
  - apply unsettled_quiet; [done..|apply state_return].
  - intros l v Dx. right. apply (settled_quiet _ _ u); [done..|apply state_return|by apply decided_calm].
  - by apply stage_quiet.
  - intros v. by apply completing_quiet.
  - apply (Q Done).
Qed.

Lemma carries_throw k st u : deferred_ok u -> stack u = Body k :: st -> carries u (throw u).
Proof.
  intros H Es. destruct (complete_throw k st u H Es) as [C1 C2]. destruct H as [H D]. split.
  - by apply (ok_throw _ k st).
  - intros (U1 & U2 & U3). split_and!; [by apply (fresh_throw _ k st)..|done].
  - intros l v Dx. right. apply (settled_throw _ _ k st); [done..|]. apply decided_calm; [|done].
    unfold calm. by rewrite Es.
  - done.
  - done.
  - intros Ht. cbn. apply elem_of_app. by left.
Qed.

(** ** The life of a request *)
Definition text_of (v : value) : jsstr :=
  match v with Succeeded _ t | Failed t _ | Completed t => t end.

(** The side a request settles on, and what its functions are called with. *)
Definition fits (l : list_id) (v : value) r : Prop :=
  match l, v with
  | Done, Succeeded _ _ => is_success (status r) = true
  | Fail, Failed _ _ => True
  | _, _ => False
  end.

Definition only_completes (t : jsstr) (acts : list act) : Prop :=
  forall l v, FireList l v ∈ acts -> l = Complete /\ v = Completed t.

Inductive phase r : Prop :=
  | Waiting : completed r <> Some true -> unsettled (w r) -> stage_of Complete Fresh (w r) ->
      (forall l v, FireList l v ∉ acts_of (stack (w r))) -> phase r
  | Answered l v acts st : completed r = Some true -> fits l v r -> unsettled (w r) ->
      stage_of Complete Fresh (w r) -> stack (w r) = Ext (FireList l v :: acts) :: st ->
      FireList Complete (Completed (text_of v)) ∈ acts ->
      only_completes (text_of v) (acts ++ acts_of st) -> phase r
  | Handled l v : completed r = Some true -> fits l v r -> decided l v (w r) ->
      only_completes (text_of v) (acts_of (stack (w r))) ->
      (stage_of Complete Fresh (w r)
         /\ (FireList Complete (Completed (text_of v)) ∈ acts_of (stack (w r)) \/ Threw ∈ log (w r))
       \/ completing (Completed (text_of v)) (w r)) -> phase r.

Record request_ok r : Prop := {
  ro_deferred : deferred_ok (w r);
  ro_phase : phase r;
  ro_sends : sends_ok (completed r) (stack (w r));
}.

(** What a step that fires none of its lists may do. *)
Record follows r r' : Prop := {
  fo_carries : carries (w r) (w r');
  fo_completed : completed r' = Some true <-> completed r = Some true;
  fo_status : status r' = status r;
  fo_none : forall l v, FireList l v ∈ acts_of (stack (w r')) -> FireList l v ∈ acts_of (stack (w r));
  fo_all : forall v, FireList Complete v ∈ acts_of (stack (w r)) ->
    FireList Complete v ∈ acts_of (stack (w r')) \/ Threw ∈ log (w r');
}.

Definition not_firing r : Prop := forall l v acts st, stack (w r) <> Ext (FireList l v :: acts) :: st.

Lemma fits_status l v r r' : status r' = status r -> fits l v r -> fits l v r'.
Proof. unfold fits. by intros ->. Qed.

Lemma phase_follows r r' : follows r r' -> not_firing r -> phase r -> phase r'.
Proof.
  intros [C Ec Es Hn Ha] Hf [U1 U2 U3 U4|l v acts st U1 U2 U3 U4 U5|l v U1 U2 U3 U4 U5].
  - apply Waiting; [by intros ?%Ec|by apply C..|]. intros l v H. by apply (U4 l v), Hn.
  - by destruct (Hf l v acts st).
  - apply (Handled _ l v); [by apply Ec|by apply (fits_status _ _ r)|by apply C|intros x y H; by apply U4, Hn|].
    destruct U5 as [[F [H|H]]|H]; [left|left|right; by apply C].
    + split; [by apply C|]. by destruct (Ha _ H); [left|right].
    + split; [by apply C|right]. by apply (ca_threw _ _ C).
Qed.

Lemma ok_follows r r' : follows r r' -> not_firing r -> sends_ok (completed r') (stack (w r')) ->
  request_ok r -> request_ok r'.
Proof.
  intros F Hf Hs [D P _]. split; [by apply (carries_ok (w r)), D; apply F|by apply (phase_follows r)|done].
Qed.

(** Nothing but what runs has changed. *)
Lemma follows_grow r u st : carries (w r) u -> stack (w r) = st \/ (exists f, is_ext f = false /\ stack (w r) = f :: st) ->
  (exists pre, stack u = pre ++ st /\ Forall (λ f, is_ext f = false) pre) ->
  follows r (set_w u r) /\ acts_of (stack u) = acts_of (stack (w r)).
Proof.
  intros C Est (pre & Eu & Hp). assert (acts_of (stack u) = acts_of (stack (w r))) as Ea.
  { rewrite Eu, acts_app by done. destruct Est as [->|([l b|k|a] & Hx & ->)]; done. }
  split; [|done]. split; [done|done|done|cbn; by rewrite Ea|cbn; rewrite Ea; by left].
Qed.

(** ** While functions run *)
Lemma ok_fire_step l b st r : request_ok r -> stack (w r) = Firing l b :: st ->
  request_ok (set_w (fire_on (w r)) r).
Proof.
  intros H Es. pose proof (ro_sends r H) as Hs. destruct (ro_deferred r H) as [M _]. rewrite Es in Hs.
  destruct (grows_fire_on l b st (w r) M Es) as [(pre & Ep & Hp) _].
  destruct (follows_grow r (fire_on (w r)) st) as [F _];
    [by apply carries_fire_on, H|right; by exists (Firing l b)|by exists pre|].
  apply (ok_follows r); [done| | |done].
  - intros x v a st'. by rewrite Es.
  - cbn. rewrite Ep. apply sends_grow; [done|apply Hs].
Qed.

Lemma ok_add_step l ks r : request_ok r -> calm (w r) -> Forall below (stack (w r)) -> not_firing r ->
  request_ok (set_w (add_users l ks (w r)) r).
Proof.
  intros H Hc Hb Hf. destruct (gr_stack _ _ _ (grows_add_users l ks (w r))) as (pre & Ep & Hp).
  destruct (follows_grow r (add_users l ks (w r)) (stack (w r))) as [F _];
    [by apply carries_add; [apply H|]|by left|by exists pre|].
  apply (ok_follows r); [done..| |done]. cbn. rewrite Ep. by apply sends_grow.
Qed.

Lemma return_stack b k st u : stack u = Body k :: st -> stack (return_from b u) = st.
Proof. unfold return_from. intros ->. by destruct st as [|[]]. Qed.

Lemma ok_return_step b k st r : request_ok r -> stack (w r) = Body k :: st ->
  request_ok (set_w (return_from b (w r)) r).
Proof.
  intros H Es. pose proof (ro_sends r H) as Hs. rewrite Es in Hs. pose proof (return_stack b k st (w r) Es) as Er.
  assert (calm (w r)) as Hc by (unfold calm; by rewrite Es).
  destruct (follows_grow r (return_from b (w r)) st) as [F _];
    [by apply carries_return; [apply H|]|right; by exists (Body k)|by exists []|].
  apply (ok_follows r); [done| | |done].
  - intros x v a st'. by rewrite Es.
  - cbn. rewrite Er. apply below_ok, Hs.
Qed.

Lemma acts_unwind a st : a ∈ acts_of (unwind st) -> a ∈ acts_of st.
Proof. unfold acts_of. induction st as [|[l b|k|x] st IH]; cbn; [done|done|done|]. intros H. apply elem_of_app. by auto. Qed.

Lemma ok_throw_step k st r : request_ok r -> stack (w r) = Body k :: st ->
  request_ok (set_w (throw (w r)) r).
Proof.
  intros H Es. pose proof (ro_sends r H) as Hs. rewrite Es in Hs.
  assert (stack (throw (w r)) = unwind st) as Er by (cbn; by rewrite Es).
  apply (ok_follows r); [|intros x v a st'; by rewrite Es| |done].
  - split; [by apply (carries_throw k st); [apply H|]|done|done| |].
    + cbn [w set_w]. rewrite Er, Es. intros l v. apply (acts_unwind (FireList l v) st).
    + intros v _. right. cbn. apply elem_of_app. right. by left.
  - cbn [w set_w completed]. rewrite Er. by apply below_ok, below_unwind, Hs.
Qed.

(** ** What waits on top of the stack *)
Lemma ext_calm a st u : stack u = Ext a :: st -> calm u.
Proof. unfold calm. by intros ->. Qed.

Lemma carries_ext a st st' pre u : deferred_ok u -> stack u = Ext a :: st ->
  Forall (λ f, match f with Firing _ _ => False | _ => True end) pre -> st' = pre ++ st ->
  carries u (set_stack st' u).
Proof.
  intros H Es Hp ->. pose proof (ext_calm a st u Es) as Hc. pose proof (calm_inner u H Hc) as Hi.
  rewrite Es in Hi. apply Forall_cons in Hi as [_ Hi].
  apply carries_restack; [done|by apply calm_not_settling| | |].
  - intros l. rewrite Es. cbn. induction Hp as [|[l' b|k|x] pre Hx Hp IH]; cbn; done.
  - rewrite Es. cbn. induction Hp as [|[l' b|k|x] pre Hx Hp IH]; cbn; done.
  - apply forall_tail, Forall_app. split; [|done]. eapply Forall_impl; [exact Hp|]. by intros [].
Qed.

(** The act on top is taken off, and others may come in its place. *)
Lemma ok_ext_step acts acts' pre st r r' : request_ok r -> stack (w r) = Ext acts :: st -> not_firing r ->
  w r' = set_stack (pre ++ Ext acts' :: st) (w r) ->
  Forall (λ f, match f with Body _ => True | _ => False end) pre ->
  (forall l v, FireList l v ∈ acts' <-> FireList l v ∈ acts) ->
  (completed r' = Some true <-> completed r = Some true) -> status r' = status r ->
  (pre <> [] -> below (Ext acts')) -> foremost (completed r') (Ext acts') ->
  request_ok r'.
Proof.
  intros H Es Hf Ew Hp Ha Ec Et Hb Hm. pose proof (ro_sends r H) as Hs. rewrite Es in Hs.
  assert (acts_of (pre ++ Ext acts' :: st) = acts' ++ acts_of st) as Ea.
  { rewrite acts_app; [done|]. eapply Forall_impl; [exact Hp|]. by intros []. }
  apply (ok_follows r); [|done| |done].
  - split; [|done|done| |].
    + rewrite Ew. apply (carries_ext acts st _ (pre ++ [Ext acts'])); [apply H|done| |by rewrite <- app_assoc].
      apply Forall_app. split; [|by repeat constructor]. eapply Forall_impl; [exact Hp|]. by intros [].
    + intros l v. rewrite Ew. cbn [stack set_stack]. rewrite Ea, Es. change (acts_of (Ext acts :: st)) with (acts ++ acts_of st).
      rewrite !elem_of_app, Ha. done.
    + intros v Hv. left. rewrite Ew. cbn [stack set_stack]. rewrite Ea. rewrite Es in Hv.
      change (acts_of (Ext acts :: st)) with (acts ++ acts_of st) in Hv. rewrite elem_of_app, Ha in *. done.
  - rewrite Ew. cbn [stack set_stack]. destruct pre as [|f pre]; cbn.
    + split; [done|apply Hs].
    + inversion Hp as [|? ? Hx Hy]; subst. destruct f; try done. split; [done|]. apply Forall_app. split.
      * eapply Forall_impl; [exact Hy|]. by intros [].
      * constructor; [by apply Hb|apply Hs].
Qed.

(** A plan is given up. *)
Lemma ok_pop_step acts st r : request_ok r -> stack (w r) = Ext acts :: st ->
  (forall l v, FireList l v ∉ acts) ->
  request_ok (set_w (set_stack st (w r)) r) /\ Forall inner st /\ Forall below st.
Proof.
  intros H Es Hn. pose proof (ro_sends r H) as Hs. rewrite Es in Hs. destruct Hs as [_ Hs].
  pose proof (calm_inner (w r) (ro_deferred r H) (ext_calm acts st (w r) Es)) as Hi. rewrite Es in Hi.
  apply Forall_cons in Hi as [_ Hi]. split; [|done].
  apply (ok_follows r); [| | |done].
  - split; [by apply (carries_ext acts st st []); [apply H|..]|done|done| |]; cbn [w set_w stack set_stack].
    + rewrite Es. intros l v Hx. apply elem_of_app. by right.
    + rewrite Es. intros v [Hx|Hx]%elem_of_app; [by destruct (Hn Complete v)|by left].
  - intros l v a st'. rewrite Es. intros [= -> ->]. destruct (Hn l v). by left.
  - by apply below_ok.
Qed.

(** ** The answer *)
Lemma outcome_fits st z native ct resp l v text : outcome convert st z native ct resp = (l, v, text) ->
  text_of v = text /\ match l, v with
                     | Done, Succeeded _ _ => is_success z = true
                     | Fail, Failed _ _ => True
                     | _, _ => False
                     end.
Proof.
  unfold outcome. set (p := match resp with [] => _ | _ => _ end). destruct p as [d types].
  destruct (is_success z) eqn:Hz; [|by intros [= <- <- <-]].
  repeat case_match; by intros [= <- <- <-].
Qed.

Lemma ok_done z native ct resp r : request_ok r -> Forall inner (stack (w r)) -> Forall below (stack (w r)) ->
  request_ok (done_ convert z native ct resp r).
Proof.
  intros H Hi Hb. unfold done_. destruct (decide (completed r = Some true)) as [Ec|Ec]; [by rewrite Ec|].
  destruct (match completed r with Some true => true | _ => false end) eqn:E;
    [by destruct (completed r) as [[]|]|]. clear E.
  destruct (outcome convert (settings r) z native ct resp) as [[l v] text] eqn:Eo.
  destruct (outcome_fits _ _ _ _ _ _ _ _ Eo) as [Ht Hf].
  set (z' := if is_success z then z else if z <? 0 then 0 else z). cbn zeta.
  destruct H as [D P S]. destruct P as [U1 U2 U3 U4|? ? ? ? U1|? ? U1]; try done.
  set (acts := [InstallOn Done _; _; _; _]).
  assert (carries (w r) (push_frame (Ext (FireList l v :: acts)) (w r))) as C.
  { by apply carries_restack; [|apply unsettled_not_settling|..]. }
  split; cbn [push_acts w set_w].
  - by apply (carries_ok (w r)).
  - apply (Answered _ l v acts (stack (w r))); [done| |by apply C|by apply C|done| |].
    + unfold fits. cbn [status push_acts set_w set_codes set_status]. unfold z'.
      destruct l, v; try done. by rewrite Hf.
    + rewrite Ht. by right; right; left.
    + rewrite Ht. intros x y [Hx|Hx]%elem_of_app; [|by destruct (U4 x y)].
      repeat (apply elem_of_cons in Hx as [Hx|Hx]; [try done; by injection Hx as -> ->|]). by apply elem_of_nil in Hx.
  - split; [|done]. split.
    + intros Hx. repeat (apply elem_of_cons in Hx as [Hx|Hx]; [done|]). by apply elem_of_nil in Hx.
    + split_and!; [|by repeat first [constructor|by left|by right; left]|left; by repeat constructor]. cbn. intros Hx.
      repeat (apply elem_of_cons in Hx as [Hx|Hx]; [done|]). by apply elem_of_nil in Hx.
Qed.

(** ** The lists are fired *)
Lemma fire_starts l v u : stage_of l Fresh u -> frame_of l (stack (do_fireWith l v u)) = Some true.
Proof. intros F. by destruct (fire_own l Fresh v u F) as (_ & -> & _). Qed.

Lemma fire_completes l x v u : stage_of Complete Fresh u -> l = Complete -> v = Completed x ->
  completing (Completed x) (do_fireWith l v u).
Proof. intros F -> ->. exists (Starting (Completed x)). by split; [apply (fire_own Complete Fresh)|]. Qed.

Lemma fire_again x v u : completing x u -> completing x (do_fireWith Complete v u).
Proof.
  intros (st & S1 & S2). exists (after_fire v st). split; [by apply fire_own|].
  assert (log (do_fireWith Complete v u) = log u) as -> by (unfold do_fireWith; by destruct (fireWith _ _) as [? []]).
  by destruct st.
Qed.

Lemma fire_side l v u : machine_ok u -> side l -> unsettled u -> decided l v (do_fireWith l v u).
Proof.
  intros M Hl U. left. assert (public l = true) as Hp by (by destruct Hl as [->| ->]).
  destruct (fires l v u M Hp) as [F _]. destruct (F U) as [U'|G]; [|done].
  assert (stage_of l Fresh u) as F1 by (destruct U as ([? _] & [? _] & _); by destruct Hl as [->| ->]).
  pose proof (fire_starts l v u F1) as E. destruct U' as ([(_ & U1 & _) _] & [(_ & U2 & _) _] & _).
  destruct Hl as [->| ->]; congruence.
Qed.

Lemma settled_fire_complete l x v u : settled l v u -> settled l v (do_fireWith Complete x u).
Proof. intros S. apply (settled_quiet _ _ u); [by apply quiet_fireWith..|apply state_fireWith|done]. Qed.

Lemma fits_side l v r : fits l v r -> side l.
Proof. destruct l; try done; intros _; [by left|by right]. Qed.

(** The plan of [done] sends nothing. *)
Lemma fire_sends l v acts st r : request_ok r -> stack (w r) = Ext (FireList l v :: acts) :: st ->
  completed r = Some true /\ below (Ext acts) /\ Forall below st.
Proof.
  intros H Es. pose proof (ro_sends r H) as Hs. rewrite Es in Hs. destruct Hs as [[Hs Hp] Hb].
  assert (completed r = Some true) as Ec.
  { destruct (ro_phase r H) as [? ? ? U4|? ? ? ? U|? ? U]; [|done..]. destruct (U4 l v). rewrite Es. by left. }
  split; [done|]. split; [|done]. split; [|by apply plan_tail in Hp].
  intros Hin. exfalso. destruct Hs as [?|[[=]|(b & [=])]]; [by right|done].
Qed.

Lemma ok_fire_list l v acts st r : request_ok r -> stack (w r) = Ext (FireList l v :: acts) :: st ->
  request_ok (set_w (do_fireWith l v (set_stack (Ext acts :: st) (w r))) r).
Proof.
  intros H Es. destruct (fire_sends l v acts st r H Es) as (Ec & Hb & Hb').
  assert (carries (w r) (set_stack (Ext acts :: st) (w r))) as C
    by (by apply (carries_ext (FireList l v :: acts) st _ [Ext acts]); [apply H| |repeat constructor|]).
  pose proof (ext_calm _ _ (w r) Es) as Hc. pose proof (calm_inner _ (ro_deferred r H) Hc) as Hi.
  rewrite Es in Hi. apply Forall_cons in Hi as [_ Hi].
  set (u1 := set_stack (Ext acts :: st) (w r)) in *. pose proof (ca_ok _ _ C) as M1.
  assert (Forall inner (stack u1)) as Hi1 by (by constructor).
  destruct (gr_stack _ _ _ (grows_fireWith l v u1)) as (pre & Ep & Hp).
  assert (acts_of (stack (do_fireWith l v u1)) = acts ++ acts_of st) as Ea by (rewrite Ep; by apply acts_app).
  assert (machine_ok (do_fireWith l v u1)) as M2 by (by apply ok_fireWith).
  assert (sends_ok (completed r) (stack (do_fireWith l v u1))) as S2.
  { rewrite Ep. apply sends_grow; [done|]. by constructor. }
  destruct (ro_phase r H) as [? ? ? ?|l0 v0 acts0 st0 U1 U2 U3 U4 U5 U6 U7|l0 v0 U1 U2 U3 U4 U5]; [done| |].
  - rewrite Es in U5. injection U5 as <- <- <- <-. pose proof (fits_side l v r U2) as Hl.
    assert (decided l v (do_fireWith l v u1)) as D by (apply fire_side; [done..|by apply C]).
    split; [split; [done|right; by exists l, v]| |done].
    apply (Handled _ l v); [done|done|done|by cbn [w set_w]; rewrite Ea|left]. split.
    + apply (stage_quiet _ _ u1); [apply quiet_fireWith; by destruct Hl as [->| ->]|by apply C].
    + left. cbn [w set_w]. rewrite Ea. apply elem_of_app. by left.
  - assert (FireList l v ∈ acts_of (stack (w r))) as Hin by (rewrite Es; by left).
    destruct (U4 l v Hin) as [-> ->]. assert (settled l0 v0 u1) as S1 by (apply decided_calm; [done|by apply C]).
    pose proof (settled_fire_complete l0 (Completed (text_of v0)) v0 u1 S1) as S3.
    split; [split; [done|right; exists l0, v0; by right]| |done].
    apply (Handled _ l0 v0); [done|done|by right| |right].
    + cbn [w set_w]. rewrite Ea. intros x y Hx. apply U4. rewrite Es. by right.
    + cbn [w set_w]. destruct U5 as [[F _]|G]; [apply fire_completes; [by apply C|done..]|].
      apply fire_again. by apply C.
Qed.

(** ** Every act *)
Lemma foremost_tail c a acts : foremost c (Ext (a :: acts)) -> a <> BeforeSent -> (forall b, a <> CheckSend b) ->
  foremost c (Ext acts).
Proof.
  intros [H P] Ha Hb. split; [|by apply plan_tail in P]. intros Hs. left.
  destruct H as [?|[[= ->]|(b & [= ->])]]; [by right|done|done|by destruct (Hb b)].
Qed.

Lemma fire_skip a acts l v : is_fire a = false -> FireList l v ∈ acts <-> FireList l v ∈ a :: acts.
Proof. intros Ha. rewrite elem_of_cons. split; [by right|]. by intros [<-|]. Qed.

Lemma ok_install l ks acts st r : request_ok r -> stack (w r) = Ext (InstallOn l ks :: acts) :: st ->
  request_ok (set_w (add_users l ks (set_stack (Ext acts :: st) (w r))) r).
Proof.
  intros H Es. pose proof (ro_sends r H) as Hs. rewrite Es in Hs. destruct Hs as [Hs Hb].
  assert (carries (w r) (set_stack (Ext acts :: st) (w r))) as C
    by (by apply (carries_ext (InstallOn l ks :: acts) st _ [Ext acts]); [apply H| |repeat constructor|]).
  set (u1 := set_stack (Ext acts :: st) (w r)) in *.
  assert (carries u1 (add_users l ks u1)) as C2 by (apply carries_add; [by apply (carries_ok (w r)), H|done]).
  destruct (gr_stack _ _ _ (grows_add_users l ks u1)) as (pre & Ep & Hp).
  assert (acts_of (stack (add_users l ks u1)) = acts ++ acts_of st) as Ea by (rewrite Ep; by apply acts_app).
  apply (ok_follows r); [|intros x v a st'; by rewrite Es| |done].
  - split; [by transitivity u1|done|done| |]; cbn [w set_w]; rewrite Ea, Es.
    + intros x v Hx. by right.
    + intros v Hx. left. by apply elem_of_cons in Hx as [Hx|Hx].
  - cbn [w set_w completed]. pose proof (foremost_tail _ _ _ Hs ltac:(done) ltac:(done)) as Hm.
    destruct (ro_phase r H) as [U1 U2 U3 U4|? ? ? ? U1|? ? U1].
    2,3: rewrite Ep; apply sends_grow; [done|]; constructor; [|done];
      split; [|apply Hm]; intros Hin; destruct (proj1 Hs) as [?|[[=]|(b & [=])]]; [by right|done].
    assert (stage_of l Fresh u1) as F.
    { destruct Hs as (_ & _ & I & _). apply Forall_cons in I as [I _].
      pose proof (ca_fresh _ _ C U3). destruct (ca_unsettled _ _ C U2) as ([? _] & [? _] & _).
      by destruct I as [->|[->| ->]]. }
    rewrite (fresh_add_stack l ks u1 F). by split.
Qed.

Lemma request_same r r' : w r' = w r -> completed r' = completed r -> status r' = status r ->
  request_ok r -> request_ok r'.
Proof.
  intros Ew Ec Et [D P S]. split; [by rewrite Ew| |by rewrite Ew, Ec].
  destruct P as [|l v acts st|l v].
  - apply Waiting; by rewrite ?Ew, ?Ec.
  - apply (Answered _ l v acts st); rewrite ?Ew, ?Ec; try done. by apply (fits_status _ _ r).
  - apply (Handled _ l v); rewrite ?Ew, ?Ec; try done. by apply (fits_status _ _ r).
Qed.

Lemma ok_abort text r : request_ok r -> Forall inner (stack (w r)) -> Forall below (stack (w r)) ->
  request_ok (abort convert text r).
Proof.
  intros H Hi Hb. unfold abort. apply ok_done; destruct (transport r); try done. by apply (request_same r).
Qed.

Lemma ok_act_on r : request_ok r -> request_ok (act_on convert r).
Proof.
  intros H. unfold act_on. destruct (stack (w r)) as [|[l b|k|acts] st] eqn:Es; try done.
  pose proof (ro_sends r H) as Hs. rewrite Es in Hs. destruct Hs as [Hs Hb].
  destruct acts as [|a acts].
  { destruct (ok_pop_step [] st r H Es) as [H1 _]; [|done]. intros l v Hx. by apply elem_of_nil in Hx. }
  assert (forall l v x acts' st', is_fire a = false -> stack (w r) = Ext (FireList l v :: acts') :: st' -> x) as Hx
    by (intros l v x acts' st' Ha; rewrite Es; by intros [= -> _ _]).
  assert (forall r', is_fire a = false -> w r' = set_stack (Ext acts :: st) (w r) -> status r' = status r ->
    (completed r' = Some true <-> completed r = Some true) -> foremost (completed r') (Ext acts) ->
    request_ok r') as Hgo.
  { intros r' Ha Ew Et Ec Hm. apply (ok_ext_step (a :: acts) acts [] st r); try done.
    - intros l v acts' st' E. by apply (Hx l v False acts' st').
    - intros l v. by apply fire_skip. }
  destruct a as [| |b|l ks| | |l v|]; cbn zeta.
  - destruct (s_beforeSend (settings r)) as [k|] eqn:Ek.
    + replace (s_beforeSend _) with (Some k). pose proof (plan_replace BeforeSend BeforeSent acts eq_refl eq_refl (proj2 Hs)) as Hp.
      apply (ok_ext_step (BeforeSend :: acts) (BeforeSent :: acts) [Body k] st r); try done.
      * intros l v acts' st' E. by apply (Hx l v False acts' st').
      * by repeat constructor.
      * intros l v. by rewrite <- !fire_skip.
      * split; [|done]. intros _. right. by left.
    + replace (s_beforeSend _) with (@None nat). apply Hgo; try done. by apply (foremost_tail _ BeforeSend).
  - done.
  - destruct (b || _) eqn:E.
    + destruct (ok_pop_step _ st r H Es) as (H1 & H2 & H3); [by intros l v; apply plan_no_fire, Hs|].
      by apply ok_abort.
    + apply Hgo; try done. split; [|apply (plan_tail (CheckSend b)), Hs]. intros _. left. cbn in *.
      apply orb_false_iff in E as [_ E]. destruct (completed r) as [[]|]; congruence.
  - by apply (request_same _ _ eq_refl eq_refl eq_refl (ok_install l ks acts st r H Es)).
  - apply Hgo; try done. by apply (foremost_tail _ SetTimer).
  - pose proof (plan_end acts (proj2 Hs)) as ->. apply Hgo; try done.
    + cbn. split; [done|]. intros Ec. exfalso. destruct (proj1 Hs) as [?|[[=]|(x & [=])]]; [by left|done].
    + split; [|by apply (plan_tail Send), Hs]. intros Hin. by apply elem_of_nil in Hin.
  - by apply (request_same _ _ eq_refl eq_refl eq_refl (ok_fire_list l v acts st r H Es)).
  - apply Hgo; try done. by apply (foremost_tail _ CountDown).
Qed.

(** ** Every step *)
Definition quiet_top r : Prop := match stack (w r) with Firing _ _ :: _ | Ext _ :: _ => False | _ => True end.

Lemma quiet_top_facts r : quiet_top r -> request_ok r ->
  calm (w r) /\ Forall inner (stack (w r)) /\ Forall below (stack (w r)) /\ not_firing r.
Proof.
  unfold quiet_top. intros Hq H. assert (calm (w r)) as Hc by (unfold calm; by destruct (stack (w r)) as [|[] ?]).
  split_and!; [done|by apply calm_inner; [apply H|]| |].
  - apply (sends_under (completed r)); [apply H|]. intros acts st E. by rewrite E in Hq.
  - intros l v a st E. by rewrite E in Hq.
Qed.

Lemma ok_push_acts acts r : request_ok r -> quiet_top r -> plan_ok acts -> Send ∉ acts ->
  (forall l v, FireList l v ∉ acts) -> request_ok (push_acts acts r).
Proof.
  intros H Hq Hp Hs Hn. destruct (quiet_top_facts r Hq H) as (Hc & Hi & Hb & Hf).
  apply (ok_follows r); [|done| |done].
  - split; [|done|done| |]; cbn [w push_acts set_w push_frame set_stack stack].
    + by apply carries_restack; [apply H|apply calm_not_settling|..].
    + intros l v [Hx|Hx]%elem_of_app; [by destruct (Hn l v)|done].
    + intros v Hx. left. apply elem_of_app. by right.
  - split; [|done]. by split.
Qed.

Lemma ok_before_sent b k acts st r : request_ok r -> stack (w r) = Body k :: Ext (BeforeSent :: acts) :: st ->
  request_ok (set_w (set_stack (Ext (CheckSend b :: acts) :: st) (w r)) r).
Proof.
  intros H Es. assert (quiet_top r) as Hq by (unfold quiet_top; by rewrite Es).
  destruct (quiet_top_facts r Hq H) as (Hc & Hi & Hb & Hf). rewrite Es in Hi, Hb.
  apply Forall_cons in Hb as [_ Hb]. apply Forall_cons in Hb as [[_ Hp] Hb].
  apply Forall_cons in Hi as [_ Hi]. apply Forall_cons in Hi as [_ Hi].
  apply (ok_follows r); [|done| |done].
  - split; [|done|done| |]; cbn [w set_w stack set_stack].
    + apply carries_restack; [apply H|by apply calm_not_settling|by rewrite Es..|done].
    + rewrite Es. intros l v [Hx|Hx]%elem_of_cons; [done|by right].
    + rewrite Es. intros v Hx. left. apply elem_of_cons in Hx as [Hx|Hx]; [done|by right].
  - split; [|done]. split; [intros _; right; right; by exists b|].
    by apply (plan_replace BeforeSent).
Qed.

Lemma ok_step_ajax e r : request_ok r -> request_ok (step_ajax convert e r).
Proof.
  intros H. unfold step_ajax. destruct (stack (w r)) as [|[l b|k|acts] st] eqn:Es.
  2:{ by apply (ok_fire_step l b st). }
  3:{ destruct acts as [|[] acts]; try by apply ok_act_on.
      destruct e; try by apply ok_act_on.
      pose proof (ok_act_on r H) as H1. pose proof (ro_sends r H) as Hs. rewrite Es in Hs.
      pose proof (plan_end acts (proj2 (proj1 Hs))) as ->.
      pose proof (calm_inner _ (ro_deferred r H) (ext_calm _ _ _ Es)) as Hi. rewrite Es in Hi.
      apply Forall_cons in Hi as [_ Hi].
      assert (stack (w (act_on convert r)) = Ext [] :: st) as E1 by (unfold act_on; by rewrite Es).
      apply ok_done; [done|rewrite E1; by constructor|]. rewrite E1. constructor; [|apply Hs].
      split; [intros Hx; by apply elem_of_nil in Hx|by apply (plan_tail Send), Hs]. }
  all: assert (quiet_top r) as Hq by (unfold quiet_top; by rewrite Es);
    destruct (quiet_top_facts r Hq H) as (Hc & Hi & Hb & Hf).
  all: assert (forall m, request_ok (push_acts [InstallOn Done m; InstallOn Fail m] r)) as Hpush
    by (intros m; apply ok_push_acts; [done|done| |..];
        [split_and!; [|by repeat first [constructor|by left|by right; left]|left; by repeat constructor]|..];
        intros; rewrite ?elem_of_cons, ?elem_of_nil; cbn; rewrite ?elem_of_cons, ?elem_of_nil; intuition discriminate).
  - destruct e as [i|text|m|er|z text ct u b|z text|]; try done.
    + destruct i; try done. destruct (public l); [by apply ok_add_step|done].
    + by apply ok_abort.
    + destruct (completed r) as [[]|]; [apply Hpush|by apply (request_same r)..].
    + destruct (callback r); [|done]. unfold on_load. cbn zeta.
      destruct (session_ended _ _); [by apply (request_same r)|]. apply ok_done; [by apply (request_same r)|done..].
    + destruct (callback r); [|done]. apply ok_done; [by apply (request_same r)|done..].
    + destruct (timer r); [|done]. apply ok_abort; [by apply (request_same r)|done..].
  - destruct e as [i|text|m|er|z text ct u b|z text|]; try done.
    + destruct i as [l ks|l v|b| |]; try done.
      * destruct (public l); [by apply ok_add_step|done].
      * destruct st as [|[l b'|k'|[|[] acts]] st]; try by apply (ok_return_step b k _ r H Es).
        by apply (ok_before_sent b k).
      * by apply (ok_throw_step k st).
    + by apply ok_abort.
    + destruct (completed r) as [[]|]; [apply Hpush|by apply (request_same r)..].
Qed.

Lemma ok_ajax st : request_ok (ajax st).
Proof.
  pose proof (deferred_fresh_ok (V:=value) (A:=list act)) as H. assert (unsettled (V:=value) (A:=list act) fresh_world) as U.
  { split_and!; [..|done]; (split; [|by exists []]); (split; [done|]); split_and!; try done; by eexists. }
  set (acts := [BeforeSend; InstallOn Complete (s_complete st); InstallOn Done (s_success st);
                InstallOn Fail (s_error st); SetTimer; Send]).
  assert (carries fresh_world (set_stack [Ext acts] fresh_world)) as C
    by (by apply carries_restack; [|apply unsettled_not_settling|..]).
  split.
  - by apply (carries_ok fresh_world).
  - apply Waiting; [done|by apply C| |].
    + apply (ca_fresh _ _ C). split; [done|]. split_and!; try done. by exists [].
    + intros l v. cbn. rewrite !elem_of_cons, elem_of_nil. intuition discriminate.
  - split; [|done]. split; [by left|]. split_and!.
    + cbn. rewrite !elem_of_cons, elem_of_nil. intuition discriminate.
    + repeat (apply Forall_cons_2; [cbn; tauto|]). by apply Forall_nil_2.
    + right. by repeat constructor.
Qed.

Lemma ok_run_ajax st es : request_ok (run_ajax convert st es).
Proof.
  unfold run_ajax. pose proof (ok_ajax st) as H. revert H. generalize (ajax st).
  induction es as [|e es IH]; intros r H; [done|]. cbn. by apply IH, ok_step_ajax.
Qed.

(** ** What is called *)
Lemma fresh_calls l u : stage_of l Fresh u -> calls_of l (log u) = [].
Proof. by intros (_ & _ & _ & _ & _ & _ & _ & E & _). Qed.

Lemma unsettled_calls l u : side l -> unsettled u -> calls_of l (log u) = [].
Proof. intros Hl ([F1 _] & [F2 _] & _). apply fresh_calls. by destruct Hl as [->| ->]. Qed.

Definition called_by (l : list_id) (v : value) u (n : nat) : Prop :=
  calls_of l (log u) = map (λ k, (k, v)) (take n (regs_of l (log u))).

Lemma called_all (v : value) rg cl rest : called_with v rg cl rest -> rest = [] -> cl = map (λ k, (k, v)) rg.
Proof.
  intros C ->. rewrite (called_prefix _ _ _ _ C). destruct C as [-> _]. rewrite app_nil_r.
  rewrite take_ge; [done|]. by rewrite length_fmap.
Qed.

Lemma side_called l v u : decided l v u ->
  (exists n, called_by l v u n) /\ calls_of (other l) (log u) = []
  /\ (stack u = [] -> Threw ∉ log u -> calls_of l (log u) = map (λ k, (k, v)) (regs_of l (log u))).
Proof.
  intros [G|S].
  - pose proof (sg_calls _ _ _ G) as E. split_and!.
    + exists O. unfold called_by. by rewrite E.
    + apply fresh_calls, (sg_other _ _ _ G).
    + intros Es. destruct (not_settling l v u G) as (b & st & E'). congruence.
  - destruct (settled_called l v u S) as (rest & C & Hr). split_and!.
    + eexists. by apply (called_prefix _ _ _ rest).
    + by destruct (se_other _ _ _ S) as (_ & _ & _ & _ & _ & _ & E).
    + intros E1 E2. by apply (called_all _ _ _ rest), Hr.
Qed.

Lemma completing_called v u : completing v u ->
  (exists n, called_by Complete v u n)
  /\ (stack u = [] -> Threw ∉ log u -> calls_of Complete (log u) = map (λ k, (k, v)) (regs_of Complete (log u))).
Proof.
  intros (st & (_ & S) & Hs). destruct st as [| |x|x|x|x|x]; try done; cbn in Hs.
  - subst x. destruct S as (E & _ & _ & _ & _ & ms & _ & C). split; [eexists; by apply (called_prefix _ _ _ _ C)|].
    intros Es. by rewrite Es in E.
  - subst x. destruct S as (E & _ & _ & _ & _ & _ & ms & _ & _ & C). split; [eexists; by apply (called_prefix _ _ _ _ C)|].
    intros Es. by rewrite Es in E.
  - subst x. destruct S as (E & _ & _ & _ & _ & _ & C). split; [eexists; by apply (called_prefix _ _ _ _ C)|].
    intros Es. by rewrite Es in E.
  - subst x. destruct S as (E & _ & _ & _ & _ & _ & _ & C). split; [eexists; by apply (called_prefix _ _ _ _ C)|].
    intros _ _. by apply (called_all _ _ _ []).
  - destruct Hs as [-> Ht]. destruct S as (_ & _ & _ & _ & rest & C). split; [eexists; by apply (called_prefix _ _ _ _ C)|].
    by intros _.
Qed.

Lemma waiting_calls r l : request_ok r -> completed r <> Some true -> side l \/ l = Complete ->
  calls_of l (log (w r)) = [].
Proof.
  intros [_ P _] Hc Hl. destruct P as [_ U F _|? ? ? ? U1|? ? U1]; [|done..].
  destruct Hl as [Hl| ->]; [by apply unsettled_calls|by apply fresh_calls].
Qed.

Lemma completed_calls r : request_ok r -> completed r = Some true ->
  exists l v m n, fits l v r
      /\ calls_of (other l) (log (w r)) = []
      /\ called_by l v (w r) m
      /\ called_by Complete (Completed (text_of v)) (w r) n
      /\ (stack (w r) = [] -> Threw ∉ log (w r) ->
          calls_of l (log (w r)) = map (λ k, (k, v)) (regs_of l (log (w r)))
          /\ calls_of Complete (log (w r))
             = map (λ k, (k, Completed (text_of v))) (regs_of Complete (log (w r)))).
Proof.
  intros H Hc. destruct H as [D P S]. destruct P as [?|l v acts st' U1 U2 U3 U4 U5|l v U1 U2 U3 U4 U5]; [done| |].
  - pose proof (fits_side l v r U2) as Hl. pose proof (unsettled_calls l (w r) Hl U3) as E1.
    assert (side (other l)) as Hl' by (destruct Hl as [->| ->]; [by right|by left]).
    exists l, v, O, O. split_and!; [done|by apply unsettled_calls|by unfold called_by; rewrite E1| |].
    + unfold called_by. by rewrite (fresh_calls Complete).
    + intros Es. congruence.
  - destruct (side_called l v (w r) U3) as ((m & C1) & C2 & C3). destruct U5 as [[F G]|G].
    + exists l, v, m, O. split_and!; [done..| |].
      * unfold called_by. by rewrite (fresh_calls Complete).
      * intros Es Ht. rewrite Es in G. destruct G as [G|G]; [by apply elem_of_nil in G|done].
    + destruct (completing_called _ _ G) as ((n & C4) & C5). exists l, v, m, n. split_and!; [done..|]. auto.
Qed.

(** C9: what a request promises, whatever its functions do and whatever the browser
    reports.  Until it has completed it calls no function.  Then there is one side,
    success only for a status that means success, and one value: functions of the
    other side are never called, those of this side and those of completion are
    called in the order they were added, each once, with the value and its text;
    and when nothing runs and no function has thrown, none is left out. *)
Theorem request_functions st es :
  let r := run_ajax convert st es in
  (completed r <> Some true -> forall l, side l \/ l = Complete -> calls_of l (log (w r)) = [])
  /\ (completed r = Some true -> exists l v m n, fits l v r
      /\ calls_of (other l) (log (w r)) = []
      /\ called_by l v (w r) m
      /\ called_by Complete (Completed (text_of v)) (w r) n
      /\ (stack (w r) = [] -> Threw ∉ log (w r) ->
          calls_of l (log (w r)) = map (λ k, (k, v)) (regs_of l (log (w r)))
          /\ calls_of Complete (log (w r))
             = map (λ k, (k, Completed (text_of v))) (regs_of Complete (log (w r))))).
Proof.
  intros r. pose proof (ok_run_ajax st es : request_ok r) as H. split.
  - intros Hc l Hl. by apply waiting_calls.
  - by apply completed_calls.
Qed.

(** ** The end of a session *)
Record left_page (n : Z) r : Prop := {
  le_ok : request_ok r;
  le_stack : Forall (λ f, is_ext f = false) (stack (w r));
  le_completed : completed r = Some false;
  le_callback : callback r = false;
  le_active : active r = n;
  le_location : location r = Some (js "/");
}.

Definition gives_up (e : event) : bool := match e with Cancel _ | TimeOut => true | _ => false end.

Lemma left_stack u n r : request_ok (set_w u r) -> left_page n r -> Forall (λ f, is_ext f = false) (stack u) ->
  left_page n (set_w u r).
Proof. intros H [] Hs. by split. Qed.

Lemma left_step e n r : gives_up e = false -> left_page n r -> left_page n (step_ajax convert e r).
Proof.
  intros He L. pose proof (ok_step_ajax e r (le_ok n r L)) as H'. pose proof (le_stack n r L) as Hs.
  unfold step_ajax in *. destruct (stack (w r)) as [|[l b|k|a] st] eqn:Es.
  - destruct e as [i|text|m|er|z text ct u b|z text|]; try done.
    + destruct i; try done. destruct (public l); [|done]. apply left_stack; [done..|].
      destruct (gr_stack _ _ _ (grows_add_users l ks (w r))) as (pre & -> & Hp). rewrite Es. by apply Forall_app.
    + rewrite (le_completed n r L) in *. destruct L. by split.
    + by rewrite (le_callback n r L) in *.
    + by rewrite (le_callback n r L) in *.
  - apply left_stack; [done..|]. destruct (ro_deferred r (le_ok n r L)) as [M _].
    destruct (grows_fire_on l b st (w r) M Es) as [(pre & -> & Hp) _]. apply Forall_app.
    split; [done|]. by apply Forall_cons in Hs as [_ Hs].
  - apply Forall_cons in Hs as [_ Hs]. destruct e as [i|text|m|er|z text ct u b|z text|]; try done.
    + destruct i as [l ks|l v|b| |]; try done.
      * destruct (public l); [|done]. apply left_stack; [done..|].
        destruct (gr_stack _ _ _ (grows_add_users l ks (w r))) as (pre & -> & Hp). rewrite Es.
        apply Forall_app. split; [done|by constructor].
      * assert (left_page n (set_w (return_from b (w r)) r)) as Lr.
        { apply left_stack; [by apply (ok_return_step b k st r); [apply L|]|done|].
          by rewrite (return_stack b k st). }
        destruct st as [|[| |[|[] ?]] st]; try done. by apply Forall_cons in Hs as [? _].
      * apply left_stack; [done..|]. cbn. rewrite Es. cbn. clear -Hs. induction Hs as [|[] st Hx Hy IH]; cbn; try done.
        by constructor.
    + rewrite (le_completed n r L) in *. destruct L. by split.
  - by apply Forall_cons in Hs as [? _].
Qed.

(** C11: when a page is loaded after the session has ended, and the answer is the page
    of the login, the browser is sent to the front page, and the request stays
    unanswered: unless it is cancelled or runs out of time, none of its functions is
    called, not even those of completion, and it is counted as running for ever. *)
Theorem session_over st es z text ct responseURL body es' :
  let r := run_ajax convert st es in
  stack (w r) = [] -> callback r = true -> completed r = Some false ->
  session_ended (s_url (settings r)) responseURL = true -> Forall (λ e, gives_up e = false) es' ->
  let r' := run_ajax convert st (es ++ Load z text ct responseURL body :: es') in
  location r' = Some (js "/") /\ completed r' = Some false /\ active r' = active r
  /\ forall l, side l \/ l = Complete -> calls_of l (log (w r')) = [].
Proof.
  intros r Hs Hb Hc Hu He r'. assert (left_page (active r) r') as L.
  { unfold r', run_ajax. rewrite foldl_app. cbn [foldl]. change (foldl _ (ajax st) es) with r.
    assert (left_page (active r) (step_ajax convert (Load z text ct responseURL body) r)) as L.
    { assert (request_ok (step_ajax convert (Load z text ct responseURL body) r)) as H
        by apply ok_step_ajax, ok_run_ajax.
      unfold step_ajax, on_load in *. rewrite Hs, Hb in *. cbn zeta in *. cbn [settings set_transport] in *.
      rewrite Hu in *. split; try done. cbn. by rewrite Hs. }
    revert L. generalize (step_ajax convert (Load z text ct responseURL body) r).
    induction He as [|e es' He Hes IH]; intros r0 L; [done|]. cbn. by apply IH, left_step. }
  split_and!; [by destruct L..|]. intros l Hl. apply waiting_calls; [apply L| |done]. by rewrite (le_completed _ _ L).
Qed.
End Promise.

(** A page asked for as HTML: the first function adds another while it runs, then
    the functions of completion are called. *)
Definition example_settings : ajax_settings :=
  mkSettings (js "/mod/users.html") false [js "html"] None 0 (Some 9%nat) [1]%nat [2]%nat [3; 4]%nat [].

Definition no_convert (a b : jsstr) (d : data) : data + jsstr := inl d.

Definition go : event := Does Go.

(** [go] does nothing while a function runs. *)
Definition turns : list event := repeat go 20.

Definition example_sent : list event :=
  turns ++ [Does (AddTo Done [5]%nat); Does (Return false)] ++ turns.

Definition example_loaded (responseURL : jsstr) : event :=
  Load 200 (js "OK") (Some (js "text/html")) responseURL (DText (js "<p>")).

Definition example_events : list event :=
  example_sent ++ [example_loaded (js "http://h/mod/users.html")] ++ turns
  ++ [Does (AddTo Done [6]%nat)] ++ mjoin (repeat (Does (Return false) :: turns) 5).

Lemma request_functions_witness :
  let r := run_ajax no_convert example_settings example_events in
  completed r = Some true
  /\ calls_of Done (log (w r)) = map (λ k, (k, Succeeded (DText (js "<p>")) (js "success"))) [5; 1; 6]%nat
  /\ calls_of Fail (log (w r)) = []
  /\ calls_of Complete (log (w r)) = map (λ k, (k, Completed (js "success"))) [3; 4]%nat.
Proof.
  destruct (request_functions no_convert example_settings example_events) as [_ H].
  destruct (H ltac:(vm_compute; reflexivity)) as (l & v & m & n & Hf & Ho & Hm & Hn & He).
  destruct He as [E1 E2]; [vm_compute; reflexivity| |].
  { intros Ht. vm_compute in Ht. repeat (apply elem_of_cons in Ht as [Ht|Ht]; [discriminate|]). by apply elem_of_nil in Ht. }
  split; [vm_compute; reflexivity|]. split; [vm_compute; reflexivity|]. split; vm_compute; reflexivity.
Defined.

Lemma session_over_witness :
  let r := run_ajax no_convert example_settings
             (example_sent ++ example_loaded (js "http://h/login.html") :: [Does (AddTo Fail [7]%nat); go]) in
  location r = Some (js "/") /\ completed r = Some false /\ active r = 1
  /\ calls_of Complete (log (w r)) = [].
Proof.
  destruct (session_over no_convert example_settings example_sent 200 (js "OK") (Some (js "text/html"))
              (js "http://h/login.html") (DText (js "<p>")) [Does (AddTo Fail [7]%nat); go]) as (H1 & H2 & H3 & H4);
    [vm_compute; reflexivity..|repeat constructor|].
  split; [exact H1|]. split; [exact H2|]. split; [etransitivity; [exact H3|vm_compute; reflexivity]|]. apply H4. by right.
Defined.
