(* ===== verification/AjaxAnswered.v ===== *)
(** * Every request that is sent is completed by its answer

    What a request was given to call at its end is in its list when it is sent, and
    the first answer decides how it ends; with [AjaxPromise] this gives what the
    console builds on: an answer that says the session is not authorised leads to
    the login page. *)

From stdpp Require Import base tactics strings numbers gmap sets list.
From Stdlib Require Import ZArith Lia.
From S2P Require Import Prelude Json Callbacks Deferred DeferredFacts Ajax AjaxFacts AjaxPromise Language Console.
From S2P Require Import Strings.
Import Ajax.
Local Open Scope Z_scope.

Section Plans.
Context (convert : jsstr -> jsstr -> data -> data + jsstr).
(** When the functions are in the list for good. *)
Context (Q : Prop).
#[local] Abbreviation world := (Deferred.world value (list act)).
Implicit Types (u : world) (r : Ajax.request).

(** ** What is added at the beginning *)
Definition installed (ks : list nat) u : Prop := ks ⊆ regs_of Complete (log u).

Record plans (ks : list nat) r : Prop := {
  pl_stack : forall acts, Ext acts ∈ stack (w r) -> Send ∈ acts -> InstallOn Complete ks ∈ acts \/ installed ks (w r);
  pl_callback : callback r = true \/ Q -> installed ks (w r);
}.

Lemma installed_grows ks u u' : (exists t, log u' = log u ++ t) -> installed ks u -> installed ks u'.
Proof.
  intros [t E] H k Hk. unfold regs_of. rewrite E, omap_app. apply elem_of_app. left. by apply H.
Qed.

Lemma plans_step ks r r' : plans ks r -> (exists t, log (w r') = log (w r) ++ t) ->
  (callback r' = true -> callback r = true \/ installed ks (w r')) ->
  (forall acts, Ext acts ∈ stack (w r') -> Send ∈ acts ->
     Ext acts ∈ stack (w r) \/ InstallOn Complete ks ∈ acts \/ installed ks (w r')) ->
  plans ks r'.
Proof.
  intros [P1 P2] Hl Hc Hs. split.
  - intros acts Hin Hx. destruct (Hs acts Hin Hx) as [H|[H|H]]; [|by left|by right].
    destruct (P1 acts H Hx) as [?|D]; [by left|right]. by apply (installed_grows ks (w r)).
  - intros [Hb|HQ]; [|by apply (installed_grows ks (w r)); auto].
    destruct (Hc Hb) as [H|H]; [|done]. apply (installed_grows ks (w r)); auto.
Qed.

Lemma log_same (u u' : world) : log u' = log u -> exists t, log u' = log u ++ t.
Proof. intros ->. exists []. by rewrite app_nil_r. Qed.

(** Nothing of it changes while functions run. *)
Lemma plans_grow ks st u r : plans ks r -> grows (w r) u st -> (forall f, f ∈ st -> f ∈ stack (w r)) ->
  plans ks (set_w u r).
Proof.
  intros P [(pre & E & Hp) L] Hst. apply (plans_step ks r); [done|done|by left|].
  intros acts Hin _. left. cbn in Hin. rewrite E in Hin. apply elem_of_app in Hin as [Hin|Hin]; [|by apply Hst].
  rewrite Forall_forall in Hp. by specialize (Hp _ Hin).
Qed.

Lemma plans_push ks acts r : plans ks r -> Send ∉ acts -> plans ks (push_acts acts r).
Proof.
  intros P Hn. apply (plans_step ks r); [done|by apply log_same|by left|].
  intros a Hin Hx. cbn in Hin. apply elem_of_cons in Hin as [[= ->]|Hin]; [done|by left].
Qed.

Lemma plans_same ks r r' : w r' = w r -> (callback r' = true -> callback r = true) -> plans ks r -> plans ks r'.
Proof.
  intros Ew Hc P. apply (plans_step ks r); [done|apply log_same; by rewrite Ew|by left; apply Hc|].
  rewrite Ew. by left.
Qed.

Lemma plans_done ks z native ct resp r : plans ks r -> plans ks (done_ convert z native ct resp r).
Proof.
  intros P. unfold done_. destruct (match completed r with Some true => true | _ => false end); [done|].
  destruct (outcome _ _ _ _ _ _) as [[l v] text]. cbn zeta. apply plans_push.
  - by apply (plans_same ks r).
  - rewrite !elem_of_cons, elem_of_nil. intuition discriminate.
Qed.

Lemma plans_abort ks text r : plans ks r -> plans ks (abort convert text r).
Proof.
  intros P. unfold abort. apply plans_done. destruct (transport r); [|done]. by apply (plans_same ks r).
Qed.

(** An act is taken off the top. *)
Lemma plans_top ks a acts st r r' : plans ks r -> stack (w r) = Ext (a :: acts) :: st ->
  (exists t, log (w r') = log (w r) ++ t) -> (callback r' = true -> callback r = true \/ installed ks (w r')) ->
  (exists pre, stack (w r') = pre ++ st /\ forall acts', Ext acts' ∈ pre -> acts' = acts \/ acts' = BeforeSent :: acts) ->
  (a = InstallOn Complete ks -> installed ks (w r')) -> plans ks r'.
Proof.
  intros P Es Hl Hc (pre & E & Hp) Ha. apply (plans_step ks r); [done..|].
  intros acts' Hin Hx. rewrite E in Hin. rewrite Es. apply elem_of_app in Hin as [Hin|Hin]; [|left; by right].
  assert (Send ∈ acts -> InstallOn Complete ks ∈ acts \/ installed ks (w r')) as Ht.
  { intros Hs. destruct (pl_stack _ _ P (a :: acts)) as [[Hi|Hi]%elem_of_cons|D]; [rewrite Es; by left|by right|..].
    - right. by apply Ha.
    - by left.
    - right. by apply (installed_grows ks (w r)). }
  right. destruct (Hp acts' Hin) as [->| ->]; [auto|].
  apply elem_of_cons in Hx as [[=]|Hx]. destruct (Ht Hx); [left; by right|by right].
Qed.

Lemma installed_add ks u : installed ks (add_users Complete ks u).
Proof.
  intros k Hk. rewrite log_add_users, regs_added. apply elem_of_app. by right.
Qed.

Lemma pre_ext (pre : list (frame (list act))) acts acts' : Forall (λ f, is_ext f = false) pre ->
  Ext acts' ∈ pre ++ [Ext acts] -> acts' = acts \/ acts' = BeforeSent :: acts.
Proof.
  intros Hp [Hin|Hin]%elem_of_app.
  - rewrite Forall_forall in Hp. by specialize (Hp _ Hin).
  - apply list_elem_of_singleton in Hin as [= ->]. by left.
Qed.

Lemma plans_act ks r : plans ks r -> request_ok r -> plans ks (act_on convert r).
Proof.
  intros P H. unfold act_on. destruct (stack (w r)) as [|[l b|k|acts] st] eqn:Es; try done.
  destruct acts as [|a acts].
  { apply (plans_step ks r); [done|by apply log_same|by left|].
    intros acts Hin _. left. rewrite Es. by right. }
  pose proof (plans_top ks a acts st r) as T.
  assert (forall u st', grows (set_stack (Ext acts :: st) (w r)) u st' -> st' = Ext acts :: st ->
    (a = InstallOn Complete ks -> installed ks u) -> plans ks (set_w u r)) as Hg.
  { intros u st' [(pre & E & Hp) L] -> Hd. apply T; [done|done|exact L|by left| |done].
    exists (pre ++ [Ext acts]). cbn. rewrite E, <- app_assoc. split; [done|]. intros acts'. by apply pre_ext. }
  assert (forall r', a <> InstallOn Complete ks -> w r' = set_stack (Ext acts :: st) (w r) ->
    (callback r' = true -> callback r = true \/ installed ks (w r')) -> plans ks r') as Hs.
  { intros r' Ha Ew Hc. apply T; [done|done|apply log_same; by rewrite Ew|done| |done].
    exists [Ext acts]. rewrite Ew. split; [done|]. intros acts'. by apply (pre_ext []). }
  destruct a as [| |b|l ks'| | |l v|]; cbn zeta.
  - destruct (s_beforeSend (settings r)) as [k|] eqn:Ek; [replace (s_beforeSend _) with (Some k)|replace (s_beforeSend _) with (@None nat)].
    + apply T; [done|done|by apply log_same|by left| |done].
      exists [Body k; Ext (BeforeSent :: acts)]. split; [done|].
      intros acts' [[=]|[= ->]%list_elem_of_singleton]%elem_of_cons. by right.
    + apply Hs; [done|done|by left].
  - done.
  - destruct (b || _); [|apply Hs; [done|done|by left]]. apply plans_abort.
    apply T; [done|done|by apply log_same|by left| |done]. exists []. split; [done|]. by intros acts' ?%elem_of_nil.
  - apply (plans_same ks (set_w (add_users l ks' (set_stack (Ext acts :: st) (w r))) r)); [done|done|].
    apply (Hg _ (Ext acts :: st)); [apply grows_add_users|done|]. intros [= -> ->]. apply installed_add.
  - apply Hs; [done|done|by left].
  - apply Hs; [done|done|]. intros _. right. pose proof (ro_sends r H) as Hx. rewrite Es in Hx.
    pose proof (plan_end acts (proj2 (proj1 Hx))) as ->.
    destruct (pl_stack _ _ P [Send]) as [Hi|D]; [rewrite Es; by left|by left| |done].
    by apply list_elem_of_singleton in Hi.
  - apply (plans_same ks (set_w (do_fireWith l v (set_stack (Ext acts :: st) (w r))) r)); [done|done|].
    apply (Hg _ (Ext acts :: st)); [apply grows_fireWith|done|done].
  - apply Hs; [done|done|by left].
Qed.

Lemma log_return b u : log (return_from b u) = log u.
Proof. unfold return_from. by repeat case_match. Qed.

Lemma unwind_in f (st : list (frame (list act))) : f ∈ unwind st -> f ∈ st.
Proof. induction st as [|[l b|k|x] st IH]; cbn; [done|right; auto|done|right; auto]. Qed.

Lemma plans_step_ajax ks e r : plans ks r -> request_ok r -> plans ks (step_ajax convert e r).
Proof.
  intros P H. unfold step_ajax.
  assert (forall l ks', plans ks (set_w (add_users l ks' (w r)) r)) as Ha.
  { intros l ks'. by apply (plans_grow ks (stack (w r))); [|apply grows_add_users|]. }
  assert (forall m, plans ks (push_acts [InstallOn Done m; InstallOn Fail m] r)) as Hp.
  { intros m. apply plans_push; [done|]. rewrite !elem_of_cons, elem_of_nil. intuition discriminate. }
  destruct (stack (w r)) as [|[l b|k|acts] st] eqn:Es.
  2:{ destruct (ro_deferred r H) as [M _]. apply (plans_grow ks st); [done|by apply (grows_fire_on l b)|].
      rewrite Es. by right. }
  3:{ destruct acts as [|[] acts]; try by apply plans_act. destruct e; try by apply plans_act.
      by apply plans_done, plans_act. }
  - destruct e as [i|text|m|er|z text ct u b|z text|]; try done.
    + destruct i; try done. by destruct (public l).
    + by apply plans_abort.
    + destruct (completed r) as [[]|]; [done|by apply (plans_same ks r)..].
    + destruct (callback r); [|done]. unfold on_load. cbn zeta.
      destruct (session_ended _ _); [by apply (plans_same ks r)|]. by apply plans_done, (plans_same ks r).
    + destruct (callback r); [|done]. by apply plans_done, (plans_same ks r).
    + destruct (timer r); [|done]. by apply plans_abort, (plans_same ks r).
  - destruct e as [i|text|m|er|z text ct u b|z text|]; try done.
    + destruct i as [l ks'|l v|b| |]; try done.
      * by destruct (public l).
      * assert (plans ks (set_w (return_from b (w r)) r)) as Hr.
        { apply (plans_grow ks st); [done| |rewrite Es; by right]. split.
          - exists []. by rewrite (return_stack b k st).
          - apply log_same, log_return. }
        destruct st as [|[l b'|k'|[|[] acts]] st]; try done.
        apply (plans_step ks r); [done|by apply log_same|by left|].
        intros acts' [[= ->]|Hin]%elem_of_cons Hx; [right|left; rewrite Es; by right; right].
        destruct (pl_stack ks r P (BeforeSent :: acts)) as [Hi|Hi]; [rewrite Es; right; by left| |left|by right].
        -- apply elem_of_cons in Hx as [[=]|Hx]. by right.
        -- apply elem_of_cons in Hi as [[=]|Hi]. by right.
      * apply (plans_step ks r); [done|by eexists|by left|].
        cbn. rewrite Es. intros acts Hin _. left. right. by apply unwind_in.
    + by apply plans_abort.
    + destruct (completed r) as [[]|]; [done|by apply (plans_same ks r)..].
Qed.

Lemma plans_run ks es r : plans ks r -> request_ok r -> plans ks (foldl (λ r e, step_ajax convert e r) r es).
Proof.
  revert r. induction es as [|e es IH]; intros r P H; [done|]. cbn. apply IH; [by apply plans_step_ajax|by apply ok_step_ajax].
Qed.
End Plans.

Section Answered.
Context (convert : jsstr -> jsstr -> data -> data + jsstr).
Implicit Types (r : Ajax.request).

(** ** The first answer decides *)
Lemma settings_done z native ct resp r : settings (done_ convert z native ct resp r) = settings r.
Proof. unfold done_. by repeat case_match. Qed.

Lemma settings_abort text r : settings (abort convert text r) = settings r.
Proof. unfold abort. rewrite settings_done. by destruct (transport r). Qed.

Lemma settings_act r : settings (act_on convert r) = settings r.
Proof.
  unfold act_on. destruct (stack (w r)) as [|[l b|k|[|a acts]] st]; try done.
  destruct a; try done; cbn zeta; case_match; try done. by rewrite settings_abort.
Qed.

Lemma settings_step e r : settings (step_ajax convert e r) = settings r.
Proof.
  unfold step_ajax. destruct (stack (w r)) as [|[l b|k|[|a acts]] st]; try apply settings_act.
  - destruct e as [[]| | | | | |]; try done; unfold on_load; repeat case_match; try done;
      by rewrite ?settings_abort, ?settings_done.
  - done.
  - destruct e as [[]| | | | | |]; try done; repeat case_match; try done; by rewrite settings_abort.
  - destruct a; try apply settings_act. destruct e; try apply settings_act. by rewrite settings_done, settings_act.
Qed.

Definition ended (z : Z) r : Prop := completed r = Some true /\ status r = z.

Lemma ended_done z z' native ct resp r : ended z r -> done_ convert z' native ct resp r = r.
Proof. intros [E _]. unfold done_. by rewrite E. Qed.

Lemma ended_abort z text r : ended z r -> ended z (abort convert text r).
Proof. intros E. unfold abort. destruct (transport r); by rewrite (ended_done z). Qed.

Lemma ended_act z r : request_ok r -> ended z r -> ended z (act_on convert r).
Proof.
  intros H E. unfold act_on. destruct (stack (w r)) as [|[l b|k|[|a acts]] st] eqn:Es; try done.
  destruct a; try done; cbn zeta; [by case_match|case_match; [by apply ended_abort|done]|].
  pose proof (ro_sends r H) as Hs. rewrite Es in Hs. destruct Hs as [[Hs _] _]. exfalso.
  destruct Hs as [?|[[=]|(b & [=])]]; [by left|by destruct E].
Qed.

Lemma ended_step z e r : request_ok r -> ended z r -> ended z (step_ajax convert e r).
Proof.
  intros H E. unfold step_ajax. pose proof (ended_act z r H E) as Ha. destruct (stack (w r)) as [|[l b|k|[|a acts]] st]; try done.
  - destruct e as [[]| | | | | |]; try done; unfold on_load; repeat case_match; try done;
      try (by apply ended_abort); by rewrite (ended_done z).
  - destruct e as [[]| | | | | |]; try done; repeat case_match; try done; by apply ended_abort.
  - destruct a; try done. destruct e; try done. by rewrite (ended_done z).
Qed.

(** Every state that is reached. *)
Lemma run_plans st es :
  plans False (s_complete st) (run_ajax convert st es) /\ settings (run_ajax convert st es) = st.
Proof.
  split.
  - unfold run_ajax. apply plans_run; [|apply ok_ajax]. split; [|by intros [?|?]].
    intros acts [= ->]%list_elem_of_singleton _. left. by right; left.
  - unfold run_ajax. assert (settings (ajax st) = st) as E by done. revert E. generalize (ajax st).
    induction es as [|e es IH]; intros r E; [done|]. cbn. apply IH. by rewrite settings_step.
Qed.

Lemma run_ended z es r : request_ok r -> ended z r -> ended z (foldl (λ r e, step_ajax convert e r) r es).
Proof.
  revert r. induction es as [|e es IH]; intros r H E; [done|]. cbn. apply IH; [by apply ok_step_ajax|by apply ended_step].
Qed.

(** What is kept once the answer is there. *)
Lemma load_ends z text ct url body r : stack (w r) = [] -> callback r = true -> completed r = Some false ->
  session_ended (s_url (settings r)) url = false -> 0 <= z ->
  ended (xhr_status z) (step_ajax convert (Load z text ct url body) r).
Proof.
  intros Hs Hb Hc Hu Hz. unfold step_ajax, on_load. rewrite Hs, Hb. cbn zeta. cbn [settings set_transport]. rewrite Hu.
  unfold done_. cbn [completed set_transport settings]. rewrite Hc. destruct (outcome _ _ _ _ _ _) as [[l v] t].
  split; [done|]. cbn. unfold xhr_status. repeat case_match; lia.
Qed.

(** C10: the answer with a status of HTTP that comes while a request runs completes
    it, with its own status for good, unless it is the page of the login in answer
    to a page that was asked for (the case of [session_over]).  When nothing runs
    any more and no function has thrown, every function of completion the request
    was given has been called; no function of success ever is unless the status is
    2xx or 304.  When the answer says the session is not authorised, so has been
    the console's own function of completion, and with this status it leaves for
    the page of the login. *)
Theorem unauthorised_to_login st es z text ct responseURL body es' (s : Index.state) :
  let r := run_ajax convert st es in
  stack (w r) = [] -> callback r = true -> completed r = Some false ->
  session_ended (s_url st) responseURL = false -> 100 <= z < 600 ->
  let r' := run_ajax convert st (es ++ Load z text ct responseURL body :: es') in
  completed r' = Some true /\ status r' = z
  /\ (~ (200 <= z < 300) -> z <> 304 -> calls_of Done (log (w r')) = [])
  /\ (stack (w r') = [] -> Threw ∉ log (w r') ->
      forall k, k ∈ s_complete st -> exists v, (k, v) ∈ calls_of Complete (log (w r')))
  /\ (z = 401 -> Index.location (Index.complete (status r') s) = Some (js "/login.html")).
Proof.
  intros r Hs Hb Hc Hu Hz r'. destruct (run_plans st es) as [P E]. fold r in P, E.
  pose proof (ok_run_ajax convert st es : request_ok r) as H.
  set (r1 := step_ajax convert (Load z text ct responseURL body) r).
  assert (r' = foldl (λ r e, step_ajax convert e r) r1 es') as Er by (unfold r', run_ajax; by rewrite foldl_app).
  assert (ended z r') as [Ec Et].
  { rewrite Er. apply run_ended; [by apply ok_step_ajax|].
    assert (xhr_status z = z) as Ez by (unfold xhr_status; repeat case_match; zbool; lia). rewrite <- Ez.
    apply load_ends; try done; [by rewrite E|lia]. }
  assert (plans True (s_complete st) r1) as P1.
  { apply plans_step_ajax; [|done]. split; [apply P|]. intros _. apply P. by left. }
  assert (request_ok r') as H' by apply ok_run_ajax.
  assert (installed (s_complete st) (w r')) as D.
  { apply (pl_callback True). - rewrite Er. apply plans_run; [done|by apply ok_step_ajax]. - by right. }
  destruct (completed_calls r' H' Ec) as (l & v & m & n & Hf & Ho & _ & _ & Ha).
  split; [done|]. split; [done|]. split_and!.
  - intros H2 H3. assert (l = Fail) as ->; [|done]. unfold fits in Hf. rewrite Et in Hf.
    destruct l, v; try done. unfold is_success in Hf. zlia.
  - intros E1 E2 k Hk. exists (Completed (text_of v)). rewrite (proj2 (Ha E1 E2)). apply list_elem_of_fmap.
    exists k. split; [done|]. by apply D.
  - intros ->. by rewrite Et.
Qed.
End Answered.

Lemma unauthorised_to_login_witness :
  let r := run_ajax no_convert example_settings
             (example_sent ++ Load 401 (js "Unauthorized") None (js "http://h/mod/users.html") (DText [])
              :: mjoin (repeat (Does (Return false) :: turns) 5)) in
  completed r = Some true /\ status r = 401 /\ calls_of Done (log (w r)) = []
  /\ exists v, (3%nat, v) ∈ calls_of Complete (log (w r)).
Proof.
  destruct (unauthorised_to_login no_convert example_settings example_sent 401 (js "Unauthorized") None
              (js "http://h/mod/users.html") (DText []) (mjoin (repeat (Does (Return false) :: turns) 5))
              (Index.mkIndex None false None None 0 [] [] None false [] None 0 (Language.mkPage [] gmap_empty None)))
    as (H1 & H2 & H3 & H4 & _); [vm_compute; reflexivity..|lia|].
  split; [exact H1|]. split; [exact H2|]. split; [apply H3; lia|].
  apply H4; [vm_compute; reflexivity| |by left].
  intros Ht. vm_compute in Ht. repeat (apply elem_of_cons in Ht as [Ht|Ht]; [discriminate|]). by apply elem_of_nil in Ht.
Defined.
