(* ===== verification/Modal.v ===== *)
(** * Dialogs (bootstrap.js: [Modal]; ui/js/common.js, ui/js/index.js)

    A dialog is shown and hidden in steps: its backdrop fades in, then the dialog
    appears; the dialog fades out, then the backdrop.  Each step ends with the end of
    a transition, or with a timer that stands in for it, and in between the page may
    show and hide dialogs and load another page.  The class on the body and the
    backdrops are shared by all dialogs.

    Modelled choices: dialogs are of class fade and the browser has transitions, as
    all dialogs of the console and all browsers it is made for; nothing listens to
    the events of a dialog, and none is of a fixed backdrop; focus, scroll bars and
    the loading of remote contents are left out. *)

From stdpp Require Import base tactics numbers list.
From Stdlib Require Import Lia.
From S2P Require Import Prelude.

(** The dialog for alerts, which belongs to the frame, and the dialogs of the pages
    loaded one after the other. *)
Inductive dialog_id := Alert | Dialog (load k : nat).

#[export] Instance dialog_id_eq_dec : EqDecision dialog_id.
Proof. solve_decision. Defined.

Record modal_state := mkModalState {
  isShown : bool;
  own_backdrop : option nat;        (* $backdrop: its place among all there were *)
  visible : bool;
  closing : nat;                    (* hideModal waits for the end of a transition *)
}.

(** What waits for the end of a transition of a backdrop: the callback of [show],
    [callbackRemove] in [hideModal], the callback of [hideModal] alone. *)
Inductive task := Appear (d : dialog_id) | RemoveOf (d : dialog_id) | Closed (d : dialog_id).

Record backdrop_state := mkBackdrop { attached : bool; tasks : list task }.

Inductive target := Element (d : dialog_id) | Backdrop (i : nat).

#[export] Instance target_eq_dec : EqDecision target.
Proof. solve_decision. Defined.

Record screen := mkScreen {
  modals : dialog_id -> modal_state;
  backdrops : list backdrop_state;
  body_open : bool;                 (* the body has class modal-open *)
  timers : list target;             (* of emulateTransitionEnd, in the order they were set *)
  loaded : nat;                     (* pages loaded so far *)
}.

Definition new_Modal : modal_state := mkModalState false None false 0.
Definition first_screen : screen := mkScreen (λ _, new_Modal) [] false [] 0.

Definition set_dialog (d : dialog_id) (m : modal_state) (s : screen) : screen :=
  mkScreen (λ d', if decide (d' = d) then m else modals s d') (backdrops s) (body_open s) (timers s) (loaded s).
Definition set_backdrops (bs : list backdrop_state) (s : screen) : screen :=
  mkScreen (modals s) bs (body_open s) (timers s) (loaded s).
Definition set_body (b : bool) (s : screen) : screen :=
  mkScreen (modals s) (backdrops s) b (timers s) (loaded s).
Definition set_timers (ts : list target) (s : screen) : screen :=
  mkScreen (modals s) (backdrops s) (body_open s) ts (loaded s).

Definition put_isShown (b : bool) (m : modal_state) : modal_state :=
  mkModalState b (own_backdrop m) (visible m) (closing m).
Definition put_own (o : option nat) (m : modal_state) : modal_state :=
  mkModalState (isShown m) o (visible m) (closing m).
Definition put_visible (b : bool) (m : modal_state) : modal_state :=
  mkModalState (isShown m) (own_backdrop m) b (closing m).
Definition put_closing (n : nat) (m : modal_state) : modal_state :=
  mkModalState (isShown m) (own_backdrop m) (visible m) n.

(** [emulateTransitionEnd]: the timers of backdrops are shorter than those of
    dialogs. *)
Definition emulateTransitionEnd (t : target) (s : screen) : screen := set_timers (timers s ++ [t]) s.

(** [removeBackdrop]: an element that is removed loses its handlers. *)
Definition removeBackdrop (d : dialog_id) (s : screen) : screen :=
  let s := match own_backdrop (modals s d) with
           | Some i => set_backdrops (alter (λ _, mkBackdrop false []) i (backdrops s)) s
           | None => s
           end in
  set_dialog d (put_own None (modals s d)) s.

Definition run_task (s : screen) (t : task) : screen :=
  match t with
  | Appear d => set_dialog d (put_visible true (modals s d)) s
  | RemoveOf d => set_body false (removeBackdrop d s)
  | Closed d => set_body false s
  end.

(** [backdrop]. *)
Definition backdrop (d : dialog_id) (callback : task) (s : screen) : screen :=
  let m := modals s d in
  if isShown m then
    let i := length (backdrops s) in
    let s := set_dialog d (put_own (Some i) m) (set_backdrops (backdrops s ++ [mkBackdrop true [callback]]) s) in
    emulateTransitionEnd (Backdrop i) s
  else
    match own_backdrop m with
    | Some i =>
        emulateTransitionEnd (Backdrop i)
          (set_backdrops (alter (λ b, mkBackdrop (attached b) (tasks b ++ [RemoveOf d])) i (backdrops s)) s)
    | None => run_task s callback
    end.

Definition show (d : dialog_id) (s : screen) : screen :=
  let m := modals s d in
  if isShown m then s
  else backdrop d (Appear d) (set_body true (set_dialog d (put_isShown true m) s)).

Definition hideModal (d : dialog_id) (s : screen) : screen :=
  backdrop d (Closed d) (set_dialog d (put_visible false (modals s d)) s).

Definition hide (d : dialog_id) (s : screen) : screen :=
  let m := modals s d in
  if isShown m then
    emulateTransitionEnd (Element d)
      (set_dialog d (put_closing (S (closing m)) (put_isShown false m)) s)
  else s.

(** ** Ends of transitions *)

(** The end of a transition of an element: every handler that waits for it runs once,
    and timers that stand in for it find that it has come. *)
Definition transition_end (t : target) (s : screen) : screen :=
  let s := set_timers (filter (λ t', t' <> t) (timers s)) s in
  match t with
  | Element d =>
      let n := closing (modals s d) in
      Nat.iter n (hideModal d) (set_dialog d (put_closing 0 (modals s d)) s)
  | Backdrop i =>
      match backdrops s !! i with
      | Some b => foldl run_task (set_backdrops (<[i := mkBackdrop (attached b) []]> (backdrops s)) s) (tasks b)
      | None => s
      end
  end.

(** A transition takes place only in what is on the screen. *)
Definition on_screen (t : target) (s : screen) : bool :=
  match t with
  | Element d => visible (modals s d)
  | Backdrop i => match backdrops s !! i with Some b => attached b | None => false end
  end.

(** A timer fires once all timers that were set before it and are not longer have. *)
Definition is_backdrop (t : target) : bool := match t with Backdrop _ => true | _ => false end.

Definition due (j : nat) (ts : list target) : bool :=
  match ts !! j with
  | Some (Element _) => (j =? 0)%nat
  | Some (Backdrop _) => forallb (λ t, negb (is_backdrop t)) (take j ts)
  | None => false
  end.

(** [loadTemplate]'s callback, and the page it has replaced. *)
Definition remove_backdrops (bs : list backdrop_state) : list backdrop_state :=
  map (λ b, if attached b then mkBackdrop false [] else b) bs.

Definition template_loaded_in (s : screen) : screen :=
  mkScreen (λ d, match d with Alert => modals s Alert | _ => new_Modal end)
    (remove_backdrops (backdrops s)) false (timers s) (S (loaded s)).

(** ** What happens *)
Inductive event :=
  | Show (d : dialog_id)
  | Hide (d : dialog_id)            (* by a script, or dismissed *)
  | Ended (t : target)
  | Timer (j : nat)
  | PageLoaded.

Definition present (d : dialog_id) (s : screen) : bool :=
  match d with Alert => true | Dialog p _ => (p =? loaded s)%nat end.

Definition step_screen (s : screen) (e : event) : screen :=
  match e with
  | Show d => if present d s then show d s else s
  | Hide d => if present d s then hide d s else s
  | Ended t => if on_screen t s then transition_end t s else s
  | Timer j => if due j (timers s) then match timers s !! j with Some t => transition_end t s | None => s end else s
  | PageLoaded => template_loaded_in s
  end.

Definition run_screen (es : list event) : screen := foldl step_screen first_screen es.
