(* ===== verification/ModalFacts.v ===== *)
(** * What becomes of dialogs

    As long as no dialog is shown again while it closes and no page is loaded while
    the alert opens, everything ends well: dialogs are on the screen exactly when
    they are shown, and no backdrop is left without its dialog.  Otherwise a backdrop
    stays for ever, or no alert is ever seen again. *)

From stdpp Require Import base tactics numbers list.
From Stdlib Require Import Lia.
From S2P Require Import Prelude Modal.

Implicit Types (s : screen) (d : dialog_id) (m : modal_state).

Lemma present_loaded d s s' : loaded s' = loaded s -> present d s' = present d s.
Proof. unfold present. by intros ->. Qed.

(** The page it belonged to is no more. *)
Definition gone (d : dialog_id) (s : screen) : bool :=
  match d with Alert => false | Dialog l _ => (l <? loaded s)%nat end.

Lemma gone_absent d s : gone d s = true -> present d s = false.
Proof.
  destruct d as [|l k]; [done|]. unfold gone, present. intros H%Nat.ltb_lt. apply Nat.eqb_neq. lia.
Qed.

Lemma gone_loaded d s s' : loaded s' = loaded s -> gone d s' = gone d s.
Proof. unfold gone. by intros ->. Qed.

(** ** The life of one dialog *)
Inductive phase_of_dialog := Idle | Opening | Open | Early | Fading | Removing.

(** The backdrop is there, with these tasks. *)
Definition own_is (m : modal_state) (bs : list backdrop_state) (P : backdrop_state -> Prop) : Prop :=
  exists i b, own_backdrop m = Some i /\ bs !! i = Some b /\ P b.

Definition ordered (i : nat) (d : dialog_id) (ts : list target) : Prop :=
  exists l1 l2, ts = l1 ++ Backdrop i :: l2 /\ Element d ∉ l1.

Definition at_phase (d : dialog_id) (p : phase_of_dialog) (s : screen) : Prop :=
  let m := modals s d in
  match p with
  | Idle => isShown m = false /\ visible m = false /\ closing m = 0
      /\ (own_backdrop m = None \/ own_is m (backdrops s) (λ b, b = mkBackdrop false []))
  | Opening => isShown m = true /\ visible m = false /\ closing m = 0
      /\ own_is m (backdrops s) (λ b, b = mkBackdrop true [Appear d])
  | Open => isShown m = true /\ visible m = true /\ closing m = 0
      /\ own_is m (backdrops s) (λ b, tasks b = [])
  | Early => isShown m = false /\ visible m = false /\ closing m = 1
      /\ own_is m (backdrops s) (λ b, b = mkBackdrop true [Appear d])
      /\ forall i, own_backdrop m = Some i -> ordered i d (timers s)
  | Fading => isShown m = false /\ closing m = 1 /\ own_is m (backdrops s) (λ b, tasks b = [])
  | Removing => isShown m = false /\ visible m = false /\ closing m = 0
      /\ own_is m (backdrops s) (λ b, tasks b = [RemoveOf d])
  end.

Record screen_ok (s : screen) : Prop := {
  so_phase : forall d, exists p, at_phase d p s;
  so_own : forall d d' i, own_backdrop (modals s d) = Some i -> own_backdrop (modals s d') = Some i -> d = d';
  so_owned : forall i b, backdrops s !! i = Some b -> b <> mkBackdrop false [] ->
    exists d, own_backdrop (modals s d) = Some i;
  so_body : body_open s = true -> exists d p, at_phase d p s /\ p <> Idle;
  so_element : forall d, Element d ∈ timers s -> closing (modals s d) <> 0 \/ gone d s = true;
  so_task : forall i b, backdrops s !! i = Some b -> tasks b <> [] -> Backdrop i ∈ timers s;
  so_closing : forall d, closing (modals s d) <> 0 -> Element d ∈ timers s;
  so_present : forall d, present d s = false -> modals s d = new_Modal;
  so_page : forall d i b, d <> Alert -> own_backdrop (modals s d) = Some i -> backdrops s !! i = Some b ->
    attached b = true;
}.

(** A dialog that is left alone stays where it is. *)
Lemma phase_frame d p s s' : modals s' d = modals s d ->
  (forall i, own_backdrop (modals s d) = Some i -> backdrops s' !! i = backdrops s !! i) ->
  (forall i, own_backdrop (modals s d) = Some i -> ordered i d (timers s) -> closing (modals s d) = 1 ->
     visible (modals s d) = false -> backdrops s !! i = Some (mkBackdrop true [Appear d]) -> ordered i d (timers s')) ->
  at_phase d p s -> at_phase d p s'.
Proof.
  intros Em Eb Eo. unfold at_phase. rewrite Em.
  assert (forall P, own_is (modals s d) (backdrops s) P -> own_is (modals s d) (backdrops s') P) as Ho.
  { intros P (i & b & E1 & E2 & E3). exists i, b. by rewrite Eb. }
  destruct p; try (intros H; naive_solver).
  intros (H1 & H2 & H3 & H4 & H5). split_and!; try done; [by apply Ho|].
  intros i Ei. destruct H4 as (j & b & E1 & E2 & ->). rewrite E1 in Ei. injection Ei as <-. by apply Eo; auto.
Qed.

Lemma ordered_app i d ts ts' : ordered i d ts -> ordered i d (ts ++ ts').
Proof. intros (l1 & l2 & -> & H). exists l1, (l2 ++ ts'). by rewrite <- app_assoc. Qed.

Lemma ordered_filter i d t ts : t <> Backdrop i -> ordered i d ts -> ordered i d (filter (λ t', t' <> t) ts).
Proof.
  intros Ht (l1 & l2 & -> & H). exists (filter (λ t', t' <> t) l1), (filter (λ t', t' <> t) l2).
  rewrite filter_app, filter_cons, decide_True by done. split; [done|].
  intros [_ Hin]%list_elem_of_filter. done.
Qed.

Lemma new_idle d s : modals s d = new_Modal -> at_phase d Idle s.
Proof. intros E. unfold at_phase. rewrite E. split_and!; try done. by left. Qed.

Lemma first_ok : screen_ok first_screen.
Proof.
  split; try done.
  - intros d. exists Idle. by apply new_idle.
  - intros d H. by apply elem_of_nil in H.
Qed.

Lemma own_in_range d i s : screen_ok s -> own_backdrop (modals s d) = Some i -> i < length (backdrops s).
Proof.
  intros H E. destruct (so_phase s H d) as [p Hp].
  assert (forall P, own_is (modals s d) (backdrops s) P -> i < length (backdrops s)) as Ho.
  { intros P (j & b & E1 & E2 & _). rewrite E in E1. injection E1 as <-. by apply lookup_lt_Some in E2. }
  destruct p; unfold at_phase in Hp.
  - destruct Hp as (_ & _ & _ & [Hn|Hn]); [congruence|by eapply Ho].
  - destruct Hp as (_ & _ & _ & Hn). by eapply Ho.
  - destruct Hp as (_ & _ & _ & Hn). by eapply Ho.
  - destruct Hp as (_ & _ & _ & Hn & _). by eapply Ho.
  - destruct Hp as (_ & _ & Hn). by eapply Ho.
  - destruct Hp as (_ & _ & _ & Hn). by eapply Ho.
Qed.

(** Two phases at once are one. *)
Lemma phase_idle d p s : at_phase d p s -> isShown (modals s d) = false -> closing (modals s d) = 0 ->
  p = Idle \/ p = Removing.
Proof. intros Hp E1 E2. destruct p; unfold at_phase in Hp; destruct_and?; try congruence; [by left|by right]. Qed.

(** ** A dialog is shown *)
Lemma show_modals d d' s : isShown (modals s d) = false ->
  modals (show d s) d'
  = if decide (d' = d) then mkModalState true (Some (length (backdrops s))) (visible (modals s d)) (closing (modals s d))
    else modals s d'.
Proof.
  intros E. unfold show. rewrite E. unfold backdrop. cbn. rewrite decide_True by done. cbn.
  by destruct (decide (d' = d)).
Qed.

Lemma show_rest d s : isShown (modals s d) = false ->
  backdrops (show d s) = backdrops s ++ [mkBackdrop true [Appear d]]
  /\ timers (show d s) = timers s ++ [Backdrop (length (backdrops s))]
  /\ body_open (show d s) = true /\ loaded (show d s) = loaded s.
Proof. intros E. unfold show. rewrite E. unfold backdrop. cbn. by rewrite decide_True. Qed.

Lemma show_ok d s : screen_ok s -> present d s = true -> at_phase d Idle s ->
  screen_ok (show d s) /\ at_phase d Opening (show d s).
Proof.
  intros H Hd (P1 & P2 & P3 & P4). destruct (show_rest d s P1) as (E1 & E2 & E3 & E4).
  pose proof (show_modals d) as Em. set (n := length (backdrops s)) in *.
  assert (forall d', present d' (show d s) = present d' s) as Ep by (intros d'; by apply present_loaded).
  assert (forall d', gone d' (show d s) = gone d' s) as Eg by (intros d'; by apply gone_loaded).
  assert (forall d', d' <> d -> modals (show d s) d' = modals s d') as Eo by (intros d' Hx; by rewrite Em, decide_False).
  assert (modals (show d s) d = mkModalState true (Some n) false 0) as Ed by (by rewrite Em, decide_True, P2, P3).
  assert (at_phase d Opening (show d s)) as Ho.
  { unfold at_phase. rewrite Ed, E1. split_and!; try done. exists n, (mkBackdrop true [Appear d]).
    split_and!; try done. by apply list_lookup_middle. }
  assert (forall i, i < n -> backdrops (show d s) !! i = backdrops s !! i) as Eb
    by (intros i Hi; rewrite E1; by apply lookup_app_l).
  split; [|done]. split.
  - intros d'. destruct (decide (d' = d)) as [->|Hx]; [by exists Opening|].
    destruct (so_phase s H d') as [p Hp]. exists p. apply (phase_frame d' p s); [by apply Eo| | |done].
    + intros i Ei. by apply Eb, (own_in_range d').
    + intros i _ Hor _ _ _. rewrite E2. by apply ordered_app.
  - intros d1 d2 i F1 F2. destruct (decide (d1 = d)) as [->|H1], (decide (d2 = d)) as [->|H2]; [done|..].
    + rewrite Ed in F1. injection F1 as <-. rewrite Eo in F2 by done. pose proof (own_in_range d2 n s H F2). lia.
    + rewrite Ed in F2. injection F2 as <-. rewrite Eo in F1 by done. pose proof (own_in_range d1 n s H F1). lia.
    + rewrite Eo in F1, F2 by done. by apply (so_own s H _ _ i).
  - intros i b Hi Hb. destruct (decide (i < n)) as [Hlt|Hge].
    + rewrite Eb in Hi by done. destruct (so_owned s H i b Hi Hb) as [d' Hd']. exists d'. rewrite Eo; [done|].
      intros ->. destruct P4 as [P4|(j & b' & F1 & F2 & ->)]; [congruence|].
      rewrite Hd' in F1. injection F1 as <-. congruence.
    + exists d. rewrite Ed. pose proof (lookup_lt_Some _ _ _ Hi) as Hl. rewrite E1, length_app in Hl. cbn in *.
      f_equal. lia.
  - intros _. by exists d, Opening.
  - intros d' Hin. rewrite E2, elem_of_app in Hin. rewrite Eg.
    destruct Hin as [Hin|Hin]; [|by apply list_elem_of_singleton in Hin].
    destruct (so_element s H d' Hin) as [Hc|]; [left|by right]. destruct (decide (d' = d)) as [->|]; [by rewrite P3 in Hc|].
    by rewrite Eo.
  - intros i b Hi Hb. rewrite E2. apply elem_of_app. destruct (decide (i < n)) as [Hlt|Hge].
    + left. rewrite Eb in Hi by done. by apply (so_task s H i b).
    + right. apply list_elem_of_singleton. f_equal. pose proof (lookup_lt_Some _ _ _ Hi) as Hl.
      rewrite E1, length_app in Hl. cbn in *. lia.
  - intros d' Hc. rewrite E2. apply elem_of_app. left. apply (so_closing s H).
    destruct (decide (d' = d)) as [->|]; [by rewrite Ed in Hc|by rewrite <- Eo].
  - intros d' Hd'. rewrite Ep in Hd'. assert (d' <> d) by congruence. rewrite Eo by done. by apply H.
  - intros d' i b Ha Hi Hb. destruct (decide (d' = d)) as [->|Hx].
    + rewrite Ed in Hi. injection Hi as <-. rewrite E1, list_lookup_middle in Hb by done. by injection Hb as <-.
    + rewrite Eo in Hi by done. rewrite Eb in Hb by (by apply (own_in_range d')). by apply (so_page s H d' i).
Qed.

(** ** A dialog is hidden *)
Lemma hide_ok d s : screen_ok s -> present d s = true -> isShown (modals s d) = true -> screen_ok (hide d s).
Proof.
  intros H Hd P1. unfold hide. rewrite P1. set (s' := emulateTransitionEnd _ _).
  assert (forall d', d' <> d -> modals s' d' = modals s d') as Eo by (intros d' Hx; cbn; by rewrite decide_False).
  assert (exists p, (p = Opening \/ p = Open) /\ at_phase d p s) as (p & Hp & P).
  { destruct (so_phase s H d) as [p P]. exists p. split; [|done].
    destruct p; unfold at_phase in P; destruct_and?; try congruence; [by left|by right]. }
  assert (closing (modals s d) = 0 /\ own_is (modals s d) (backdrops s) (λ b, True)) as (P3 & i & b0 & P4 & P5 & _).
  { destruct Hp as [->| ->], P as (_ & _ & ? & (i & b & ? & ? & _)); (split; [done|]); by exists i, b. }
  assert (modals s' d = mkModalState false (Some i) (visible (modals s d)) 1) as Ed.
  { cbn. rewrite decide_True by done. unfold put_closing. cbn. by rewrite P3, P4. }
  assert (exists p', p' <> Idle /\ at_phase d p' s') as (p' & Hp' & P').
  { destruct Hp as [->| ->], P as (_ & F1 & _ & (j & b & F2 & F3 & F4)); rewrite P4 in F2; injection F2 as <-.
    - exists Early. split; [done|]. unfold at_phase. rewrite Ed, F1. split_and!; try done.
      { exists i, b. by split_and!. }
      cbn. intros j [= <-]. subst b.
      destruct (list_elem_of_split (timers s) (Backdrop i)) as (l1 & l2 & E).
      { by apply (so_task s H i _ F3). }
      exists l1, (l2 ++ [Element d]). rewrite E, <- app_assoc. split; [done|].
      intros Hin. destruct (so_element s H d) as [?|?]; [rewrite E; apply elem_of_app; by left|done|]. pose proof (gone_absent d s). intuition congruence.
    - exists Fading. split; [done|]. unfold at_phase. rewrite Ed. split_and!; try done. exists i, b. by split_and!. }
  split.
  - intros d'. destruct (decide (d' = d)) as [->|Hx]; [by exists p'|].
    destruct (so_phase s H d') as [q Hq]. exists q. apply (phase_frame d' q s); [by apply Eo|done| |done].
    intros j _ Hor _ _ _. by apply ordered_app.
  - intros d1 d2 j F1 F2. apply (so_own s H _ _ j).
    + destruct (decide (d1 = d)) as [->|]; [rewrite Ed in F1; by rewrite P4|by rewrite Eo in F1].
    + destruct (decide (d2 = d)) as [->|]; [rewrite Ed in F2; by rewrite P4|by rewrite Eo in F2].
  - intros j b Hj Hb. destruct (so_owned s H j b Hj Hb) as [d' Hd']. exists d'.
    destruct (decide (d' = d)) as [->|]; [rewrite Ed; by rewrite P4 in Hd'|by rewrite Eo].
  - intros _. by exists d, p'.
  - intros d' Hin. cbn in Hin. apply elem_of_app in Hin as [Hin|Hin].
    + destruct (so_element s H d' Hin) as [Hc|]; [left|by right].
      destruct (decide (d' = d)) as [->|]; [by rewrite Ed|by rewrite Eo].
    + apply list_elem_of_singleton in Hin as [= ->]. left. by rewrite Ed.
  - intros j b Hj Hb. cbn. apply elem_of_app. left. by apply (so_task s H j b).
  - intros d' Hc. cbn. apply elem_of_app. destruct (decide (d' = d)) as [->|Hx]; [right; by left|left].
    apply (so_closing s H). by rewrite <- Eo.
  - intros d' Hd'. assert (present d' s = false) as Hx by (by destruct d'). rewrite Eo by congruence. by apply H.
  - intros d' j b Ha Hj Hb. apply (so_page s H d' j b); [done| |done].
    destruct (decide (d' = d)) as [->|]; [by rewrite Ed in Hj; rewrite P4|by rewrite Eo in Hj].
Qed.

(** ** The end of a transition *)
Lemma filter_other t t' (ts : list target) : t' <> t -> t' ∈ filter (λ x, x <> t) ts <-> t' ∈ ts.
Proof. intros Hn. rewrite list_elem_of_filter. naive_solver. Qed.

(** Nothing waits for it. *)
Lemma end_unheard t s : screen_ok s ->
  match t with
  | Element d => closing (modals s d) = 0
  | Backdrop i => forall b, backdrops s !! i = Some b -> tasks b = []
  end -> screen_ok (set_timers (filter (λ x, x <> t) (timers s)) s).
Proof.
  intros H Ht. split.
  - intros d. destruct (so_phase s H d) as [p Hp]. exists p. apply (phase_frame d p s); try done.
    intros i Ei Hor Hc Hv Hb. apply ordered_filter; [|done]. intros ->. by specialize (Ht _ Hb).
  - apply (so_own s H).
  - apply (so_owned s H).
  - intros Hb. destruct (so_body s H Hb) as (d & p & Hp & Hn). exists d, p. split; [|done].
    apply (phase_frame d p s); try done.
    intros i Ei Hor Hc Hv Hbi. apply ordered_filter; [|done]. intros ->. by specialize (Ht _ Hbi).
  - intros d [_ Hin]%list_elem_of_filter. by apply (so_element s H).
  - intros i b Hi Hb. apply filter_other; [|by apply (so_task s H i b)]. intros <-. by destruct (Hb (Ht b Hi)).
  - intros d Hc. apply filter_other; [|by apply (so_closing s H)]. by intros <-.
  - apply (so_present s H).
  - apply (so_page s H).
Qed.

(** The dialog has faded out: its backdrop goes. *)
Lemma fade_state d i s : isShown (modals s d) = false -> closing (modals s d) = 1 -> own_backdrop (modals s d) = Some i ->
  let s' := transition_end (Element d) s in
  (forall d', modals s' d' = if decide (d' = d) then mkModalState false (Some i) false 0 else modals s d')
  /\ backdrops s' = alter (λ b, mkBackdrop (attached b) (tasks b ++ [RemoveOf d])) i (backdrops s)
  /\ timers s' = filter (λ t, t <> Element d) (timers s) ++ [Backdrop i]
  /\ body_open s' = body_open s /\ loaded s' = loaded s.
Proof.
  intros E1 E2 E3. cbn [transition_end set_timers modals]. rewrite E2. cbn [Nat.iter].
  unfold hideModal, backdrop. cbn. rewrite !decide_True by done. cbn. rewrite E1, E3.
  split; [|done]. intros d'. cbn. destruct (decide (d' = d)); [|done].
  unfold put_visible, put_closing. cbn. by rewrite E1, E3.
Qed.

Lemma fade_ok d s : screen_ok s -> at_phase d Fading s -> screen_ok (transition_end (Element d) s).
Proof.
  intros H (P1 & P2 & (i & b0 & P3 & P4 & P5)). destruct (fade_state d i s P1 P2 P3) as (Em & E1 & E2 & E3 & E4).
  set (s' := transition_end (Element d) s) in *.
  assert (forall d', d' <> d -> modals s' d' = modals s d') as Eo by (intros d' Hx; by rewrite Em, decide_False).
  assert (modals s' d = mkModalState false (Some i) false 0) as Ed by (by rewrite Em, decide_True).
  assert (forall d', present d' s' = present d' s) as Ep by (intros d'; by apply present_loaded).
  assert (forall d', gone d' s' = gone d' s) as Eg by (intros d'; by apply gone_loaded).
  assert (forall j, j <> i -> backdrops s' !! j = backdrops s !! j) as Eb
    by (intros j Hj; rewrite E1; by apply list_lookup_alter_ne).
  assert (backdrops s' !! i = Some (mkBackdrop (attached b0) [RemoveOf d])) as Ei
    by (rewrite E1, list_lookup_alter_eq, P4; cbn; by rewrite P5).
  assert (at_phase d Removing s') as Hr.
  { unfold at_phase. rewrite Ed. split_and!; try done. by exists i, (mkBackdrop (attached b0) [RemoveOf d]). }
  split.
  - intros d'. destruct (decide (d' = d)) as [->|Hx]; [by exists Removing|].
    destruct (so_phase s H d') as [q Hq]. exists q. apply (phase_frame d' q s); [by apply Eo| | |done].
    + intros j Ej. apply Eb. intros ->. by apply Hx, (so_own s H _ _ i).
    + intros j _ Hor _ _ _. rewrite E2. by apply ordered_app, ordered_filter.
  - intros d1 d2 j F1 F2. apply (so_own s H _ _ j).
    + destruct (decide (d1 = d)) as [->|]; [rewrite Ed in F1; by rewrite P3|by rewrite Eo in F1].
    + destruct (decide (d2 = d)) as [->|]; [rewrite Ed in F2; by rewrite P3|by rewrite Eo in F2].
  - intros j b Hj Hb. destruct (decide (j = i)) as [->|Hji]; [exists d; by rewrite Ed|].
    rewrite Eb in Hj by done. destruct (so_owned s H j b Hj Hb) as [d' Hd']. exists d'. rewrite Eo; [done|]. congruence.
  - intros _. by exists d, Removing.
  - intros d' Hin. rewrite E2, elem_of_app in Hin. rewrite Eg.
    destruct Hin as [[Hn Hin]%list_elem_of_filter|Hin]; [|by apply list_elem_of_singleton in Hin].
    assert (d' <> d) by congruence. rewrite Eo by done. by apply (so_element s H).
  - intros j b Hj Hb. rewrite E2. apply elem_of_app. destruct (decide (j = i)) as [->|Hji]; [right; by left|left].
    apply filter_other; [done|]. rewrite Eb in Hj by done. by apply (so_task s H j b).
  - intros d' Hc. rewrite E2. apply elem_of_app. left. assert (d' <> d) as Hx by (intros ->; by rewrite Ed in Hc).
    apply filter_other; [congruence|]. apply (so_closing s H). by rewrite <- Eo.
  - intros d' Hd'. rewrite Ep in Hd'. assert (d' <> d) as Hx.
    { intros ->. rewrite (so_present s H d Hd') in P2. done. }
    rewrite Eo by done. by apply H.
  - intros d' j b Ha Hj Hb. destruct (decide (d' = d)) as [->|Hx].
    + rewrite Ed in Hj. injection Hj as <-. rewrite Ei in Hb. injection Hb as <-. by apply (so_page s H d i b0).
    + rewrite Eo in Hj by done. rewrite Eb in Hb; [by apply (so_page s H d' j)|]. intros ->. by apply Hx, (so_own s H _ _ i).
Qed.

(** The end of a transition of a backdrop changes its dialog alone. *)
Lemma backdrop_ok d i b m' s s' p : screen_ok s -> own_backdrop (modals s d) = Some i ->
  (forall d', modals s' d' = if decide (d' = d) then m' else modals s d') ->
  (forall j, backdrops s' !! j = if decide (j = i) then Some b else backdrops s !! j) -> tasks b = [] ->
  timers s' = filter (λ t, t <> Backdrop i) (timers s) -> loaded s' = loaded s ->
  (own_backdrop m' = Some i /\ (exists b0, backdrops s !! i = Some b0 /\ attached b = attached b0)
   \/ own_backdrop m' = None /\ attached b = false) ->
  at_phase d p s' -> (body_open s' = true -> p <> Idle) -> closing m' = closing (modals s d) ->
  screen_ok s'.
Proof.
  intros H P1 Em Eb Etb E2 E4 Hown Hp Hbody Hcl.
  assert (forall d', d' <> d -> modals s' d' = modals s d') as Eo by (intros d' Hx; by rewrite Em, decide_False).
  assert (modals s' d = m') as Ed by (by rewrite Em, decide_True).
  assert (forall d', present d' s' = present d' s) as Ep by (intros d'; by apply present_loaded).
  assert (forall d', gone d' s' = gone d' s) as Eg by (intros d'; by apply gone_loaded).
  assert (forall d' j, own_backdrop (modals s' d') = Some j -> own_backdrop (modals s d') = Some j) as Hsame.
  { intros d' j. destruct (decide (d' = d)) as [->|Hx]; [|by rewrite Eo].
    rewrite Ed. destruct Hown as [[-> _]|[-> _]]; [by intros [= <-]|done]. }
  split.
  - intros d'. destruct (decide (d' = d)) as [->|Hx]; [by exists p|].
    destruct (so_phase s H d') as [q Hq]. exists q.
    assert (forall j, own_backdrop (modals s d') = Some j -> j <> i) as Hji.
    { intros j Ej ->. by apply Hx, (so_own s H _ _ i). }
    apply (phase_frame d' q s); [by apply Eo| | |done].
    + intros j Ej. rewrite Eb, decide_False; [done|by apply Hji].
    + intros j Ej Hor _ _ _. rewrite E2. apply ordered_filter; [|done]. intros [= ->]. by apply (Hji j).
  - intros d1 d2 j F1%Hsame F2%Hsame. by apply (so_own s H _ _ j).
  - intros j b' Hj Hb. rewrite Eb in Hj. destruct (decide (j = i)) as [->|Hji].
    + injection Hj as <-. destruct Hown as [[Ho _]|[Ho Ha]]; [exists d; by rewrite Ed|].
      destruct Hb. destruct b; cbn in *. congruence.
    + destruct (so_owned s H j b' Hj Hb) as [d' Hd']. exists d'. rewrite Eo; [done|]. congruence.
  - intros Hb. exists d, p. auto.
  - intros d' Hin. rewrite E2 in Hin. apply filter_other in Hin; [|done]. rewrite Eg.
    destruct (so_element s H d' Hin) as [Hc|]; [left|by right].
    destruct (decide (d' = d)) as [->|]; [by rewrite Ed, Hcl|by rewrite Eo].
  - intros j b' Hj Hb. rewrite Eb in Hj. destruct (decide (j = i)) as [->|Hji]; [congruence|].
    rewrite E2. apply filter_other; [congruence|]. by apply (so_task s H j b').
  - intros d' Hc. rewrite E2. apply filter_other; [done|]. apply (so_closing s H).
    destruct (decide (d' = d)) as [->|]; [by rewrite <- Hcl, <- Ed|by rewrite <- Eo].
  - intros d' Hd'. rewrite Ep in Hd'. destruct (decide (d' = d)) as [->|]; [|rewrite Eo by done; by apply H].
    by rewrite (so_present s H d Hd') in P1.
  - intros d' j b' Ha Hj Hb. rewrite Eb in Hb. destruct (decide (j = i)) as [->|Hji].
    + injection Hb as <-. assert (d' = d) as -> by (by apply (so_own s H _ _ i); [apply Hsame|]).
      destruct Hown as [[_ (b0 & E5 & ->)]|[Ho _]]; [by apply (so_page s H d i)|]. rewrite Ed in Hj. congruence.
    + apply (so_page s H d' j b'); [done|by apply Hsame|done].
Qed.

Lemma lookup_insert_if {A} (l : list A) i j x y : l !! i = Some y ->
  <[i := x]> l !! j = if decide (j = i) then Some x else l !! j.
Proof.
  intros H. destruct (decide (j = i)) as [->|Hn]; [|by apply list_lookup_insert_ne].
  apply list_lookup_insert_eq. by apply lookup_lt_Some in H.
Qed.

Lemma appear_ok d i s : screen_ok s -> own_backdrop (modals s d) = Some i ->
  backdrops s !! i = Some (mkBackdrop true [Appear d]) -> screen_ok (transition_end (Backdrop i) s).
Proof.
  intros H P1 P2. unfold transition_end. cbn [backdrops set_timers]. rewrite P2. cbn [attached tasks foldl run_task].
  assert (exists p p', (p = Opening /\ p' = Open \/ p = Early /\ p' = Fading) /\ at_phase d p s) as (p & p' & Hp & P).
  { destruct (so_phase s H d) as [p P]. destruct p; unfold at_phase in P.
    - destruct P as (_ & _ & _ & [P|(j & b & F1 & F2 & ->)]); congruence.
    - by exists Opening, Open; split; [left|].
    - destruct P as (_ & _ & _ & (j & b & F1 & F2 & F3)). by simplify_eq.
    - by exists Early, Fading; split; [right|].
    - destruct P as (_ & _ & (j & b & F1 & F2 & F3)). by simplify_eq.
    - destruct P as (_ & _ & _ & (j & b & F1 & F2 & F3)). by simplify_eq. }
  apply (backdrop_ok d i (mkBackdrop true []) (put_visible true (modals s d)) s _ p'); try done.
  - intros j. cbn. by apply (lookup_insert_if _ _ _ _ _ P2).
  - left. split; [done|]. by exists (mkBackdrop true [Appear d]).
  - unfold at_phase. cbn. rewrite decide_True by done. cbn.
    assert (own_is (put_visible true (modals s d)) (<[i:=mkBackdrop true []]> (backdrops s)) (λ b, tasks b = [])) as Ho.
    { exists i, (mkBackdrop true []). split_and!; try done. rewrite (lookup_insert_if _ _ _ _ _ P2). by rewrite decide_True. }
    destruct Hp as [[-> ->]|[-> ->]]; destruct P as (? & ? & ? & _); by split_and!.
  - intros _. by destruct Hp as [[_ ->]|[_ ->]].
Qed.

Lemma remove_ok d i b s : screen_ok s -> own_backdrop (modals s d) = Some i ->
  backdrops s !! i = Some b -> tasks b = [RemoveOf d] -> screen_ok (transition_end (Backdrop i) s).
Proof.
  intros H P1 P2 P3. unfold transition_end. cbn [backdrops set_timers]. rewrite P2, P3. cbn [foldl run_task].
  assert (isShown (modals s d) = false /\ visible (modals s d) = false /\ closing (modals s d) = 0) as (Q1 & Q2 & Q3).
  { destruct (so_phase s H d) as [p P]. destruct p; unfold at_phase in P.
    - destruct P as (_ & _ & _ & [P|(j & b' & F1 & F2 & ->)]); simplify_eq; by rewrite ?P3 in *.
    - destruct P as (_ & _ & _ & (j & b' & F1 & F2 & ->)). by simplify_eq.
    - destruct P as (_ & _ & _ & (j & b' & F1 & F2 & F3)). simplify_eq. congruence.
    - destruct P as (_ & _ & _ & (j & b' & F1 & F2 & ->) & _). by simplify_eq.
    - destruct P as (_ & _ & (j & b' & F1 & F2 & F3)). simplify_eq. congruence.
    - by destruct P as (? & ? & ? & _). }
  unfold removeBackdrop. cbn [modals set_backdrops set_timers]. rewrite P1.
  apply (backdrop_ok d i (mkBackdrop false []) (put_own None (modals s d)) s _ Idle); try done.
  - intros j. cbn. destruct (decide (j = i)) as [->|Hn].
    + rewrite list_lookup_alter_eq, list_lookup_insert_eq; [done|]. by apply lookup_lt_Some in P2.
    + rewrite list_lookup_alter_ne by done. by apply list_lookup_insert_ne.
  - by right.
  - unfold at_phase. cbn. rewrite decide_True by done. cbn. split_and!; try done. by left.
Qed.

Lemma backdrop_end_ok i s : screen_ok s -> screen_ok (transition_end (Backdrop i) s).
Proof.
  intros H. destruct (backdrops s !! i) as [b|] eqn:Ei.
  2:{ unfold transition_end. cbn [backdrops set_timers]. rewrite Ei. apply end_unheard; [done|]. intros b. by rewrite Ei. }
  destruct (decide (tasks b = [])) as [Et|Et].
  { unfold transition_end. cbn [backdrops set_timers]. rewrite Ei, Et. cbn [foldl].
    assert (<[i := mkBackdrop (attached b) []]> (backdrops s) = backdrops s) as E.
    { apply list_insert_id. rewrite Ei. destruct b; cbn in *. by subst. }
    unfold set_backdrops. cbn. rewrite E. apply (end_unheard (Backdrop i) s); [done|]. intros b'. rewrite Ei. by intros [= <-]. }
  destruct (so_owned s H i b Ei) as [d Hd]; [by intros ->|].
  destruct (so_phase s H d) as [p P].
  assert (forall Q, own_is (modals s d) (backdrops s) Q -> Q b) as Ho.
  { intros Q (j & b' & E1 & E2 & HQ). by simplify_eq. }
  destruct p; unfold at_phase in P.
  - destruct P as (_ & _ & _ & [P|P]); [congruence|]. apply Ho in P. by subst.
  - destruct P as (_ & _ & _ & P). apply Ho in P as ->. by apply (appear_ok d).
  - by destruct P as (_ & _ & _ & P%Ho).
  - destruct P as (_ & _ & _ & P & _). apply Ho in P as ->. by apply (appear_ok d).
  - by destruct P as (_ & _ & P%Ho).
  - destruct P as (_ & _ & _ & P). apply Ho in P. by apply (remove_ok d i b).
Qed.

(** The end of a transition of a dialog, once it has appeared. *)
Lemma element_end_ok d s : screen_ok s -> ~ at_phase d Early s -> screen_ok (transition_end (Element d) s).
Proof.
  intros H Hn. destruct (so_phase s H d) as [p P]. destruct (decide (closing (modals s d) = 0)) as [E|E].
  - cbn [transition_end set_timers modals]. rewrite E. cbn [Nat.iter].
    assert (forall d', modals (set_dialog d (put_closing 0 (modals s d)) (set_timers (filter (λ t', t' ≠ Element d) (timers s)) s)) d'
                       = modals s d') as Em.
    { intros d'. cbn. destruct (decide (d' = d)) as [->|]; [|done]. unfold put_closing. destruct (modals s d); cbn in *. by subst. }
    destruct (end_unheard (Element d) s H E) as [H1 H2 H3 H4 H5 H6 H7 H8 H9].
    assert (forall d' q, at_phase d' q (set_timers (filter (λ x, x ≠ Element d) (timers s)) s) ->
      at_phase d' q (set_dialog d (put_closing 0 (modals s d)) (set_timers (filter (λ t', t' ≠ Element d) (timers s)) s))) as Hf
      by (intros d' q; apply phase_frame; [by rewrite Em|done..]).
    split.
    + intros d'. destruct (H1 d') as [q Hq]. exists q. by apply Hf.
    + intros d1 d2 i. rewrite !Em. apply H2.
    + intros i b Hi Hb. destruct (H3 i b Hi Hb) as [d' Hd']. exists d'. by rewrite Em.
    + intros Hb. destruct (H4 Hb) as (d' & q & Hq & Hx). exists d', q. by split; [apply Hf|].
    + intros d' Hin. rewrite Em. by apply H5.
    + apply H6.
    + intros d'. rewrite Em. apply H7.
    + intros d' Hd'. rewrite Em. by apply H8.
    + intros d' i b Ha. rewrite Em. by apply H9.
  - destruct p; try by destruct P as (_ & _ & ? & _).
    + by destruct Hn.
    + by apply fade_ok.
Qed.

(** An early end does not come: the dialog is not on the screen, and the timer of the
    backdrop goes before. *)
Lemma timer_not_early d j s : timers s !! j = Some (Element d) -> due j (timers s) = true -> ~ at_phase d Early s.
Proof.
  unfold due. intros Hl. rewrite Hl. intros Hj%Nat.eqb_eq P. subst j.
  destruct P as (_ & _ & _ & (i & b & E1 & _) & Ho). destruct (Ho i E1) as (l1 & l2 & E & Hn).
  rewrite E in Hl. destruct l1 as [|t l1]; [done|]. injection Hl as ->. by destruct Hn; left.
Qed.

(** ** Another page is loaded *)
Lemma removed_lookup i bs : remove_backdrops bs !! i
  = (λ b, if attached b then mkBackdrop false [] else b) <$> bs !! i.
Proof. apply list_lookup_fmap. Qed.

Lemma removed_same i b bs : bs !! i = Some b -> exists b', remove_backdrops bs !! i = Some b' /\ attached b' = false
  /\ (tasks b = [] -> tasks b' = []) /\ (attached b = false -> b' = b) /\ (attached b = true -> b' = mkBackdrop false []).
Proof.
  intros E. rewrite removed_lookup, E. cbn. destruct b as [[] ts]; eexists; by split_and!.
Qed.

Lemma load_phase p s : at_phase Alert p s -> p <> Opening ->
  exists p', at_phase Alert p' (template_loaded_in s) /\ (p' <> Idle -> p <> Idle).
Proof.
  intros P Hn. assert (forall P : backdrop_state -> Prop, own_is (modals s Alert) (backdrops s) P ->
    exists i b b', own_backdrop (modals s Alert) = Some i /\ P b /\ remove_backdrops (backdrops s) !! i = Some b'
      /\ attached b' = false /\ (tasks b = [] -> tasks b' = []) /\ (attached b = false -> b' = b)
      /\ (attached b = true -> b' = mkBackdrop false [])) as Ho.
  { intros Q (i & b & E1 & E2 & HQ). destruct (removed_same i b _ E2) as (b' & F). by exists i, b, b'. }
  destruct p; unfold at_phase in P.
  - destruct P as (? & ? & ? & P). exists Idle. split; [|done]. unfold at_phase. cbn. split_and!; try done.
    destruct P as [P|P]; [by left|right]. destruct (Ho _ P) as (i & b & b' & F1 & -> & F3 & F4 & F5 & F6 & F7).
    exists i, b'. split_and!; [done|done|]. by rewrite F6.
  - done.
  - destruct P as (? & ? & ? & P). destruct (Ho _ P) as (i & b & b' & F1 & F2 & F3 & F4 & F5 & F6 & F7).
    exists Open. split; [|done]. unfold at_phase. cbn. split_and!; try done. exists i, b'. auto.
  - destruct P as (? & ? & ? & P & _). destruct (Ho _ P) as (i & b & b' & F1 & -> & F3 & F4 & F5 & F6 & F7).
    exists Fading. split; [|done]. unfold at_phase. cbn. split_and!; try done. exists i, b'. split_and!; [done|done|]. by rewrite F7.
  - destruct P as (? & ? & P). destruct (Ho _ P) as (i & b & b' & F1 & F2 & F3 & F4 & F5 & F6 & F7).
    exists Fading. split; [|done]. unfold at_phase. cbn. split_and!; try done. exists i, b'. auto.
  - destruct P as (? & ? & ? & P). destruct (Ho _ P) as (i & b & b' & F1 & F2 & F3 & F4 & F5 & F6 & F7).
    destruct (attached b) eqn:Ea; [exists Idle|exists Removing]; (split; [|done]); unfold at_phase; cbn; split_and!; try done.
    + right. exists i, b'. split_and!; [done|done|]. by rewrite F7.
    + exists i, b'. split_and!; [done|done|]. by rewrite F6.
Qed.

Lemma load_ok s : screen_ok s -> ~ at_phase Alert Opening s -> screen_ok (template_loaded_in s).
Proof.
  intros H Hn. split.
  - intros [|l k]; [|by exists Idle; apply new_idle]. destruct (so_phase s H Alert) as [p P].
    destruct (load_phase p s P) as (p' & P' & _); [by intros ->|by exists p'].
  - intros [|l k] [|l' k'] i; cbn; done.
  - intros i b. cbn. rewrite removed_lookup. destruct (backdrops s !! i) as [b0|] eqn:E; [|done]. cbn.
    intros [= <-] Hb. destruct (attached b0) eqn:Ea; [done|].
    destruct (so_owned s H i b0 E Hb) as [[|l k] Hd]; [by exists Alert|].
    by rewrite (so_page s H (Dialog l k) i b0) in Ea.
  - done.
  - intros [|l k] Hin; change (timers (template_loaded_in s)) with (timers s) in Hin.
    + destruct (so_element s H Alert Hin) as [?|?]; [by left|done].
    + right. apply Nat.ltb_lt. cbn [loaded template_loaded_in].
      destruct (so_element s H (Dialog l k) Hin) as [Hc|Hp]; [|apply Nat.ltb_lt in Hp; lia].
      destruct (present (Dialog l k) s) eqn:Ep; [apply Nat.eqb_eq in Ep; lia|]. by rewrite (so_present s H) in Hc.
  - intros i b. cbn. rewrite removed_lookup. destruct (backdrops s !! i) as [b0|] eqn:E; [|done]. cbn.
    intros [= <-] Hb. destruct (attached b0); [done|]. by apply (so_task s H i b0).
  - intros [|l k]; [apply (so_closing s H Alert)|done].
  - intros [|l k] Hp; done.
  - intros [|l k]; done.
Qed.

(** ** Runs in which no dialog is shown while it closes *)
Definition fully_closed (d : dialog_id) (s : screen) : bool :=
  (closing (modals s d) =? 0)%nat
  && match own_backdrop (modals s d) ≫= λ i, backdrops s !! i with
     | Some b => match tasks b with [] => true | _ => false end
     | None => true
     end.

Definition gentle (e : event) (s : screen) : bool :=
  match e with
  | Show d => isShown (modals s d) || fully_closed d s
  | PageLoaded => negb (isShown (modals s Alert) && negb (visible (modals s Alert)))
  | _ => true
  end.

Fixpoint gentle_run (es : list event) (s : screen) : bool :=
  match es with [] => true | e :: es => gentle e s && gentle_run es (step_screen s e) end.

Lemma step_screen_ok e s : screen_ok s -> gentle e s = true -> screen_ok (step_screen s e).
Proof.
  intros H Hg. destruct e as [d|d|t|j|]; cbn [step_screen].
  - destruct (present d s) eqn:Ep; [|done]. cbn in Hg. destruct (isShown (modals s d)) eqn:Es; [unfold show; by rewrite Es|].
    apply show_ok; [done..|]. apply andb_true_iff in Hg as [Hc%Nat.eqb_eq Hg].
    destruct (so_phase s H d) as [p P]. destruct (phase_idle d p s P Es Hc) as [->| ->]; [done|].
    destruct P as (_ & _ & _ & (i & b & E1 & E2 & E3)). rewrite E1 in Hg. cbn in Hg. by rewrite E2, E3 in Hg.
  - destruct (present d s) eqn:Ep; [|done]. destruct (isShown (modals s d)) eqn:Es; [by apply hide_ok|].
    unfold hide. by rewrite Es.
  - destruct (on_screen t s) eqn:Eo; [|done]. destruct t as [d|i]; [|by apply backdrop_end_ok].
    apply element_end_ok; [done|]. intros (_ & Hv & _). cbn in Eo. congruence.
  - destruct (due j (timers s)) eqn:Ed; [|done]. destruct (timers s !! j) as [[d|i]|] eqn:Ej; [| |done].
    + apply element_end_ok; [done|]. by apply (timer_not_early d j).
    + by apply backdrop_end_ok.
  - apply load_ok; [done|]. intros (E1 & E2 & _). cbn in Hg. by rewrite E1, E2 in Hg.
Qed.

Lemma run_screen_ok es s : screen_ok s -> gentle_run es s = true -> screen_ok (foldl step_screen s es).
Proof.
  revert s. induction es as [|e es IH]; intros s H Hg; [done|]. cbn in Hg. apply andb_true_iff in Hg as [H1 H2].
  cbn. apply IH; [by apply step_screen_ok|done].
Qed.

(** ** Coming to rest *)
Fixpoint weight (ts : list target) : nat :=
  match ts with [] => 0 | Element _ :: ts => 2 + weight ts | Backdrop _ :: ts => 1 + weight ts end.

Lemma weight_app a b : weight (a ++ b) = weight a + weight b.
Proof. induction a as [|[] a IH]; cbn; lia. Qed.

Lemma weight_filter t ts : weight (filter (λ x, x <> t) ts) <= weight ts.
Proof.
  induction ts as [|x ts IH]; [done|]. rewrite filter_cons. case_decide; destruct x; cbn; lia.
Qed.

Lemma weight_filter_head t ts : weight (filter (λ x, x <> t) (t :: ts)) + weight [t] <= weight (t :: ts).
Proof.
  rewrite filter_cons, decide_False by auto. pose proof (weight_filter t ts). destruct t; cbn in *; lia.
Qed.

Lemma backdrop_end_same i s d : let s' := transition_end (Backdrop i) s in
  timers s' = filter (λ x, x <> Backdrop i) (timers s) /\ isShown (modals s' d) = isShown (modals s d).
Proof.
  unfold transition_end. destruct (backdrops (set_timers _ s) !! i) as [b|]; [|done].
  set (s1 := set_backdrops _ _).
  assert (timers s1 = filter (λ x, x <> Backdrop i) (timers s) /\ isShown (modals s1 d) = isShown (modals s d)) as [E1 E2] by done.
  rewrite <- E1, <- E2. generalize (tasks b). intros ts. clearbody s1. clear. revert s1.
  induction ts as [|t ts IH]; intros s1; [done|]. cbn [foldl]. destruct (IH (run_task s1 t)) as [F1 F2].
  rewrite F1, F2. destruct t as [x|x|x]; cbn.
  - by destruct (decide (d = x)) as [->|].
  - unfold removeBackdrop. destruct (own_backdrop (modals s1 x)); cbn; by destruct (decide (d = x)) as [->|].
  - done.
Qed.

Lemma timer_rest s t ts d : screen_ok s -> timers s = t :: ts ->
  let s' := step_screen s (Timer 0) in
  weight (timers s') < weight (timers s) /\ isShown (modals s' d) = isShown (modals s d).
Proof.
  intros H Et. cbn [step_screen]. assert (due 0 (timers s) = true) as Hd by (rewrite Et; by destruct t).
  rewrite Hd, Et. cbn [lookup list_lookup]. pose proof (weight_filter_head t ts) as Hw. rewrite <- Et in Hw |- *.
  destruct t as [d'|i].
  - destruct (so_phase s H d') as [p P].
    assert (~ at_phase d' Early s) as Hn by (apply (timer_not_early d' 0); [by rewrite Et|done]).
    destruct (decide (closing (modals s d') = 0)) as [Ec|Ec].
    + cbn [transition_end set_timers modals]. rewrite Ec. cbn. split; [cbn in Hw; lia|].
      by destruct (decide (d = d')) as [->|].
    + assert (p = Fading) as -> by (destruct p; unfold at_phase in P; destruct_and?; try done; by destruct Hn; split_and!).
      destruct P as (P1 & P2 & (i & b & P3 & P4 & P5)). destruct (fade_state d' i s P1 P2 P3) as (E1 & _ & E2 & _).
      rewrite E2, weight_app, E1. split; [cbn in Hw |- *; lia|]. by destruct (decide (d = d')) as [->|].
  - destruct (backdrop_end_same i s d) as [E1 E2]. rewrite E1, E2. split; [cbn in Hw; lia|done].
Qed.

Lemma comes_to_rest n s : weight (timers s) <= n -> screen_ok s ->
  exists k, k <= n /\ let s' := foldl step_screen s (repeat (Timer 0) k) in
  timers s' = [] /\ screen_ok s' /\ forall d, isShown (modals s' d) = isShown (modals s d).
Proof.
  revert s. induction n as [|n IH]; intros s Hn H; destruct (timers s) as [|t ts] eqn:Et;
    try (exists 0; cbn; by split_and!; [lia|..]).
  - destruct t; cbn in Hn; lia.
  - rewrite <- Et in Hn. destruct (IH (step_screen s (Timer 0))) as (k & Hk & E1 & E2 & E3).
    + destruct (timer_rest s t ts Alert H Et). lia.
    + by apply step_screen_ok.
    + exists (S k). split; [lia|]. cbn [repeat foldl]. split_and!; [done..|]. intros d. rewrite E3.
      by apply (timer_rest s t ts).
Qed.

Lemma at_rest s : screen_ok s -> timers s = [] ->
  (forall d, visible (modals s d) = isShown (modals s d))
  /\ (forall i b, backdrops s !! i = Some b -> attached b = true ->
        exists d, isShown (modals s d) = true /\ own_backdrop (modals s d) = Some i)
  /\ ((forall d, isShown (modals s d) = false) -> body_open s = false).
Proof.
  intros H Et.
  assert (forall d, at_phase d Idle s \/ at_phase d Open s) as Hp.
  { intros d. destruct (so_phase s H d) as [p P].
    assert (closing (modals s d) = 0) as Ec by (destruct (decide (closing (modals s d) = 0)) as [|Hc];
      [done|apply (so_closing s H) in Hc; rewrite Et in Hc; by apply elem_of_nil in Hc]).
    assert (forall Q, own_is (modals s d) (backdrops s) Q -> exists b, Q b /\ tasks b = []) as Ho.
    { intros Q (i & b & E1 & E2 & HQ). exists b. split; [done|]. destruct (tasks b) eqn:Eb; [done|].
      assert (Backdrop i ∈ timers s) as Hin by (apply (so_task s H i b); [done|by rewrite Eb]).
      rewrite Et in Hin. by apply elem_of_nil in Hin. }
    destruct p; [by left| |by right|..]; unfold at_phase in P.
    - destruct P as (_ & _ & _ & (b & -> & ?)%Ho). done.
    - destruct P as (_ & _ & ? & _). lia.
    - destruct P as (_ & ? & _). lia.
    - destruct P as (_ & _ & _ & (b & E & ?)%Ho). congruence. }
  split_and!.
  - intros d. destruct (Hp d) as [P|P]; destruct P as (E1 & E2 & _); by rewrite E1, E2.
  - intros i b Hi Ha. destruct (so_owned s H i b Hi) as [d Hd]; [by intros ->|]. exists d. split; [|done].
    destruct (Hp d) as [(_ & _ & _ & [E|(j & b' & E1 & E2 & ->)])|(E & _)]; [congruence| |done]. by simplify_eq.
  - intros Hs. destruct (body_open s) eqn:Eb; [|done]. destruct (so_body s H Eb) as (d & p & P & Hn).
    exfalso. destruct (Hp d) as [Q|(E & _)]; [|by rewrite Hs in E].
    destruct Q as (Q1 & Q2 & Q3 & Q4). destruct (phase_idle d p s P Q1 Q3) as [->| ->]; [done|].
    destruct P as (_ & _ & _ & (i & b & E1 & E2 & E3)).
    assert (Backdrop i ∈ timers s) as Hin by (apply (so_task s H i b); [done|by rewrite E3]).
    rewrite Et in Hin. by apply elem_of_nil in Hin.
Qed.

(** C38: dialogs that are shown, hidden, dismissed and interrupted in any order, as long
    as none is shown again while it closes and no page is loaded while the alert
    opens: once the timers have gone off, and they do, exactly the dialogs shown last
    are on the screen, every backdrop belongs to one of them, and with none of them
    the page is free. *)
Theorem dialogs_settle es : gentle_run es first_screen = true ->
  exists n, n <= weight (timers (run_screen es)) /\
  let s := run_screen (es ++ repeat (Timer 0) n) in
  timers s = []
  /\ (forall d, isShown (modals s d) = isShown (modals (run_screen es) d) /\ visible (modals s d) = isShown (modals s d))
  /\ (forall i b, backdrops s !! i = Some b -> attached b = true ->
        exists d, isShown (modals s d) = true /\ own_backdrop (modals s d) = Some i)
  /\ ((forall d, isShown (modals s d) = false) -> body_open s = false).
Proof.
  intros Hg. assert (screen_ok (run_screen es)) as H by (by apply run_screen_ok; [apply first_ok|]).
  destruct (comes_to_rest _ (run_screen es) (Nat.le_refl _) H) as (n & Hn & E1 & E2 & E3).
  exists n. split; [done|]. unfold run_screen in *. rewrite foldl_app.
  destruct (at_rest _ E2 E1) as (F1 & F2 & F3). cbn zeta in *. split_and!; auto.
Qed.

(** ** A dialog shown again while it closes *)
Definition orphan (i : nat) (s : screen) : Prop :=
  (exists b, backdrops s !! i = Some b /\ attached b = true) /\ forall d, own_backdrop (modals s d) <> Some i.

Lemma orphan_same i s s' : (forall d, own_backdrop (modals s' d) = own_backdrop (modals s d)) ->
  (forall b, backdrops s !! i = Some b -> attached b = true -> exists b', backdrops s' !! i = Some b' /\ attached b' = true) ->
  orphan i s -> orphan i s'.
Proof. intros Eo Eb [(b & E1 & E2) Hn]. split; [by apply (Eb b)|]. intros d. by rewrite Eo. Qed.

Lemma alter_attached (f : backdrop_state -> backdrop_state) i j b (bs : list backdrop_state) : (forall b, attached (f b) = attached b) ->
  bs !! i = Some b -> attached b = true -> exists b', alter f j bs !! i = Some b' /\ attached b' = true.
Proof.
  intros Hf E1 E2. destruct (decide (j = i)) as [->|Hn].
  - exists (f b). rewrite list_lookup_alter_eq, E1. by rewrite Hf.
  - exists b. by rewrite list_lookup_alter_ne.
Qed.

Lemma orphan_task i s t : orphan i s -> orphan i (run_task s t).
Proof.
  intros H. destruct t as [d|d|d]; cbn; [|unfold removeBackdrop|by apply (orphan_same i s); [done|eauto|]].
  - apply (orphan_same i s); [|eauto|done]. intros d'. cbn. by destruct (decide (d' = d)) as [->|].
  - destruct H as [(b & E1 & E2) Hn]. destruct (own_backdrop (modals s d)) as [j|] eqn:Ej.
    + split.
      * exists b. cbn. rewrite list_lookup_alter_ne; [done|]. intros ->. by destruct (Hn d).
      * intros d'. cbn. destruct (decide (d' = d)); [done|apply Hn].
    + split; [by exists b|]. intros d'. cbn. destruct (decide (d' = d)); [done|apply Hn].
Qed.

Lemma orphan_backdrop i d c s : orphan i s -> orphan i (backdrop d c s).
Proof.
  intros [(b & E1 & E2) Hn]. unfold backdrop. destruct (isShown (modals s d)).
  - split.
    + exists b. cbn. rewrite lookup_app_l; [done|]. by apply lookup_lt_Some in E1.
    + intros d'. cbn. destruct (decide (d' = d)); [|apply Hn]. cbn. intros [= <-]. apply lookup_lt_Some in E1. lia.
  - destruct (own_backdrop (modals s d)) as [j|]; [|by apply orphan_task; split; [exists b|]].
    split; [|apply Hn]. by apply (alter_attached _ i j b).
Qed.

Lemma orphan_hideModal i d s : orphan i s -> orphan i (hideModal d s).
Proof.
  intros H. apply orphan_backdrop. apply (orphan_same i s); [|eauto|done].
  intros d'. cbn. by destruct (decide (d' = d)) as [->|].
Qed.

Lemma orphan_end i t s : orphan i s -> orphan i (transition_end t s).
Proof.
  intros H. unfold transition_end. set (s0 := set_timers _ s). assert (orphan i s0) as H0 by done. clearbody s0.
  destruct t as [d|j].
  - assert (orphan i (set_dialog d (put_closing 0 (modals s0 d)) s0)) as H1.
    { apply (orphan_same i s0); [|eauto|done]. intros d'. cbn. by destruct (decide (d' = d)) as [->|]. }
    induction (closing (modals s0 d)) as [|n IH]; [done|]. cbn. by apply orphan_hideModal.
  - destruct (backdrops s0 !! j) as [b|] eqn:Ej; [|done].
    assert (orphan i (set_backdrops (<[j := mkBackdrop (attached b) []]> (backdrops s0)) s0)) as H1.
    { apply (orphan_same i s0); [done| |done]. intros b' E1 E2. cbn. rewrite (lookup_insert_if _ _ _ _ _ Ej).
      destruct (decide (i = j)) as [->|]; [|by exists b']. exists (mkBackdrop (attached b) []). by simplify_eq. }
    revert H1. generalize (set_backdrops (<[j := mkBackdrop (attached b) []]> (backdrops s0)) s0).
    induction (tasks b) as [|t ts IH]; intros s1 H1; [done|]. cbn. by apply IH, orphan_task.
Qed.

Lemma orphan_step i e s : orphan i s -> e <> PageLoaded -> orphan i (step_screen s e).
Proof.
  intros H He. destruct e as [d|d|t|j|]; cbn [step_screen]; [| | | |done].
  - destruct (present d s); [|done]. unfold show. destruct (isShown (modals s d)); [done|]. apply orphan_backdrop.
    apply (orphan_same i s); [|eauto|done]. intros d'. cbn. by destruct (decide (d' = d)) as [->|].
  - destruct (present d s); [|done]. unfold hide. destruct (isShown (modals s d)); [|done].
    apply (orphan_same i s); [|eauto|done]. intros d'. cbn. by destruct (decide (d' = d)) as [->|].
  - destruct (on_screen t s); [by apply orphan_end|done].
  - destruct (due j (timers s)); [|done]. destruct (timers s !! j); [by apply orphan_end|done].
Qed.

Lemma orphan_run i es s : orphan i s -> Forall (λ e, e <> PageLoaded) es -> orphan i (foldl step_screen s es).
Proof.
  intros H He. revert s H. induction He as [|e es He Hes IH]; intros s H; [done|]. cbn. by apply IH, orphan_step.
Qed.

(** C40: a dialog that is hidden and shown again before it has faded out leaves its
    first backdrop behind: nothing removes it any more, and it covers the page, until
    another page is loaded. *)
Theorem reopened_blocks_page es es' d i b :
  let s := run_screen es in
  gentle_run es first_screen = true -> present d s = true -> isShown (modals s d) = true ->
  own_backdrop (modals s d) = Some i -> backdrops s !! i = Some b -> attached b = true ->
  Forall (λ e, e <> PageLoaded) es' ->
  exists b', backdrops (run_screen (es ++ Hide d :: Show d :: es')) !! i = Some b' /\ attached b' = true.
Proof.
  intros s Hg Hp Hs Ho Hb Ha He. assert (screen_ok s) as H by (by apply run_screen_ok; [apply first_ok|]).
  assert (run_screen (es ++ Hide d :: Show d :: es')
    = foldl step_screen (step_screen (step_screen s (Hide d)) (Show d)) es') as ->
    by (unfold run_screen; by rewrite foldl_app).
  cbn [step_screen]. rewrite Hp. assert (present d (hide d s) = true) as -> by (unfold hide; by rewrite Hs).
  set (s1 := hide d s). assert (isShown (modals s1 d) = false) as E1.
  { unfold s1, hide. rewrite Hs. cbn. by rewrite decide_True. }
  destruct (show_rest d s1 E1) as (E2 & _). pose proof (show_modals d) as Em.
  assert (backdrops s1 = backdrops s /\ forall d', own_backdrop (modals s1 d') = own_backdrop (modals s d')) as [E3 E4].
  { unfold s1, hide. rewrite Hs. split; [done|]. intros d'. cbn. by destruct (decide (d' = d)) as [->|]. }
  apply orphan_run; [|done]. pose proof (lookup_lt_Some _ _ _ Hb) as Hi. split.
  - exists b. rewrite E2, E3, lookup_app_l; [done|]. lia.
  - intros d'. rewrite Em by done. destruct (decide (d' = d)) as [->|Hx]; cbn.
    + intros [= <-]. rewrite E3 in Hi. lia.
    + rewrite E4. intros Hd'. by apply Hx, (so_own s H _ _ i).
Qed.

(** ** A page loaded while the alert opens *)
Record alert_gone (s : screen) : Prop := {
  ag_shown : isShown (modals s Alert) = true;
  ag_hidden : visible (modals s Alert) = false;
  ag_closing : closing (modals s Alert) = 0;
  ag_tasks : forall i b, backdrops s !! i = Some b -> Appear Alert ∉ tasks b;
}.

Lemma alert_same s s' : modals s' Alert = modals s Alert ->
  (forall i b, backdrops s' !! i = Some b -> Appear Alert ∈ tasks b -> exists j b', backdrops s !! j = Some b' /\ Appear Alert ∈ tasks b') ->
  alert_gone s -> alert_gone s'.
Proof.
  intros Em Eb [H1 H2 H3 H4]. split; rewrite ?Em; try done. intros i b Hi Hin.
  destruct (Eb i b Hi Hin) as (j & b' & Hj & Hin'). by apply (H4 j b').
Qed.

Lemma alter_tasks (f : backdrop_state -> backdrop_state) i j b (bs : list backdrop_state) :
  (forall b, Appear Alert ∈ tasks (f b) -> Appear Alert ∈ tasks b) ->
  alter f j bs !! i = Some b -> Appear Alert ∈ tasks b -> exists k b', bs !! k = Some b' /\ Appear Alert ∈ tasks b'.
Proof.
  intros Hf E Hin. destruct (decide (j = i)) as [->|Hn].
  - rewrite list_lookup_alter_eq in E. destruct (bs !! i) as [b0|] eqn:E0; [|done]. injection E as <-.
    exists i, b0. auto.
  - rewrite list_lookup_alter_ne in E by done. by exists i, b.
Qed.

(** The same dialog but for its backdrop. *)
Definition same_but_own (m m' : modal_state) : Prop :=
  isShown m' = isShown m /\ visible m' = visible m /\ closing m' = closing m.

Lemma alert_kept s s' : same_but_own (modals s Alert) (modals s' Alert) ->
  (forall i b, backdrops s' !! i = Some b -> Appear Alert ∈ tasks b -> exists j b', backdrops s !! j = Some b' /\ Appear Alert ∈ tasks b') ->
  alert_gone s -> alert_gone s'.
Proof.
  intros (E1 & E2 & E3) Eb [H1 H2 H3 H4]. split; [congruence..|]. intros i b Hi Hin.
  destruct (Eb i b Hi Hin) as (j & b' & Hj & Hin'). by apply (H4 j b').
Qed.

Lemma same_own d m s : same_but_own (modals s d) m -> same_but_own (modals s Alert) (modals (set_dialog d m s) Alert).
Proof. intros H. cbn. by destruct (decide (Alert = d)) as [->|]. Qed.

Lemma own_kept o m : same_but_own m (put_own o m).
Proof. by split_and!. Qed.

Lemma alert_task s t : t <> Appear Alert -> alert_gone s -> alert_gone (run_task s t).
Proof.
  intros Ht H. destruct t as [d|d|d]; cbn [run_task].
  - apply (alert_kept s); [|eauto|done]. cbn. destruct (decide (Alert = d)) as [<-|]; [done|done].
  - apply (alert_kept (removeBackdrop d s)); [done|eauto|]. unfold removeBackdrop.
    destruct (own_backdrop (modals s d)) as [j|].
    + apply (alert_kept s); [apply (same_own d _ (set_backdrops _ s)), own_kept| |done]. intros i b Hi Hin.
      apply (alter_tasks (λ _, mkBackdrop false []) i j b (backdrops s)); [|done|done]. intros b' Hb'. by apply elem_of_nil in Hb'.
    + apply (alert_kept s); [apply same_own, own_kept|eauto|done].
  - by apply (alert_kept s); [|eauto|].
Qed.

Lemma alert_other d m s : d <> Alert -> alert_gone s -> alert_gone (set_dialog d m s).
Proof. intros Hd H. apply (alert_kept s); [cbn; by rewrite decide_False|eauto|done]. Qed.

Lemma alert_backdrop d c s : c <> Appear Alert -> alert_gone s -> alert_gone (backdrop d c s).
Proof.
  intros Hc H. unfold backdrop. destruct (isShown (modals s d)).
  - pose proof H as [_ _ _ H4]. destruct H as [H1 H2 H3 _].
    assert (same_but_own (modals s Alert)
      (modals (set_dialog d (put_own (Some (length (backdrops s))) (modals s d)) s) Alert)) as (E1 & E2 & E3)
      by apply same_own, own_kept.
    split; [by rewrite <- H1, <- E1|by rewrite <- H2, <- E2|by rewrite <- H3, <- E3|].
    intros i b Hi Hin. cbn in Hi. apply lookup_app_Some in Hi as [Hi|[_ Hi]]; [by apply (H4 i b)|].
    apply list_lookup_singleton_Some in Hi as [_ <-]. apply list_elem_of_singleton in Hin. congruence.
  - destruct (own_backdrop (modals s d)) as [j|]; [|by apply alert_task].
    apply (alert_kept s); [done| |done]. intros i b Hi Hin.
    apply (alter_tasks (λ b, mkBackdrop (attached b) (tasks b ++ [RemoveOf d])) i j b (backdrops s)); [|done|done].
    intros b' [Hb|Hb]%elem_of_app; [done|]. by apply list_elem_of_singleton in Hb.
Qed.

Lemma alert_end t s : alert_gone s -> alert_gone (transition_end t s).
Proof.
  intros H. unfold transition_end. set (s0 := set_timers _ s). assert (alert_gone s0) as H0 by (by apply (alert_kept s); [|eauto|]).
  clearbody s0. destruct t as [d|j].
  - destruct (decide (d = Alert)) as [->|Hd].
    + pose proof H0 as [_ _ Hc _]. rewrite Hc. cbn [Nat.iter]. apply (alert_kept s0); [|eauto|done].
      apply same_own. by split_and!.
    + assert (alert_gone (set_dialog d (put_closing 0 (modals s0 d)) s0)) as H1 by by apply alert_other.
      induction (closing (modals s0 d)) as [|n IH]; [done|]. cbn [Nat.iter nat_rect]. unfold hideModal.
      apply alert_backdrop; [done|]. by apply alert_other.
  - destruct (backdrops s0 !! j) as [b|] eqn:Ej; [|done]. pose proof H0 as [_ _ _ H4].
    assert (alert_gone (set_backdrops (<[j := mkBackdrop (attached b) []]> (backdrops s0)) s0)) as H1.
    { apply (alert_kept s0); [done| |done]. intros i b' Hi Hin. cbn in Hi.
      rewrite (lookup_insert_if _ _ _ _ _ Ej) in Hi. destruct (decide (i = j)); [|by exists i, b'].
      injection Hi as <-. by apply elem_of_nil in Hin. }
    assert (Appear Alert ∉ tasks b) as Hb by (by apply (H4 j)).
    revert H1. generalize (set_backdrops (<[j := mkBackdrop (attached b) []]> (backdrops s0)) s0). clear -Hb.
    induction (tasks b) as [|t ts IH]; intros s1 H1; [done|]. cbn [foldl].
    apply not_elem_of_cons in Hb as [Hb1 Hb2]. by apply IH, alert_task.
Qed.

Lemma alert_step e s : e <> Hide Alert -> alert_gone s -> alert_gone (step_screen s e).
Proof.
  intros He H. destruct e as [d|d|t|j|]; cbn [step_screen].
  - destruct (present d s); [|done]. unfold show. destruct (isShown (modals s d)) eqn:Ed; [done|].
    assert (d <> Alert) as Hd by (intros ->; pose proof (ag_shown s H); congruence).
    apply alert_backdrop; [congruence|]. apply (alert_kept (set_dialog d (put_isShown true (modals s d)) s)); [done|eauto|].
    by apply alert_other.
  - destruct (present d s); [|done]. unfold hide. destruct (isShown (modals s d)); [|done].
    assert (d <> Alert) as Hd by congruence.
    apply (alert_kept (set_dialog d (put_closing (S (closing (modals s d))) (put_isShown false (modals s d))) s)); [done|eauto|].
    by apply alert_other.
  - destruct (on_screen t s); [by apply alert_end|done].
  - destruct (due j (timers s)); [|done]. destruct (timers s !! j); [by apply alert_end|done].
  - apply (alert_kept s); [done| |done]. intros i b Hi Hin. cbn in Hi. rewrite removed_lookup in Hi.
    destruct (backdrops s !! i) as [b0|] eqn:E0; [|done]. cbn in Hi. injection Hi as <-.
    exists i, b0. split; [done|]. destruct (attached b0); [by apply elem_of_nil in Hin|done].
Qed.

(** C39: when a page is loaded right after a call of [alertMessage], before the alert
    appears, it does not appear, and no later alert does, whatever is shown, hidden or
    loaded: it counts as shown, and is not there to be dismissed. *)
Theorem alert_lost es es' :
  let s := run_screen es in
  gentle_run es first_screen = true -> isShown (modals s Alert) = false -> fully_closed Alert s = true ->
  Forall (λ e, e <> Hide Alert) es' ->
  let s' := run_screen (es ++ Show Alert :: PageLoaded :: es') in
  isShown (modals s' Alert) = true /\ visible (modals s' Alert) = false.
Proof.
  intros s Hg Hs Hc He s'. assert (screen_ok s) as H by (by apply run_screen_ok; [apply first_ok|]).
  set (s1 := step_screen s (Show Alert)).
  assert (screen_ok s1) as H1 by (apply step_screen_ok; [done|]; cbn; by rewrite Hc, orb_true_r).
  destruct (show_rest Alert s Hs) as (E1 & _). pose proof (show_modals Alert Alert s Hs) as Em. cbn in Em.
  assert (visible (modals s Alert) = false /\ closing (modals s Alert) = 0) as [Hv Hcl].
  { apply andb_true_iff in Hc as [Hc%Nat.eqb_eq _]. split; [|done]. destruct (so_phase s H Alert) as [p P].
    destruct (phase_idle Alert p s P Hs Hc) as [->| ->]; by destruct P as (_ & ? & _). }
  assert (alert_gone (template_loaded_in s1)) as G.
  { split; try (cbn [template_loaded_in modals]; unfold s1; cbn [step_screen present]; rewrite Em; done).
    intros i b Hi Hin. change (remove_backdrops (backdrops s1) !! i = Some b) in Hi. rewrite removed_lookup in Hi.
    destruct (backdrops s1 !! i) as [b0|] eqn:E0; [|done]. cbn in Hi. injection Hi as <-.
    destruct (attached b0) eqn:Ea; [by apply elem_of_nil in Hin|].
    destruct (so_owned s1 H1 i b0 E0) as [[|l k] Hd]; [intros ->; by apply elem_of_nil in Hin| |].
    - unfold s1 in Hd, E0. cbn [step_screen present] in Hd, E0. rewrite Em in Hd. injection Hd as <-.
      rewrite E1, list_lookup_middle in E0 by done. injection E0 as <-. done.
    - by rewrite (so_page s1 H1 (Dialog l k) i b0) in Ea. }
  assert (alert_gone s') as G'; [|by destruct G'].
  unfold s', run_screen. rewrite foldl_app. cbn [foldl]. fold (run_screen es). fold s. fold s1.
  change (step_screen s1 PageLoaded) with (template_loaded_in s1). revert G. generalize (template_loaded_in s1).
  induction He as [|e es' He Hes IH]; intros s2 G; [done|]. cbn [foldl]. by apply IH, alert_step.
Qed.

(** ** Witnesses *)
Definition alert_over_dialog : list event :=
  [Show (Dialog 0 1); Ended (Backdrop 0); Hide (Dialog 0 1); Show Alert; Ended (Element (Dialog 0 1));
   Timer 0; Timer 0; Hide Alert].

Lemma dialogs_settle_witness :
  gentle_run alert_over_dialog first_screen = true
  /\ exists n, let s := run_screen (alert_over_dialog ++ repeat (Timer 0) n) in
     timers s = [] /\ visible (modals s Alert) = false /\ visible (modals s (Dialog 0 1)) = false.
Proof.
  split; [reflexivity|]. destruct (dialogs_settle alert_over_dialog eq_refl) as (n & _ & E1 & E2 & _).
  exists n. split; [exact E1|]. destruct (E2 Alert) as [F1 F2]. destruct (E2 (Dialog 0 1)) as [F3 F4].
  rewrite F2, F1, F4, F3. split; reflexivity.
Defined.

Lemma reopened_blocks_page_witness :
  exists b', backdrops (run_screen ([Show Alert; Timer 0] ++ Hide Alert :: Show Alert
    :: [Timer 0; Timer 0; Timer 0; Hide Alert; Timer 0; Timer 0; Timer 0])) !! 0 = Some b' /\ attached b' = true.
Proof.
  apply (reopened_blocks_page [Show Alert; Timer 0] [Timer 0; Timer 0; Timer 0; Hide Alert; Timer 0; Timer 0; Timer 0]
           Alert 0 (mkBackdrop true [])); [reflexivity..|repeat constructor; discriminate].
Defined.

Lemma alert_lost_witness :
  let s := run_screen ([Show Alert; Timer 0; Hide Alert; Timer 0; Timer 0] ++ Show Alert :: PageLoaded
                         :: [Timer 0; Show Alert; Timer 0]) in
  isShown (modals s Alert) = true /\ visible (modals s Alert) = false.
Proof.
  apply (alert_lost [Show Alert; Timer 0; Hide Alert; Timer 0; Timer 0] [Timer 0; Show Alert; Timer 0]);
    [reflexivity..|repeat constructor; discriminate].
Defined.
