(* ===== verification/Remote.v ===== *)
(** * Forms that ask the server
    (jquery.validate.js: the [submit] handler of [validate] 58-104, [rules]
    192-199, [remote], [startRequest], [stopRequest] and [previousValue]).

    A field may have a rule [remote]: its value is sent to the server, which
    accepts it or not.  While an answer is awaited the field counts as valid, and
    a form that is submitted meanwhile is sent by the answer that settles it.
    The state adds to that of [Validator] what these requests keep; it has one
    form, and [trace] records what was asked, answered and sent.

    Modelled choices: the parameter of [remote] is a URL; a request that is
    replaced by a later one of the same field is aborted and never answered; an
    answer is [true], a text, or a value that counts as false; a check that
    throws is not followed further (the flag [thrown] of the validator). *)

From stdpp Require Import base tactics strings gmap sets numbers list.
From Stdlib Require Import ZArith Lia.
From S2P Require Import Prelude Regex Utf8 Validator.
Local Open Scope Z_scope.

(** ** The text of a value as it is asked about *)

(** The characters [encodeURIComponent] keeps. *)
Definition unreserved (c : Z) : bool :=
  (48 <=? c) && (c <=? 57) || (65 <=? c) && (c <=? 90) || (97 <=? c) && (c <=? 122)
  || existsb (Z.eqb c) (js "-_.!~*'()").

Definition hex_digit (d : Z) : Z := if d <? 10 then 48 + d else 55 + d.

Definition percent (b : Z) : jsstr :=
  if unreserved b then [b] else [37; hex_digit (b / 16); hex_digit (b mod 16)].

(** [encodeURIComponent]; [None] when it throws a [URIError]. *)
Fixpoint encodeURIComponent (s : jsstr) : option jsstr :=
  match s with
  | [] => Some []
  | c :: rest =>
      if is_low_surrogate c then None
      else if is_high_surrogate c then
        match rest with
        | lo :: rest' =>
            if is_low_surrogate lo then
              e ← encodeURIComponent rest';
              Some (concat (map percent (utf8_bytes (pair_code c lo))) ++ e)
            else None
        | [] => None
        end
      else e ← encodeURIComponent rest; Some (concat (map percent (utf8_bytes c)) ++ e)
  end.

(** [$.param({data: value})]. *)
Definition optionDataString (value : jsstr) : option jsstr :=
  e ← encodeURIComponent value; Some (js "data=" ++ e).

(** ** The state *)

(** What is kept with a field ([previousValue]). *)
Record previous := mkPrevious {
  old : option jsstr;
  p_valid : bool;
  p_message : jsstr;
  originalMessage : option jsstr;
}.

Inductive response := RTrue | RText (s : jsstr) | RFalse.

Inductive remote_event :=
  | Asked (name value : jsstr)
  | Answered (name value : jsstr) (ok : bool)
  | Sent (fs : list field).

Record remote_form := mkRemote {
  rv : validator;
  currentElements : list field;
  previousValues : gmap jsstr previous;
  pendingRequest : Z;
  pending : gset jsstr;
  formSubmitted : bool;
  in_flight : gmap jsstr jsstr;      (* the value asked about, by field *)
  trace : list remote_event;
}.

Definition set_rv (v : validator) (s : remote_form) : remote_form :=
  mkRemote v (currentElements s) (previousValues s) (pendingRequest s) (pending s)
    (formSubmitted s) (in_flight s) (trace s).

Definition set_current (fs : list field) (s : remote_form) : remote_form :=
  mkRemote (rv s) fs (previousValues s) (pendingRequest s) (pending s)
    (formSubmitted s) (in_flight s) (trace s).

Definition set_previous (name : jsstr) (p : previous) (s : remote_form) : remote_form :=
  mkRemote (rv s) (currentElements s) (<[name := p]> (previousValues s)) (pendingRequest s)
    (pending s) (formSubmitted s) (in_flight s) (trace s).

Definition set_pending (n : Z) (names : gset jsstr) (s : remote_form) : remote_form :=
  mkRemote (rv s) (currentElements s) (previousValues s) n names (formSubmitted s)
    (in_flight s) (trace s).

Definition set_submitted (b : bool) (s : remote_form) : remote_form :=
  mkRemote (rv s) (currentElements s) (previousValues s) (pendingRequest s) (pending s) b
    (in_flight s) (trace s).

Definition set_flight (m : gmap jsstr jsstr) (s : remote_form) : remote_form :=
  mkRemote (rv s) (currentElements s) (previousValues s) (pendingRequest s) (pending s)
    (formSubmitted s) m (trace s).

Definition note (e : remote_event) (s : remote_form) : remote_form :=
  mkRemote (rv s) (currentElements s) (previousValues s) (pendingRequest s) (pending s)
    (formSubmitted s) (in_flight s) (trace s ++ [e]).

(** [settings.messages[name][method] = message]. *)
Fixpoint put_assoc {A} (k : jsstr) (x : A) (l : list (jsstr * A)) : list (jsstr * A) :=
  match l with
  | [] => [(k, x)]
  | e :: l' => if jseqb e.1 k then (k, x) :: l' else e :: put_assoc k x l'
  end.

Definition put_message (name method : jsstr) (message : option jsstr) (st : settings) : settings :=
  mkSettings (s_rules st)
    (put_assoc name (put_assoc method message (default [] (assoc name (s_messages st))))
       (s_messages st))
    (default_messages st).

Definition with_settings (st : settings) (v : validator) : validator :=
  mkValidator st (v_context v) (submitted v) (invalid v) (errorList v) (errorMap v)
    (successList v) (error_class v) (groups_of v) (bound v) (thrown v).

(** ** The rule *)
Definition remote_name : jsstr := js "remote".

Definition is_remote (st : settings) (f : field) : bool :=
  existsb (λ e, jseqb e.1 remote_name) (rules st f).

(** The rules before it: [remote] is moved to the end. *)
Definition local_rules (st : settings) (f : field) : rule_list :=
  List.filter (λ e, negb (jseqb e.1 remote_name)) (rules st f).

Definition fresh_previous (st : settings) (f : field) : previous :=
  mkPrevious None true (message_with st f remote_name []) None.

Definition startRequest (name : jsstr) (s : remote_form) : remote_form :=
  if decide (name ∈ pending s) then s
  else set_pending (pendingRequest s + 1) ({[name]} ∪ pending s) s.

Inductive remote_answer := Pending | Known (b : bool) | Thrown.

(** [previousValue], with the message the field had before. *)
Definition keep_message (f : field) (s : remote_form) : previous :=
  let st := v_settings (rv s) in
  let prev := default (fresh_previous st f) (previousValues s !! fname f) in
  mkPrevious (old prev) (p_valid prev) (p_message prev)
    match originalMessage prev with
    | Some (_ :: _) as m => m
    | _ => customMessage st (fname f) remote_name
    end.

(** A new request replaces the one of the field that is on its way. *)
Definition ask (f : field) (d : jsstr) (prev : previous) (s : remote_form) : remote_form :=
  let name := fname f in
  let s := set_previous name
             (mkPrevious (Some d) (p_valid prev) (p_message prev) (originalMessage prev))
             (startRequest name s) in
  note (Asked name (elementValue f)) (set_flight (<[name := elementValue f]> (in_flight s)) s).

Definition remote (f : field) (s : remote_form) : remote_answer * remote_form :=
  let prev := keep_message f s in
  let st := put_message (fname f) remote_name (Some (p_message prev)) (v_settings (rv s)) in
  let s := set_rv (with_settings st (rv s)) s in
  match optionDataString (elementValue f) with
  | None => (Thrown, set_previous (fname f) prev s)
  | Some d =>
      if decide (old prev = Some d) then (Known (p_valid prev), set_previous (fname f) prev s)
      else (Pending, ask f d prev s)
  end.

(** ** Checking *)
Definition fail (f : field) (m : jsstr) (p : param) (s : remote_form) : option bool * remote_form :=
  (Some false, set_rv (formatAndAdd f m p (rv s)) s).

Definition pass (f : field) (s : remote_form) : option bool * remote_form :=
  (Some true,
   set_rv (match rules (v_settings (rv s)) f with [] => rv s | _ => push_success f (rv s) end) s).

(** The rule [remote], after the others. *)
Definition then_remote (f : field) (s : remote_form) : option bool * remote_form :=
  let l := rules (v_settings (rv s)) f in
  if optional f then if (length l =? 1)%nat then (None, s) else pass f s
  else match remote f s with
       | (Pending, s) => (None, s)
       | (Known true, s) => pass f s
       | (Known false, s) => fail f remote_name (default (PBool true) (assoc remote_name l)) s
       | (Thrown, s) => (None, set_rv (set_thrown (rv s)) s)
       end.

(** [check]. *)
Definition check_remote (f : field) (s : remote_form) : option bool * remote_form :=
  let st := v_settings (rv s) in
  let ctx := v_context (rv s) in
  let l := local_rules st f in
  let s := set_rv (bind_targets (reached ctx f l) (rv s)) s in
  match check_rules ctx f (length (rules st f)) false l with
  | Failed m p => fail f m p s
  | Unknown _ => (None, set_rv (set_thrown (rv s)) s)
  | local =>
      if is_remote st f then then_remote f s
      else match local with Undetermined => (None, s) | _ => pass f s end
  end.

Section Display.
Context (text_of : jsstr -> jsstr).

(** [showErrors] over the fields that were checked last. *)
Definition showErrors (s : remote_form) : remote_form :=
  set_rv (defaultShowErrors text_of (currentElements s) (rv s)) s.

(** [checkForm] and [form]. *)
Definition checkForm_remote (s : remote_form) : remote_form :=
  let s := set_rv (reset (rv s)) s in
  let fs := elements (rv s) in
  foldl (λ s f, if thrown (rv s) then s else snd (check_remote f s)) (set_current fs s) fs.

Definition form_remote (s : remote_form) : option bool * remote_form :=
  let s := checkForm_remote s in
  if thrown (rv s) then (None, s)
  else let s := set_rv (show_form text_of (rv s)) s in (Some (valid (rv s)), s).

(** [element]. *)
Definition element_remote (f : field) (s : remote_form) : remote_form :=
  if visible f then
    let '(r, s) := check_remote f (set_current [f] (set_rv (reset (rv s)) s)) in
    if thrown (rv s) then s
    else
      let rs := match r with Some false => false | _ => true end in
      showErrors (set_rv (set_invalid (fname f) (negb rs) (rv s)) s)
  else
    set_rv (mkValidator (v_settings (rv s)) (v_context (rv s)) (submitted (rv s))
              (delete (fname f) (invalid (rv s))) (errorList (rv s)) (errorMap (rv s))
              (successList (rv s)) (error_class (rv s)) (groups_of (rv s)) (bound (rv s))
              (thrown (rv s))) s.

(** ** Submitting *)

(** The handler of [submit]: a form that is valid waits for the answers that are
    due; without any it is sent. *)
Definition submit_event (s : remote_form) : remote_form :=
  let '(r, s) := form_remote s in
  match r with
  | Some true =>
      if pendingRequest s =? 0 then note (Sent (fields (v_context (rv s)))) s
      else set_submitted true s
  | _ => s
  end.

Definition stopRequest (name : jsstr) (ok : bool) (s : remote_form) : remote_form :=
  let s := set_pending (Z.max 0 (pendingRequest s - 1)) (pending s ∖ {[name]}) s in
  if (pendingRequest s =? 0) && formSubmitted s then
    if ok then
      let '(r, s) := form_remote s in
      match r with
      | Some true => set_submitted false (submit_event s)
      | _ => s
      end
    else set_submitted false s
  else s.

(** ** The answer of the server *)
Definition response_valid (r : response) : bool :=
  match r with RTrue => true | RText t => jseqb t (js "true") | RFalse => false end.

(** [resetInternals], the field valid. *)
Definition accept_field (name : jsstr) (v : validator) : validator :=
  mkValidator (v_settings v) (v_context v) (submitted v) (<[name := MarkBool false]> (invalid v))
    [] ∅ [name] (error_class v) (groups_of v) (bound v) (thrown v).

(** [showErrors] of one message: the entries are those of [errorMap]. *)
Definition refuse_field (name message : jsstr) (v : validator) : validator :=
  let kept := map (λ e, mkError (if jseqb (e_field e) name then message else e_message e)
                          (e_field e) []) (errorList v) in
  let errs := if existsb (λ e, jseqb (e_field e) name) (errorList v) then kept
              else kept ++ [mkError message name []] in
  mkValidator (v_settings v) (v_context v) (submitted v) (<[name := MarkBool true]> (invalid v))
    errs (<[name := message]> (errorMap v))
    (List.filter (λ n, negb (jseqb n name)) (successList v)) (error_class v) (groups_of v)
    (bound v) (thrown v).

Definition field_named (name : jsstr) (s : remote_form) : option field :=
  head (List.filter (λ f, jseqb (fname f) name) (fields (v_context (rv s)))).

(** The field shows the verdict, which is kept. *)
Definition take_answer (name : jsstr) (r : response) (value : jsstr) (f : field) (prev : previous)
    (s : remote_form) : remote_form :=
  let s := note (Answered name value (response_valid r))
             (set_flight (delete name (in_flight s)) s) in
  let s := set_rv (with_settings
             (put_message name remote_name (originalMessage prev) (v_settings (rv s))) (rv s)) s in
  let message := match r with
                 | RText ((_ :: _) as t) => t
                 | _ => message_with (v_settings (rv s)) f remote_name [value]
                 end in
  let s := if response_valid r
           then set_rv (accept_field name (rv s)) s
           else set_rv (refuse_field name message (rv s)) s in
  let s := showErrors s in
  set_previous name
    (mkPrevious (old prev) (response_valid r)
       (if response_valid r then p_message prev else message) (originalMessage prev)) s.

Definition on_response (name : jsstr) (r : response) (s : remote_form) : remote_form :=
  match in_flight s !! name, field_named name s, previousValues s !! name with
  | Some value, Some f, Some prev =>
      stopRequest name (response_valid r) (take_answer name r value f prev s)
  | _, _, _ => s
  end.

(** A request that fails calls nothing. *)
Definition on_failure (name : jsstr) (s : remote_form) : remote_form :=
  set_flight (delete name (in_flight s)) s.

(** ** What can happen to the form *)
Inductive form_input :=
  | TypeIn (i : nat) (x : jsstr) (which keyCode : Z)
  | LeaveField (i : nat)
  | SubmitForm
  | Respond (name : jsstr) (r : response)
  | FailRequest (name : jsstr).

Definition set_value (i : nat) (x : jsstr) (s : remote_form) : remote_form :=
  let ctx := v_context (rv s) in
  set_rv (with_context (mkContext (alter (λ f, with_value f x) i (fields ctx)) (switch_on ctx)) (rv s)) s.

Definition keyup_remote (f : field) (which keyCode : Z) (s : remote_form) : remote_form :=
  if negb (visible f) then s
  else if ((which =? 9) && jseqb (elementValue f) []) || existsb (Z.eqb keyCode) excludedKeys then s
  else if in_map (fname f) (submitted (rv s)) || in_map (fname f) (invalid (rv s))
  then element_remote f s else s.

Definition focusout_remote (f : field) (s : remote_form) : remote_form :=
  if negb (visible f) then s
  else if in_map (fname f) (submitted (rv s)) || negb (optional f) then element_remote f s else s.

(** The fields that must equal the one that is left are checked first. *)
Definition leave_field (f : field) (s : remote_form) : remote_form :=
  let target := 35 :: fid f in
  let s := if existsb (jseqb target) (bound (rv s))
           then foldl (λ s g, element_remote g s) s
                  (List.filter (must_equal (rv s) target) (fields (v_context (rv s))))
           else s in
  focusout_remote f s.

Definition run_form (e : form_input) (s : remote_form) : remote_form :=
  if thrown (rv s) then s
  else match e with
  | TypeIn i x which keyCode =>
      let s := set_value i x s in
      match fields (v_context (rv s)) !! i with
      | Some f => keyup_remote f which keyCode s
      | None => s
      end
  | LeaveField i =>
      match fields (v_context (rv s)) !! i with
      | Some f => leave_field f s
      | None => s
      end
  | SubmitForm => submit_event s
  | Respond name r => on_response name r s
  | FailRequest name => on_failure name s
  end.

Definition fresh_form (v : validator) : remote_form := mkRemote v [] ∅ 0 ∅ false ∅ [].

Definition run_inputs (v : validator) (es : list form_input) : remote_form :=
  foldl (λ s e, run_form e s) (fresh_form v) es.
End Display.
