(* ===== verification/RemoteFacts.v ===== *)
(** * What is sent after asking the server

    A form is sent only when the server has accepted the very values it has,
    however typing, answers and submissions are ordered, and a request that
    fails blocks the form. *)

From stdpp Require Import base tactics strings gmap sets numbers list.
From Stdlib Require Import ZArith Lia.
From S2P Require Import Prelude Regex Utf8 Validator FormsFacts ConsoleForms Remote.
Local Open Scope Z_scope.

(** ** The text of a value can be read back *)
Definition hex_value (c : Z) : Z := if c <? 65 then c - 48 else c - 55.

Fixpoint unpercent (s : jsstr) : list Z :=
  match s with
  | [] => []
  | 37 :: a :: b :: r => 16 * hex_value a + hex_value b :: unpercent r
  | c :: r => c :: unpercent r
  end.

Definition percent_ok (b : Z) : bool :=
  match percent b with
  | [c] => (c =? b) && negb (c =? 37)
  | [p; x; y] => 16 * hex_value x + hex_value y =? b
  | _ => false
  end.

Lemma percent_table : forallb percent_ok (seqZ 0 256) = true.
Proof. vm_compute. reflexivity. Qed.

Lemma unpercent_byte b r : is_byte b -> unpercent (percent b ++ r) = b :: unpercent r.
Proof.
  intros Hb. assert (percent_ok b = true) as H.
  { apply (proj1 (forallb_forall _ _) percent_table), list_elem_of_In, elem_of_seqZ.
    unfold is_byte in Hb. lia. }
  unfold percent_ok, percent in *. destruct (unreserved b).
  - apply andb_true_iff in H as [_ H%negb_true_iff%Z.eqb_neq]. cbn.
    destruct b as [|q|q]; try done. do 6 (destruct q as [q|q|]; try done).
  - cbn [app]. apply Z.eqb_eq in H. cbn [unpercent]. by rewrite H.
Qed.

Lemma unpercent_bytes bs r : Forall is_byte bs ->
  unpercent (concat (map percent bs) ++ r) = bs ++ unpercent r.
Proof.
  induction 1 as [|b bs Hb Hbs IH]; [done|]. cbn [map concat]. rewrite <- app_assoc.
  rewrite unpercent_byte by done. by rewrite IH.
Qed.

Lemma encodeURIComponent_utf8 s e : Forall (λ c, 0 <= c <= 0xFFFF) s ->
  encodeURIComponent s = Some e -> wf_utf16 s = true /\ unpercent e = utf8 s.
Proof.
  remember (length s) as n eqn:Hn. revert s e Hn.
  induction (lt_wf n) as [n _ IH]. intros [|c s] e -> Hs He; cbn in He; [by injection He as <-|].
  inversion Hs as [|? ? Hc Hs']; subst.
  destruct (is_low_surrogate c); [done|]. cbn [wf_utf16 utf8].
  rewrite (proj2 (Z.leb_le 0 c)), (proj2 (Z.leb_le c 0xFFFF)) by lia. cbn [andb].
  destruct (is_high_surrogate c) eqn:Eh.
  - destruct s as [|lo s]; [done|]. destruct (is_low_surrogate lo) eqn:El; [|done].
    inversion Hs' as [|? ? _ Hs'']; subst.
    destruct (encodeURIComponent s) as [r|] eqn:Er; [|done]. injection He as <-.
    destruct (IH (length s) ltac:(cbn; lia) s r eq_refl Hs'' Er) as [H1 H2].
    pose proof (pair_code_range c lo Eh El).
    rewrite unpercent_bytes by (apply utf8_bytes_range; lia). by rewrite H1, H2.
  - destruct (encodeURIComponent s) as [r|] eqn:Er; [|done]. injection He as <-.
    destruct (IH (length s) ltac:(cbn; lia) s r eq_refl Hs' Er) as [H1 H2].
    rewrite unpercent_bytes by (apply utf8_bytes_range; lia). by rewrite H1, H2.
Qed.

(** Two values asked about in the same words are the same. *)
Lemma optionDataString_inj x y d : Forall (λ c, 0 <= c <= 0xFFFF) x -> Forall (λ c, 0 <= c <= 0xFFFF) y ->
  optionDataString x = Some d -> optionDataString y = Some d -> x = y.
Proof.
  unfold optionDataString. intros Hx Hy.
  destruct (encodeURIComponent x) as [a|] eqn:Ea; [|done].
  destruct (encodeURIComponent y) as [b|] eqn:Eb; [|done]. intros E1 E2.
  rewrite <- E1 in E2. apply (inj Some), (app_inv_head (js "data=")) in E2 as ->.
  destruct (encodeURIComponent_utf8 x a Hx Ea) as [Wx Ux].
  destruct (encodeURIComponent_utf8 y a Hy Eb) as [Wy Uy].
  pose proof (parseUTF8_utf8 x [] [] Wx) as Px. pose proof (parseUTF8_utf8 y [] [] Wy) as Py.
  rewrite <- Ux in Px. rewrite <- Uy in Py. rewrite Px in Py. by injection Py.
Qed.

Definition text16 (s : jsstr) : Prop := Forall (λ c, 0 <= c <= 0xFFFF) s.

Lemma elementValue_text16 f : text16 (fvalue f) -> text16 (elementValue f).
Proof.
  intros H. assert (text16 (clean_value (fvalue f))) as Hc.
  { apply Forall_forall. intros c Hc%list_elem_of_In. unfold clean_value in Hc.
    apply filter_In in Hc as [Hc _]. apply (proj1 (Forall_forall _ _) H). by apply list_elem_of_In. }
  unfold elementValue. destruct (ftype f) as [|b|]; [done| |].
  - destruct b; [|done]. repeat constructor; done.
  - unfold file_name. repeat case_match; try done; by apply Forall_drop.
Qed.

(** ** The last answer about a field *)
Definition answer_for (name : jsstr) (e : remote_event) : option (jsstr * bool) :=
  match e with
  | Answered n v ok => if jseqb n name then Some (v, ok) else None
  | _ => None
  end.

Definition last_answer (name : jsstr) (t : list remote_event) : option (jsstr * bool) :=
  last (omap (answer_for name) t).

Definition is_asked (e : remote_event) : Prop := match e with Asked _ _ => True | _ => False end.

Lemma last_answer_other name t l : Forall (λ e, answer_for name e = None) l ->
  last_answer name (t ++ l) = last_answer name t.
Proof.
  intros H. unfold last_answer. rewrite omap_app.
  replace (omap (answer_for name) l) with (@nil (jsstr * bool)); [by rewrite app_nil_r|].
  induction H as [|e l He Hl IH]; [done|]. cbn. by rewrite He.
Qed.

(** ** What holds in every state *)
Section Invariant.
Context (text_of : jsstr -> jsstr) (st0 : settings) (sw : jsstr -> bool).

(** No rule of the field fails, apart from [remote]. *)
Definition locally_ok (fs : list field) (f : field) : Prop :=
  forall m p, check_rules (mkContext fs sw) f (length (rules st0 f)) false (local_rules st0 f)
              <> Failed m p.

(** A form that is sent: every field that is checked passes its rules, and the
    last answer about a field with the rule [remote] accepted its value. *)
Definition sent_ok (t : list remote_event) (fs : list field) : Prop :=
  forall f, f ∈ fs -> visible f = true -> enabled f = true ->
  locally_ok fs f
  /\ (is_remote st0 f = true -> optional f = false ->
      last_answer (fname f) t = Some (elementValue f, true)).

(** What is kept with a field belongs to the value asked about last. *)
Definition previous_ok (s : remote_form) (n : jsstr) (prev : previous) : Prop :=
  forall d, old prev = Some d ->
  (forall v, in_flight s !! n = Some v -> optionDataString v = Some d)
  /\ (n ∉ pending s -> exists v, last_answer n (trace s) = Some (v, p_valid prev)
                               /\ text16 v /\ optionDataString v = Some d).

Record remote_ok (s : remote_form) : Prop := {
  ro_rules : s_rules (v_settings (rv s)) = s_rules st0;
  ro_switch : switch_on (v_context (rv s)) = sw;
  ro_fields : Forall (λ f, text16 (fvalue f)) (fields (v_context (rv s)));
  ro_distinct : NoDup (fname <$> fields (v_context (rv s)));
  ro_count : pendingRequest s = Z.of_nat (size (pending s));
  ro_flight : forall n v, in_flight s !! n = Some v -> n ∈ pending s /\ text16 v;
  ro_previous : forall n prev, previousValues s !! n = Some prev -> previous_ok s n prev;
  ro_kept : forall n v, in_flight s !! n = Some v ->
    exists prev, previousValues s !! n = Some prev /\ is_Some (old prev);
  ro_sent : forall t fs rest, trace s = t ++ Sent fs :: rest -> sent_ok t fs;
}.

Lemma rules_same st f : s_rules st = s_rules st0 -> rules st f = rules st0 f.
Proof. unfold rules. by intros ->. Qed.

(** A step of a check: it changes nothing of the fields it does not name, takes nothing off
    the requests that are due, and only asks. *)
Record check_step (names : list jsstr) (s s' : remote_form) : Prop := {
  cs_context : v_context (rv s') = v_context (rv s);
  cs_rules : s_rules (v_settings (rv s')) = s_rules (v_settings (rv s));
  cs_asked : exists l, trace s' = trace s ++ l /\ Forall is_asked l;
  cs_other : forall n, n ∉ names -> previousValues s' !! n = previousValues s !! n;
  cs_pending : pending s ⊆ pending s';
}.

(** Another record of the validator. *)
Lemma ok_rv v s : s_rules (v_settings v) = s_rules (v_settings (rv s)) ->
  v_context v = v_context (rv s) -> remote_ok s -> remote_ok (set_rv v s).
Proof. intros E1 E2 []. split; cbn; try done; [by rewrite E1|by rewrite E2..]. Qed.

Lemma step_rv names v s : s_rules (v_settings v) = s_rules (v_settings (rv s)) ->
  v_context v = v_context (rv s) -> check_step names s (set_rv v s).
Proof. intros E1 E2. split; cbn; try done. exists []. by rewrite app_nil_r. Qed.

Lemma step_trans names s1 s2 s3 :
  check_step names s1 s2 -> check_step names s2 s3 -> check_step names s1 s3.
Proof.
  intros [A1 A2 (l & A3 & A4) A5 A6] [B1 B2 (k & B3 & B4) B5 B6]. split.
  - by rewrite B1.
  - by rewrite B2.
  - exists (l ++ k). rewrite B3, A3. split; [by rewrite app_assoc|by apply Forall_app].
  - intros n Hn. by rewrite B5, A5.
  - set_solver.
Qed.

(** The value of the field was accepted, or an answer is due. *)
Definition asked_about (f : field) (s : remote_form) : Prop :=
  exists prev d, previousValues s !! fname f = Some prev /\ old prev = Some d
  /\ optionDataString (elementValue f) = Some d
  /\ (fname f ∈ pending s \/ p_valid prev = true).

Lemma sent_before a l t fs rest : Forall (λ e, match e with Sent _ => False | _ => True end) l ->
  a ++ l = t ++ Sent fs :: rest -> exists rest', a = t ++ Sent fs :: rest'.
Proof.
  intros Hl [(k & -> & E)|(k & -> & E)]%app_eq_inv.
  - destruct k as [|e k]; cbn in E.
    + exfalso. subst l. by inversion Hl.
    + injection E as <- ->. by exists k.
  - exfalso. subst l. apply Forall_app in Hl as [_ Hl]. by inversion Hl.
Qed.

Lemma asked_not_sent l : Forall is_asked l ->
  Forall (λ e, match e with Sent _ => False | _ => True end) l.
Proof. intros H. eapply Forall_impl; [exact H|]. by intros []. Qed.

(** Keeping the same with a field, or its value asked about. *)
Lemma ok_known name prev s : remote_ok s -> previous_ok s name prev ->
  (is_Some (in_flight s !! name) -> is_Some (old prev)) ->
  remote_ok (set_previous name prev s) /\ check_step [name] s (set_previous name prev s).
Proof.
  intros H Hp Hk. split.
  - destruct H; split; try done; cbn.
    + intros n p'. rewrite lookup_insert_Some. intros [[<- <-]|[_ Hn]]; [done|by apply ro_previous0].
    + intros n v Hn. destruct (decide (n = name)) as [->|Hne].
      * exists prev. rewrite lookup_insert_eq. split; [done|]. by apply Hk; exists v.
      * rewrite lookup_insert_ne by done. by apply (ro_kept0 n v).
  - split; try done.
    + exists []. by rewrite app_nil_r.
    + intros n Hn. cbn. rewrite lookup_insert_ne; [done|set_solver].
Qed.

Lemma ok_start n s : remote_ok s -> remote_ok (startRequest n s).
Proof.
  intros H. unfold startRequest. destruct (decide _) as [Hn|Hn]; [done|].
  destruct H; split; try done; cbn.
  - rewrite ro_count0, size_union by set_solver. rewrite size_singleton. lia.
  - intros m v Hm. destruct (ro_flight0 m v Hm). split; [set_solver|done].
  - intros m prev Hm d Hd. destruct (ro_previous0 m prev Hm d Hd) as [H1 H2].
    split; [done|]. cbn. intros Hx. apply H2. set_solver.
Qed.

Lemma ok_ask f d prev s : remote_ok s -> text16 (fvalue f) ->
  optionDataString (elementValue f) = Some d ->
  remote_ok (ask f d prev s) /\ check_step [fname f] s (ask f d prev s) /\ asked_about f (ask f d prev s)
  /\ rv (ask f d prev s) = rv s.
Proof.
  intros H Ht Hd. unfold ask. set (name := fname f). set (s1 := startRequest name s).
  pose proof (ok_start name s H) as H1. fold s1 in H1.
  assert (pending s1 = {[name]} ∪ pending s) as Hp.
  { unfold s1, startRequest. destruct (decide _); [set_solver|done]. }
  assert (trace s1 = trace s /\ previousValues s1 = previousValues s /\ rv s1 = rv s) as (Et & Ep & Er).
  { unfold s1, startRequest. by destruct (decide _). }
  split_and!; [|split; cbn; rewrite ?Er, ?Ep, ?Et; try done| |exact Er].
  - destruct H1; split; try done; cbn.
    + intros n v. rewrite lookup_insert_Some. intros [[<- <-]|[_ Hn]]; [|by apply ro_flight0].
      split; [set_solver|by apply elementValue_text16].
    + intros n p'. rewrite lookup_insert_Some. intros [[<- <-]|[Hne Hn]] d' Hd'; cbn in *.
      * injection Hd' as <-. split; [|intros Hx; set_solver].
        intros v. rewrite lookup_insert_eq. by intros [= <-].
      * destruct (ro_previous0 n p' Hn d' Hd') as [K1 K2]. split.
        -- intros v. rewrite lookup_insert_ne by done. apply K1.
        -- intros Hx. destruct (K2 Hx) as (v & Hv). exists v.
           rewrite last_answer_other; [exact Hv|by repeat constructor].
    + intros n v. rewrite lookup_insert_Some. intros [[<- <-]|[Hne Hn]].
      * eexists. rewrite lookup_insert_eq. split; [done|]. by eexists.
      * rewrite lookup_insert_ne by done. by apply (ro_kept0 n v).
    + intros t fs rest Hs. apply sent_before in Hs as [rest' Hs]; [by apply (ro_sent0 t fs rest')|by repeat constructor].
  - exists [Asked name (elementValue f)]. split; [done|by repeat constructor].
  - intros n Hn. rewrite lookup_insert_ne; [done|set_solver].
  - set_solver.
  - eexists _, d. cbn. rewrite lookup_insert_eq. split_and!; [done|done|done|left; set_solver].
Qed.

(** What the rule [remote] leaves behind. *)
Lemma remote_spec f s : remote_ok s -> text16 (fvalue f) ->
  let a := fst (remote f s) in
  let s' := snd (remote f s) in
  remote_ok s' /\ check_step [fname f] s s' /\ errorList (rv s') = errorList (rv s)
  /\ match a with
     | Pending => asked_about f s'
     | Known b => b = true -> asked_about f s'
     | Thrown => True
     end.
Proof.
  intros H Ht. unfold remote. set (prev := keep_message f s). set (s1 := set_rv _ s).
  assert (remote_ok s1) as H1 by (by apply ok_rv).
  assert (check_step [fname f] s s1) as S1 by (by apply step_rv).
  assert (previous_ok s1 (fname f) prev) as Hp.
  { intros d Hd. unfold prev, keep_message in *. cbn [old p_valid] in *.
    destruct (previousValues s !! fname f) as [q|] eqn:E; [|done].
    exact (ro_previous s H (fname f) q E d Hd). }
  assert (is_Some (in_flight s1 !! fname f) -> is_Some (old prev)) as Hk.
  { intros [v Hv]. destruct (ro_kept s H (fname f) v Hv) as (q & Eq & Ho).
    unfold prev, keep_message. cbn. by rewrite Eq. }
  destruct (ok_known (fname f) prev s1 H1 Hp Hk) as [H2 S2].
  pose proof (step_trans _ _ _ _ S1 S2) as S12.
  destruct (optionDataString (elementValue f)) as [d|] eqn:Ed; [|by split_and!].
  destruct (decide (old prev = Some d)) as [Ho|Ho]; cbn [fst snd].
  - split_and!; [done..|]. intros Hv. exists prev, d. cbn. rewrite lookup_insert_eq.
    split_and!; try done. by right.
  - destruct (ok_ask f d prev s1 H1 Ht Ed) as (H3 & S3 & Ha & Er). rewrite Er.
    split_and!; [exact H3|exact (step_trans _ _ _ _ S1 S3)|done|done].
Qed.

(** What a check of a field that does not fail has shown. *)
Definition passed (f : field) (s : remote_form) : Prop :=
  locally_ok (fields (v_context (rv s))) f
  /\ (is_remote st0 f = true -> optional f = false -> asked_about f s).

(** A check that went from [s] to [s']: it adds one error or the field passes. *)
Definition check_result (f : field) (s s' : remote_form) : Prop :=
  remote_ok s' /\ check_step [fname f] s s'
  /\ ((exists e, errorList (rv s') = errorList (rv s) ++ [e])
      \/ errorList (rv s') = errorList (rv s) /\ (thrown (rv s') = false -> passed f s')).

(** The last step changes the record of the validator only. *)
Lemma result_rv f s s1 w : remote_ok s1 -> check_step [fname f] s s1 ->
  s_rules (v_settings w) = s_rules (v_settings (rv s1)) -> v_context w = v_context (rv s1) ->
  (exists e, errorList w = errorList (rv s) ++ [e])
  \/ errorList w = errorList (rv s) /\ (thrown w = false -> passed f s1) ->
  check_result f s (set_rv w s1).
Proof.
  intros H S E1 E2 He. split_and!; [by apply ok_rv|eapply step_trans; [exact S|by apply step_rv]|].
  destruct He as [He|[He Hp]]; [by left|right]. split; [done|]. intros Hw.
  destruct (Hp Hw) as [P1 P2]. split; [|exact P2]. cbn. by rewrite E2.
Qed.

Lemma result_pass f s s1 : remote_ok s1 -> check_step [fname f] s s1 ->
  errorList (rv s1) = errorList (rv s) -> passed f s1 -> check_result f s (snd (pass f s1)).
Proof.
  intros H S E Hp. unfold pass. destruct (rules _ f); apply result_rv; try done; by right.
Qed.

Lemma result_here f s s1 : remote_ok s1 -> check_step [fname f] s s1 ->
  errorList (rv s1) = errorList (rv s) -> passed f s1 -> check_result f s s1.
Proof. intros H S E Hp. split_and!; [done|done|by right]. Qed.

Lemma result_fail f s s1 m p : remote_ok s1 -> check_step [fname f] s s1 ->
  errorList (rv s1) = errorList (rv s) -> check_result f s (snd (fail f m p s1)).
Proof.
  intros H S E. apply result_rv; try done. left. cbn. rewrite E. by eexists.
Qed.

Lemma result_thrown f s s1 : remote_ok s1 -> check_step [fname f] s s1 ->
  errorList (rv s1) = errorList (rv s) -> check_result f s (set_rv (set_thrown (rv s1)) s1).
Proof. intros H S E. apply result_rv; try done. by right. Qed.

Lemma then_remote_spec f s s1 : remote_ok s1 -> check_step [fname f] s s1 ->
  errorList (rv s1) = errorList (rv s) -> text16 (fvalue f) ->
  locally_ok (fields (v_context (rv s1))) f -> check_result f s (snd (then_remote f s1)).
Proof.
  intros H S E Ht Hl. unfold then_remote. destruct (optional f) eqn:Ho.
  { assert (passed f s1) as Hp by (split; [done|by rewrite Ho]).
    case_match; [by apply result_here|by apply result_pass]. }
  destruct (remote_spec f s1 H Ht) as (H2 & S2 & E2 & Ha).
  pose proof (step_trans _ _ _ _ S S2) as S12. rewrite E in E2.
  assert (asked_about f (remote f s1).2 -> passed f (remote f s1).2) as Hp.
  { intros Hask. split; [by rewrite (cs_context _ _ _ S2)|done]. }
  destruct (remote f s1) as [[|b|] s2]; cbn [fst snd] in *.
  - by apply result_here; [..|apply Hp].
  - destruct b; [by apply result_pass; [..|apply Hp, Ha]|by apply result_fail].
  - by apply result_thrown.
Qed.

Lemma check_remote_spec f s : remote_ok s -> text16 (fvalue f) ->
  check_result f s (snd (check_remote f s)).
Proof.
  intros H Ht. unfold check_remote. set (s1 := set_rv _ s).
  assert (remote_ok s1) as H1 by (by apply ok_rv).
  assert (check_step [fname f] s s1) as S1 by (by apply step_rv).
  assert (errorList (rv s1) = errorList (rv s)) as E1 by done.
  assert (rules (v_settings (rv s)) f = rules st0 f) as Er by apply rules_same, H.
  assert (is_remote (v_settings (rv s)) f = is_remote st0 f) as Ei by (unfold is_remote; by rewrite Er).
  assert (local_rules (v_settings (rv s)) f = local_rules st0 f) as El by (unfold local_rules; by rewrite Er).
  assert (v_context (rv s) = mkContext (fields (v_context (rv s1))) sw) as Ec.
  { rewrite <- (ro_switch s H). cbn. by destruct (v_context (rv s)). }
  rewrite Er, Ei, El, Ec. clearbody s1.
  destruct (check_rules _ _ _ _ _) as [|m p| |m] eqn:Hc;
    try by (apply result_fail || apply result_thrown).
  - assert (locally_ok (fields (v_context (rv s1))) f) as Hl by (intros m p; by rewrite Hc).
    destruct (is_remote st0 f) eqn:Ed; [by apply then_remote_spec|].
    apply result_pass; try done. split; [done|by rewrite Ed].
  - assert (locally_ok (fields (v_context (rv s1))) f) as Hl by (intros m p; by rewrite Hc).
    destruct (is_remote st0 f) eqn:Ed; [by apply then_remote_spec|].
    apply result_here; try done. split; [done|by rewrite Ed].
Qed.

(** *** Checking a form *)
Lemma step_refl names s : check_step names s s.
Proof. split; try done. exists []. by rewrite app_nil_r. Qed.

Lemma step_weaken names names' s s' : names ⊆ names' -> check_step names s s' -> check_step names' s s'.
Proof. intros Hn [A1 A2 A3 A4 A5]. split; try done. intros n H. apply A4. set_solver. Qed.

Lemma passed_step names f s s' : fname f ∉ names -> check_step names s s' -> passed f s -> passed f s'.
Proof.
  intros Hn [A1 A2 A3 A4 A5] [P1 P2]. split; [by rewrite A1|]. intros Hr Ho.
  destruct (P2 Hr Ho) as (prev & d & E1 & E2 & E3 & E4). exists prev, d. rewrite A4 by done.
  split_and!; [done..|]. destruct E4; [left; set_solver|by right].
Qed.

Definition check_next (s : remote_form) (f : field) : remote_form :=
  if thrown (rv s) then s else snd (check_remote f s).

Lemma thrown_stays fs s : thrown (rv s) = true -> foldl check_next s fs = s.
Proof.
  intros H. induction fs as [|f fs IH]; [done|]. cbn. unfold check_next at 2. by rewrite H.
Qed.

Lemma checks_spec fs s : remote_ok s -> Forall (λ f, text16 (fvalue f)) fs -> NoDup (fname <$> fs) ->
  let s' := foldl check_next s fs in
  remote_ok s' /\ check_step (fname <$> fs) s s'
  /\ (errorList (rv s') = [] -> thrown (rv s') = false ->
      errorList (rv s) = [] /\ Forall (λ f, passed f s') fs).
Proof.
  revert s. induction fs as [|f fs IH]; intros s H Ht Hd s'.
  { split_and!; [done|apply step_refl|by intros E _]. }
  inversion Ht as [|? ? Hf Hfs]; subst. cbn in Hd. apply NoDup_cons in Hd as [Hn Hd].
  unfold s' in *; clear s'. destruct (thrown (rv s)) eqn:Eth.
  { rewrite thrown_stays by done. split_and!; [done|apply step_refl|by rewrite Eth]. }
  destruct (check_remote_spec f s H Hf) as (H1 & S1 & R1). set (s1 := snd (check_remote f s)) in *.
  assert (check_next s f = s1) as E1 by (unfold check_next; by rewrite Eth).
  cbn [foldl]. rewrite E1.
  destruct (IH s1 H1 Hfs Hd) as (H2 & S2 & R2). set (s2 := foldl _ s1 fs) in *.
  split_and!; [done| |].
  { apply (step_trans _ s s1); [apply (step_weaken [fname f])|apply (step_weaken (fname <$> fs))];
      (exact S1 || exact S2 || (intros n Hin; cbn; set_solver +Hin)). }
  intros He Hth. destruct (R2 He Hth) as [He1 Hp]. destruct R1 as [[e Ee]|[Ee Hpf]].
  { rewrite Ee in He1. by apply app_eq_nil in He1 as [_ He1]. }
  rewrite Ee in He1. split; [done|]. constructor; [|done].
  apply (passed_step (fname <$> fs) f s1); [done|done|]. apply Hpf.
  apply not_true_iff_false. intros Et. unfold s2 in Hth. rewrite thrown_stays in Hth by done.
  by rewrite Et in Hth.
Qed.

Lemma filter_sublist {A} (p : A -> bool) l : sublist (List.filter p l) l.
Proof. induction l as [|x l IH]; cbn; [done|]. case_match; by constructor. Qed.

Lemma elements_filter s : remote_ok s ->
  elements (rv s) = List.filter (λ f, visible f && enabled f
    && match rules (v_settings (rv s)) f with [] => false | _ => true end) (fields (v_context (rv s))).
Proof.
  intros H. apply first_of_each_all; [|intros; apply not_elem_of_nil].
  apply (sublist_NoDup _ _ (ro_distinct s H)). apply fmap_sublist, filter_sublist.
Qed.

(** The record [show_form] shows. *)
Definition set_form (v : validator) : validator :=
  mkValidator (v_settings v) (v_context v) (errorMap v ∪ submitted v)
    (MarkMessage <$> errorMap v) (errorList v) (errorMap v) (successList v)
    (error_class v) (groups_of v) (bound v) (thrown v).

Lemma form_spec s : remote_ok s ->
  let r := fst (form_remote text_of s) in
  let s' := snd (form_remote text_of s) in
  remote_ok s' /\ check_step (fname <$> elements (rv s)) s s'
  /\ (r = Some true -> forall f, f ∈ fields (v_context (rv s)) ->
      visible f = true -> enabled f = true -> passed f s').
Proof.
  intros H. unfold form_remote, checkForm_remote. set (s1 := set_rv (reset (rv s)) s).
  assert (remote_ok s1) as H1 by (by apply ok_rv). set (fs := elements (rv s1)).
  set (s2 := set_current fs s1). change (elements (rv s)) with fs.
  assert (remote_ok s2) as H2 by (by destruct H1). assert (check_step (fname <$> fs) s s2) as S2.
  { split; try done. exists []. by rewrite app_nil_r. }
  pose proof (elements_filter s1 H1) as Ef. fold fs in Ef.
  assert (sublist fs (fields (v_context (rv s1)))) as Hsub by (rewrite Ef; apply filter_sublist).
  assert (NoDup (fname <$> fs)) as Hd by apply elements_nodup.
  assert (Forall (λ f, text16 (fvalue f)) fs) as Ht.
  { apply Forall_forall. intros f Hf. apply (proj1 (Forall_forall _ _) (ro_fields s1 H1)).
    apply (elem_of_submseteq _ _ _ Hf), sublist_submseteq, Hsub. }
  destruct (checks_spec fs s2 H2 Ht Hd) as (H3 & S3 & R3).
  change (foldl _ s2 fs) with (foldl check_next s2 fs).
  set (s3 := foldl check_next s2 fs) in *. pose proof (step_trans _ _ _ _ S2 S3) as S.
  destruct (thrown (rv s3)) eqn:Eth; [by split_and!|].
  assert (same_record (set_form (rv s3)) (show_form text_of (rv s3))) as (F1 & _ & _ & _ & F2 & F3 & _)
    by apply defaultShowErrors_same.
  cbn [fst snd]. split_and!.
  - apply ok_rv; [by rewrite F2|by rewrite F3|done].
  - eapply step_trans; [exact S|]. apply step_rv; [by rewrite F2|by rewrite F3].
  - cbn. unfold valid. rewrite F1. intros [= Hv%Nat.eqb_eq%length_zero_iff_nil].
    destruct (R3 Hv eq_refl) as [_ Hp]. intros f Hf Hvis Hen.
    assert (passed f s3) as [P1 P2].
    { destruct (rules st0 f) as [|p l] eqn:Er.
      - split; [intros m q; unfold local_rules; by rewrite Er|].
        unfold is_remote. by rewrite Er.
      - apply (proj1 (Forall_forall _ _) Hp). rewrite Ef. apply list_elem_of_In, filter_In.
        split; [by apply list_elem_of_In|]. rewrite Hvis, Hen.
        by rewrite (rules_same _ f (ro_rules s1 H1)), Er. }
    split; [|exact P2]. cbn. by rewrite F3.
Qed.

(** *** Sending *)
Lemma sent_now s : remote_ok s -> pendingRequest s = 0 ->
  (forall f, f ∈ fields (v_context (rv s)) -> visible f = true -> enabled f = true -> passed f s) ->
  sent_ok (trace s) (fields (v_context (rv s))).
Proof.
  intros H Hn Hp f Hf Hv He. destruct (Hp f Hf Hv He) as [P1 P2]. split; [done|].
  intros Hr Ho. destruct (P2 Hr Ho) as (prev & d & E1 & E2 & E3 & E4).
  assert (pending s = ∅) as Hpe.
  { rewrite (ro_count s H) in Hn. apply leibniz_equiv, size_empty_inv. lia. }
  destruct (ro_previous s H _ _ E1 d E2) as [_ Hlast].
  destruct (Hlast ltac:(rewrite Hpe; set_solver)) as (v & Hv1 & Hv2 & Hv3).
  destruct E4 as [E4|E4]; [rewrite Hpe in E4; set_solver|]. rewrite E4 in Hv1.
  rewrite Hv1. do 2 f_equal. apply (optionDataString_inj v (elementValue f) d); try done.
  apply elementValue_text16. by apply (proj1 (Forall_forall _ _) (ro_fields s H)).
Qed.

(** A new entry that is no answer. *)
Lemma ok_note e s : remote_ok s -> (forall n, answer_for n e = None) ->
  (forall fs, e = Sent fs -> sent_ok (trace s) fs) -> remote_ok (note e s).
Proof.
  intros [K1 K2 K3 K4 K5 K6 K7 K9 K8] Ha Hs. split; try done; cbn.
  - intros n prev Hn d Hd. destruct (K7 n prev Hn d Hd) as [L1 L2]. split; [done|].
    intros Hx. cbn. rewrite last_answer_other by (repeat constructor; apply Ha). by apply L2.
  - intros t fs rest [(k & E1 & E2)|(k & E1 & E2)]%app_eq_inv.
    + destruct k as [|x k]; cbn in E2.
      * rewrite app_nil_r in E1. rewrite <- E1. apply Hs. by injection E2.
      * injection E2 as E2 _. subst x. by apply (K8 t fs k).
    + destruct k as [|x k]; cbn in E2.
      * rewrite E1, app_nil_r. apply Hs. by injection E2.
      * injection E2 as _ E2. by destruct k.
Qed.

Lemma ok_submitted b s : remote_ok s -> remote_ok (set_submitted b s).
Proof. by intros []. Qed.

Lemma submit_ok s : remote_ok s -> remote_ok (submit_event text_of s).
Proof.
  intros H. unfold submit_event. destruct (form_spec s H) as (H1 & S1 & Hp).
  destruct (form_remote text_of s) as [r s1]. cbn [fst snd] in *.
  destruct r as [[]|]; [|done..]. destruct (pendingRequest s1 =? 0) eqn:En; [|by apply ok_submitted].
  apply ok_note; [done|done|]. intros fs [= <-]. apply sent_now; [done|by apply Z.eqb_eq|].
  rewrite (cs_context _ _ _ S1). by apply Hp.
Qed.

(** *** Answers *)

(** The last answer about a field is that to the value asked about last. *)
Definition settled (name : jsstr) (s : remote_form) : Prop :=
  forall prev d, previousValues s !! name = Some prev -> old prev = Some d ->
  exists v, last_answer name (trace s) = Some (v, p_valid prev) /\ text16 v
            /\ optionDataString v = Some d.

Lemma ok_stop name s : remote_ok s -> name ∈ pending s -> in_flight s !! name = None ->
  settled name s ->
  remote_ok (set_pending (Z.max 0 (pendingRequest s - 1)) (pending s ∖ {[name]}) s).
Proof.
  intros [K1 K2 K3 K4 K5 K6 K7 K9 K8] Hp Hf Hs. split; try done; cbn.
  - rewrite K5, size_difference by set_solver. rewrite size_singleton.
    assert (size (pending s) <> 0%nat) by (apply size_non_empty_iff; set_solver). lia.
  - intros n v Hn. destruct (K6 n v Hn). split; [|done].
    assert (n <> name) by (intros ->; congruence). set_solver.
  - intros n prev Hn d Hd. destruct (K7 n prev Hn d Hd) as [L1 L2]. split; [done|]. cbn.
    intros Hx. destruct (decide (n = name)) as [->|Hne]; [by apply (Hs prev d)|].
    apply L2. set_solver.
Qed.

Lemma stop_ok name ok s : remote_ok s -> name ∈ pending s -> in_flight s !! name = None ->
  settled name s -> remote_ok (stopRequest text_of name ok s).
Proof.
  intros H Hp Hf Hs. unfold stopRequest. pose proof (ok_stop name s H Hp Hf Hs) as H1.
  set (s1 := set_pending _ _ s) in *. destruct (_ && _); [|done].
  destruct ok; [|by apply ok_submitted]. destruct (form_spec s1 H1) as (H2 & _).
  destruct (form_remote text_of s1) as [r s2]. cbn [fst snd] in *.
  destruct r as [[]|]; [|done..]. by apply ok_submitted, submit_ok.
Qed.

Lemma ok_answer name value ok s : remote_ok s -> in_flight s !! name = Some value ->
  remote_ok (note (Answered name value ok) (set_flight (delete name (in_flight s)) s)).
Proof.
  intros [K1 K2 K3 K4 K5 K6 K7 K9 K8] Hf. destruct (K6 name value Hf) as [Hp _]. split; try done; cbn.
  - intros n v [_ Hn]%lookup_delete_Some. by apply K6.
  - intros n prev Hn d Hd. destruct (K7 n prev Hn d Hd) as [L1 L2]. split; cbn.
    + intros v [_ Hv]%lookup_delete_Some. by apply L1.
    + intros Hx. destruct (L2 Hx) as (v & Hv). exists v. rewrite last_answer_other; [done|].
      repeat constructor. cbn. destruct (jseqb name n) eqn:E; [|done].
      apply jseqb_eq in E as ->. done.
  - intros n v [_ Hn]%lookup_delete_Some. by apply (K9 n v).
  - intros t fs rest Hs. apply sent_before in Hs as [rest' Hs]; [by apply (K8 t fs rest')|].
    by repeat constructor.
Qed.

Lemma ok_show s : remote_ok s -> remote_ok (showErrors text_of s).
Proof.
  intros H. destruct (defaultShowErrors_same text_of (currentElements s) (rv s)) as (_ & _ & _ & _ & E1 & E2 & _).
  apply ok_rv; [by rewrite E1|by rewrite E2|done].
Qed.

Lemma last_answer_now name value ok t : last_answer name (t ++ [Answered name value ok]) = Some (value, ok).
Proof. unfold last_answer. rewrite omap_app. cbn. rewrite jseqb_refl. apply last_snoc. Qed.

(** Taking an answer in: the request is no longer on its way, and the verdict about
    the value asked about last is kept. *)
Lemma take_answer_ok name r value f prev s : remote_ok s -> in_flight s !! name = Some value ->
  previousValues s !! name = Some prev ->
  let s' := take_answer text_of name r value f prev s in
  remote_ok s' /\ settled name s'.
Proof.
  intros H Ef Ep s'. unfold s', take_answer. clear s'.
  pose proof (ok_answer name value (response_valid r) s H Ef) as H1.
  set (s1 := note _ _) in *. set (s2 := set_rv _ s1).
  assert (remote_ok s2) as H2 by (by apply ok_rv).
  set (s3 := if response_valid r then set_rv _ s2 else _).
  assert (remote_ok s3 /\ in_flight s3 = delete name (in_flight s) /\ pending s3 = pending s
          /\ trace s3 = trace s1) as (H3 & Ei & Epe & Et).
  { unfold s3. destruct (response_valid r); split_and!; try done; by apply ok_rv. }
  pose proof (ok_show s3 H3) as H4. set (s4 := showErrors text_of s3) in *.
  destruct (ro_flight s H name value Ef) as [Hin Htv].
  assert (forall d, old prev = Some d -> optionDataString value = Some d) as Hd.
  { intros d Hd. by apply (ro_previous s H name prev Ep d Hd). }
  set (p' := mkPrevious (old prev) _ _ _).
  assert (in_flight s4 !! name = None) as Hn.
  { change (in_flight s3 !! name = None). rewrite Ei. apply lookup_delete_eq. }
  destruct (ok_known name p' s4 H4) as [H5 _].
  { intros d Ho. split; [intros v; by rewrite Hn|]. intros Hx. exfalso. apply Hx.
    change (pending s4) with (pending s3). by rewrite Epe. }
  { rewrite Hn. by intros []. }
  split; [done|]. intros q d. cbn. rewrite lookup_insert_eq. intros [= <-] Ho. exists value.
  change (trace s4) with (trace s3). rewrite Et. unfold s1. cbn. rewrite last_answer_now.
  split_and!; [done|done|by apply Hd].
Qed.

(** What else it leaves as it was. *)
Lemma take_answer_same name r value f prev s :
  let s' := take_answer text_of name r value f prev s in
  in_flight s' = delete name (in_flight s) /\ pending s' = pending s
  /\ pendingRequest s' = pendingRequest s /\ formSubmitted s' = formSubmitted s
  /\ trace s' = trace s ++ [Answered name value (response_valid r)]
  /\ v_context (rv s') = v_context (rv s)
  /\ s_rules (v_settings (rv s')) = s_rules (v_settings (rv s)) /\ thrown (rv s') = thrown (rv s)
  /\ exists m o, previousValues s'
                = <[name := mkPrevious (old prev) (response_valid r) m o]> (previousValues s).
Proof.
  unfold take_answer. set (s3 := if response_valid r then set_rv _ _ else _).
  destruct (defaultShowErrors_same text_of (currentElements s3) (rv s3)) as (_ & _ & _ & _ & E1 & E2 & E3).
  assert (v_context (rv s3) = v_context (rv s) /\ thrown (rv s3) = thrown (rv s)
          /\ s_rules (v_settings (rv s3)) = s_rules (v_settings (rv s))) as (F2 & F3 & F1)
    by (unfold s3; by destruct (response_valid r)).
  split_and!; try (unfold s3; by destruct (response_valid r));
    try first [by etransitivity|by rewrite <- F1, <- E1].
  unfold s3. destruct (response_valid r); by do 2 eexists.
Qed.

Lemma response_ok name r s : remote_ok s -> remote_ok (on_response text_of name r s).
Proof.
  intros H. unfold on_response. destruct (in_flight s !! name) as [value|] eqn:Ef; [|done].
  destruct (field_named name s) as [f|]; [|done].
  destruct (previousValues s !! name) as [prev|] eqn:Ep; [|done].
  destruct (take_answer_ok name r value f prev s H Ef Ep) as [H1 Hs].
  destruct (take_answer_same name r value f prev s) as (Ei & Epe & _).
  apply stop_ok; [done| | |done].
  - rewrite Epe. by apply (ro_flight s H name value).
  - rewrite Ei. apply lookup_delete_eq.
Qed.

Lemma failure_ok name s : remote_ok s -> remote_ok (on_failure name s).
Proof.
  intros [K1 K2 K3 K4 K5 K6 K7 K9 K8]. split; try done; cbn.
  - intros n v [_ Hn]%lookup_delete_Some. by apply K6.
  - intros n prev Hn d Hd. destruct (K7 n prev Hn d Hd) as [L1 L2]. split; [|done].
    cbn. intros v [_ Hv]%lookup_delete_Some. by apply L1.
  - intros n v [_ Hn]%lookup_delete_Some. by apply (K9 n v).
Qed.

(** *** Events of the fields *)
Lemma element_ok f s : remote_ok s -> text16 (fvalue f) -> remote_ok (element_remote text_of f s).
Proof.
  intros H Ht. unfold element_remote. destruct (visible f); [|by apply ok_rv].
  set (s1 := set_current _ _). assert (remote_ok s1) as H1 by (by destruct H).
  destruct (check_remote_spec f s1 H1 Ht) as (H2 & _).
  destruct (check_remote f s1) as [r s2]. cbn [snd] in *.
  destruct (thrown (rv s2)); [done|]. apply ok_show. by apply ok_rv.
Qed.

Lemma names_kept (i : nat) x (l : list field) : fname <$> alter (λ f, with_value f x) i l = fname <$> l.
Proof.
  revert i. induction l as [|f l IH]; intros [|i]; try done. cbn. f_equal. apply IH.
Qed.

Lemma typed_ok i x s : remote_ok s -> text16 x -> remote_ok (set_value i x s).
Proof.
  intros [K1 K2 K3 K4 K5 K6 K7 K9 K8] Hx. split; try done; cbn.
  - apply Forall_alter; [done|]. intros f _ _. exact Hx.
  - by rewrite names_kept.
Qed.

Lemma field_text i f s : remote_ok s -> fields (v_context (rv s)) !! i = Some f -> text16 (fvalue f).
Proof.
  intros H Hf. apply (proj1 (Forall_forall _ _) (ro_fields s H)). by apply (list_elem_of_lookup_2 _ i).
Qed.

Lemma leave_ok f s : remote_ok s -> text16 (fvalue f) -> remote_ok (leave_field text_of f s).
Proof.
  intros H Hf. unfold leave_field. set (s1 := if existsb _ _ then _ else _).
  assert (remote_ok s1) as H1.
  { unfold s1. clear s1. destruct (existsb (jseqb _) _); [|done]. set (gs := List.filter _ _).
    assert (Forall (λ g, text16 (fvalue g)) gs) as Hg.
    { apply Forall_forall. intros g Hg%list_elem_of_In. apply filter_In in Hg as [Hg _].
      apply (proj1 (Forall_forall _ _) (ro_fields s H)). by apply list_elem_of_In. }
    clearbody gs. revert s H. induction Hg as [|g gs Hg Hgs IH]; intros s H; [done|].
    cbn. by apply IH, element_ok. }
  unfold focusout_remote. repeat (case_match; try done). by apply element_ok.
Qed.

(** The texts typed are sequences of 16-bit units. *)
Definition input_ok (e : form_input) : Prop :=
  match e with TypeIn _ x _ _ => text16 x | _ => True end.

Lemma run_form_ok e s : input_ok e -> remote_ok s -> remote_ok (run_form text_of e s).
Proof.
  intros He H. unfold run_form. destruct (thrown (rv s)); [done|]. destruct e as [i x w k|i| |n r|n].
  - pose proof (typed_ok i x s H He) as H1. set (s1 := set_value i x s) in *. cbn zeta.
    destruct (fields (v_context (rv s1)) !! i) as [f|] eqn:Ef; [|done].
    unfold keyup_remote. repeat (case_match; try done). by apply element_ok; [|apply (field_text i f s1)].
  - destruct (fields (v_context (rv s)) !! i) as [f|] eqn:Ef; [|done].
    by apply leave_ok; [|apply (field_text i f s)].
  - by apply submit_ok.
  - by apply response_ok.
  - by apply failure_ok.
Qed.

Lemma run_inputs_ok es s : Forall input_ok es -> remote_ok s ->
  remote_ok (foldl (λ s e, run_form text_of e s) s es).
Proof.
  intros He. revert s. induction He as [|e es He Hes IH]; intros s H; [done|].
  cbn. by apply IH, run_form_ok.
Qed.
End Invariant.

(** A form as it is made: no rule was checked, and its fields have names of
    their own. *)
Definition made (v : validator) : Prop :=
  NoDup (fname <$> fields (v_context v))
  /\ Forall (λ f, text16 (fvalue f)) (fields (v_context v)).

Lemma fresh_ok v : made v -> remote_ok (v_settings v) (switch_on (v_context v)) (fresh_form v).
Proof.
  intros [Hd Ht]. split; try done. intros t fs rest E. by destruct t.
Qed.

(** C27: a form is sent only with values the server has accepted.  However typing,
    leaving fields, submitting, the answers of the server and requests that fail
    are ordered: whenever the form is sent, no rule of a field that is checked
    fails, and the last answer the server gave about a field with the rule
    [remote] is that it accepts the very value that is sent. *)
Theorem sent_only_accepted text_of v es t fs rest :
  made v -> Forall input_ok es ->
  trace (run_inputs text_of v es) = t ++ Sent fs :: rest ->
  let st := v_settings v in
  let ctx := mkContext fs (switch_on (v_context v)) in
  forall f, f ∈ fs -> visible f = true -> enabled f = true ->
  (forall m p, check_rules ctx f (length (rules st f)) false (local_rules st f) <> Failed m p)
  /\ (is_remote st f = true -> optional f = false ->
      last_answer (fname f) t = Some (elementValue f, true)).
Proof.
  intros Hv He Ht st ctx.
  apply (ro_sent _ _ _ (run_inputs_ok text_of st (switch_on (v_context v)) es _ He (fresh_ok v Hv))
           t fs rest Ht).
Qed.

(** ** A request that fails *)
Section Blocked.
Context (text_of : jsstr -> jsstr) (names : list jsstr) (name d : jsstr) (t0 : list remote_event).

(** An answer about [name] is due and will not come, and its field still has the
    value that was asked about. *)
Record blocked (s : remote_form) : Prop := {
  bl_pending : name ∈ pending s;
  bl_flight : in_flight s !! name = None;
  bl_previous : exists prev, previousValues s !! name = Some prev /\ old prev = Some d;
  bl_value : forall f, f ∈ fields (v_context (rv s)) -> fname f = name ->
    optionDataString (elementValue f) = Some d;
  bl_names : fname <$> fields (v_context (rv s)) = names;
  bl_count : pendingRequest s = Z.of_nat (size (pending s));
  bl_trace : exists l, trace s = t0 ++ l /\ forall fs, Sent fs ∉ l;
}.

Lemma blocked_rv v s : v_context v = v_context (rv s) -> blocked s -> blocked (set_rv v s).
Proof. intros E [B1 B2 B3 B4 B0 B5 B6]. split; try done; cbn; by rewrite E. Qed.

Lemma blocked_note e s : (forall fs, e <> Sent fs) -> blocked s -> blocked (note e s).
Proof.
  intros He [B1 B2 B3 B4 B0 B5 (l & E & Hl)]. split; try done. exists (l ++ [e]). cbn. rewrite E.
  split; [by rewrite app_assoc|]. intros fs [Hin|Hin%list_elem_of_singleton]%elem_of_app;
    [by apply (Hl fs)|by apply (He fs)].
Qed.

Lemma blocked_previous n prev s : (n = name -> old prev = Some d) -> blocked s ->
  blocked (set_previous n prev s).
Proof.
  intros Hp [B1 B2 B3 B4 B0 B5 B6]. split; try done. cbn.
  destruct (decide (n = name)) as [->|Hn].
  - exists prev. rewrite lookup_insert_eq. split; [done|by apply Hp].
  - by rewrite lookup_insert_ne.
Qed.

Lemma blocked_start n s : blocked s -> blocked (startRequest n s).
Proof.
  intros [B1 B2 B3 B4 B0 B5 B6]. unfold startRequest. destruct (decide _) as [Hn|Hn]; [done|].
  split; try done; cbn; [set_solver|].
  rewrite B5, size_union, size_singleton by set_solver. lia.
Qed.

Lemma blocked_ask f q prev s : fname f <> name -> blocked s -> blocked (ask f q prev s).
Proof.
  intros Hn H. unfold ask. apply blocked_note; [done|].
  pose proof (blocked_start (fname f) s H) as H1. set (s1 := startRequest _ _) in *.
  set (p' := mkPrevious _ _ _ _). pose proof (blocked_previous (fname f) p' s1 ltac:(done) H1) as H2.
  destruct H2 as [B1 B2 B3 B4 B0 B5 B6]. split; try done. cbn. by rewrite lookup_insert_ne.
Qed.

Lemma blocked_remote f s : f ∈ fields (v_context (rv s)) -> blocked s -> blocked (snd (remote f s)).
Proof.
  intros Hf H. unfold remote. set (s1 := set_rv _ s).
  assert (blocked s1) as H1 by (by apply blocked_rv).
  destruct (bl_previous s H) as (prev & Ep & Eo).
  assert (fname f = name -> old (keep_message f s) = Some d) as Ho.
  { intros E. unfold keep_message. cbn. by rewrite E, Ep. }
  destruct (optionDataString (elementValue f)) as [q|] eqn:Eq; [|by apply blocked_previous].
  destruct (decide (old (keep_message f s) = Some q)) as [Hk|Hk]; [by apply blocked_previous|].
  apply blocked_ask; [|done]. intros E. rewrite (Ho E) in Hk. rewrite (bl_value s H f Hf E) in Eq. congruence.
Qed.

Lemma remote_context f s : v_context (rv (snd (remote f s))) = v_context (rv s).
Proof.
  unfold remote, ask, startRequest. repeat (case_match; try done); cbn; by destruct (decide _).
Qed.

Lemma blocked_check f s : f ∈ fields (v_context (rv s)) -> blocked s ->
  blocked (snd (check_remote f s)) /\ v_context (rv (snd (check_remote f s))) = v_context (rv s).
Proof.
  intros Hf H. unfold check_remote. set (s1 := set_rv _ s).
  assert (blocked s1) as H1 by (by apply blocked_rv).
  assert (blocked (snd (then_remote f s1)) /\ v_context (rv (snd (then_remote f s1))) = v_context (rv s))
    as Hr.
  { unfold then_remote. pose proof (blocked_remote f s1 Hf H1) as H2.
    pose proof (remote_context f s1) as Ec. destruct (remote f s1) as [a s2]. cbn [snd] in *.
    unfold pass, fail. repeat case_match; cbn [snd]; split; try done; by apply blocked_rv. }
  unfold pass, fail. repeat case_match; try exact Hr; cbn [snd]; split; try done; by apply blocked_rv.
Qed.

Lemma blocked_form s : blocked s -> blocked (snd (form_remote text_of s)).
Proof.
  intros H. unfold form_remote, checkForm_remote. set (s2 := set_current _ _).
  change (foldl _ s2 _) with (foldl check_next s2 (elements (rv s))).
  assert (blocked s2) as H2 by (by destruct H).
  assert (forall f, f ∈ elements (rv s) -> f ∈ fields (v_context (rv s2))) as Hf.
  { intros f Hf. unfold elements in Hf. apply first_of_each_in in Hf as [Hf _].
    apply list_elem_of_In, filter_In in Hf as [Hf _]. by apply list_elem_of_In. }
  assert (blocked (foldl check_next s2 (elements (rv s)))) as H3.
  { generalize dependent s2. induction (elements (rv s)) as [|f fs IH]; intros s2 H2 Hf; [done|].
    cbn. unfold check_next at 2. destruct (thrown (rv s2)); [apply IH; [done|set_solver]|].
    destruct (blocked_check f s2 ltac:(apply Hf; set_solver) H2) as [H3 Ec].
    apply IH; [done|]. rewrite Ec. set_solver. }
  set (s3 := foldl check_next _ _) in *. destruct (thrown (rv s3)); [done|]. cbn [snd].
  apply blocked_rv; [|done].
  by destruct (defaultShowErrors_same text_of (elements (set_form (rv s3))) (set_form (rv s3)))
    as (_ & _ & _ & _ & _ & E & _).
Qed.

(** With an answer due, submitting does not send. *)
Lemma blocked_submit s : blocked s -> blocked (submit_event text_of s).
Proof.
  intros H. unfold submit_event. pose proof (blocked_form s H) as H1.
  destruct (form_remote text_of s) as [r s1]. cbn [snd] in H1. destruct r as [[]|]; [|done..].
  destruct (Z.eqb_spec (pendingRequest s1) 0) as [E|]; [|by destruct H1].
  exfalso. rewrite (bl_count s1 H1) in E. pose proof (bl_pending s1 H1) as Hp.
  assert (pending s1 = ∅) as Ee by (apply leibniz_equiv, size_empty_inv; lia). set_solver.
Qed.

Lemma blocked_answer n v ok s : blocked s ->
  blocked (note (Answered n v ok) (set_flight (delete n (in_flight s)) s)).
Proof.
  intros H. apply blocked_note; [done|]. destruct H as [B1 B2 B3 B4 B0 B5 B6]. split; try done. cbn.
  by apply lookup_delete_None; right.
Qed.

Lemma blocked_show s : blocked s -> blocked (showErrors text_of s).
Proof.
  intros H. apply blocked_rv; [|done].
  by destruct (defaultShowErrors_same text_of (currentElements s) (rv s)) as (_ & _ & _ & _ & _ & E & _).
Qed.

(** The answer about another field leaves this one due. *)
Lemma blocked_stop n ok s : n <> name -> n ∈ pending s -> blocked s -> blocked (stopRequest text_of n ok s).
Proof.
  intros Hn Hp [B1 B2 B3 B4 B0 B5 B6]. unfold stopRequest. set (s1 := set_pending _ _ s).
  assert (1 < size (pending s))%nat.
  { assert (size ({[n; name]} : gset jsstr) <= size (pending s))%nat as Hs by (apply subseteq_size; set_solver).
    rewrite size_union, !size_singleton in Hs by set_solver. lia. }
  assert (pendingRequest s1 = Z.of_nat (size (pending s1))) as E1.
  { unfold s1. cbn. rewrite B5, size_difference, size_singleton by set_solver. lia. }
  assert (name ∈ pending s1) by (cbn; set_solver).
  destruct (Z.eqb_spec (pendingRequest s1) 0) as [E|_]; [|by split].
  exfalso. rewrite E1 in E. cbn in E. rewrite size_difference, size_singleton in E by set_solver. lia.
Qed.

Lemma blocked_response n r s : (forall v, in_flight s !! n = Some v -> n ∈ pending s) -> blocked s ->
  blocked (on_response text_of n r s).
Proof.
  intros Hp H. unfold on_response. destruct (in_flight s !! n) as [value|] eqn:Ef; [|done].
  assert (n <> name) as Hn by (intros ->; by rewrite (bl_flight s H) in Ef).
  destruct (field_named n s) as [f|]; [|done]. destruct (previousValues s !! n) as [prev|] eqn:Ep; [|done].
  specialize (Hp _ eq_refl). destruct (take_answer_same text_of n r value f prev s) as (_ & Epe & _).
  apply blocked_stop; [done|by rewrite Epe|]. unfold take_answer. apply blocked_previous; [done|].
  apply blocked_show. destruct (response_valid r); repeat (apply blocked_rv; [done|]); by apply blocked_answer.
Qed.

Lemma blocked_failure n s : blocked s -> blocked (on_failure n s).
Proof.
  intros [B1 B2 B3 B4 B0 B5 B6]. split; try done. cbn. by apply lookup_delete_None; right.
Qed.

Lemma blocked_element f s : f ∈ fields (v_context (rv s)) -> blocked s ->
  blocked (element_remote text_of f s)
  /\ v_context (rv (element_remote text_of f s)) = v_context (rv s).
Proof.
  intros Hf H. unfold element_remote. destruct (visible f); [|split; [by apply blocked_rv|done]].
  set (s1 := set_current _ _). assert (blocked s1) as H1 by (by destruct H).
  destruct (blocked_check f s1 Hf H1) as [H2 E2]. destruct (check_remote f s1) as [r s2].
  cbn [snd] in *. destruct (thrown (rv s2)); [done|]. set (s3 := set_rv _ s2).
  assert (blocked s3) as H3 by (by apply blocked_rv). split; [by apply blocked_show|].
  destruct (defaultShowErrors_same text_of (currentElements s3) (rv s3)) as (_ & _ & _ & _ & _ & E & _).
  cbn in *. by rewrite E.
Qed.

Lemma blocked_leave f s : f ∈ fields (v_context (rv s)) -> blocked s -> blocked (leave_field text_of f s).
Proof.
  intros Hf H. unfold leave_field. set (s1 := if existsb _ _ then _ else _).
  assert (blocked s1 /\ v_context (rv s1) = v_context (rv s)) as [H1 E1].
  { unfold s1. clear s1. destruct (existsb (jseqb _) _); [|done]. set (gs := List.filter _ _).
    assert (forall g, g ∈ gs -> g ∈ fields (v_context (rv s))) as Hg.
    { intros g Hg%list_elem_of_In. apply filter_In in Hg as [Hg _]. by apply list_elem_of_In. }
    clearbody gs. clear Hf. revert s H Hg. induction gs as [|g gs IH]; intros s H Hg; [done|].
    cbn. destruct (blocked_element g s) as [H1 E1]; [set_solver|done|].
    rewrite <- E1. apply IH; [done|]. rewrite E1. set_solver. }
  unfold focusout_remote. repeat (case_match; try done); apply blocked_element; try done; by rewrite E1.
Qed.

Lemma blocked_typed i x s : names !! i <> Some name -> blocked s -> blocked (set_value i x s).
Proof.
  intros Hi [B1 B2 B3 B4 B0 B5 B6]. split; try done; cbn; [|by rewrite names_kept].
  intros f Hf Hn. apply list_elem_of_lookup in Hf as [j Hj]. destruct (decide (j = i)) as [->|Hne].
  - exfalso. apply Hi. rewrite <- B0, <- (names_kept i x), list_lookup_fmap, Hj. cbn. by rewrite Hn.
  - rewrite list_lookup_alter_ne in Hj by done. apply B4; [|done]. by apply (list_elem_of_lookup_2 _ j).
Qed.

(** The event does not change the value of the field. *)
Definition elsewhere (e : form_input) : Prop :=
  match e with TypeIn i _ _ _ => names !! i <> Some name | _ => True end.

Lemma blocked_run e s : elsewhere e -> (forall n v, in_flight s !! n = Some v -> n ∈ pending s) ->
  blocked s -> blocked (run_form text_of e s).
Proof.
  intros He Hp H. unfold run_form. destruct (thrown (rv s)); [done|]. destruct e as [i x w k|i| |n r|n].
  - pose proof (blocked_typed i x s He H) as H1. set (s1 := set_value i x s) in *. cbn zeta.
    destruct (fields (v_context (rv s1)) !! i) as [f|] eqn:Ef; [|done].
    unfold keyup_remote. repeat (case_match; try done); apply blocked_element; try done;
      by apply (list_elem_of_lookup_2 _ i).
  - destruct (fields (v_context (rv s)) !! i) as [f|] eqn:Ef; [|done].
    apply blocked_leave; [|done]. by apply (list_elem_of_lookup_2 _ i).
  - by apply blocked_submit.
  - apply blocked_response; [|done]. apply Hp.
  - by apply blocked_failure.
Qed.

Lemma blocked_runs st sw es s : Forall elsewhere es -> Forall input_ok es -> remote_ok st sw s ->
  blocked s -> blocked (foldl (λ s e, run_form text_of e s) s es).
Proof.
  intros He. revert s. induction He as [|e es He Hes IH]; intros s Hi H Hb; [done|].
  apply Forall_cons in Hi as [Hi Hi']. cbn. apply IH; [done|by apply run_form_ok|].
  apply blocked_run; [done| |done]. intros n v Hn. by apply (ro_flight _ _ _ H n v).
Qed.
End Blocked.

Lemma run_thrown text_of es s : thrown (rv s) = true ->
  foldl (λ s e, run_form text_of e s) s es = s.
Proof.
  intros H. induction es as [|e es IH]; [done|]. cbn. unfold run_form at 2. by rewrite H.
Qed.

(** When the request about a field fails, its answer stays due. *)
Lemma failure_blocked st sw s name value : remote_ok st sw s ->
  in_flight s !! name = Some value ->
  (forall f, f ∈ fields (v_context (rv s)) -> fname f = name -> elementValue f = value) ->
  exists d, blocked (fname <$> fields (v_context (rv s))) name d (trace s) (on_failure name s).
Proof.
  intros H Hf Hv. destruct (ro_kept _ _ _ H name value Hf) as (prev & Ep & [d Hd]).
  destruct (ro_previous _ _ _ H name prev Ep d Hd) as [L1 _]. specialize (L1 value Hf).
  exists d. split; try done; cbn.
  - by apply (ro_flight _ _ _ H name value).
  - apply lookup_delete_eq.
  - by exists prev.
  - intros f Hin Hn. by rewrite (Hv f Hin Hn).
  - apply (ro_count _ _ _ H).
  - exists []. split; [by rewrite app_nil_r|]. intros fs. set_solver.
Qed.

(** A request that fails leaves the form stuck.  When the server was asked
    about the value a field has and the request fails, then, whatever else
    happens to the form, the field counts as pending and the form is not sent,
    as long as the value of that very field is not changed. *)
Theorem failed_request_blocks text_of v es es' name value :
  made v -> Forall input_ok es -> Forall input_ok es' ->
  let s := run_inputs text_of v es in
  in_flight s !! name = Some value ->
  (forall f, f ∈ fields (v_context (rv s)) -> fname f = name -> elementValue f = value) ->
  Forall (elsewhere (fname <$> fields (v_context (rv s))) name) es' ->
  let s' := run_inputs text_of v (es ++ FailRequest name :: es') in
  name ∈ pending s' /\ exists l, trace s' = trace s ++ l /\ forall fs, Sent fs ∉ l.
Proof.
  intros Hm He He' s Hf Hv Hels s'.
  pose proof (run_inputs_ok text_of _ _ es _ He (fresh_ok v Hm)) as H. fold (run_inputs text_of v es) in H.
  fold s in H. assert (s' = foldl (λ s e, run_form text_of e s) (run_form text_of (FailRequest name) s) es') as Es
    by (unfold s', run_inputs; by rewrite foldl_app).
  unfold run_form at 2 in Es. destruct (thrown (rv s)) eqn:Et.
  - rewrite Es, run_thrown by done. split; [by apply (ro_flight _ _ _ H name value)|].
    exists []. split; [by rewrite app_nil_r|]. intros fs. set_solver.
  - destruct (failure_blocked _ _ s name value H Hf Hv) as [d Hb].
    pose proof (blocked_runs text_of _ _ _ _ _ _ es' _ Hels He' (failure_ok _ _ name s H) Hb) as Hb'.
    rewrite <- Es in Hb'. split; [apply Hb'|]. destruct (bl_trace _ _ _ _ _ Hb') as (l & E & Hl). by exists l.
Qed.

(** ** A form with one name that the server is asked about *)
Definition one_name (value : string) : validator :=
  mkValidator
    (mkSettings [(js "user", [(js "required", PBool true); (js "remote", PStr (js "/names"))])] []
       plugin_messages)
    (mkContext [mkField (js "user") (js "user") TText (js value) true true [] []] (λ _, true))
    ∅ ∅ [] ∅ [] ∅ ∅ [] false.

(** It is submitted while the answer about [anna] is due, refused, corrected to
    [annb], accepted, and submitted again. *)
Definition refused_then_accepted : list form_input :=
  [SubmitForm; Respond (js "user") (RText (js "Taken")); TypeIn 0 (js "annb") 66 66;
   Respond (js "user") RTrue; SubmitForm].

Definition asked_twice : list remote_event :=
  [Asked (js "user") (js "anna"); Answered (js "user") (js "anna") false;
   Asked (js "user") (js "annb"); Answered (js "user") (js "annb") true].

Example refused_then_accepted_trace :
  trace (run_inputs id (one_name "anna") refused_then_accepted)
  = asked_twice ++ [Sent (fields (v_context (one_name "annb")))].
Proof. vm_compute. reflexivity. Qed.

(** A form whose first value is accepted while it waits is sent by the answer. *)
Example sent_by_answer :
  trace (run_inputs id (one_name "anna") [SubmitForm; Respond (js "user") RTrue])
  = [Asked (js "user") (js "anna"); Answered (js "user") (js "anna") true;
     Sent (fields (v_context (one_name "anna")))].
Proof. vm_compute. reflexivity. Qed.

(** Until a corrected value is answered, the verdict on the one before counts: a
    form submitted in that time is not sent, even when the value is accepted. *)
Example corrected_submission_lost :
  trace (run_inputs id (one_name "anna")
           [SubmitForm; Respond (js "user") (RText (js "Taken")); TypeIn 0 (js "annb") 66 66;
            SubmitForm; Respond (js "user") RTrue])
  = asked_twice.
Proof. vm_compute. reflexivity. Qed.

Lemma text16_dec s : forallb (λ c, (0 <=? c) && (c <=? 0xFFFF)) s = true -> text16 s.
Proof.
  rewrite forallb_forall. intros H. apply Forall_forall. intros c Hc%list_elem_of_In.
  specialize (H c Hc). lia.
Qed.

Lemma one_name_made value : text16 (js value) -> made (one_name value).
Proof. intros H. split; [apply NoDup_singleton|]. by constructor. Qed.

Lemma sent_only_accepted_witness :
  let es := refused_then_accepted in
  trace (run_inputs id (one_name "anna") es)
  = asked_twice ++ Sent (fields (v_context (one_name "annb"))) :: []
  /\ last_answer (js "user") asked_twice = Some (js "annb", true).
Proof.
  assert (trace (run_inputs id (one_name "anna") refused_then_accepted)
    = asked_twice ++ Sent (fields (v_context (one_name "annb"))) :: []) as E by (vm_compute; reflexivity).
  split; [exact E|].
  refine (proj2 (sent_only_accepted id (one_name "anna") refused_then_accepted asked_twice _ []
                   (one_name_made "anna" _) _ E
                   (mkField (js "user") (js "user") TText (js "annb") true true [] []) _ _ _) _ _).
  - by apply text16_dec.
  - repeat (constructor; [first [exact I|by apply text16_dec]|]). constructor.
  - left.
  - reflexivity.
  - reflexivity.
  - reflexivity.
  - reflexivity.
Defined.

(** The request about [anna] fails: submitting again does not send. *)
Lemma failed_request_blocks_witness :
  let s := run_inputs id (one_name "anna") ([SubmitForm] ++ FailRequest (js "user") ::
             [SubmitForm; Respond (js "user") RTrue; LeaveField 0]) in
  js "user" ∈ pending s /\ forall fs, Sent fs ∉ trace s.
Proof.
  destruct (failed_request_blocks id (one_name "anna") [SubmitForm]
              [SubmitForm; Respond (js "user") RTrue; LeaveField 0] (js "user") (js "anna"))
    as [Hp (l & E & Hl)].
  - apply one_name_made. by apply text16_dec.
  - repeat constructor.
  - repeat constructor.
  - vm_compute. reflexivity.
  - intros f Hf _. revert f Hf.
    change (forall f, f ∈ fields (v_context (one_name "anna")) -> elementValue f = js "anna").
    intros f Hf%list_elem_of_singleton. rewrite Hf. reflexivity.
  - repeat constructor.
  - split; [exact Hp|]. intros fs Hfs. rewrite E in Hfs. apply elem_of_app in Hfs as [Hfs|Hfs].
    + assert (trace (run_inputs id (one_name "anna") [SubmitForm]) = [Asked (js "user") (js "anna")]) as Et
        by (vm_compute; reflexivity).
      rewrite Et in Hfs. apply list_elem_of_singleton in Hfs. discriminate.
    + exact (Hl fs Hfs).
Defined.
