(* ===== verification/RemoteSent.v ===== *)
(** * A form whose values are accepted is sent
    (jquery.validate.js: [form], [submit], [remote] and [stopRequest]).

    When no answer is due and no value was refused, submitting a form asks the
    server about the values it does not know, and when it accepts them all, in
    whatever order it answers, the form is sent, once. *)

From stdpp Require Import base tactics strings gmap sets numbers list.
From Stdlib Require Import ZArith Lia.
From S2P Require Import Prelude Regex Utf8 Validator FormsFacts Remote RemoteFacts.
Local Open Scope Z_scope.

Section Sending.
Context (text_of : jsstr -> jsstr) (st0 : settings) (sw : jsstr -> bool).

(** The rules of the field but [remote] are known, and none fails. *)
Definition good (fs : list field) (f : field) : Prop :=
  match check_rules (mkContext fs sw) f (length (rules st0 f)) false (local_rules st0 f) with
  | Passed | Undetermined => True
  | _ => False
  end.

(** If the server is asked about the field, its value has a text to ask with, and
    the verdict kept about that text is not that it is refused. *)
Definition not_refused (s : remote_form) (f : field) : Prop :=
  is_remote st0 f = true -> optional f = false ->
  exists d, optionDataString (elementValue f) = Some d
  /\ forall prev, previousValues s !! fname f = Some prev -> old prev = Some d -> p_valid prev = true.

(** The value of the field is the one accepted last. *)
Definition accepted (s : remote_form) (f : field) : Prop :=
  is_remote st0 f = true -> optional f = false ->
  exists prev d, previousValues s !! fname f = Some prev /\ old prev = Some d
  /\ optionDataString (elementValue f) = Some d /\ p_valid prev = true.

Lemma accepted_not_refused s f : accepted s f -> not_refused s f.
Proof.
  intros H Hr Ho. destruct (H Hr Ho) as (p & d & E1 & E2 & E3 & E4). exists d.
  split; [done|]. intros q Eq _. by rewrite E1 in Eq; injection Eq as <-.
Qed.

(** Every answer that is due is on its way. *)
Definition all_asked (s : remote_form) : Prop := dom (in_flight s) = pending s.

(** What a check that finds nothing wrong leaves: no error, nothing thrown; it may
    ask about the fields it checks. *)
Record clean_step (names : list jsstr) (s s' : remote_form) : Prop := {
  cl_errors : errorList (rv s') = errorList (rv s);
  cl_thrown : thrown (rv s') = thrown (rv s);
  cl_asked : all_asked s -> all_asked s';
  cl_pending : forall n, n ∈ pending s' -> n ∈ pending s \/ n ∈ names;
}.

Lemma clean_rv names w s s' : clean_step names s s' -> errorList w = errorList (rv s') ->
  thrown w = thrown (rv s') -> clean_step names s (set_rv w s').
Proof. intros [C1 C2 C3 C4] E1 E2. split; try done; cbn; by rewrite ?E1, ?E2. Qed.

Lemma clean_refl names s : clean_step names s s.
Proof. split; try done. by left. Qed.

Lemma clean_trans names1 names2 s1 s2 s3 : clean_step names1 s1 s2 -> clean_step names2 s2 s3 ->
  clean_step (names1 ++ names2) s1 s3.
Proof.
  intros [C1 C2 C3 C4] [D1 D2 D3 D4]. split.
  - by rewrite D1.
  - by rewrite D2.
  - auto.
  - intros n Hn. rewrite elem_of_app. destruct (D4 n Hn) as [Hn'|]; [|tauto].
    destruct (C4 n Hn'); tauto.
Qed.

(** Asking is clean. *)
Lemma clean_ask f d prev s : clean_step [fname f] s (ask f d prev s).
Proof.
  unfold ask, startRequest. destruct (decide (fname f ∈ pending s)) as [Hp|Hp];
    (split; [done|done| |]); unfold all_asked; cbn.
  - rewrite dom_insert_L. intros ->. set_solver.
  - by left.
  - rewrite dom_insert_L. by intros ->.
  - set_solver.
Qed.

Lemma clean_remote f s d : optionDataString (elementValue f) = Some d ->
  (forall prev, previousValues s !! fname f = Some prev -> old prev = Some d -> p_valid prev = true) ->
  let a := fst (remote f s) in
  let s' := snd (remote f s) in
  clean_step [fname f] s s' /\ (a = Pending \/ a = Known true)
  /\ (forall prev, previousValues s !! fname f = Some prev -> old prev = Some d -> pending s' = pending s).
Proof.
  intros Ed Hv. unfold remote. rewrite Ed. set (prev := keep_message f s). set (s1 := set_rv _ s).
  assert (clean_step [] s s1) as C1 by (by apply clean_rv; [apply clean_refl|..]).
  destruct (decide (old prev = Some d)) as [Ho|Ho]; cbn [fst snd]; split_and!.
  - destruct C1 as [X1 X2 X3 X4]. split; try done. by left.
  - right. f_equal. unfold prev, keep_message in *. cbn in *.
    destruct (previousValues s !! fname f) as [q|]; [|done]. by apply (Hv q).
  - done.
  - apply (clean_trans [] [fname f] s s1); [done|apply clean_ask].
  - by left.
  - intros q Eq Eo. exfalso. apply Ho. unfold prev, keep_message. cbn. by rewrite Eq.
Qed.

Lemma clean_pass f s s' : clean_step [fname f] s s' -> clean_step [fname f] s (snd (pass f s')).
Proof. intros C. unfold pass. destruct (rules _ f); by apply clean_rv. Qed.

Lemma clean_check f s : remote_ok st0 sw s -> good (fields (v_context (rv s))) f -> not_refused s f ->
  let s' := snd (check_remote f s) in
  clean_step [fname f] s s' /\ (accepted s f -> pending s' = pending s).
Proof.
  intros H Hg Hn. unfold check_remote.
  pose proof (rules_same st0 _ f (ro_rules _ _ _ H)) as Er.
  assert (is_remote (v_settings (rv s)) f = is_remote st0 f) as Ei by (unfold is_remote; by rewrite Er).
  assert (local_rules (v_settings (rv s)) f = local_rules st0 f) as El by (unfold local_rules; by rewrite Er).
  assert (v_context (rv s) = mkContext (fields (v_context (rv s))) sw) as Ec.
  { rewrite <- (ro_switch _ _ _ H). by destruct (v_context (rv s)). }
  set (s1 := set_rv _ s).
  assert (clean_step [fname f] s s1) as C1 by (by apply clean_rv; [apply clean_refl|..]).
  assert (pending s1 = pending s) as Ep by done.
  assert (previousValues s1 = previousValues s) as Ev by done.
  rewrite Er, Ei, El, Ec. clearbody s1.
  assert (is_remote st0 f = true -> clean_step [fname f] s (snd (then_remote f s1))
          /\ (accepted s f -> pending (snd (then_remote f s1)) = pending s)) as Hr.
  { intros Hr. unfold then_remote. destruct (optional f) eqn:Ho.
    - case_match; [by split|]. split; [by apply clean_pass|].
      intros _. unfold pass. by case_match.
    - destruct (Hn Hr Ho) as (d & Ed & Hv).
      destruct (clean_remote f s1 d Ed) as (C2 & Ha & Hp); [by rewrite Ev|].
      assert (clean_step [fname f] s (snd (remote f s1))) as C.
      { pose proof (clean_trans _ _ _ _ _ C1 C2) as [X1 X2 X3 X4]. split; try done.
        intros n Hin. destruct (X4 n Hin) as [|Hx]; [by left|right]. by apply elem_of_app in Hx as [|]. }
      assert (accepted s f -> pending (snd (remote f s1)) = pending s) as Hq.
      { intros Hacc. destruct (Hacc Hr Ho) as (p & d' & E1 & E2 & E3 & _).
        rewrite Ed in E3. injection E3 as <-. rewrite <- Ep. apply (Hp p); [by rewrite Ev|done]. }
      destruct (remote f s1) as [a s2]. cbn [fst snd] in *. destruct Ha as [-> | ->]; [by split|].
      split; [by apply clean_pass|]. unfold pass. by case_match. }
  unfold good in Hg.
  destruct (check_rules _ _ _ _ _); try done; (destruct (is_remote st0 f); [by apply Hr|]).
  - split; [by apply clean_pass|]. intros _. unfold pass. by case_match.
  - by split.
Qed.

(** ** The fields of a form *)
Lemma not_refused_other names s s' f : check_step names s s' -> fname f ∉ names ->
  not_refused s f -> not_refused s' f.
Proof.
  intros S Hf Hn Hr Ho. destruct (Hn Hr Ho) as (d & Ed & Hv). exists d. split; [done|].
  intros p. rewrite (cs_other _ _ _ S) by done. apply Hv.
Qed.

Lemma accepted_other names s s' f : check_step names s s' -> fname f ∉ names ->
  accepted s f -> accepted s' f.
Proof.
  intros S Hf Hn Hr Ho. destruct (Hn Hr Ho) as (p & d & E). exists p, d.
  by rewrite (cs_other _ _ _ S) by done.
Qed.

Lemma clean_checks fs s : remote_ok st0 sw s -> Forall (λ f, text16 (fvalue f)) fs ->
  NoDup (fname <$> fs) -> thrown (rv s) = false ->
  Forall (good (fields (v_context (rv s)))) fs -> Forall (not_refused s) fs ->
  let s' := foldl check_next s fs in
  clean_step (fname <$> fs) s s' /\ (Forall (accepted s) fs -> pending s' = pending s).
Proof.
  revert s. induction fs as [|f fs IH]; intros s H Ht Hd Eth Hg Hn; [by split; [apply clean_refl|]|].
  apply Forall_cons in Ht as [Ht Hts]. apply Forall_cons in Hg as [Hg Hgs].
  apply Forall_cons in Hn as [Hn Hns]. cbn in Hd. apply NoDup_cons in Hd as [Hd Hds].
  cbn [foldl]. unfold check_next at 2 4. rewrite Eth. set (s1 := snd (check_remote f s)).
  destruct (check_remote_spec text_of st0 sw f s H Ht) as (H1 & S1 & _). fold s1 in H1, S1.
  destruct (clean_check f s H Hg Hn) as [C1 P1]. fold s1 in C1, P1.
  assert (forall g, g ∈ fs -> fname g ∉ [fname f]) as Hne.
  { intros g Hg' He%list_elem_of_singleton. apply Hd. rewrite <- He. by apply list_elem_of_fmap_2. }
  destruct (IH s1 H1 Hts Hds) as [C2 P2].
  - by rewrite (cl_thrown _ _ _ C1).
  - by rewrite (cs_context _ _ _ S1).
  - apply Forall_forall. intros g Hg'. apply (not_refused_other _ _ _ _ S1); [by apply Hne|].
    by apply (proj1 (Forall_forall _ _) Hns).
  - split; [exact (clean_trans _ _ _ _ _ C1 C2)|]. intros [Ha Has]%Forall_cons.
    rewrite P2; [by apply P1|]. apply Forall_forall. intros g Hg'.
    apply (accepted_other _ _ _ _ S1); [by apply Hne|]. by apply (proj1 (Forall_forall _ _) Has).
Qed.

(** Of every field that is checked. *)
Definition checked_fields (s : remote_form) (P : field -> Prop) : Prop :=
  forall f, f ∈ fields (v_context (rv s)) -> visible f = true -> enabled f = true -> P f.

Lemma checked_elements s P : remote_ok st0 sw s -> checked_fields s P -> Forall P (elements (rv s)).
Proof.
  intros H HP. apply Forall_forall. intros f Hf. rewrite (elements_filter st0 sw s H) in Hf.
  apply list_elem_of_In, filter_In in Hf as [Hf Hc]. repeat (apply andb_true_iff in Hc as [Hc ?]).
  apply HP; [by apply list_elem_of_In|done|done].
Qed.

Lemma clean_form s : remote_ok st0 sw s -> thrown (rv s) = false ->
  checked_fields s (good (fields (v_context (rv s)))) -> checked_fields s (not_refused s) ->
  let r := fst (form_remote text_of s) in
  let s' := snd (form_remote text_of s) in
  r = Some true /\ thrown (rv s') = false /\ (all_asked s -> all_asked s')
  /\ (forall n, n ∈ pending s' -> n ∈ pending s \/ n ∈ fname <$> fields (v_context (rv s)))
  /\ (checked_fields s (accepted s) -> pending s' = pending s).
Proof.
  intros H Eth Hg Hn. unfold form_remote, checkForm_remote.
  set (s1 := set_rv (reset (rv s)) s). set (fs := elements (rv s1)). set (s2 := set_current fs s1).
  assert (remote_ok st0 sw s2) as H2 by (by destruct H).
  pose proof (elements_filter st0 sw s H) as Ef.
  assert (sublist fs (fields (v_context (rv s)))) as Hsub by (change fs with (elements (rv s)); rewrite Ef; apply filter_sublist).
  assert (Forall (λ f, text16 (fvalue f)) fs) as Ht.
  { apply Forall_forall. intros f Hf. apply (proj1 (Forall_forall _ _) (ro_fields _ _ _ H)).
    apply (elem_of_submseteq _ _ _ Hf), sublist_submseteq, Hsub. }
  destruct (clean_checks fs s2 H2 Ht (elements_nodup _) Eth
              (checked_elements s _ H Hg) (checked_elements s _ H Hn)) as [C P].
  change (foldl _ s2 fs) with (foldl check_next s2 fs). set (s3 := foldl check_next s2 fs) in *.
  destruct C as [C1 C2 C3 C4]. rewrite C2. change (thrown (rv s2)) with (thrown (rv s)). rewrite Eth.
  assert (same_record (set_form (rv s3)) (show_form text_of (rv s3))) as (F1 & _ & _ & _ & _ & _ & F2)
    by apply defaultShowErrors_same.
  cbn [fst snd]. split_and!.
  - cbn. unfold valid. rewrite F1. cbn. by rewrite C1.
  - cbn. rewrite F2. cbn. by rewrite C2.
  - exact C3.
  - intros n Hn'. destruct (C4 n Hn') as [|Hin]; [by left|right].
    apply (elem_of_submseteq _ _ _ Hin), sublist_submseteq, fmap_sublist, Hsub.
  - intros Ha. apply P. exact (checked_elements s _ H Ha).
Qed.

(** ** Submitting *)

(** The form was submitted and waits: it is in order, and the answers that are due
    are all that is missing. *)
Record waiting (fs : list field) (t0 : list remote_event) (s : remote_form) : Prop := {
  wa_ok : remote_ok st0 sw s;
  wa_thrown : thrown (rv s) = false;
  wa_fields : fields (v_context (rv s)) = fs;
  wa_good : checked_fields s (good fs);
  wa_about : checked_fields s (λ f, is_remote st0 f = true -> optional f = false -> asked_about f s);
  wa_asked : all_asked s;
  wa_names : forall n, n ∈ pending s -> n ∈ fname <$> fs;
  wa_submitted : formSubmitted s = true;
  wa_trace : exists l, trace s = t0 ++ l /\ forall gs, Sent gs ∉ l;
}.

(** It was sent, once, and nothing is due. *)
Definition sent_once (fs : list field) (t0 : list remote_event) (s : remote_form) : Prop :=
  pending s = ∅ /\ exists l, trace s = t0 ++ l ++ [Sent fs] /\ forall gs, Sent gs ∉ l.

Lemma pending_zero s : remote_ok st0 sw s -> (pendingRequest s =? 0) = bool_decide (pending s = ∅).
Proof.
  intros H. rewrite (ro_count _ _ _ H). apply eq_true_iff_eq. rewrite Z.eqb_eq, bool_decide_eq_true.
  rewrite <- leibniz_equiv_iff, <- size_empty_iff. lia.
Qed.

(** With nothing due, what was asked about was accepted. *)
Lemma about_accepted s : pending s = ∅ ->
  checked_fields s (λ f, is_remote st0 f = true -> optional f = false -> asked_about f s) ->
  checked_fields s (accepted s).
Proof.
  intros Hp Ha f Hf Hv He Hr Ho. destruct (Ha f Hf Hv He Hr Ho) as (p & d & E1 & E2 & E3 & E4).
  exists p, d. split_and!; try done. destruct E4 as [E4|]; [|done]. rewrite Hp in E4. set_solver.
Qed.

Lemma asked_no_sent (l : list remote_event) gs : Forall is_asked l -> Sent gs ∉ l.
Proof. intros H Hin. by apply (proj1 (Forall_forall _ _) H) in Hin. Qed.

Lemma submit_waits s : remote_ok st0 sw s -> thrown (rv s) = false ->
  (forall n, n ∈ pending s -> n ∈ fname <$> fields (v_context (rv s))) ->
  checked_fields s (good (fields (v_context (rv s)))) -> checked_fields s (not_refused s) ->
  all_asked s ->
  let fs := fields (v_context (rv s)) in
  let s' := submit_event text_of s in
  (waiting fs (trace s) s' \/ sent_once fs (trace s) s')
  /\ (pending s' = ∅ -> sent_once fs (trace s) s')
  /\ (checked_fields s (accepted s) -> pending s = ∅ -> sent_once fs (trace s) s').
Proof.
  intros H Eth Hnm Hg Hn Hd fs s'. unfold s', submit_event.
  destruct (clean_form s H Eth Hg Hn) as (Er & E1 & E2 & E3 & E4).
  destruct (form_spec text_of st0 sw s H) as (H1 & S1 & Hp).
  destruct (form_remote text_of s) as [r s1]. cbn [fst snd] in *. subst r.
  destruct (cs_asked _ _ _ S1) as (l & Et & Hl). specialize (Hp eq_refl).
  assert (fields (v_context (rv s1)) = fs) as Efs by (by rewrite (cs_context _ _ _ S1)).
  rewrite (pending_zero s1 H1). case_bool_decide as Hz.
  - assert (sent_once fs (trace s) (note (Sent (fields (v_context (rv s1)))) s1)) as Hs.
    { split; [done|]. exists l. cbn. rewrite Efs, Et, <- app_assoc. split; [done|].
      intros gs. by apply asked_no_sent. }
    split_and!; [by right|done..].
  - split_and!; [left|done|intros Ha Hz'; by rewrite (E4 Ha) in Hz].
    split; try done.
    + by apply ok_submitted.
    + intros f. cbn. rewrite Efs. apply Hg.
    + intros f. cbn. rewrite Efs. intros Hf Hv He Hr Ho.
      destruct (Hp f Hf Hv He) as [_ P2]. by apply P2.
    + by apply E2.
    + intros n Hin. destruct (E3 n Hin) as [Hin'|]; [by apply Hnm|done].
    + exists l. split; [done|]. intros gs. by apply asked_no_sent.
Qed.

(** ** The answers *)
Lemma field_named_some name s : name ∈ fname <$> fields (v_context (rv s)) ->
  exists f, field_named name s = Some f.
Proof.
  intros (f & -> & Hf)%list_elem_of_fmap. unfold field_named.
  assert (f ∈ List.filter (λ g, jseqb (fname g) (fname f)) (fields (v_context (rv s)))) as Hin.
  { apply list_elem_of_In, filter_In. split; [by apply list_elem_of_In|apply jseqb_refl]. }
  destruct (List.filter _ _) as [|g l]; [by apply not_elem_of_nil in Hin|]. by exists g.
Qed.

(** An answer that accepts keeps every field in order. *)
Lemma answer_waits fs t0 s name r value f prev : waiting fs t0 s -> response_valid r = true ->
  in_flight s !! name = Some value -> previousValues s !! name = Some prev ->
  let s' := take_answer text_of name r value f prev s in
  let s1 := set_pending (Z.max 0 (pendingRequest s' - 1)) (pending s' ∖ {[name]}) s' in
  waiting fs t0 s1 /\ pending s1 = pending s ∖ {[name]}.
Proof.
  intros [W1 W2 W3 W4 W5 W6 W7 W8 (l & Wt & Wl)] Hr Ef Ep s'.
  destruct (take_answer_ok text_of st0 sw name r value f prev s W1 Ef Ep) as [H1 Hs].
  destruct (take_answer_same text_of name r value f prev s)
    as (Ei & Epe & En & Esu & Et & Ec & Eru & Eth & (m & o & Epv)). fold s' in H1, Hs, Ei, Epe, En, Esu, Et, Ec, Eru, Eth, Epv.
  clearbody s'. destruct (ro_flight _ _ _ W1 name value Ef) as [Hin _]. intros s1. split; [|unfold s1; cbn; by rewrite Epe].
  split.
  - apply (ok_stop text_of); [done|by rewrite Epe| |done]. rewrite Ei. apply lookup_delete_eq.
  - unfold s1. cbn. by rewrite Eth.
  - unfold s1. cbn. by rewrite Ec.
  - intros g. unfold s1. cbn. rewrite Ec. apply W4.
  - intros g. unfold s1. cbn. rewrite Ec. intros Hg Hv He Hre Ho.
    destruct (W5 g Hg Hv He Hre Ho) as (p & d & E1 & E2 & E3 & E4).
    destruct (decide (fname g = name)) as [Hgn|Hgn].
    + rewrite Hgn, Ep in E1. injection E1 as <-.
      exists (mkPrevious (old prev) (response_valid r) m o), d. cbn. rewrite Epv, Hgn, lookup_insert_eq.
      split_and!; try done. by right.
    + exists p, d. cbn. rewrite Epv, lookup_insert_ne by done. split_and!; try done.
      rewrite Epe. destruct E4; [left; set_solver|by right].
  - unfold all_asked, s1. cbn. rewrite Ei, Epe, dom_delete_L. unfold all_asked in W6. by rewrite W6.
  - intros n. unfold s1. cbn. rewrite Epe. intros Hn. apply W7. set_solver.
  - unfold s1. cbn. by rewrite Esu.
  - exists (l ++ [Answered name value (response_valid r)]). unfold s1. cbn. rewrite Et, Wt.
    split; [by rewrite app_assoc|].
    intros gs [Hg|Hg%list_elem_of_singleton]%elem_of_app; [by apply (Wl gs)|done].
Qed.

Lemma answer_sends fs t0 s name r : waiting fs t0 s -> name ∈ pending s -> response_valid r = true ->
  let s' := run_form text_of (Respond name r) s in
  (pending s ∖ {[name]} = ∅ -> sent_once fs t0 s')
  /\ (pending s ∖ {[name]} <> ∅ -> waiting fs t0 s' /\ pending s' = pending s ∖ {[name]}).
Proof.
  intros W Hin Hr s'. unfold s', run_form. rewrite (wa_thrown _ _ _ W). unfold on_response.
  assert (exists value, in_flight s !! name = Some value) as [value Ef].
  { apply elem_of_dom. by rewrite (wa_asked _ _ _ W). }
  destruct (ro_kept _ _ _ (wa_ok _ _ _ W) name value Ef) as (prev & Ep & _).
  destruct (field_named_some name s) as [f Ff].
  { rewrite (wa_fields _ _ _ W). by apply (wa_names _ _ _ W). }
  rewrite Ef, Ff, Ep. destruct (answer_waits fs t0 s name r value f prev W Hr Ef Ep) as [W1 Ep1].
  unfold stopRequest. set (s1 := set_pending _ _ _) in *. rewrite Hr.
  rewrite (pending_zero s1 (wa_ok _ _ _ W1)), (wa_submitted _ _ _ W1), andb_true_r, Ep1. clearbody s1.
  case_bool_decide as Hz; (split; [|done]); [|done]. intros _. rewrite Hz in Ep1.
  destruct W1 as [W1 W2 W3 W4 W5 W6 W7 W8 (l & Wt & Wl)].
  pose proof (about_accepted s1 Ep1 W5) as Ha.
  assert (checked_fields s1 (not_refused s1)) as Hn.
  { intros g Hg Hv He. by apply accepted_not_refused, Ha. }
  rewrite <- W3 in W4.
  destruct (clean_form s1 W1 W2 W4 Hn) as (Er & E1 & E2 & E3 & E4). specialize (E4 Ha).
  destruct (form_spec text_of st0 sw s1 W1) as (H2 & S2 & Hp).
  destruct (form_remote text_of s1) as [b s2]. cbn [fst snd] in *. subst b. specialize (Hp eq_refl).
  rewrite Ep1 in E4. assert (fields (v_context (rv s2)) = fs) as Ef2 by (by rewrite (cs_context _ _ _ S2)).
  assert (checked_fields s2 (λ f, is_remote st0 f = true -> optional f = false -> asked_about f s2)) as Hab.
  { intros g Hg Hv He. apply Hp; [|done..]. by rewrite W3, <- Ef2. }
  pose proof (about_accepted s2 E4 Hab) as Ha2.
  destruct (submit_waits s2 H2 E1) as (_ & _ & Hs).
  - rewrite E4. set_solver.
  - rewrite Ef2, <- W3. intros g. rewrite Ef2, <- W3. apply W4.
  - intros g Hg Hv He. by apply accepted_not_refused, Ha2.
  - by apply E2.
  - destruct (Hs Ha2 E4) as (Hz2 & k & Ek & Hk). rewrite Ef2 in Ek.
    destruct (cs_asked _ _ _ S2) as (j & Ej & Hj). split; [done|]. exists (l ++ j ++ k).
    cbn. rewrite Ek, Ej, Wt, <- !app_assoc. split; [done|].
    intros gs. rewrite !elem_of_app. intros [Hg|[Hg|Hg]];
      [by apply (Wl gs)|by apply (asked_no_sent j gs)|by apply (Hk gs)].
Qed.

(** All the answers, in any order. *)
Lemma answers_send fs t0 resp ns s : NoDup ns -> waiting fs t0 s -> pending s <> ∅ ->
  (forall n, n ∈ ns <-> n ∈ pending s) -> (forall n, response_valid (resp n) = true) ->
  sent_once fs t0 (foldl (λ s e, run_form text_of e s) s (map (λ n, Respond n (resp n)) ns)).
Proof.
  intros Hd. revert s. induction Hd as [|n ns Hn Hd IH]; intros s W Hne Hin Hr.
  { exfalso. apply Hne. apply set_eq. intros n. rewrite <- Hin. set_solver. }
  cbn [map foldl]. destruct (answer_sends fs t0 s n (resp n) W) as [Hz Hnz];
    [by apply Hin; left|by apply Hr|]. destruct (decide (pending s ∖ {[n]} = ∅)) as [He|He].
  - assert (ns = []) as ->; [|by apply Hz].
    destruct ns as [|m ns]; [done|]. exfalso.
    assert (m ∈ pending s ∖ {[n]}) as Hm; [|rewrite He in Hm; by apply not_elem_of_empty in Hm].
    apply elem_of_difference. split; [by apply Hin; right; left|].
    intros ->%elem_of_singleton. apply Hn. by left.
  - destruct (Hnz He) as [W' Ep]. apply IH; [done|by rewrite Ep| |done].
    intros m. rewrite Ep, elem_of_difference, elem_of_singleton, <- Hin, elem_of_cons.
    split; [|tauto]. intros Hm. split; [by right|]. by intros ->.
Qed.
End Sending.

Lemma nothing_due st sw s : remote_ok st sw s -> pending s = ∅ -> all_asked s.
Proof.
  intros H Hp. unfold all_asked. rewrite Hp. apply dom_empty_iff_L, map_eq. intros n.
  rewrite lookup_empty. destruct (in_flight s !! n) as [v|] eqn:E; [|done].
  destruct (ro_flight _ _ _ H n v E) as [Hn _]. rewrite Hp in Hn. set_solver.
Qed.

(** C28: a form in order is sent.  Whatever happened to the form before: when no
    answer is due, no rule of a checked field fails, and none of the values the
    server is asked about is one it refused last, then submitting the form,
    followed by answers that accept, in any order, to all that is asked, sends the
    form with the values it has, exactly once, and leaves nothing due. *)
Theorem accepted_form_sent text_of v es resp ns :
  made v -> Forall input_ok es ->
  let s := run_inputs text_of v es in
  let fs := fields (v_context (rv s)) in
  thrown (rv s) = false -> pending s = ∅ ->
  (forall f, f ∈ fs -> visible f = true -> enabled f = true ->
   good (v_settings v) (switch_on (v_context v)) fs f /\ not_refused (v_settings v) s f) ->
  NoDup ns -> (forall n, n ∈ ns <-> n ∈ pending (run_form text_of SubmitForm s)) ->
  (forall n, response_valid (resp n) = true) ->
  let s' := run_inputs text_of v (es ++ SubmitForm :: map (λ n, Respond n (resp n)) ns) in
  pending s' = ∅ /\ exists l, trace s' = trace s ++ l ++ [Sent fs] /\ forall gs, Sent gs ∉ l.
Proof.
  intros Hm He s fs Eth Hp Hgood Hd Hns Hr s'.
  pose proof (run_inputs_ok text_of _ _ es _ He (fresh_ok v Hm)) as H. fold (run_inputs text_of v es) in H.
  fold s in H.
  assert (s' = foldl (λ s e, run_form text_of e s) (submit_event text_of s)
                 (map (λ n, Respond n (resp n)) ns)) as ->.
  { unfold s', run_inputs. rewrite foldl_app. cbn [foldl]. fold (run_inputs text_of v es). fold s.
    unfold run_form at 2. by rewrite Eth. }
  unfold run_form in Hns. rewrite Eth in Hns.
  destruct (submit_waits text_of _ _ s H Eth) as (Hw & Hz & _).
  - rewrite Hp. set_solver.
  - intros f Hf Hv Hen. by apply Hgood.
  - intros f Hf Hv Hen. by apply Hgood.
  - by apply (nothing_due _ _ _ H).
  - destruct (decide (pending (submit_event text_of s) = ∅)) as [E|E].
    + destruct ns as [|n ns]; [by apply Hz|]. exfalso.
      assert (n ∈ pending (submit_event text_of s)) as Hn by (apply Hns; left).
      rewrite E in Hn. by apply not_elem_of_empty in Hn.
    + destruct Hw as [Hw|[Hw _]]; [|done].
      exact (answers_send text_of _ _ fs (trace s) resp ns _ Hd Hw E Hns Hr).
Qed.

(** ** Two names the server is asked about *)
Definition two_names : validator :=
  mkValidator
    (mkSettings
       [(js "user", [(js "required", PBool true); (js "remote", PStr (js "/names"))]);
        (js "topic", [(js "remote", PStr (js "/topics"))])] []
       plugin_messages)
    (mkContext [mkField (js "user") (js "user") TText (js "anna") true true [] [];
                mkField (js "topic") (js "topic") TText (js "a/b") true true [] []] (λ _, true))
    ∅ ∅ [] ∅ [] ∅ ∅ [] false.

(** The first name is refused, and both are then pasted anew. *)
Definition refused_and_pasted : list form_input :=
  [SubmitForm; Respond (js "topic") RTrue; Respond (js "user") (RText (js "Taken"));
   TypeIn 0 (js "annb") 17 17; TypeIn 1 (js "a/c") 17 17].

Lemma two_names_made : made two_names.
Proof.
  split; [apply (bool_decide_unpack _); vm_compute; exact I|].
  repeat (constructor; [by apply text16_dec|]). constructor.
Qed.

Definition pasted_fields : list field :=
  [mkField (js "user") (js "user") TText (js "annb") true true [] [];
   mkField (js "topic") (js "topic") TText (js "a/c") true true [] []].

Lemma user_kept :
  previousValues (run_inputs id two_names refused_and_pasted) !! js "user"
  = Some (mkPrevious (Some (js "data=anna")) false (js "Taken") None).
Proof. vm_compute. reflexivity. Qed.

Lemma topic_kept :
  previousValues (run_inputs id two_names refused_and_pasted) !! js "topic"
  = Some (mkPrevious (Some (js "data=a%2Fb")) true (js "Please fix this field.") None).
Proof. vm_compute. reflexivity. Qed.

Lemma accepted_form_sent_witness :
  let s := run_inputs id two_names refused_and_pasted in
  let s' := run_inputs id two_names
              (refused_and_pasted ++ SubmitForm :: map (λ n, Respond n RTrue) [js "topic"; js "user"]) in
  Sent (fields (v_context (rv s))) ∈ trace s' /\ ~ (exists fs, Sent fs ∈ trace s).
Proof.
  intros s s'. destruct (accepted_form_sent id two_names refused_and_pasted (λ _, RTrue)
                           [js "topic"; js "user"] two_names_made) as (_ & l & E & _).
  - repeat (constructor; [first [exact I|by apply text16_dec]|]). constructor.
  - vm_compute. reflexivity.
  - vm_compute. reflexivity.
  - assert (fields (v_context (rv (run_inputs id two_names refused_and_pasted))) = pasted_fields) as Ef
      by (vm_compute; reflexivity).
    rewrite Ef. intros f Hf _ _. revert f Hf. apply Forall_forall, Forall_cons.
    split; [|apply Forall_singleton]; (split; [vm_compute; exact I|]); intros _ _;
      (eexists; split; [vm_compute; reflexivity|]); intros prev.
    + cbn [fname]. rewrite user_kept. by intros [= <-].
    + cbn [fname]. rewrite topic_kept. by intros [= <-].
  - apply (bool_decide_unpack _). vm_compute. exact I.
  - intros n. rewrite <- (elem_of_list_to_set (C:=gset jsstr)).
    replace (pending (run_form id SubmitForm (run_inputs id two_names refused_and_pasted)))
      with (list_to_set [js "topic"; js "user"] : gset jsstr); [done|].
    apply (bool_decide_unpack _). vm_compute. exact I.
  - reflexivity.
  - split.
    + unfold s'. rewrite E. rewrite !elem_of_app. right. right. left.
    + intros [fs Hfs]. revert Hfs.
      assert (forallb (λ e, match e with Sent _ => false | _ => true end) (trace s) = true) as Ht
        by (vm_compute; reflexivity).
      intros Hin%list_elem_of_In. by apply (proj1 (forallb_forall _ _) Ht) in Hin.
Defined.

(** A form that was submitted and became invalid is still taken for submitted: a
    later answer sends it, without its being submitted again. *)
Definition name_and_topic : validator :=
  mkValidator
    (mkSettings
       [(js "user", [(js "remote", PStr (js "/names"))]);
        (js "topic", [(js "required", PBool true)])] []
       plugin_messages)
    (v_context two_names) ∅ ∅ [] ∅ [] ∅ ∅ [] false.

Example sent_without_submitting :
  let waits := [SubmitForm; TypeIn 1 [] 17 17; Respond (js "user") RTrue] in
  let later := [TypeIn 1 (js "a/c") 67 67; TypeIn 0 (js "annb") 66 66; LeaveField 0;
                Respond (js "user") RTrue] in
  trace (run_inputs id name_and_topic waits)
  = [Asked (js "user") (js "anna"); Answered (js "user") (js "anna") true]
  /\ trace (run_inputs id name_and_topic (waits ++ later))
  = [Asked (js "user") (js "anna"); Answered (js "user") (js "anna") true;
     Asked (js "user") (js "annb"); Answered (js "user") (js "annb") true; Sent pasted_fields].
Proof. vm_compute. split; reflexivity. Qed.
