(* ===== verification/Accounts.v ===== *)
(** * The pages of administrators and of connection users
    (ui/page/admin.html and ui/page/user.html, the scripts on lines 207-550 and
    207-548).

    The two scripts are one script with other names: [account_page] is what
    differs.  A page has a table of accounts filled by the server, a dialog to
    add an account, one to edit one, one to confirm a deletion, and the alert of
    the frame.  Its handlers run on clicks, typed text, timers and the answers of
    the server, which come in any order.

    Modelled choices: a dialog that is shown takes the clicks, so that the page
    under it cannot be used; a disabled button is not clicked; the total of a
    page of rows is a number and its rows an array, as the server sends them
    (other shapes count as no rows); the start of a page is a multiple of its
    length. *)

From stdpp Require Import base tactics strings gmap numbers list.
From Stdlib Require Import ZArith Lia.
From S2P Require Import Prelude Locale Language Json DataTable Console Validator Forms.
Import Common.
Local Open Scope Z_scope.

(** ** What differs between the two pages *)
Record account_page := mkAccountPage {
  get_url : string;
  add_url : string;
  update_url : string;
  delete_url : string;
  account_key : string;                (* the property that names an account *)
  old_passwd_key : string;
  new_passwd_key : string;
  add_rules : list (jsstr * rule_list);
  add_messages : gmap jsstr jsstr -> list (jsstr * list (jsstr * option jsstr));
  add_form_fields : jsstr -> jsstr -> jsstr -> jsstr -> list field;
  add_account_field : string;
  edit_rules : list (jsstr * rule_list);
  edit_messages : gmap jsstr jsstr -> list (jsstr * list (jsstr * option jsstr));
  edit_form_fields : bool -> jsstr -> jsstr -> jsstr -> jsstr -> list field;
  edit_old_field : string;
  message_prefix : string;
  has_delete_button : option json -> bool;   (* of the row's account *)
}.

Definition admin_html : account_page :=
  mkAccountPage "/sys/admin/get" "/sys/admin/add" "/sys/admin/update" "/sys/admin/delete"
    "account" "oldPasswd" "newPasswd"
    addAdminRules addAdminMessages
    (add_fields "add-admin-account" "add-admin-desc" "add-admin-passwd" "add-admin-passwd-conf")
    "add-admin-account"
    editAdminRules editAdminMessages
    (edit_fields "edit-admin-desc" "edit-admin-old-passwd" "edit-admin-passwd"
       "edit-admin-passwd-conf")
    "edit-admin-old-passwd" "admin"
    (λ account, match account with
                | Some (JStr a) => negb (jseqb a (js "admin"))
                | _ => true
                end).

Definition user_html : account_page :=
  mkAccountPage "/sys/user/get" "/sys/user/add" "/sys/user/update" "/sys/user/delete"
    "username" "adminPasswd" "userPasswd"
    addUserRules addUserMessages
    (add_fields "add-conn-username" "add-user-desc" "add-user-passwd" "add-user-passwd-conf")
    "add-conn-username"
    editUserRules editUserMessages
    (edit_fields "edit-user-desc" "edit-user-admin-passwd" "edit-user-passwd"
       "edit-user-passwd-conf")
    "edit-user-admin-passwd" "user"
    (λ _, true).

(** ** The state of a page *)

(** What is typed into the fields of the two forms. *)
Record add_values := mkAddValues {
  av_account : jsstr; av_desc : jsstr; av_passwd : jsstr; av_conf : jsstr
}.
Record edit_values := mkEditValues {
  ev_account : jsstr;          (* the disabled field *)
  ev_desc : jsstr; ev_old : jsstr; ev_passwd : jsstr; ev_conf : jsstr
}.

Record dialog := mkDialog { dialog_shown : bool; confirm_button : button }.

(** A request that waits for its answer. *)
Inductive waiting :=
  | WaitQuery (table : nat) (draw : Z)
  | WaitAdd | WaitEdit | WaitDelete.

Record accounts := mkAccounts {
  add_typed : add_values;
  addValidation : validator;
  add_dialog : dialog;
  edit_typed : edit_values;
  editValidation : validator;
  edit_dialog : dialog;
  passwd_switch : bool;               (* the state of the switch *)
  editChangePasswd : bool;
  passwd_shown : bool;                (* the fields below it *)
  switch_timers : list bool;
  delete_dialog : dialog;
  delete_show : jsstr;                (* the account in its text *)
  alert_box : alert;
  selectedData : option json;
  queryAccount : option jsstr;
  queryPageNum : Z;
  queryDataLen : option Z;
  grid : tables;
  sent_requests : list (string * json);
  waiting_for : list waiting;
}.

Definition set_add (v : add_values) (w : validator) (d : dialog) (s : accounts) : accounts :=
  mkAccounts v w d (edit_typed s) (editValidation s) (edit_dialog s) (passwd_switch s)
    (editChangePasswd s) (passwd_shown s) (switch_timers s) (delete_dialog s) (delete_show s)
    (alert_box s) (selectedData s) (queryAccount s) (queryPageNum s) (queryDataLen s) (grid s)
    (sent_requests s) (waiting_for s).

Definition set_edit (v : edit_values) (w : validator) (d : dialog) (s : accounts) : accounts :=
  mkAccounts (add_typed s) (addValidation s) (add_dialog s) v w d (passwd_switch s)
    (editChangePasswd s) (passwd_shown s) (switch_timers s) (delete_dialog s) (delete_show s)
    (alert_box s) (selectedData s) (queryAccount s) (queryPageNum s) (queryDataLen s) (grid s)
    (sent_requests s) (waiting_for s).

Definition set_switch (on change shown : bool) (timers : list bool) (s : accounts) : accounts :=
  mkAccounts (add_typed s) (addValidation s) (add_dialog s) (edit_typed s) (editValidation s)
    (edit_dialog s) on change shown timers (delete_dialog s) (delete_show s)
    (alert_box s) (selectedData s) (queryAccount s) (queryPageNum s) (queryDataLen s) (grid s)
    (sent_requests s) (waiting_for s).

Definition set_delete (d : dialog) (text : jsstr) (s : accounts) : accounts :=
  mkAccounts (add_typed s) (addValidation s) (add_dialog s) (edit_typed s) (editValidation s)
    (edit_dialog s) (passwd_switch s) (editChangePasswd s) (passwd_shown s) (switch_timers s) d text
    (alert_box s) (selectedData s) (queryAccount s) (queryPageNum s) (queryDataLen s) (grid s)
    (sent_requests s) (waiting_for s).

Definition set_alert (a : alert) (s : accounts) : accounts :=
  mkAccounts (add_typed s) (addValidation s) (add_dialog s) (edit_typed s) (editValidation s)
    (edit_dialog s) (passwd_switch s) (editChangePasswd s) (passwd_shown s) (switch_timers s)
    (delete_dialog s) (delete_show s) a (selectedData s) (queryAccount s) (queryPageNum s)
    (queryDataLen s) (grid s) (sent_requests s) (waiting_for s).

Definition set_selected (j : option json) (s : accounts) : accounts :=
  mkAccounts (add_typed s) (addValidation s) (add_dialog s) (edit_typed s) (editValidation s)
    (edit_dialog s) (passwd_switch s) (editChangePasswd s) (passwd_shown s) (switch_timers s)
    (delete_dialog s) (delete_show s) (alert_box s) j (queryAccount s) (queryPageNum s)
    (queryDataLen s) (grid s) (sent_requests s) (waiting_for s).

Definition set_query (account : option jsstr) (pageNum : Z) (dataLen : option Z) (s : accounts) :
    accounts :=
  mkAccounts (add_typed s) (addValidation s) (add_dialog s) (edit_typed s) (editValidation s)
    (edit_dialog s) (passwd_switch s) (editChangePasswd s) (passwd_shown s) (switch_timers s)
    (delete_dialog s) (delete_show s) (alert_box s) (selectedData s) account pageNum dataLen
    (grid s) (sent_requests s) (waiting_for s).

Definition set_grid (w : tables) (s : accounts) : accounts :=
  mkAccounts (add_typed s) (addValidation s) (add_dialog s) (edit_typed s) (editValidation s)
    (edit_dialog s) (passwd_switch s) (editChangePasswd s) (passwd_shown s) (switch_timers s)
    (delete_dialog s) (delete_show s) (alert_box s) (selectedData s) (queryAccount s)
    (queryPageNum s) (queryDataLen s) w (sent_requests s) (waiting_for s).

Definition set_net (sent : list (string * json)) (wait : list waiting) (s : accounts) : accounts :=
  mkAccounts (add_typed s) (addValidation s) (add_dialog s) (edit_typed s) (editValidation s)
    (edit_dialog s) (passwd_switch s) (editChangePasswd s) (passwd_shown s) (switch_timers s)
    (delete_dialog s) (delete_show s) (alert_box s) (selectedData s) (queryAccount s)
    (queryPageNum s) (queryDataLen s) (grid s) sent wait.

(** ** Small steps of the handlers *)
Section Page.
Context (c : account_page) (p : page) (text_of : jsstr -> jsstr).

Definition message_of_page (what : string) : option jsstr :=
  msg p (String.append (message_prefix c) what).

(** [.val(x)] with a property of a row. *)
Definition val_text (o : option json) : jsstr :=
  match o with None | Some JNull => [] | Some j => json_str j end.


(** A property that [JSON.stringify] leaves out when it is [undefined]. *)
Definition opt_prop (key : string) (o : option json) : list (jsstr * json) :=
  match o with Some j => [(js key, j)] | None => [] end.

(** What a validator sees of the page. *)
Definition add_context (s : accounts) : context :=
  let v := add_typed s in
  mkContext (add_form_fields c (av_account v) (av_desc v) (av_passwd v) (av_conf v))
    (λ _, passwd_switch s).

Definition edit_context (s : accounts) : context :=
  let v := edit_typed s in
  mkContext (edit_form_fields c (passwd_shown s) (ev_desc v) (ev_old v) (ev_passwd v) (ev_conf v))
    (λ _, passwd_switch s).

(** [initializeModal] on the groups of a form. *)
Definition initialize_group (g : group) : group := mkGroup (Validator.help g) false false.

Definition initialize_form (v : validator) : validator :=
  mkValidator (v_settings v) (v_context v) (submitted v) (invalid v) (errorList v) (errorMap v)
    (successList v) (error_class v) (initialize_group <$> groups_of v) (bound v) (thrown v).

Definition set_button (b : button) (d : dialog) : dialog := mkDialog (dialog_shown d) b.
Definition show (d : dialog) : dialog := mkDialog true (confirm_button d).
Definition hide (d : dialog) : dialog := mkDialog false (confirm_button d).

Definition hide_add (s : accounts) : accounts :=
  set_add (add_typed s) (addValidation s) (hide (add_dialog s)) s.
Definition hide_edit (s : accounts) : accounts :=
  set_edit (edit_typed s) (editValidation s) (hide (edit_dialog s)) s.
Definition hide_delete (s : accounts) : accounts :=
  set_delete (hide (delete_dialog s)) (delete_show s) s.

Definition alert_page (what : string) (failed : bool) (s : accounts) : accounts :=
  set_alert (alertMessage (msg p "common_alert_title") (message_of_page what) failed (alert_box s)) s.

Definition alert_exception (s : accounts) : accounts :=
  set_alert (alertSystemException p (alert_box s)) s.

(** [handleError4Valid] on the group of a field; a missing message changes no
    text. *)
Definition mark_field (key : string) (field : string) (v : validator) : validator :=
  alter_group (js field)
    (λ g, handleError4Valid (default (Validator.help g) (msg p key)) g) v.

(** ** Requests *)
Definition ajax (url : string) (body : json) (w : waiting) (s : accounts) : accounts :=
  set_net (sent_requests s ++ [(url, body)]) (waiting_for s ++ [w]) s.

(** The [ajax] function of the table. *)
Definition table_ajax (call : ajax_call) (s : accounts) : accounts :=
  let pageNum := call_start call / call_length call + 1 in
  let s := set_query (queryAccount s) pageNum (queryDataLen s) s in
  ajax (get_url c)
    (JObj [(js (account_key c), match queryAccount s with Some a => JStr a | None => JNull end);
           (js "pageNum", JNum pageNum); (js "pageSize", JNum (call_length call))])
    (WaitQuery (call_table call) (call_draw call)) s.

(** The effect of an operation on the table. *)
Definition on_grid (r : tables * option ajax_call) (s : accounts) : accounts :=
  let s := set_grid r.1 s in
  match r.2 with Some call => table_ajax call s | None => s end.

(** The table's API object: the last table made. *)
Definition dataTable (s : accounts) : option nat :=
  match instances (grid s) with [] => None | l => Some (length l - 1)%nat end.

Definition queryDataTable (s : accounts) : accounts :=
  on_grid (newDataTable datatables_paging_len (grid s)) s.

Definition reload_table (rowDeleted : bool) (s : accounts) : accounts :=
  on_grid (datatablesReload (dataTable s) (queryPageNum s) (queryDataLen s) rowDeleted (grid s)) s.

Definition callback (k : nat) (d : draw_data) (s : accounts) : accounts :=
  set_grid (_fnAjaxUpdateDraw k d (grid s)) s.

(** The answer to a query; a successful one without result throws before the
    table hears of it. *)
Definition on_query (k : nat) (draw : Z) (a : answer) (s : accounts) : accounts :=
  match a with
  | NoAnswer => callback k datatables_no_data s
  | Answered res =>
      let s := set_query (queryAccount s) (queryPageNum s) (Some 0) s in
      if code_ok res then
        match res ≫= λ j, member j "result" with
        | None | Some JNull => s
        | Some result =>
            match rows_of_page result with
            | Some (total, items) =>
                callback k (mkDrawData draw total total items)
                  (set_query (queryAccount s) (queryPageNum s) (Some (Z.of_nat (length items))) s)
            | None => callback k datatables_no_data s
            end
        end
      else callback k datatables_no_data s
  end.

(** ** The switch of the edit form *)

(** [change.bootstrapSwitch] and [onSwitchChange]: only a new state is
    reported; the fields below are shown or hidden 150 ms later. *)
Definition switch_to (b : bool) (s : accounts) : accounts :=
  if eqb b (passwd_switch s) then s
  else set_switch b b (passwd_shown s) (switch_timers s ++ [b]) s.

Definition switch_timeout (s : accounts) : accounts :=
  match switch_timers s with
  | b :: l => set_switch (passwd_switch s) (editChangePasswd s) b l s
  | [] => s
  end.

(** ** Adding an account *)
Definition click_add (s : accounts) : accounts :=
  set_add (mkAddValues [] [] [] []) (initialize_form (addValidation s))
    (show (set_button (enableConfirm (confirm_button (add_dialog s))) (add_dialog s))) s.

(** The values as [.val()] gives them. *)
Definition add_body (v : add_values) : json :=
  JObj [(js (account_key c), JStr (clean_value (av_account v)));
        (js "desc", JStr (clean_value (av_desc v)));
        (js "password", JStr (clean_value (av_passwd v)))].

(** A form whose check threw leaves the handler. *)
Definition click_add_save (s : accounts) : accounts :=
  let d := add_dialog s in
  let busy := disableConfirm p text_of (confirm_button d) in
  let '(r, v) := form text_of (with_context (add_context s) (addValidation s)) in
  match r with
  | Some true => ajax (add_url c) (add_body (add_typed s)) WaitAdd
                   (set_add (add_typed s) v (set_button busy d) s)
  | Some false => set_add (add_typed s) v (set_button (enableConfirm busy) d) s
  | None => set_add (add_typed s) v (set_button busy d) s
  end.

Definition on_add (a : answer) (s : accounts) : accounts :=
  match a with
  | NoAnswer => alert_exception (hide_add s)
  | Answered res =>
      if code_ok res && result_is res 1 then
        alert_page "_add_succeeded" false (reload_table false (hide_add s))
      else if code_ok res && result_is res (-1) then
        set_add (add_typed s)
          (mark_field (String.append (message_prefix c) "_existed_message") (add_account_field c)
             (addValidation s))
          (set_button (enableConfirm (confirm_button (add_dialog s))) (add_dialog s)) s
      else alert_page "_add_failed" true (hide_add s)
  end.

(** ** Editing an account *)

(** A click in a row whose data is not in the table throws at the first
    property read. *)
Definition click_edit (n : row) (s : accounts) : accounts :=
  let s := set_selected (datatablesRowData (dataTable s) n (grid s)) s in
  let s := set_edit (mkEditValues [] [] [] [] []) (initialize_form (editValidation s))
             (set_button (enableConfirm (confirm_button (edit_dialog s))) (edit_dialog s)) s in
  let s := switch_to false s in
  match selectedData s with
  | None | Some JNull => s
  | Some j =>
      set_edit (mkEditValues (val_text (member j (account_key c))) (val_text (member j "desc"))
                  [] [] []) (editValidation s) (show (edit_dialog s)) s
  end.

Definition edit_body (j : json) (v : edit_values) : json :=
  JObj (opt_prop (account_key c) (member j (account_key c))
        ++ [(js "desc", JStr (clean_value (ev_desc v)));
            (js (old_passwd_key c), JStr (clean_value (ev_old v)));
            (js (new_passwd_key c), JStr (clean_value (ev_passwd v)))]).

Definition click_edit_save (s : accounts) : accounts :=
  let d := edit_dialog s in
  let busy := disableConfirm p text_of (confirm_button d) in
  let '(r, v) := form text_of (with_context (edit_context s) (editValidation s)) in
  match r with
  | Some true =>
      let s := set_edit (edit_typed s) v (set_button busy d) s in
      match selectedData s with
      | None | Some JNull => s
      | Some j => ajax (update_url c) (edit_body j (edit_typed s)) WaitEdit s
      end
  | Some false => set_edit (edit_typed s) v (set_button (enableConfirm busy) d) s
  | None => set_edit (edit_typed s) v (set_button busy d) s
  end.

Definition on_edit (a : answer) (s : accounts) : accounts :=
  match a with
  | NoAnswer => alert_exception (hide_edit s)
  | Answered res =>
      if code_ok res && result_is res 1 then
        alert_page "_edit_succeeded" false (reload_table false (hide_edit s))
      else if code_ok res && result_is res (-99) then
        set_edit (edit_typed s)
          (mark_field "common_passwd_error" (edit_old_field c) (editValidation s))
          (set_button (enableConfirm (confirm_button (edit_dialog s))) (edit_dialog s)) s
      else alert_page "_edit_failed" true (hide_edit s)
  end.

(** ** Deleting an account *)
Definition click_delete (n : row) (s : accounts) : accounts :=
  let s := set_selected (datatablesRowData (dataTable s) n (grid s)) s in
  let d := set_button (enableConfirm (confirm_button (delete_dialog s))) (delete_dialog s) in
  match selectedData s with
  | None | Some JNull => set_delete d (delete_show s) s
  | Some j => set_delete (show d) (put_text (member j (account_key c)) (delete_show s)) s
  end.

Definition delete_body (j : json) : json :=
  JObj (opt_prop (account_key c) (member j (account_key c))).

Definition click_delete_conf (s : accounts) : accounts :=
  let d := delete_dialog s in
  let s := set_delete (set_button (disableConfirm p text_of (confirm_button d)) d) (delete_show s) s in
  match selectedData s with
  | None | Some JNull => s
  | Some j => ajax (delete_url c) (delete_body j) WaitDelete s
  end.

Definition on_delete (a : answer) (s : accounts) : accounts :=
  match a with
  | NoAnswer => alert_exception (hide_delete s)
  | Answered res =>
      if code_ok res && result_is res 1 then
        alert_page "_delete_succeeded" false (reload_table true (hide_delete s))
      else alert_page "_delete_failed" true (hide_delete s)
  end.

(** ** Typing into the forms *)

(** The keys of a form that may be pressed in it. *)
Definition type_add (i : nat) (x : jsstr) (v : add_values) : add_values :=
  match i with
  | 0%nat => mkAddValues x (av_desc v) (av_passwd v) (av_conf v)
  | 1%nat => mkAddValues (av_account v) x (av_passwd v) (av_conf v)
  | 2%nat => mkAddValues (av_account v) (av_desc v) x (av_conf v)
  | _ => mkAddValues (av_account v) (av_desc v) (av_passwd v) x
  end.

Definition type_edit (i : nat) (x : jsstr) (v : edit_values) : edit_values :=
  match i with
  | 0%nat => mkEditValues (ev_account v) x (ev_old v) (ev_passwd v) (ev_conf v)
  | 1%nat => mkEditValues (ev_account v) (ev_desc v) x (ev_passwd v) (ev_conf v)
  | 2%nat => mkEditValues (ev_account v) (ev_desc v) (ev_old v) x (ev_conf v)
  | _ => mkEditValues (ev_account v) (ev_desc v) (ev_old v) (ev_passwd v) x
  end.

(** ** What can happen to a page *)
Inductive which_dialog := TheAdd | TheEdit | TheDelete.

Inductive event :=
  | ClickQuery (account : jsstr)
  | ClickPage (action : page_action)
  | ClickAdd
  | TypeAdd (i : nat) (x : jsstr) (which keyCode : Z)
  | LeaveAdd (i : nat)
  | ClickAddSave
  | ClickEdit (i : nat)                 (* the edit button of row i of the body *)
  | TypeEdit (i : nat) (x : jsstr) (which keyCode : Z)
  | LeaveEdit (i : nat)
  | ToggleSwitch
  | SwitchTimeout
  | ClickEditSave
  | ClickDelete (i : nat)
  | ClickDeleteConf
  | Dismiss (d : which_dialog)
  | DismissAlert
  | Answer (i : nat) (a : answer).      (* to the request i of those waiting *)

Definition on_answer (i : nat) (a : answer) (s : accounts) : accounts :=
  match waiting_for s !! i with
  | None => s
  | Some w =>
      let s := set_net (sent_requests s) (delete i (waiting_for s)) s in
      match w with
      | WaitQuery k draw => on_query k draw a s
      | WaitAdd => on_add a s
      | WaitEdit => on_edit a s
      | WaitDelete => on_delete a s
      end
  end.

Definition at_row (i : nat) (h : row -> accounts -> accounts) (s : accounts) : accounts :=
  match body_rows (grid s) !! i with Some n => h n s | None => s end.

Definition run_page (e : event) (s : accounts) : accounts :=
  match e with
  | ClickQuery a =>
      queryDataTable (set_query (Some (clean_value a)) (queryPageNum s) (queryDataLen s) s)
  | ClickPage action =>
      match dataTable s with
      | Some k => on_grid (click_page k action (grid s)) s
      | None => s
      end
  | ClickAdd => click_add s
  | TypeAdd i x which keyCode =>
      let s := set_add (type_add i x (add_typed s)) (addValidation s) (add_dialog s) s in
      set_add (add_typed s) (key_pressed text_of i which keyCode (add_context s) (addValidation s))
        (add_dialog s) s
  | LeaveAdd i =>
      set_add (add_typed s) (focus_lost text_of i (add_context s) (addValidation s)) (add_dialog s) s
  | ClickAddSave => click_add_save s
  | ClickEdit i => at_row i click_edit s
  | TypeEdit i x which keyCode =>
      let s := set_edit (type_edit i x (edit_typed s)) (editValidation s) (edit_dialog s) s in
      set_edit (edit_typed s) (key_pressed text_of i which keyCode (edit_context s) (editValidation s))
        (edit_dialog s) s
  | LeaveEdit i =>
      set_edit (edit_typed s) (focus_lost text_of i (edit_context s) (editValidation s)) (edit_dialog s) s
  | ToggleSwitch => switch_to (negb (passwd_switch s)) s
  | SwitchTimeout => switch_timeout s
  | ClickEditSave => click_edit_save s
  | ClickDelete i => at_row i click_delete s
  | ClickDeleteConf => click_delete_conf s
  | Dismiss TheAdd => hide_add s
  | Dismiss TheEdit => hide_edit s
  | Dismiss TheDelete => hide_delete s
  | DismissAlert =>
      set_alert (mkAlert (alert_title (alert_box s)) (alert_content (alert_box s)) false) s
  | Answer i a => on_answer i a s
  end.

(** The page is in front when nothing is shown over it, a dialog when it is shown
    and the alert is not. *)
Definition page_in_front (s : accounts) : bool :=
  negb (dialog_shown (add_dialog s)) && negb (dialog_shown (edit_dialog s))
  && negb (dialog_shown (delete_dialog s)) && negb (alert_shown (alert_box s)).

Definition in_front (d : dialog) (s : accounts) : bool :=
  dialog_shown d && negb (alert_shown (alert_box s)).

Definition clickable (d : dialog) (s : accounts) : bool :=
  in_front d s && negb (disabled (confirm_button d)).

Definition delete_button (n : row) : bool := has_delete_button c (member (aData n) (account_key c)).

Definition possible (e : event) (s : accounts) : bool :=
  match e with
  | ClickQuery _ | ClickPage _ | ClickAdd => page_in_front s
  | ClickEdit i => page_in_front s && (i <? length (body_rows (grid s)))%nat
  | ClickDelete i =>
      page_in_front s
      && match body_rows (grid s) !! i with Some n => delete_button n | None => false end
  | TypeAdd i _ _ _ | LeaveAdd i => in_front (add_dialog s) s && (i <? 4)%nat
  | TypeEdit i _ _ _ | LeaveEdit i =>
      in_front (edit_dialog s) s && (i <? 4)%nat && ((i =? 0)%nat || passwd_shown s)
  | ToggleSwitch => in_front (edit_dialog s) s
  | SwitchTimeout => negb (bool_decide (switch_timers s = []))
  | ClickAddSave => clickable (add_dialog s) s
  | ClickEditSave => clickable (edit_dialog s) s
  | ClickDeleteConf => clickable (delete_dialog s) s
  | Dismiss TheAdd => in_front (add_dialog s) s
  | Dismiss TheEdit => in_front (edit_dialog s) s
  | Dismiss TheDelete => in_front (delete_dialog s) s
  | DismissAlert => alert_shown (alert_box s)
  | Answer i _ => (i <? length (waiting_for s))%nat
  end.

(** The page as it is loaded. *)
Definition new_form (rs : list (jsstr * rule_list))
    (ms : gmap jsstr jsstr -> list (jsstr * list (jsstr * option jsstr)))
    (default_messages : gmap jsstr jsstr) (ctx : context) : validator :=
  mkValidator (mkSettings rs (ms (locale_messages p)) default_messages) ctx ∅ ∅ [] ∅ [] ∅
    (list_to_map ((λ f, (fname f, mkGroup [] true false)) <$> fields ctx)) [] false.

Definition new_dialog (label : jsstr) : dialog := mkDialog false (mkButton label None false).

Definition loaded (default_messages : gmap jsstr jsstr) (save confirm : jsstr) (a : alert) : accounts :=
  let nobody := add_form_fields c [] [] [] [] in
  let none_old := edit_form_fields c false [] [] [] [] in
  queryDataTable
    (mkAccounts (mkAddValues [] [] [] [])
       (new_form (add_rules c) (add_messages c) default_messages (mkContext nobody (λ _, false)))
       (new_dialog save)
       (mkEditValues [] [] [] [] [])
       (new_form (edit_rules c) (edit_messages c) default_messages (mkContext none_old (λ _, false)))
       (new_dialog save) false false false []
       (new_dialog confirm) [] a None None 0 None no_tables [] []).

Inductive reachable_page (default_messages : gmap jsstr jsstr) (save confirm : jsstr) (a : alert) :
    accounts -> Prop :=
  | page_loaded : reachable_page default_messages save confirm a (loaded default_messages save confirm a)
  | page_step s e :
      reachable_page default_messages save confirm a s -> possible e s = true ->
      reachable_page default_messages save confirm a (run_page e s).
End Page.
