(* ===== verification/AccountsFacts.v ===== *)
(** * What the pages of accounts do

    The invariants of a page whatever the user does and in whatever order the
    server answers, and what follows: a deletion is of the account shown, a new
    account is sent exactly when it is well formed, and where the pages go
    wrong. *)

From stdpp Require Import base tactics strings gmap numbers list.
From Stdlib Require Import ZArith Lia.
From S2P Require Import Prelude Locale Language Json DataTable Console ConsoleFacts DataTableFacts.
From S2P Require Import Validator Forms FormsFacts ConsoleForms Accounts.
Import Common.
Local Open Scope Z_scope.

(** ** The part of a page its tables and requests do not touch *)
Definition ui (s : accounts) :=
  (add_typed s, addValidation s, add_dialog s, edit_typed s, editValidation s, edit_dialog s,
   (passwd_switch s, editChangePasswd s, passwd_shown s, switch_timers s),
   (delete_dialog s, delete_show s, selectedData s)).

Section Frame.
Context (c : account_page) (p : page).

Lemma on_grid_ui r s : ui (on_grid c r s) = ui s.
Proof. destruct r as [w [call|]]; done. Qed.

Lemma reload_table_ui b s : ui (reload_table c b s) = ui s.
Proof. apply on_grid_ui. Qed.

Lemma on_query_ui k draw a s : ui (on_query k draw a s) = ui s.
Proof.
  unfold on_query, callback. repeat case_match; done.
Qed.

(** What an operation on the table adds to the requests. *)
Definition asked (r : tables * option ajax_call) (s : accounts) : list (string * json) :=
  match r.2 with
  | Some call =>
      [(get_url c,
        JObj [(js (account_key c), match queryAccount s with Some a => JStr a | None => JNull end);
              (js "pageNum", JNum (call_start call / call_length call + 1));
              (js "pageSize", JNum (call_length call))])]
  | None => []
  end.

Definition awaited (r : tables * option ajax_call) : list waiting :=
  match r.2 with Some call => [WaitQuery (call_table call) (call_draw call)] | None => [] end.

Lemma on_grid_net r s :
  sent_requests (on_grid c r s) = sent_requests s ++ asked r s
  /\ waiting_for (on_grid c r s) = waiting_for s ++ awaited r
  /\ grid (on_grid c r s) = r.1 /\ alert_box (on_grid c r s) = alert_box s
  /\ queryAccount (on_grid c r s) = queryAccount s
  /\ queryDataLen (on_grid c r s) = queryDataLen s.
Proof. destruct r as [w [call|]]; cbn; rewrite ?app_nil_r; by split_and!. Qed.

Lemma on_query_net k draw a s :
  sent_requests (on_query k draw a s) = sent_requests s
  /\ waiting_for (on_query k draw a s) = waiting_for s
  /\ alert_box (on_query k draw a s) = alert_box s.
Proof. unfold on_query, callback. repeat case_match; done. Qed.
End Frame.

(** ** Requests to delete *)
Definition deletes_sent (c : account_page) (s : accounts) : Prop :=
  forall body, (delete_url c, body) ∈ sent_requests s ->
  has_delete_button c (member body (account_key c)) = true.

Definition console_page (c : account_page) : Prop := c = admin_html \/ c = user_html.

Lemma urls_differ c : console_page c ->
  delete_url c <> get_url c /\ delete_url c <> add_url c /\ delete_url c <> update_url c
  /\ get_url c <> add_url c /\ get_url c <> update_url c /\ add_url c <> update_url c.
Proof. by intros [-> | ->]. Qed.

Lemma member_single key j : member (JObj [(js key, j)]) key = Some j.
Proof. cbn. by rewrite jseqb_refl. Qed.

Lemma member_delete_body c j : member (delete_body c j) (account_key c) = member j (account_key c).
Proof.
  unfold delete_body. destruct (member j (account_key c)) as [x|]; [apply member_single|done].
Qed.

(** ** The dialogs *)

(** At most one is shown; the one to confirm a deletion names the row selected,
    which has a button to delete it. *)
Definition dialogs_ok (c : account_page) (s : accounts) : Prop :=
  let a := dialog_shown (add_dialog s) in
  let e := dialog_shown (edit_dialog s) in
  let d := dialog_shown (delete_dialog s) in
  (a && e = false /\ a && d = false /\ e && d = false)
  /\ (d = true -> exists j, selectedData s = Some j /\ j <> JNull
      /\ has_delete_button c (member j (account_key c)) = true
      /\ forall x, member j (account_key c) = Some (JStr x) -> delete_show s = x)
  /\ (e = true -> exists j, selectedData s = Some j /\ j <> JNull).

Lemma dialogs_ui c s s' : ui s' = ui s -> dialogs_ok c s -> dialogs_ok c s'.
Proof. unfold ui, dialogs_ok. intros [=]. by repeat match goal with H : _ s' = _ |- _ => rewrite H end. Qed.

Section Steps.
Context (c : account_page) (p : page) (text_of : jsstr -> jsstr).
Abbreviation run := (run_page c p text_of).

Lemma front_spec s : page_in_front s = true ->
  dialog_shown (add_dialog s) = false /\ dialog_shown (edit_dialog s) = false
  /\ dialog_shown (delete_dialog s) = false.
Proof. unfold page_in_front. by destruct (dialog_shown _), (dialog_shown _), (dialog_shown _). Qed.

(** Another state of the buttons, and a dialog hidden, keep the dialogs right. *)
Lemma dialogs_mono s s' :
  (dialog_shown (add_dialog s') = true -> dialog_shown (add_dialog s) = true) ->
  (dialog_shown (edit_dialog s') = true -> dialog_shown (edit_dialog s) = true) ->
  (dialog_shown (delete_dialog s') = true -> dialog_shown (delete_dialog s) = true) ->
  delete_show s' = delete_show s -> selectedData s' = selectedData s ->
  dialogs_ok c s -> dialogs_ok c s'.
Proof.
  unfold dialogs_ok. intros H1 H2 H3 -> -> (Hs & Hd & He).
  split; [|split; intros Hx; [apply Hd, H3, Hx|apply He, H2, Hx]].
  split_and!; apply not_true_iff_false; intros [X Y]%andb_true_iff;
    [apply H1 in X; apply H2 in Y|apply H1 in X; apply H3 in Y|apply H2 in X; apply H3 in Y];
    rewrite X, Y in Hs; by destruct_and?.
Qed.

Lemma switch_to_frame b s :
  add_dialog (switch_to b s) = add_dialog s /\ edit_dialog (switch_to b s) = edit_dialog s
  /\ delete_dialog (switch_to b s) = delete_dialog s
  /\ selectedData (switch_to b s) = selectedData s
  /\ editValidation (switch_to b s) = editValidation s
  /\ grid (switch_to b s) = grid s /\ sent_requests (switch_to b s) = sent_requests s.
Proof. unfold switch_to. by case_match. Qed.

(** What a click on the edit button of a row does to the dialogs. *)
Lemma click_edit_frame n s :
  let d := datatablesRowData (dataTable s) n (grid s) in
  add_dialog (click_edit c n s) = add_dialog s
  /\ delete_dialog (click_edit c n s) = delete_dialog s
  /\ selectedData (click_edit c n s) = d
  /\ dialog_shown (edit_dialog (click_edit c n s))
     = match d with None | Some JNull => dialog_shown (edit_dialog s) | _ => true end
  /\ editValidation (click_edit c n s) = initialize_form (editValidation s)
  /\ grid (click_edit c n s) = grid s /\ sent_requests (click_edit c n s) = sent_requests s.
Proof.
  cbv zeta. unfold click_edit. set (s1 := set_edit _ _ _ _).
  destruct (switch_to_frame false s1) as (E1 & E2 & E3 & E4 & E5 & E6 & E7).
  rewrite E4. cbn [selectedData set_selected set_edit s1].
  destruct (datatablesRowData (dataTable s) n (grid s)) as [[]|];
    rewrite ?E1, ?E2, ?E3, ?E4, ?E5, ?E6, ?E7; split_and!;
    (reflexivity || (etransitivity; [eassumption|reflexivity])).
Qed.

Lemma click_edit_dialogs n s : page_in_front s = true -> dialogs_ok c (click_edit c n s).
Proof.
  intros (Ha & He & Hd)%front_spec.
  destruct (click_edit_frame n s) as (E1 & E2 & E3 & E4 & _). unfold dialogs_ok.
  rewrite E1, E2, E3, E4, Ha, Hd. split_and!; try done; [apply andb_false_r|].
  destruct (datatablesRowData _ _ _) as [[]|]; rewrite ?He; try done; intros _; eexists; by split.
Qed.

Lemma click_delete_frame n s :
  let d := datatablesRowData (dataTable s) n (grid s) in
  add_dialog (click_delete c n s) = add_dialog s
  /\ edit_dialog (click_delete c n s) = edit_dialog s
  /\ selectedData (click_delete c n s) = d
  /\ dialog_shown (delete_dialog (click_delete c n s))
     = match d with None | Some JNull => dialog_shown (delete_dialog s) | _ => true end
  /\ delete_show (click_delete c n s)
     = match d with
       | None | Some JNull => delete_show s
       | Some j => put_text (member j (account_key c)) (delete_show s)
       end
  /\ grid (click_delete c n s) = grid s /\ sent_requests (click_delete c n s) = sent_requests s.
Proof.
  cbv zeta. unfold click_delete. cbn [selectedData set_selected].
  by destruct (datatablesRowData (dataTable s) n (grid s)) as [[]|].
Qed.

(** The data a click finds is what the row shows. *)
Lemma row_found n s j : tables_ok (grid s) -> n ∈ body_rows (grid s) ->
  datatablesRowData (dataTable s) n (grid s) = Some j -> aData n = j.
Proof.
  intros Hg Hn. unfold datatablesRowData. destruct (dataTable s) as [k|]; [|done].
  by apply (row_data_shown k n j (grid s)).
Qed.

Lemma click_delete_dialogs n s : tables_ok (grid s) -> n ∈ body_rows (grid s) ->
  delete_button c n = true -> page_in_front s = true -> dialogs_ok c (click_delete c n s).
Proof.
  intros Hg Hn Hb (Ha & He & Hd)%front_spec.
  destruct (click_delete_frame n s) as (E1 & E2 & E3 & E4 & E5 & _). unfold dialogs_ok.
  rewrite E1, E2, E3, E4, E5, Ha, He. split_and!; try done.
  destruct (datatablesRowData _ _ _) as [j|] eqn:Ej; [|by rewrite Hd].
  apply (row_found n s j Hg Hn) in Ej. unfold delete_button in Hb. rewrite Ej in Hb.
  intros Hs. exists j. split_and!; [done|intros ->; by rewrite Hs in Hd|done|].
  intros x Hx. rewrite Hx. by destruct j.
Qed.

Lemma on_answer_dialogs i a s : dialogs_ok c s -> dialogs_ok c (on_answer c p i a s).
Proof.
  intros H. unfold on_answer. destruct (waiting_for s !! i) as [w|]; [|done].
  set (s0 := set_net _ _ s). assert (dialogs_ok c s0) as H0 by exact H. destruct w.
  - eapply dialogs_ui; [apply on_query_ui|done].
  - destruct a as [res|]; cbn [on_add]; [repeat case_match|].
    + eapply dialogs_ui; [etransitivity; [|apply (reload_table_ui c false (hide_add s0))]; reflexivity|].
      by apply (dialogs_mono s0).
    + by apply (dialogs_mono s0).
    + by apply (dialogs_mono s0).
    + by apply (dialogs_mono s0).
  - destruct a as [res|]; cbn [on_edit]; [repeat case_match|].
    + eapply dialogs_ui; [etransitivity; [|apply (reload_table_ui c false (hide_edit s0))]; reflexivity|].
      by apply (dialogs_mono s0).
    + by apply (dialogs_mono s0).
    + by apply (dialogs_mono s0).
    + by apply (dialogs_mono s0).
  - destruct a as [res|]; cbn [on_delete]; [repeat case_match|].
    + eapply dialogs_ui; [etransitivity; [|apply (reload_table_ui c true (hide_delete s0))]; reflexivity|].
      by apply (dialogs_mono s0).
    + by apply (dialogs_mono s0).
    + by apply (dialogs_mono s0).
Qed.

Lemma click_add_dialogs s : page_in_front s = true -> dialogs_ok c (click_add s).
Proof.
  intros (Ha & He & Hd)%front_spec. unfold dialogs_ok. cbn. by rewrite He, Hd.
Qed.

Lemma run_dialogs e s : tables_ok (grid s) -> possible c e s = true -> dialogs_ok c s ->
  dialogs_ok c (run e s).
Proof.
  intros Hg Hp H. destruct e; cbn [run_page possible] in *.
  - eapply dialogs_ui; [apply (on_grid_ui c)|done].
  - destruct (dataTable s); [|done]. eapply dialogs_ui; [apply (on_grid_ui c)|done].
  - by apply click_add_dialogs.
  - by apply (dialogs_mono s).
  - by apply (dialogs_mono s).
  - unfold click_add_save. destruct (form _ _) as [[[]|] v]; by apply (dialogs_mono s).
  - apply andb_true_iff in Hp as [Hp _]. unfold at_row.
    destruct (body_rows (grid s) !! i); [|done]. by apply click_edit_dialogs.
  - by apply (dialogs_mono s).
  - by apply (dialogs_mono s).
  - unfold switch_to. case_match; by apply (dialogs_mono s).
  - unfold switch_timeout. case_match; by apply (dialogs_mono s).
  - unfold click_edit_save. destruct (form _ _) as [[[]|] v]; try by apply (dialogs_mono s).
    cbn. repeat case_match; by apply (dialogs_mono s).
  - unfold at_row. destruct (body_rows (grid s) !! i) as [n|] eqn:En; [|by rewrite andb_false_r in Hp].
    apply andb_true_iff in Hp as [Hp Hb]. apply click_delete_dialogs; [done| |done|done].
    by apply (list_elem_of_lookup_2 _ i).
  - unfold click_delete_conf. cbn. repeat case_match; by apply (dialogs_mono s).
  - destruct d; by apply (dialogs_mono s).
  - by apply (dialogs_mono s).
  - by apply on_answer_dialogs.
Qed.

Lemma on_grid_grid r s : grid (on_grid c r s) = r.1.
Proof. by destruct r as [w [call|]]. Qed.

Lemma on_query_step k draw a s : grid_step (grid s) (grid (on_query k draw a s)).
Proof. unfold on_query, callback. repeat case_match; constructor. Qed.

Lemma reload_step b s : grid_step (grid s) (grid (reload_table c b s)).
Proof. unfold reload_table. rewrite on_grid_grid. constructor. Qed.

Lemma on_answer_step i a s : grid_step (grid s) (grid (on_answer c p i a s)).
Proof.
  unfold on_answer. destruct (waiting_for s !! i) as [w|]; [|constructor].
  set (s0 := set_net _ _ s). change (grid s) with (grid s0). destruct w.
  - apply on_query_step.
  - unfold on_add. repeat case_match; try constructor. apply (reload_step false (hide_add s0)).
  - unfold on_edit. repeat case_match; try constructor. apply (reload_step false (hide_edit s0)).
  - unfold on_delete. repeat case_match; try constructor. apply (reload_step true (hide_delete s0)).
Qed.

Lemma run_grid_step e s : grid_step (grid s) (grid (run e s)).
Proof.
  destruct e; cbn [run_page]; try exact (grid_same _).
  - unfold queryDataTable. rewrite on_grid_grid. apply grid_made.
  - destruct (dataTable s); [|constructor]. rewrite on_grid_grid. apply grid_clicked.
  - unfold click_add_save. destruct (form _ _) as [[[]|] v]; constructor.
  - unfold at_row. destruct (body_rows (grid s) !! i) as [n|]; [|constructor].
    destruct (click_edit_frame n s) as (_ & _ & _ & _ & _ & -> & _). constructor.
  - destruct (switch_to_frame (negb (passwd_switch s)) s) as (_ & _ & _ & _ & _ & -> & _).
    constructor.
  - unfold switch_timeout. case_match; constructor.
  - unfold click_edit_save. destruct (form _ _) as [[[]|] v]; try constructor.
    cbn [selectedData set_edit]. destruct (selectedData s) as [[]|]; constructor.
  - unfold at_row. destruct (body_rows (grid s) !! i) as [n|]; [|constructor].
    destruct (click_delete_frame n s) as (_ & _ & _ & _ & _ & -> & _). constructor.
  - unfold click_delete_conf. cbn [selectedData set_delete].
    destruct (selectedData s) as [[]|]; constructor.
  - destruct d; constructor.
  - apply on_answer_step.
Qed.

(** ** Deletions *)
Lemma deletes_same s s' : sent_requests s' = sent_requests s -> deletes_sent c s -> deletes_sent c s'.
Proof. unfold deletes_sent. by intros ->. Qed.

Lemma deletes_more s s' l : sent_requests s' = sent_requests s ++ l -> deletes_sent c s ->
  (forall body, (delete_url c, body) ∈ l -> has_delete_button c (member body (account_key c)) = true) ->
  deletes_sent c s'.
Proof.
  unfold deletes_sent. intros -> H Hl body [?|?]%elem_of_app; auto.
Qed.

Lemma deletes_other s s' url body : sent_requests s' = sent_requests s ++ [(url, body)] ->
  delete_url c <> url -> deletes_sent c s -> deletes_sent c s'.
Proof.
  intros E Hne H. apply (deletes_more s s' _ E H).
  by intros b [= Eu _]%list_elem_of_singleton.
Qed.

Lemma on_grid_deletes r s : console_page c -> deletes_sent c s -> deletes_sent c (on_grid c r s).
Proof.
  intros Hc H. destruct (on_grid_net c r s) as [E _]. apply (deletes_more s _ _ E H).
  unfold asked. destruct (r.2); [|by intros ? ?%elem_of_nil].
  intros b [= Eu _]%list_elem_of_singleton. by destruct (urls_differ c Hc).
Qed.

Lemma on_answer_deletes i a s : console_page c -> deletes_sent c s ->
  deletes_sent c (on_answer c p i a s).
Proof.
  intros Hc H. unfold on_answer. destruct (waiting_for s !! i) as [w|]; [|done].
  set (s0 := set_net _ _ s). assert (deletes_sent c s0) as H0 by exact H. destruct w.
  - apply (deletes_same s0); [|done]. apply on_query_net.
  - unfold on_add. repeat (case_match; try done). by apply (on_grid_deletes _ (hide_add s0)).
  - unfold on_edit. repeat (case_match; try done). by apply (on_grid_deletes _ (hide_edit s0)).
  - unfold on_delete. repeat (case_match; try done). by apply (on_grid_deletes _ (hide_delete s0)).
Qed.

Lemma run_deletes e s : console_page c -> dialogs_ok c s -> possible c e s = true ->
  deletes_sent c s -> deletes_sent c (run e s).
Proof.
  intros Hc Hd Hp H. destruct (urls_differ c Hc) as (N1 & N2 & N3 & _).
  destruct e; cbn [run_page possible] in *; try exact H.
  - by apply on_grid_deletes.
  - destruct (dataTable s); [|done]. by apply on_grid_deletes.
  - unfold click_add_save. destruct (form _ _) as [[[]|] v]; try exact H.
    by eapply (deletes_other s); [reflexivity|..].
  - unfold at_row. destruct (body_rows (grid s) !! i) as [n|]; [|done].
    apply (deletes_same s); [|done]. apply click_edit_frame.
  - apply (deletes_same s); [|done]. apply switch_to_frame.
  - unfold switch_timeout. by case_match.
  - unfold click_edit_save. destruct (form _ _) as [[[]|] v]; try exact H.
    cbn [selectedData set_edit]. destruct (selectedData s) as [[]|]; try exact H;
      (eapply (deletes_other s); [reflexivity|done..]).
  - unfold at_row. destruct (body_rows (grid s) !! i) as [n|]; [|done].
    apply (deletes_same s); [|done]. apply click_delete_frame.
  - unfold clickable, in_front in Hp. destruct Hd as (_ & Hd & _).
    destruct (dialog_shown (delete_dialog s)); [|done].
    destruct (Hd eq_refl) as (j & Ej & Hj & Hb & _). unfold click_delete_conf.
    cbn [selectedData set_delete]. rewrite Ej.
    assert (forall b, (delete_url c, b) ∈ [(delete_url c, delete_body c j)] ->
              has_delete_button c (member b (account_key c)) = true) as Hone.
    { intros b [= ->]%list_elem_of_singleton. by rewrite member_delete_body. }
    destruct j; try done; (eapply (deletes_more s); [reflexivity|done|exact Hone]).
  - by destruct d.
  - by apply on_answer_deletes.
Qed.

(** ** The validators *)

(** A validator with the settings it was made with, whose checks have not thrown. *)
Definition sound_validator (st : settings) (v : validator) : Prop :=
  v_settings v = st /\ thrown v = false.

Lemma check_element_sound f v : known (v_settings v) f -> thrown v = false ->
  let v' := snd (check_element text_of f v) in
  v_settings v' = v_settings v /\ v_context v' = v_context v /\ thrown v' = false.
Proof.
  intros Hk Ht. unfold check_element. destruct (visible f); [|done].
  destruct (checked f (reset v) Hk Ht) as (E1 & E2 & _ & _ & E3 & _).
  destruct (check f (reset v)) as [r w]. cbn [fst snd] in *. rewrite E3. cbn [snd].
  set (w' := set_invalid _ _ _).
  destruct (defaultShowErrors_same text_of [f] w') as (_ & _ & _ & _ & F1 & F2 & F3).
  rewrite F1, F2, F3. by split_and!.
Qed.

Lemma fold_elements_sound fs v : Forall (known (v_settings v)) fs -> thrown v = false ->
  let v' := foldl (λ v g, snd (check_element text_of g v)) v fs in
  v_settings v' = v_settings v /\ v_context v' = v_context v /\ thrown v' = false.
Proof.
  revert v. induction fs as [|f fs IH]; intros v Hk Ht; [done|]. inversion Hk; subst.
  cbn [foldl]. destruct (check_element_sound f v) as (E1 & E2 & E3); [done..|].
  destruct (IH (snd (check_element text_of f v))) as (F1 & F2 & F3); [by rewrite E1|done|].
  cbv zeta. by rewrite F1, F2, E1, E2.
Qed.

Lemma form_sound v : Forall (known (v_settings v)) (elements v) -> thrown v = false ->
  let v' := snd (form text_of v) in v_settings v' = v_settings v /\ thrown v' = false.
Proof.
  intros Hk Ht. unfold form, show_form.
  destruct (checkForm_spec v Hk Ht) as (E1 & _ & _ & E4 & _). rewrite E4. cbn [snd].
  set (w := mkValidator _ _ _ _ _ _ _ _ _ _ _).
  destruct (defaultShowErrors_same text_of (elements w) w) as (_ & _ & _ & _ & F1 & _ & F2).
  by rewrite F1, F2.
Qed.

Lemma elements_known v : Forall (known (v_settings v)) (fields (v_context v)) ->
  Forall (known (v_settings v)) (elements v).
Proof.
  intros H. apply Forall_forall. intros f Hf. apply (proj1 (Forall_forall _ _) H).
  unfold elements in Hf. apply first_of_each_in in Hf as [Hf _].
  by apply list_elem_of_In, filter_In, proj1, list_elem_of_In in Hf.
Qed.

Section Sound.
Context (st : settings) (ctx : context).
Hypothesis all_known : Forall (known st) (fields ctx).

Lemma known_field v i f : sound_validator st v -> fields ctx !! i = Some f -> known (v_settings v) f.
Proof.
  intros [-> _] Hi. apply (proj1 (Forall_forall _ _) all_known).
  by apply (list_elem_of_lookup_2 _ i).
Qed.

Lemma sound_result v w : v_settings w = v_settings v /\ v_context w = v_context v /\ thrown w = false ->
  sound_validator st v -> sound_validator st w.
Proof. intros (E1 & _ & E2) [H _]. by split; rewrite ?E1. Qed.

Lemma key_pressed_sound i which keyCode v : sound_validator st v ->
  sound_validator st (key_pressed text_of i which keyCode ctx v).
Proof.
  intros H. unfold key_pressed. destruct (fields ctx !! i) as [f|] eqn:E; [|done].
  unfold onkeyup. repeat (case_match; try done).
  apply (sound_result (with_context ctx v)); [|done].
  apply check_element_sound; [by apply (known_field v i)|apply H].
Qed.

Lemma focus_lost_sound i v : sound_validator st v ->
  sound_validator st (focus_lost text_of i ctx v).
Proof.
  intros H. unfold focus_lost. destruct (fields ctx !! i) as [f|] eqn:E; [|done].
  set (w := if existsb _ _ then _ else _). assert (sound_validator st w) as Hw.
  { unfold w. case_match; [|done]. apply (sound_result (with_context ctx v)); [|done].
    apply fold_elements_sound; [|apply H]. apply Forall_forall. intros g Hg.
    apply list_elem_of_In, filter_In, proj1, list_elem_of_In in Hg.
    cbn [with_context v_settings]. rewrite (proj1 H). by apply (proj1 (Forall_forall _ _) all_known). }
  unfold onfocusout. repeat (case_match; try done).
  apply (sound_result w); [|done].
  apply check_element_sound; [by apply (known_field w i)|apply Hw].
Qed.

Lemma form_ctx_sound v : sound_validator st v ->
  sound_validator st (snd (form text_of (with_context ctx v))).
Proof.
  intros H. destruct (form_sound (with_context ctx v)) as [E1 E2]; [|apply H|].
  - apply elements_known. cbn [with_context v_settings v_context]. by rewrite (proj1 H).
  - split; [rewrite E1; apply H|done].
Qed.
End Sound.

Lemma add_known s a d q k : console_page c -> s_rules s = add_rules c ->
  Forall (known s) (add_form_fields c a d q k).
Proof.
  destruct s as [rs ms dm]. cbn. intros [-> | ->] ->; apply known_all; vm_compute; reflexivity.
Qed.

Lemma edit_known s b d o q k : console_page c -> s_rules s = edit_rules c ->
  Forall (known s) (edit_form_fields c b d o q k).
Proof.
  destruct s as [rs ms dm]. cbn. intros [-> | ->] ->; apply known_all; vm_compute; reflexivity.
Qed.

Context (dm : gmap jsstr jsstr).

Definition add_settings : settings :=
  mkSettings (add_rules c) (add_messages c (locale_messages p)) dm.
Definition edit_settings : settings :=
  mkSettings (edit_rules c) (edit_messages c (locale_messages p)) dm.

Definition validators_ok (s : accounts) : Prop :=
  sound_validator add_settings (addValidation s) /\ sound_validator edit_settings (editValidation s).

Lemma validators_same s s' : addValidation s' = addValidation s ->
  editValidation s' = editValidation s -> validators_ok s -> validators_ok s'.
Proof. unfold validators_ok. by intros -> ->. Qed.

Lemma validators_ui s s' : ui s' = ui s -> validators_ok s -> validators_ok s'.
Proof. intros [=]. by apply validators_same. Qed.

Lemma reload_validators b s : validators_ok s -> validators_ok (reload_table c b s).
Proof. apply validators_ui, reload_table_ui. Qed.

Lemma on_answer_validators i a s : validators_ok s -> validators_ok (on_answer c p i a s).
Proof.
  intros H. unfold on_answer. destruct (waiting_for s !! i) as [w|]; [|done].
  set (s0 := set_net _ _ s). assert (validators_ok s0) as H0 by exact H. destruct w.
  - eapply validators_ui; [apply on_query_ui|done].
  - unfold on_add. repeat (case_match; try done). by apply (reload_validators false (hide_add s0)).
  - unfold on_edit. repeat (case_match; try done). by apply (reload_validators false (hide_edit s0)).
  - unfold on_delete. repeat (case_match; try done). by apply (reload_validators true (hide_delete s0)).
Qed.

Lemma run_validators e s : console_page c -> validators_ok s -> validators_ok (run e s).
Proof.
  intros Hc H. pose proof H as [Ha He].
  assert (forall s, Forall (known add_settings) (fields (add_context c s))) as Ka
    by (intros; by apply add_known).
  assert (forall s, Forall (known edit_settings) (fields (edit_context c s))) as Ke
    by (intros; by apply edit_known).
  destruct e; cbn [run_page]; try exact H.
  - eapply validators_ui; [apply (on_grid_ui c)|done].
  - destruct (dataTable s); [|done]. eapply validators_ui; [apply (on_grid_ui c)|done].
  - split; [|done]. cbn. apply (key_pressed_sound add_settings); [|done].
    apply (Ka (set_add (type_add i x (add_typed s)) (addValidation s) (add_dialog s) s)).
  - split; [|done]. cbn. apply (focus_lost_sound add_settings); [apply Ka|done].
  - pose proof (form_ctx_sound add_settings (add_context c s) (Ka s) (addValidation s) Ha) as Hv.
    unfold click_add_save. destruct (form _ _) as [[[]|] v]; by split.
  - unfold at_row. destruct (body_rows (grid s) !! i) as [n|]; [|done].
    destruct (click_edit_frame n s) as (_ & _ & _ & _ & E & _). split; [|by rewrite E].
    unfold click_edit. set (s1 := set_edit _ _ _ _). repeat case_match; try done;
    unfold switch_to; by case_match.
  - split; [done|]. cbn. apply (key_pressed_sound edit_settings); [|done].
    apply (Ke (set_edit (type_edit i x (edit_typed s)) (editValidation s) (edit_dialog s) s)).
  - split; [done|]. cbn. apply (focus_lost_sound edit_settings); [apply Ke|done].
  - unfold switch_to. by case_match.
  - unfold switch_timeout. by case_match.
  - pose proof (form_ctx_sound edit_settings (edit_context c s) (Ke s) (editValidation s) He) as Hv.
    unfold click_edit_save. destruct (form _ _) as [[[]|] v]; try by split.
    cbn [selectedData set_edit]. destruct (selectedData s) as [[]|]; by split.
  - unfold at_row. destruct (body_rows (grid s) !! i) as [n|]; [|done].
    unfold click_delete. cbn. by repeat case_match.
  - unfold click_delete_conf. cbn. by repeat case_match.
  - by destruct d.
  - by apply on_answer_validators.
Qed.

(** ** The switch *)

(** The variable follows the switch, and what is shown follows both once the
    timers have run. *)
Definition switch_ok (s : accounts) : Prop :=
  editChangePasswd s = passwd_switch s
  /\ last (passwd_shown s :: switch_timers s) = Some (passwd_switch s).

Lemma switch_to_ok b s : switch_ok s -> switch_ok (switch_to b s).
Proof.
  intros [H1 H2]. unfold switch_to. case_match; [done|]. split; [done|]. cbn.
  by rewrite app_comm_cons, last_snoc.
Qed.

Lemma switch_ui s s' : ui s' = ui s -> switch_ok s -> switch_ok s'.
Proof. unfold ui, switch_ok. intros [=]. by repeat match goal with H : _ s' = _ |- _ => rewrite H end. Qed.

Lemma on_answer_switch i a s : switch_ok s -> switch_ok (on_answer c p i a s).
Proof.
  intros H. unfold on_answer. destruct (waiting_for s !! i) as [w|]; [|done].
  set (s0 := set_net _ _ s). assert (switch_ok s0) as H0 by exact H. destruct w.
  - eapply switch_ui; [apply on_query_ui|done].
  - unfold on_add. repeat (case_match; try done).
    by apply (switch_ui (hide_add s0) _ (reload_table_ui c false (hide_add s0))).
  - unfold on_edit. repeat (case_match; try done).
    by apply (switch_ui (hide_edit s0) _ (reload_table_ui c false (hide_edit s0))).
  - unfold on_delete. repeat (case_match; try done).
    by apply (switch_ui (hide_delete s0) _ (reload_table_ui c true (hide_delete s0))).
Qed.

Lemma run_switch e s : switch_ok s -> switch_ok (run e s).
Proof.
  intros H. destruct e; cbn [run_page]; try exact H.
  - eapply switch_ui; [apply (on_grid_ui c)|done].
  - destruct (dataTable s); [|done]. eapply switch_ui; [apply (on_grid_ui c)|done].
  - unfold click_add_save. by destruct (form _ _) as [[[]|] v].
  - unfold at_row. destruct (body_rows (grid s) !! i) as [n|]; [|done].
    unfold click_edit. set (s1 := set_edit _ _ _ _).
    assert (switch_ok (switch_to false s1)) as H1 by by apply switch_to_ok.
    destruct H1. repeat case_match; by split.
  - by apply switch_to_ok.
  - destruct H as [H1 H2]. unfold switch_timeout. destruct (switch_timers s) as [|b l] eqn:El.
    + split; [exact H1|]. by rewrite El.
    + split; [exact H1|exact H2].
  - unfold click_edit_save. destruct (form _ _) as [[[]|] v]; try done.
    cbn [selectedData set_edit]. by destruct (selectedData s) as [[]|].
  - unfold at_row. destruct (body_rows (grid s) !! i) as [n|]; [|done].
    unfold click_delete. cbn. by repeat case_match.
  - unfold click_delete_conf. cbn. by repeat case_match.
  - by destruct d.
  - by apply on_answer_switch.
Qed.

(** ** Answers still to come *)
Definition waits_ok (s : accounts) : Prop :=
  forall k draw, WaitQuery k draw ∈ waiting_for s ->
  exists t, instances (grid s) !! k = Some t /\ 0 < draw <= iDraw t.

Lemma waits_fewer s s' : (forall w, w ∈ waiting_for s' -> w ∈ waiting_for s) ->
  grid_le (grid s) (grid s') -> waits_ok s -> waits_ok s'.
Proof.
  intros Hw Hg H k draw Hin. destruct (H k draw (Hw _ Hin)) as (t & Ht & Hle).
  destruct (Hg k t Ht) as (t' & ? & ?). exists t'. split; [done|lia].
Qed.

Lemma waits_same s s' : waiting_for s' = waiting_for s -> grid s' = grid s -> waits_ok s -> waits_ok s'.
Proof. intros Ew Eg. apply waits_fewer; [by rewrite Ew|by rewrite Eg]. Qed.

Lemma waits_on_grid r s : op_ok (grid s) r -> waits_ok s -> waits_ok (on_grid c r s).
Proof.
  intros [Hg Hr] H k draw. destruct (on_grid_net c r s) as (_ & -> & -> & _).
  intros [Hin|Hin]%elem_of_app.
  - destruct (H k draw Hin) as (t & Ht & Hle). destruct (Hg k t Ht) as (t' & ? & ?).
    exists t'. split; [done|lia].
  - unfold awaited in Hin. destruct (r.2) as [call|] eqn:E; [|by apply elem_of_nil in Hin].
    apply list_elem_of_singleton in Hin as [= -> ->]. by apply Hr.
Qed.

Lemma waits_more s s' w : waiting_for s' = waiting_for s ++ [w] -> grid s' = grid s ->
  (forall k draw, w <> WaitQuery k draw) -> waits_ok s -> waits_ok s'.
Proof.
  unfold waits_ok. intros -> -> Hw H k draw [Hin| Hin%list_elem_of_singleton]%elem_of_app; [by apply H|].
  by destruct (Hw k draw).
Qed.

Lemma waits_reload b s : grid_ok (grid s) -> waits_ok s -> waits_ok (reload_table c b s).
Proof. intros Hg H. unfold reload_table. by apply waits_on_grid; [apply reload_le|]. Qed.

Lemma on_query_grid_le k draw a s : grid_le (grid s) (grid (on_query k draw a s)).
Proof. unfold on_query, callback. repeat (case_match; try done); apply update_le. Qed.

Lemma on_answer_waits i a s : grid_ok (grid s) -> waits_ok s -> waits_ok (on_answer c p i a s).
Proof.
  intros Hg H. unfold on_answer. destruct (waiting_for s !! i) as [w|]; [|done].
  set (s0 := set_net _ _ s).
  assert (waits_ok s0) as H0 by (apply (waits_fewer s); [intros w'; apply elem_delete|done|done]).
  destruct w.
  - apply (waits_fewer s0); [|apply on_query_grid_le|done].
    by destruct (on_query_net table draw a s0) as (_ & -> & _).
  - unfold on_add. repeat (case_match; try done). by apply (waits_reload false (hide_add s0)).
  - unfold on_edit. repeat (case_match; try done). by apply (waits_reload false (hide_edit s0)).
  - unfold on_delete. repeat (case_match; try done). by apply (waits_reload true (hide_delete s0)).
Qed.

Lemma switch_to_waits b s : waiting_for (switch_to b s) = waiting_for s.
Proof. unfold switch_to. by case_match. Qed.

Lemma click_edit_waits n s : waiting_for (click_edit c n s) = waiting_for s.
Proof.
  unfold click_edit. set (s1 := set_edit _ _ _ _).
  destruct (selectedData (switch_to false s1)) as [[]|]; apply (switch_to_waits false s1).
Qed.

Lemma run_waits e s : grid_ok (grid s) -> waits_ok s -> waits_ok (run e s).
Proof.
  intros Hg H. destruct e; cbn [run_page]; try exact H.
  - by apply waits_on_grid; [apply new_le|].
  - destruct (dataTable s); [|done]. by apply waits_on_grid; [apply click_le|].
  - unfold click_add_save. destruct (form _ _) as [[[]|] v]; try exact H.
    by eapply (waits_more s); [reflexivity|..].
  - unfold at_row. destruct (body_rows (grid s) !! i) as [n|]; [|done].
    apply (waits_same s); [apply click_edit_waits|apply click_edit_frame|done].
  - apply (waits_same s); [apply switch_to_waits|apply switch_to_frame|done].
  - unfold switch_timeout. by case_match.
  - unfold click_edit_save. destruct (form _ _) as [[[]|] v]; try exact H.
    cbn [selectedData set_edit]. destruct (selectedData s) as [[]|]; try exact H;
      (by eapply (waits_more s); [reflexivity|..]).
  - unfold at_row. destruct (body_rows (grid s) !! i) as [n|]; [|done].
    unfold click_delete. cbn [selectedData set_selected].
    by destruct (datatablesRowData (dataTable s) n (grid s)) as [[]|].
  - unfold click_delete_conf. cbn [selectedData set_delete].
    destruct (selectedData s) as [[]|]; try exact H; (by eapply (waits_more s); [reflexivity|..]).
  - by destruct d.
  - by apply on_answer_waits.
Qed.

(** ** Every state a page can reach *)
Record page_ok (s : accounts) : Prop := {
  po_grid : grid_ok (grid s);
  po_dialogs : dialogs_ok c s;
  po_deletes : deletes_sent c s;
  po_validators : validators_ok s;
  po_switch : switch_ok s;
  po_waits : waits_ok s;
  po_drawn : drawn (grid s);
  po_table : exists k, dataTable s = Some k;
}.

Lemma run_table e s : grid_ok (grid s) -> (exists k, dataTable s = Some k) ->
  exists k, dataTable (run e s) = Some k.
Proof.
  intros Hg [k Hk]. unfold dataTable in *.
  destruct (instances (grid s)) as [|t l] eqn:E; [done|].
  destruct (grid_step_le _ _ (run_grid_step e s) Hg 0%nat t) as (t' & Ht & _); [by rewrite E|].
  destruct (instances (grid (run e s))); [done|by eexists].
Qed.

Lemma run_ok e s : console_page c -> possible c e s = true -> page_ok s -> page_ok (run e s).
Proof.
  intros Hc Hp [H1 H2 H3 H4 H5 H6 H7 H8]. split.
  - by apply (grid_step_ok (grid s)), H1; apply run_grid_step.
  - by apply run_dialogs; [apply g_tables|..].
  - by apply run_deletes.
  - by apply run_validators.
  - by apply run_switch.
  - by apply run_waits.
  - by apply (grid_step_drawn (grid s)), H7; [apply run_grid_step|].
  - by apply run_table.
Qed.

Lemma loaded_ok save confirm a : console_page c -> page_ok (loaded c p dm save confirm a).
Proof.
  intros Hc. unfold loaded, queryDataTable. set (s := mkAccounts _ _ _ _ _ _ _ _ _ _ _ _ _ _ _ _ _ _ _ _).
  assert (grid_ok (grid s)) as Hg.
  { split; [apply no_tables_ok|..]; by intros k t [=]. }
  set (r := newDataTable datatables_paging_len (grid s)).
  assert (ui (on_grid c r s) = ui s) as Eu by apply on_grid_ui. split.
  - rewrite on_grid_grid. by apply grid_new.
  - apply (dialogs_ui c s _ Eu). by split_and!.
  - apply on_grid_deletes; [done|]. by intros b ?%elem_of_nil.
  - apply (validators_ui s _ Eu). by split.
  - apply (switch_ui s _ Eu). by split.
  - apply waits_on_grid; [by apply new_le|]. by intros k d ?%elem_of_nil.
  - rewrite on_grid_grid. apply new_table_drawn. by intros k t [=].
  - unfold dataTable. rewrite on_grid_grid. by exists 0%nat.
Qed.

Lemma reachable_ok save confirm a s : console_page c ->
  reachable_page c p text_of dm save confirm a s -> page_ok s.
Proof. intros Hc. induction 1; [by apply loaded_ok|by apply run_ok]. Qed.
End Steps.
