(* ===== verification/AccountsTheorems.v ===== *)
(** * The pages of accounts: deleting, adding, editing and listing *)

From stdpp Require Import base tactics strings gmap numbers list.
From Stdlib Require Import ZArith Lia.
From S2P Require Import Prelude Locale Language Json DataTable Console ConsoleFacts DataTableFacts.
From S2P Require Import Validator Forms FormsFacts ConsoleForms Accounts AccountsFacts.
Import Common.
Local Open Scope Z_scope.

(** A visit of a page, if every event of it is possible when it comes. *)
Fixpoint visit_page (c : account_page) (p : page) (text_of : jsstr -> jsstr) (es : list event)
    (s : accounts) : option accounts :=
  match es with
  | [] => Some s
  | e :: es => if possible c e s then visit_page c p text_of es (run_page c p text_of e s) else None
  end.

Lemma visit_reachable c p text_of dm save confirm a es s s' :
  reachable_page c p text_of dm save confirm a s -> visit_page c p text_of es s = Some s' ->
  reachable_page c p text_of dm save confirm a s'.
Proof.
  revert s. induction es as [|e es IH]; intros s H; cbn; [by intros [= <-]|].
  destruct (possible c e s) eqn:E; [|done]. apply IH. by apply page_step.
Qed.

Section Pages.
Context (c : account_page) (p : page) (text_of : jsstr -> jsstr) (dm : gmap jsstr jsstr)
  (save confirm : jsstr) (a : alert).
Abbreviation run := (run_page c p text_of).
Abbreviation reachable := (reachable_page c p text_of dm save confirm a).

(** ** Deleting *)
Lemma confirm_sends s : dialogs_ok c s -> possible c ClickDeleteConf s = true ->
  exists j, selectedData s = Some j
  /\ sent_requests (run ClickDeleteConf s) = sent_requests s ++ [(delete_url c, delete_body c j)]
  /\ possible c ClickDeleteConf (run ClickDeleteConf s) = false
  /\ forall x, member j (account_key c) = Some (JStr x) ->
     delete_show s = x /\ delete_body c j = JObj [(js (account_key c), JStr x)].
Proof.
  intros (_ & Hd & _) Hp. cbn [possible] in Hp. unfold clickable, in_front in Hp.
  destruct (dialog_shown (delete_dialog s)) eqn:Es; [|done].
  destruct (Hd eq_refl) as (j & Ej & Hj & _ & Hx). exists j. split; [done|].
  cbn [run_page]. unfold click_delete_conf. cbn [selectedData set_delete]. rewrite Ej.
  assert (forall x, member j (account_key c) = Some (JStr x) ->
            delete_show s = x /\ delete_body c j = JObj [(js (account_key c), JStr x)]) as Hb.
  { intros x Ex. split; [by apply Hx|]. unfold delete_body. by rewrite Ex. }
  destruct j; try done; (split_and!; [done| |exact Hb]);
    cbn; unfold clickable; cbn; by rewrite andb_false_r.
Qed.

End Pages.

(** C29: the page that asks to confirm a deletion deletes the account it shows.
    Whatever was clicked, typed, searched, paged and answered before, in any
    order: the confirmation button sends one request, for the account of the row
    that was clicked, which is the one the dialog shows, and is disabled with it;
    a row left over from an earlier table is never mistaken for another; and no
    request to delete the administrator [admin] is ever sent. *)
Theorem deletes_what_it_shows c p text_of dm save confirm a s :
  console_page c -> reachable_page c p text_of dm save confirm a s ->
  let run := run_page c p text_of in
  let key := account_key c in
  (possible c ClickDeleteConf s = true ->
   let s' := run ClickDeleteConf s in
   exists j, selectedData s = Some j
   /\ sent_requests s' = sent_requests s ++ [(delete_url c, delete_body c j)]
   /\ possible c ClickDeleteConf s' = false
   /\ forall x, member j key = Some (JStr x) ->
      delete_show s = x /\ delete_body c j = JObj [(js key, JStr x)])
  /\ (forall i n, possible c (ClickDelete i) s = true -> body_rows (grid s) !! i = Some n ->
      let s' := run (ClickDelete i) s in
      dialog_shown (delete_dialog s') = true -> selectedData s' = Some (aData n))
  /\ (c = admin_html -> forall body, (delete_url c, body) ∈ sent_requests s ->
      member body key <> Some (JStr (js "admin"))).
Proof.
  intros Hc Hr run key. pose proof (reachable_ok c p text_of dm save confirm a s Hc Hr) as Hok.
  split_and!.
  - apply confirm_sends, (po_dialogs _ _ _ _ Hok).
  - intros i n Hp Hn s' Hs. unfold s', run in *. cbn [run_page] in *. unfold at_row in *.
    rewrite Hn in *.
    cbn [possible] in Hp. apply andb_true_iff in Hp as [(_ & _ & Hd)%front_spec _].
    destruct (click_delete_frame c n s) as (_ & _ & E1 & E2 & _). rewrite E1. rewrite E2, Hd in Hs.
    destruct (datatablesRowData (dataTable s) n (grid s)) as [j|] eqn:Ej; [|done].
    f_equal. symmetry. apply (row_found n s j); [apply g_tables, (po_grid _ _ _ _ Hok)| |done].
    by apply (list_elem_of_lookup_2 _ i).
  - intros -> body Hb E. pose proof (po_deletes _ _ _ _ Hok body Hb) as H.
    change (account_key admin_html) with key in H. rewrite E in H. by vm_compute in H.
Qed.

(** ** Adding *)
Definition width (x : jsstr) : Z := len (clean_value x).

(** What the form of a new account asks for. *)
Definition new_account_ok (v : add_values) : Prop :=
  1 <= width (av_account v) <= 30 /\ width (av_desc v) <= 100 /\ 6 <= width (av_passwd v) <= 16
  /\ clean_value (av_conf v) = clean_value (av_passwd v).

Lemma with_context_form st ctx v : v_settings v = st -> thrown v = false ->
  with_context ctx v = at_form st ctx v.
Proof. intros <- Ht. unfold with_context, at_form. by rewrite Ht. Qed.

(** The form of a page is valid exactly then. *)
Lemma add_form_result c p text_of dm s : console_page c ->
  sound_validator (add_settings c p dm) (addValidation s) ->
  exists b, fst (form text_of (with_context (add_context c s) (addValidation s))) = Some b
  /\ (b = true <-> new_account_ok (add_typed s)).
Proof.
  intros Hc [Hs Ht]. set (v := addValidation s) in *. set (t := add_typed s).
  assert (Forall (known (add_settings c p dm)) (fields (add_context c s))) as Hk by by apply add_known.
  assert (exists b, fst (form text_of (with_context (add_context c s) v)) = Some b) as [b Hb].
  { eexists. apply form_result; [done|]. apply elements_known. cbn [with_context v_settings v_context].
    by rewrite Hs. }
  exists b. split; [done|]. rewrite (with_context_form _ _ _ Hs Ht) in Hb.
  unfold new_account_ok, width. fold t.
  destruct Hc as [-> | ->].
  - rewrite <- (add_admin_accepts text_of (locale_messages p) dm v (av_account t) (av_desc t) []
                  (av_passwd t) (av_conf t) (passwd_switch s)).
    unfold add_admin, accepts. rewrite bool_decide_eq_true.
    change (at_form _ _ v) with (at_form (add_settings admin_html p dm) (add_context admin_html s) v).
    rewrite Hb. split; [by intros ->|by intros [=]].
  - rewrite <- (add_user_accepts text_of (locale_messages p) dm v (av_account t) (av_desc t) []
                  (av_passwd t) (av_conf t) (passwd_switch s)).
    unfold add_user, accepts. rewrite bool_decide_eq_true.
    change (at_form _ _ v) with (at_form (add_settings user_html p dm) (add_context user_html s) v).
    rewrite Hb. split; [by intros ->|by intros [=]].
Qed.

(** A new account is sent exactly when it is well formed.  In any state the
    page can reach, a click on the save button of the dialog posts the account,
    the description and the password as they are typed and disables the button,
    if the account has 1 to 30 characters, the description at most 100, the
    password 6 to 16 and the confirmation is the same; otherwise it posts nothing
    and the button can be clicked again.  The dialog stays until the answer. *)
Theorem add_account_sent c p text_of dm save confirm a s :
  console_page c -> reachable_page c p text_of dm save confirm a s ->
  possible c ClickAddSave s = true ->
  let s' := run_page c p text_of ClickAddSave s in
  let v := add_typed s in
  add_typed s' = v /\ dialog_shown (add_dialog s') = true
  /\ (new_account_ok v ->
      sent_requests s' = sent_requests s ++
        [(add_url c, JObj [(js (account_key c), JStr (clean_value (av_account v)));
                           (js "desc", JStr (clean_value (av_desc v)));
                           (js "password", JStr (clean_value (av_passwd v)))])]
      /\ waiting_for s' = waiting_for s ++ [WaitAdd] /\ possible c ClickAddSave s' = false)
  /\ (~ new_account_ok v ->
      sent_requests s' = sent_requests s /\ waiting_for s' = waiting_for s
      /\ possible c ClickAddSave s' = true).
Proof.
  intros Hc Hr Hp s' v.
  destruct (po_validators _ _ _ _ (reachable_ok c p text_of dm save confirm a s Hc Hr)) as [Hv _].
  destruct (add_form_result c p text_of dm s Hc Hv) as (b & Hb & Hiff). fold v in Hiff.
  cbn [possible] in Hp. unfold clickable in Hp. apply andb_true_iff in Hp as [Hf Hn].
  pose proof (proj1 (proj1 (andb_true_iff _ _) Hf)) as Hs.
  unfold s'. cbn [run_page]. unfold click_add_save.
  destruct (form text_of _) as [r w]. cbn [fst] in Hb. subst r. destruct b.
  - split_and!; [done|done| |by intros []; apply Hiff].
    intros _. split_and!; [done|done|]. cbn. unfold clickable. cbn. by rewrite andb_false_r.
  - split_and!; [done|done|by intros Hok%Hiff|].
    intros _. split_and!; [done|done|]. cbn. unfold clickable. cbn. by rewrite andb_true_r.
Qed.

(** ** Editing *)

(** With the switch off and the passwords hidden, the form of an account asks for
    nothing but a short description. *)
Lemma edit_form_hidden c p text_of dm s : console_page c ->
  sound_validator (edit_settings c p dm) (editValidation s) ->
  passwd_switch s = false -> passwd_shown s = false ->
  exists b, fst (form text_of (with_context (edit_context c s) (editValidation s))) = Some b
  /\ (b = true <-> width (ev_desc (edit_typed s)) <= 100).
Proof.
  intros Hc [Hset Ht] Hoff Hsh. set (w := editValidation s) in *. set (v := edit_typed s).
  assert (Forall (known (edit_settings c p dm)) (fields (edit_context c s))) as Hk
    by by apply edit_known.
  assert (exists b, fst (form text_of (with_context (edit_context c s) w)) = Some b) as [b Hb].
  { eexists. apply form_result; [done|]. apply elements_known.
    cbn [with_context v_settings v_context]. by rewrite Hset. }
  exists b. split; [done|]. rewrite (with_context_form _ _ _ Hset Ht) in Hb. unfold width.
  unfold edit_context in Hb. rewrite Hsh, Hoff in Hb. fold v in Hb. destruct Hc as [-> | ->].
  - rewrite <- (edit_admin_description text_of (locale_messages p) dm w [] (ev_desc v) (ev_old v)
                  (ev_passwd v) (ev_conf v)).
    unfold edit_admin, accepts. rewrite bool_decide_eq_true.
    change (mkSettings _ _ dm) with (edit_settings admin_html p dm).
    cbn [edit_form_fields admin_html] in Hb. rewrite Hb. split; [by intros ->|by intros [=]].
  - rewrite <- (edit_user_description text_of (locale_messages p) dm w [] (ev_desc v) (ev_old v)
                  (ev_passwd v) (ev_conf v)).
    unfold edit_user, accepts. rewrite bool_decide_eq_true.
    change (mkSettings _ _ dm) with (edit_settings user_html p dm).
    cbn [edit_form_fields user_html] in Hb. rewrite Hb. split; [by intros ->|by intros [=]].
Qed.

(** Passwords that cannot be seen are sent.  With the switch of the edit
    dialog off and the password fields hidden, a click on the save button posts
    whatever was typed into them while they were shown, unchecked and without a
    confirmation, as the old and the new password, as long as the description has
    at most 100 characters. *)
Theorem hidden_passwords_sent c p text_of dm save confirm a s j :
  console_page c -> reachable_page c p text_of dm save confirm a s ->
  possible c ClickEditSave s = true -> passwd_switch s = false -> switch_timers s = [] ->
  selectedData s = Some j ->
  let s' := run_page c p text_of ClickEditSave s in
  let v := edit_typed s in
  passwd_shown s = false /\ editChangePasswd s = false
  /\ (width (ev_desc v) <= 100 ->
      sent_requests s' = sent_requests s ++
        [(update_url c, JObj (opt_prop (account_key c) (member j (account_key c))
           ++ [(js "desc", JStr (clean_value (ev_desc v)));
               (js (old_passwd_key c), JStr (clean_value (ev_old v)));
               (js (new_passwd_key c), JStr (clean_value (ev_passwd v)))]))])
  /\ (~ width (ev_desc v) <= 100 -> sent_requests s' = sent_requests s).
Proof.
  intros Hc Hr Hp Hoff Htm Hj s' v.
  pose proof (reachable_ok c p text_of dm save confirm a s Hc Hr) as Hok.
  destruct (po_switch _ _ _ _ Hok) as [Hch Hsh]. rewrite Htm, Hoff in Hsh. injection Hsh as Hsh.
  destruct (po_validators _ _ _ _ Hok) as [_ Hv]. rewrite Hoff in Hch.
  split; [done|]. split; [done|].
  destruct (edit_form_hidden c p text_of dm s Hc Hv Hoff Hsh) as (b & Hb & Hiff). fold v in Hiff.
  destruct (po_dialogs _ _ _ _ Hok) as (_ & _ & He). cbn [possible] in Hp.
  unfold clickable, in_front in Hp. destruct (dialog_shown (edit_dialog s)); [|done].
  destruct (He eq_refl) as (j' & Ej & Hnull). rewrite Hj in Ej. injection Ej as <-.
  unfold s'. cbn [run_page]. unfold click_edit_save. fold v.
  destruct (form text_of _) as [r u]. cbn [fst] in Hb. subst r. destruct b.
  - cbn [selectedData set_edit]. rewrite Hj. split; [|by intros []; apply Hiff].
    intros _. by destruct j.
  - split; [by intros Hle%Hiff|done].
Qed.

(** ** Listing *)

(** An answer with rows, as the table takes it. *)
Lemma rows_answered c p i k draw res result total items s :
  waiting_for s !! i = Some (WaitQuery k draw) ->
  code_ok res = true -> res ≫= (λ j, member j "result") = Some result ->
  rows_of_page result = Some (total, items) ->
  grid (on_answer c p i (Answered res) s)
  = _fnAjaxUpdateDraw k (mkDrawData draw total total items) (grid s)
  /\ dataTable (on_answer c p i (Answered res) s)
     = match instances (_fnAjaxUpdateDraw k (mkDrawData draw total total items) (grid s)) with
       | [] => None | l => Some (length l - 1)%nat
       end
  /\ queryDataLen (on_answer c p i (Answered res) s) = Some (Z.of_nat (length items)).
Proof.
  intros Hw Hc Hres Hrows. unfold on_answer. rewrite Hw. unfold on_query. rewrite Hc, Hres.
  assert (result <> JNull) as Hn by (by intros ->).
  destruct result; try done; rewrite Hrows; done.
Qed.

(** A table takes the rows of its last request, whichever table it is. *)
Lemma last_rows w k t total items : instances w !! k = Some t -> 0 < iDraw t ->
  let d := mkDrawData (iDraw t) total total items in
  instances (_fnAjaxUpdateDraw k d w) = <[k := filled d (next_node w) t]> (instances w)
  /\ body_rows (_fnAjaxUpdateDraw k d w) = add_data (next_node w) items.
Proof.
  intros Hk Ht d. rewrite (update_draw_eq k d t w Hk). unfold out_of_sequence. cbn [dd_draw d].
  by rewrite (proj2 (Z.ltb_ge _ _)), andb_false_r by lia.
Qed.

(** C30: a table shows the last answer with rows to its last request, in whatever
    order the answers come.  An answer with rows to an earlier request of a table
    leaves all tables and rows as they are; one to its last request puts the rows
    of the answer into the page.  If it is the table in use, a click in a row finds
    the data the row shows; if it is one that a later search has replaced, the rows
    it puts on the page have no data, and a click in them finds none.  The number
    of rows that the page keeps for itself is that of either answer, also of the
    one that is not shown. *)
Theorem last_answer_shown c p text_of dm save confirm a s i k draw res result total items :
  console_page c -> reachable_page c p text_of dm save confirm a s ->
  waiting_for s !! i = Some (WaitQuery k draw) ->
  code_ok res = true -> res ≫= (λ j, member j "result") = Some result ->
  rows_of_page result = Some (total, items) ->
  let s' := run_page c p text_of (Answer i (Answered res)) s in
  exists t, instances (grid s) !! k = Some t /\ 0 < draw <= iDraw t
  /\ queryDataLen s' = Some (Z.of_nat (length items))
  /\ (draw < iDraw t -> grid s' = grid s)
  /\ (draw = iDraw t -> aData <$> body_rows (grid s') = items
      /\ forall n, n ∈ body_rows (grid s') ->
         datatablesRowData (dataTable s') n (grid s')
         = if decide (dataTable s = Some k) then Some (aData n) else None).
Proof.
  intros Hc Hr Hw Hcode Hres Hrows s'.
  pose proof (reachable_ok c p text_of dm save confirm a s Hc Hr) as Hok.
  destruct (po_waits _ _ _ _ Hok k draw (list_elem_of_lookup_2 _ _ _ Hw)) as (t & Ht & Hd).
  destruct (rows_answered c p i k draw res result total items s Hw Hcode Hres Hrows) as (Eg & Et & Edl).
  exists t. split; [done|]. split; [done|]. split; [exact Edl|]. unfold s'. cbn [run_page]. rewrite Et, Eg. split.
  - intros Hlt. rewrite (update_draw_eq _ _ t) by done. unfold out_of_sequence. cbn [dd_draw].
    rewrite (proj2 (Z.ltb_lt _ _)) by done. by destruct (Z.eqb_spec draw 0); [lia|].
  - intros ->. destruct (last_rows (grid s) k t total items Ht ltac:(lia)) as [Ei Eb].
    set (w := _fnAjaxUpdateDraw _ _ _) in *. rewrite Eb, Ei. split; [apply add_data_data|].
    assert (tables_ok w) as Hwok by by apply update_draw_ok, g_tables, (po_grid _ _ _ _ Hok).
    pose proof (lookup_lt_Some _ _ _ Ht) as Hlt. intros n Hn.
    assert (dataTable s = Some (length (instances (grid s)) - 1)%nat) as Ek
      by (unfold dataTable; by destruct (instances (grid s))).
    destruct (<[k := _]> (instances (grid s))) as [|u l] eqn:El.
    { apply (f_equal length) in El. rewrite length_insert in El. cbn in El. lia. }
    rewrite <- El in Ei |- *. rewrite length_insert. cbn [datatablesRowData mbind option_bind].
    rewrite Ek. case_decide as He.
    + injection He as ->. by apply (row_data_own k (filled (mkDrawData (iDraw t) total total items)
        (next_node (grid s)) t)); [|rewrite Ei; apply list_lookup_insert_eq|].
    + unfold row_data. rewrite Ei, list_lookup_insert_ne by congruence.
      destruct (instances (grid s) !! (length (instances (grid s)) - 1)%nat) as [v|] eqn:Ev; [|done].
      cbn.
      destruct (aoData v !! rowIndex n) as [r|] eqn:Er; [|done]. cbn.
      apply list_elem_of_lookup_2 in Er. pose proof (nodes_made _ (g_tables _ (po_grid _ _ _ _ Hok)) _ _ _ Ev Er).
      apply add_data_elem in Hn. destruct (Nat.eqb_spec (nTr r) (nTr n)); [lia|done].
Qed.

(** ** A list that becomes empty *)

(** An answer the page takes for an empty list. *)
Definition no_rows (a : answer) : Prop :=
  match a with
  | NoAnswer => True
  | Answered res =>
      code_ok res = false
      \/ exists r, res ≫= (λ j, member j "result") = Some r /\ r <> JNull /\ rows_of_page r = None
  end.

Lemma no_rows_dropped k t draw a s : no_rows a -> instances (grid s) !! k = Some t -> 1 < iDraw t ->
  grid (on_query k draw a s) = grid s.
Proof.
  intros Ha Hk Ht.
  assert (forall s0, grid s0 = grid s -> grid (callback k datatables_no_data s0) = grid s) as Hcb.
  { intros s0 E. unfold callback. cbn [grid set_grid]. rewrite E, (update_draw_eq k _ t _ Hk).
    unfold out_of_sequence. cbn [dd_draw datatables_no_data].
    by rewrite (proj2 (Z.ltb_lt 1 (iDraw t)) Ht). }
  unfold on_query. destruct a as [res|]; [|by apply Hcb].
  destruct Ha as [Hc|(r & Hr & Hn & Hrows)]; [rewrite Hc; by apply Hcb|].
  rewrite Hr, Hrows. destruct (code_ok res); [|by apply Hcb].
  destruct r; try done; by apply Hcb.
Qed.

(** A table in use that is reloaded asks once, from where it stands or from the
    page before. *)
Lemma reload_call k t pageNum dataLen rowDeleted w : instances w !! k = Some t ->
  bAjaxDataGet t = true -> bDestroying t = false ->
  exists start, datatablesReload (Some k) pageNum dataLen rowDeleted w
  = (put k (set_asked (set_start start t)) w,
     Some (mkCall k (iDraw t + 1) start (iDisplayLength t))).
Proof.
  intros Hk Ha Hd. pose proof (lookup_lt_Some _ _ _ Hk) as Hl.
  assert (set_asked t = set_asked (set_start (iDisplayStart t) t)) as Hsame by by destruct t.
  unfold datatablesReload. destruct rowDeleted; [destruct (bool_decide _)|].
  - unfold fnPageChange. rewrite Hk, andb_false_r. cbn [fst].
    set (start := page_start _ t). exists start.
    rewrite (reload_asks k (set_start start t)) by (try done; by apply list_lookup_insert_eq).
    f_equal. unfold put. cbn [instances body_rows next_node]. by rewrite list_insert_insert_eq.
  - exists (iDisplayStart t). rewrite (reload_asks k t) by done. by rewrite Hsame.
  - exists (iDisplayStart t). rewrite (reload_asks k t) by done. by rewrite Hsame.
Qed.

(** A deleted account stays in the list when it was the last one.  The page
    announces the deletion and asks for the list again; when the answer is that
    there is no account left (or no answer comes), the table ignores it, because
    the page hands it the answer of a first draw: the rows stay as they were,
    and the table stays marked as loading. *)
Theorem deleted_row_stays c p text_of dm save confirm a s i res no :
  console_page c -> reachable_page c p text_of dm save confirm a s ->
  waiting_for s !! i = Some WaitDelete -> code_ok res = true -> result_is res 1 = true ->
  no_rows no ->
  let s1 := run_page c p text_of (Answer i (Answered res)) s in
  let s2 := run_page c p text_of (Answer (length (waiting_for s1) - 1) no) s1 in
  alert_box s2 = alertMessage (msg p "common_alert_title") (message_of_page c p "_delete_succeeded")
                   false (alert_box s)
  /\ (exists body, sent_requests s2 = sent_requests s ++ [(get_url c, body)])
  /\ body_rows (grid s2) = body_rows (grid s)
  /\ exists k t, dataTable s2 = Some k /\ instances (grid s2) !! k = Some t
     /\ processing_shown t = true.
Proof.
  intros Hc Hr Hw Hcode Hone Hno s1 s2.
  pose proof (reachable_ok c p text_of dm save confirm a s Hc Hr) as Hok.
  destruct (po_table _ _ _ _ Hok) as [k Hk].
  assert (k = length (instances (grid s)) - 1 /\ 0 < length (instances (grid s)))%nat as [-> Hlen].
  { unfold dataTable in Hk. destruct (instances (grid s)); [done|]. injection Hk as <-. cbn. lia. }
  set (k := (length (instances (grid s)) - 1)%nat) in *.
  destruct (lookup_lt_is_Some_2 (instances (grid s)) k ltac:(unfold k; lia)) as [t Ht].
  pose proof (po_grid _ _ _ _ Hok) as Hg. pose proof (po_drawn _ _ _ _ Hok k t Ht) as Hdraw.
  set (s0 := hide_delete (set_net (sent_requests s) (delete i (waiting_for s)) s)).
  destruct (reload_call k t (queryPageNum s0) (queryDataLen s0) true (grid s0) Ht
    (may_ask _ (g_tables _ Hg) k t Ht)) as [start E].
  { rewrite (g_last _ Hg k t Ht). fold k. by rewrite Nat.eqb_refl. }
  assert (s1 = alert_page c p "_delete_succeeded" false (reload_table c true s0)) as E1.
  { unfold s1. cbn [run_page]. unfold on_answer. rewrite Hw. unfold on_delete.
    by rewrite Hcode, Hone. }
  unfold reload_table in E1. change (dataTable s0) with (dataTable s) in E1. rewrite Hk, E in E1.
  set (t1 := set_asked (set_start start t)) in *.
  assert (instances (grid s1) = <[k := t1]> (instances (grid s))) as Ei by by rewrite E1.
  assert (instances (grid s1) !! k = Some t1) as Ht1
    by (rewrite Ei; apply list_lookup_insert_eq; by apply lookup_lt_Some in Ht).
  assert (waiting_for s1 = delete i (waiting_for s) ++ [WaitQuery k (iDraw t + 1)]) as Ew
    by by rewrite E1.
  assert (s2 = on_query k (iDraw t + 1) no
            (set_net (sent_requests s1) (delete (length (waiting_for s1) - 1)%nat (waiting_for s1)) s1))
    as E2.
  { unfold s2. cbn [run_page]. unfold on_answer. rewrite Ew, length_app. cbn [length].
    by rewrite Nat.add_sub, list_lookup_middle. }
  assert (grid s2 = grid s1) as Eg2.
  { rewrite E2. refine (no_rows_dropped k t1 _ no (set_net _ _ s1) Hno Ht1 _). cbn. lia. }
  destruct (on_query_net k (iDraw t + 1) no (set_net (sent_requests s1)
    (delete (length (waiting_for s1) - 1)%nat (waiting_for s1)) s1)) as (S2 & _ & A2).
  rewrite <- E2 in S2, A2. split_and!.
  - rewrite A2. by rewrite E1.
  - eexists. rewrite S2. by rewrite E1.
  - rewrite Eg2. by rewrite E1.
  - exists k, t1. rewrite Eg2. split_and!; [|done|done]. unfold dataTable. rewrite Eg2, Ei.
    pose proof (length_insert (instances (grid s)) k t1) as Hl.
    destruct (<[k := t1]> (instances (grid s))) as [|u l]; [cbn in Hl; lia|]. by rewrite Hl.
Qed.

(** ** A visit of the page of administrators *)
Definition demo_page : page := mkPage [] (list_to_map [(js "admin_delete_succeeded", js "Deleted.")]) None.
Definition no_alert : alert := mkAlert [] [] false.

Definition demo_load : accounts := loaded admin_html demo_page ∅ (js "Save") (js "Confirm") no_alert.

Definition demo_row (account : string) : json :=
  JObj [(js "account", JStr (js account)); (js "desc", JNull)].

(** The server's answer with these rows, and with a number. *)
Definition rows_answer (rows : list json) : answer :=
  Answered (Some (JObj [(js "code", JNum 1);
    (js "result", JObj [(js "total", JNum (Z.of_nat (length rows))); (js "items", JArr rows)])])).

Definition number_answer (n : Z) : answer :=
  Answered (Some (JObj [(js "code", JNum 1); (js "result", JNum n)])).

Definition demo_visit (es : list event) : accounts :=
  default demo_load (visit_page admin_html demo_page id es demo_load).

Definition visited (es : list event) : bool :=
  match visit_page admin_html demo_page id es demo_load with Some _ => true | None => false end.

Lemma demo_reachable es : visited es = true ->
  reachable_page admin_html demo_page id ∅ (js "Save") (js "Confirm") no_alert (demo_visit es).
Proof.
  unfold visited, demo_visit. destruct (visit_page _ _ _ es demo_load) as [s|] eqn:E; [|done].
  intros _. by apply (visit_reachable _ _ _ _ _ _ _ es demo_load s (page_loaded _ _ _ _ _ _ _)).
Qed.

Lemma visit_app c p text_of es es' s :
  visit_page c p text_of (es ++ es') s = visit_page c p text_of es s ≫= visit_page c p text_of es'.
Proof.
  revert s. induction es as [|e es IH]; intros s; [done|]. cbn. case_match; [apply IH|done].
Qed.

Lemma demo_snoc es e : visited (es ++ [e]) = true ->
  demo_visit (es ++ [e]) = run_page admin_html demo_page id e (demo_visit es).
Proof.
  unfold visited, demo_visit. rewrite visit_app.
  destruct (visit_page _ _ _ es demo_load) as [s|]; [|done].
  cbn [mbind option_bind visit_page]. by destruct (possible admin_html e s).
Qed.

Lemma admin_console : console_page admin_html.
Proof. by left. Qed.

Definition two_rows : event := Answer 0 (rows_answer [demo_row "admin"; demo_row "bob"]).

Definition demo_delete : list event := [two_rows; ClickDelete 1].

Lemma deletes_what_it_shows_witness :
  let s := demo_visit demo_delete in
  delete_show s = js "bob"
  /\ last (sent_requests (run_page admin_html demo_page id ClickDeleteConf s))
     = Some ("/sys/admin/delete", JObj [(js "account", JStr (js "bob"))]).
Proof.
  intros s.
  destruct (deletes_what_it_shows admin_html demo_page id ∅ (js "Save") (js "Confirm") no_alert s
    admin_console (demo_reachable demo_delete ltac:(vm_compute; reflexivity))) as (H & _ & _).
  destruct (H ltac:(vm_compute; reflexivity)) as (j & Ej & Es & _ & Hx).
  assert (member j "account" = Some (JStr (js "bob"))) as Em.
  { apply (f_equal (λ o, o ≫= λ j, member j "account")) in Ej. cbn [mbind option_bind] in Ej.
    rewrite <- Ej. vm_compute. reflexivity. }
  destruct (Hx (js "bob") Em) as [E1 E2]. split; [exact E1|].
  change (run_page admin_html demo_page id ClickDeleteConf s) with
    (run_page admin_html demo_page id ClickDeleteConf s) in Es.
  rewrite Es, last_snoc, E2. reflexivity.
Defined.

(** A new account typed in, with a password that is too short and then right. *)
Definition demo_typing (passwd : string) : list event :=
  [ClickAdd; TypeAdd 0 (js "eve") 69 69; TypeAdd 2 (js passwd) 83 83; TypeAdd 3 (js passwd) 83 83].

Lemma add_account_sent_witness :
  length (sent_requests (demo_visit (demo_typing "secret" ++ [ClickAddSave]))) = 2%nat
  /\ length (sent_requests (demo_visit (demo_typing "abc" ++ [ClickAddSave]))) = 1%nat.
Proof.
  split.
  - rewrite demo_snoc by (vm_compute; reflexivity).
    destruct (add_account_sent admin_html demo_page id ∅ (js "Save") (js "Confirm") no_alert
      (demo_visit (demo_typing "secret")) admin_console (demo_reachable (demo_typing "secret") ltac:(vm_compute; reflexivity))
      ltac:(vm_compute; reflexivity)) as (_ & _ & H & _).
    destruct H as (-> & _); [|rewrite length_app; vm_compute; reflexivity].
    unfold new_account_ok. vm_compute. repeat split; intros; discriminate.
  - rewrite demo_snoc by (vm_compute; reflexivity).
    destruct (add_account_sent admin_html demo_page id ∅ (js "Save") (js "Confirm") no_alert
      (demo_visit (demo_typing "abc")) admin_console (demo_reachable (demo_typing "abc") ltac:(vm_compute; reflexivity))
      ltac:(vm_compute; reflexivity)) as (_ & _ & _ & H).
    destruct H as (-> & _); [|vm_compute; reflexivity].
    intros (_ & _ & [H _] & _). revert H. vm_compute. intros H. by apply H.
Defined.

(** The passwords typed while the switch was on, and the switch turned off. *)
Definition demo_switch : list event :=
  [two_rows; ClickEdit 1; ToggleSwitch; SwitchTimeout;
   TypeEdit 1 (js "old pass") 83 83; TypeEdit 2 (js "x") 83 83; ToggleSwitch; SwitchTimeout].

Lemma hidden_passwords_sent_witness :
  let s := demo_visit demo_switch in
  passwd_shown s = false
  /\ last (sent_requests (run_page admin_html demo_page id ClickEditSave s))
     = Some ("/sys/admin/update",
             JObj [(js "account", JStr (js "bob")); (js "desc", JStr []);
                   (js "oldPasswd", JStr (js "old pass")); (js "newPasswd", JStr (js "x"))]).
Proof.
  intros s.
  destruct (hidden_passwords_sent admin_html demo_page id ∅ (js "Save") (js "Confirm") no_alert s
    (demo_row "bob") admin_console (demo_reachable demo_switch ltac:(vm_compute; reflexivity))
    ltac:(vm_compute; reflexivity) ltac:(vm_compute; reflexivity) ltac:(vm_compute; reflexivity)
    ltac:(vm_compute; reflexivity)) as (H1 & _ & H2 & _).
  split; [exact H1|]. rewrite H2 by (vm_compute; discriminate). rewrite last_snoc.
  vm_compute. reflexivity.
Defined.

Definition demo_searches : list event :=
  [ClickQuery (js "bob"); Answer 1 (rows_answer [demo_row "bob"])].

(** Two searches whose answers come in the wrong order: the page shows the rows of
    the first, and they have no data. *)
Lemma last_answer_shown_witness :
  let s := demo_visit demo_searches in
  let s' := run_page admin_html demo_page id (Answer 0 (rows_answer [demo_row "admin"])) s in
  aData <$> body_rows (grid s') = [demo_row "admin"]
  /\ forall n, n ∈ body_rows (grid s') -> datatablesRowData (dataTable s') n (grid s') = None.
Proof.
  intros s s'.
  destruct (last_answer_shown admin_html demo_page id ∅ (js "Save") (js "Confirm") no_alert s 0 0 1
    (Some (JObj [(js "code", JNum 1);
      (js "result", JObj [(js "total", JNum 1); (js "items", JArr [demo_row "admin"])])]))
    (JObj [(js "total", JNum 1); (js "items", JArr [demo_row "admin"])]) 1 [demo_row "admin"]
    admin_console (demo_reachable demo_searches ltac:(vm_compute; reflexivity))
    ltac:(vm_compute; reflexivity)
    ltac:(vm_compute; reflexivity) ltac:(vm_compute; reflexivity) ltac:(vm_compute; reflexivity))
    as (t & Et & _ & _ & _ & H).
  assert (1 = iDraw t) as Hd.
  { apply (f_equal (fmap iDraw)) in Et. cbn [fmap option_fmap option_map] in Et.
    assert (iDraw <$> instances (grid s) !! 0%nat = Some 1) as E by (vm_compute; reflexivity).
    rewrite Et in E. by injection E. }
  destruct (H Hd) as [H1 H2]. split; [exact H1|]. intros n Hn.
  assert (dataTable s = Some 1%nat) as Ek by (vm_compute; reflexivity).
  specialize (H2 n Hn). rewrite Ek in H2. exact H2.
Defined.

(** The only account of a list, deleted. *)
Definition demo_last : list event :=
  [Answer 0 (rows_answer [demo_row "bob"]); ClickDelete 0; ClickDeleteConf].

Lemma deleted_row_stays_witness :
  let s := demo_visit demo_last in
  let s1 := run_page admin_html demo_page id (Answer 0 (number_answer 1)) s in
  let s2 := run_page admin_html demo_page id (Answer 0 (rows_answer [])) s1 in
  alert_content (alert_box s2) = alert_succeeded_tag ++ js "Deleted."
  /\ aData <$> body_rows (grid s2) = [demo_row "bob"].
Proof.
  intros s s1 s2.
  destruct (deleted_row_stays admin_html demo_page id ∅ (js "Save") (js "Confirm") no_alert s 0
    (Some (JObj [(js "code", JNum 1); (js "result", JNum 1)])) (rows_answer [])
    admin_console (demo_reachable demo_last ltac:(vm_compute; reflexivity)) ltac:(vm_compute; reflexivity)
    ltac:(vm_compute; reflexivity) ltac:(vm_compute; reflexivity)) as (H1 & _ & H2 & _).
  - right. eexists. split_and!; [reflexivity|discriminate|vm_compute; reflexivity].
  - change (length (waiting_for (run_page admin_html demo_page id
      (Answer 0 (Answered (Some (JObj [(js "code", JNum 1); (js "result", JNum 1)])))) s)) - 1)%nat
      with (length (waiting_for s1) - 1)%nat in H1, H2.
    assert (length (waiting_for s1) - 1 = 0)%nat as E by (vm_compute; reflexivity).
    rewrite E in H1, H2. change (run_page admin_html demo_page id (Answer 0 (rows_answer []))
      (run_page admin_html demo_page id (Answer 0 (Answered
         (Some (JObj [(js "code", JNum 1); (js "result", JNum 1)])))) s)) with s2 in H1, H2.
    split; [rewrite H1; vm_compute; reflexivity|rewrite H2; vm_compute; reflexivity].
Defined.
