(* ===== verification/Acl.v ===== *)
(** * The page of access rules (ui/page/acl.html, the script on lines 217-757)

    A table of rules that is loaded as a whole, a dialog to add or edit a rule, a
    dialog to confirm a deletion, and dragging rows to change their order
    (dataTables.rowReorder.js).  The order of the rules is that of their sequence
    numbers, the first element of a row.

    Modelled choices: as for the pages of accounts, a dialog that is shown takes
    the clicks and a disabled button is not clicked.  A row is an array; the
    order in which the table shows its rows is an argument of the drag. *)

From stdpp Require Import base tactics strings gmap numbers list.
From Stdlib Require Import ZArith Lia.
From S2P Require Import Prelude Locale Language Json DataTable Console Validator Forms Accounts.
Import Common.
Local Open Scope Z_scope.

(** ** The state of the page *)
Record acl_fields := mkAclFields {
  f_type : option jsstr;          (* the value of the list; [None] is [null] *)
  f_target : jsstr;
  f_target_disabled : bool;
  f_topic : jsstr;
  f_access : option jsstr;
  f_authority : option jsstr;
}.

(** What the dialog to confirm a deletion shows, as HTML. *)
Record acl_texts := mkAclTexts {
  t_target : jsstr; t_type : jsstr; t_topic : jsstr; t_access : jsstr; t_authority : jsstr;
  class_deny : bool; class_allow : bool;
}.

Inductive acl_wait := WaitInit | WaitReload | WaitAclAdd | WaitAclUpdate | WaitAclDelete | WaitReorder.

Record acl_page := mkAcl {
  modal_title : jsstr;
  acl_typed : acl_fields;
  aclValidation : validator;
  acl_dialog : dialog;
  oper : jsstr;                   (* attribute of the save button *)
  acl_delete_dialog : dialog;
  delete_texts : acl_texts;
  acl_alert : alert;
  selectedAclData : option json;
  acl_rows : list row;            (* the data of the table *)
  acl_next_node : nat;
  acl_sent : list (string * json);
  acl_waiting : list acl_wait;
}.

Definition set_modal (title : jsstr) (f : acl_fields) (v : validator) (d : dialog) (o : jsstr)
    (s : acl_page) : acl_page :=
  mkAcl title f v d o (acl_delete_dialog s) (delete_texts s) (acl_alert s) (selectedAclData s)
    (acl_rows s) (acl_next_node s) (acl_sent s) (acl_waiting s).

Definition set_confirm (d : dialog) (t : acl_texts) (s : acl_page) : acl_page :=
  mkAcl (modal_title s) (acl_typed s) (aclValidation s) (acl_dialog s) (oper s) d t (acl_alert s)
    (selectedAclData s) (acl_rows s) (acl_next_node s) (acl_sent s) (acl_waiting s).

Definition set_acl_alert (a : alert) (s : acl_page) : acl_page :=
  mkAcl (modal_title s) (acl_typed s) (aclValidation s) (acl_dialog s) (oper s)
    (acl_delete_dialog s) (delete_texts s) a (selectedAclData s) (acl_rows s) (acl_next_node s)
    (acl_sent s) (acl_waiting s).

Definition set_acl_selected (j : option json) (s : acl_page) : acl_page :=
  mkAcl (modal_title s) (acl_typed s) (aclValidation s) (acl_dialog s) (oper s)
    (acl_delete_dialog s) (delete_texts s) (acl_alert s) j (acl_rows s) (acl_next_node s)
    (acl_sent s) (acl_waiting s).

Definition set_rows (rows : list row) (next : nat) (s : acl_page) : acl_page :=
  mkAcl (modal_title s) (acl_typed s) (aclValidation s) (acl_dialog s) (oper s)
    (acl_delete_dialog s) (delete_texts s) (acl_alert s) (selectedAclData s) rows next
    (acl_sent s) (acl_waiting s).

Definition set_acl_net (sent : list (string * json)) (w : list acl_wait) (s : acl_page) : acl_page :=
  mkAcl (modal_title s) (acl_typed s) (aclValidation s) (acl_dialog s) (oper s)
    (acl_delete_dialog s) (delete_texts s) (acl_alert s) (selectedAclData s) (acl_rows s)
    (acl_next_node s) sent w.

(** Fields of the form one at a time. *)
Definition set_target (t : jsstr) (disabled : bool) (f : acl_fields) : acl_fields :=
  mkAclFields (f_type f) t disabled (f_topic f) (f_access f) (f_authority f).
Definition set_topic (t : jsstr) (f : acl_fields) : acl_fields :=
  mkAclFields (f_type f) (f_target f) (f_target_disabled f) t (f_access f) (f_authority f).
Definition set_lists (ty ac au : option jsstr) (f : acl_fields) : acl_fields :=
  mkAclFields ty (f_target f) (f_target_disabled f) (f_topic f) ac au.

Definition put_fields (f : acl_fields) (s : acl_page) : acl_page :=
  set_modal (modal_title s) f (aclValidation s) (acl_dialog s) (oper s) s.
Definition put_validation (v : validator) (s : acl_page) : acl_page :=
  set_modal (modal_title s) (acl_typed s) v (acl_dialog s) (oper s) s.
Definition put_dialog (d : dialog) (s : acl_page) : acl_page :=
  set_modal (modal_title s) (acl_typed s) (aclValidation s) d (oper s) s.

Section Page.
Context (p : page) (text_of : jsstr -> jsstr).

(** ** The lists of the form *)
Definition type_options : list jsstr := [js "1"; js "2"; js "3"; js "4"].
Definition access_options : list jsstr := [js "1"; js "2"; js "3"].
Definition authority_options : list jsstr := [js "0"; js "1"].

(** A list takes a value it has, and none otherwise. *)
Definition list_val (options : list jsstr) (v : jsstr) : option jsstr :=
  if existsb (jseqb v) options then Some v else None.

(** The user chooses a type ([select2:select]): everybody needs no target. *)
Definition select_type (id : jsstr) (s : acl_page) : acl_page :=
  let f := acl_typed s in
  let f := set_lists (list_val type_options id) (f_access f) (f_authority f) f in
  put_fields (if jseqb id (js "4") then set_target (js "$all") true f else set_target [] false f) s.

Definition select_access (id : jsstr) (s : acl_page) : acl_page :=
  let f := acl_typed s in
  put_fields (set_lists (f_type f) (list_val access_options id) (f_authority f) f) s.

Definition select_authority (id : jsstr) (s : acl_page) : acl_page :=
  let f := acl_typed s in
  put_fields (set_lists (f_type f) (f_access f) (list_val authority_options id) f) s.

(** ** Requests *)
Definition acl_ajax (url : string) (body : json) (w : acl_wait) (s : acl_page) : acl_page :=
  set_acl_net (acl_sent s ++ [(url, body)]) (acl_waiting s ++ [w]) s.

(** The [ajax] function of the table, called when it is made and to reload it. *)
Definition query_acl (w : acl_wait) (s : acl_page) : acl_page := acl_ajax "/sys/acl/get" (JObj []) w s.

(** [_fnAddData] after the rows there are, and after clearing them. *)
Definition add_rows (data : list json) (s : acl_page) : acl_page :=
  set_rows (acl_rows s ++ imap (λ i d, mkRow (acl_next_node s + i) (length (acl_rows s) + i) d) data)
    (acl_next_node s + length data) s.

Definition clear_rows (s : acl_page) : acl_page := set_rows [] (acl_next_node s) s.

(** The answer to the query that filled a new table is added to what is there; a
    reload clears the table first. *)
Definition take_rows (initial : bool) (data : list json) (s : acl_page) : acl_page :=
  add_rows data (if initial then s else clear_rows s).

Definition on_acl_query (initial : bool) (a : answer) (s : acl_page) : acl_page :=
  match a with
  | NoAnswer => take_rows initial [] s
  | Answered res =>
      if code_ok res then
        match res ≫= λ j, member j "result" with
        | None | Some JNull => s
        | Some result =>
            take_rows initial (match rows_of_page result with Some (_, items) => items | None => [] end) s
        end
      else take_rows initial [] s
  end.

(** ** The dialog to add or edit a rule *)
Definition acl_context (s : acl_page) : context :=
  let f := acl_typed s in
  mkContext
    [mkField (js "acl-target") (js "acl-target") TText (f_target f) true (negb (f_target_disabled f)) [] [];
     input "acl-topic" true (f_topic f)] (λ _, false).

Definition title_of (key : string) (s : acl_page) : jsstr := default (modal_title s) (msg p key).

(** [initializeModal] empties the two inputs. *)
Definition initialize_acl (s : acl_page) : acl_page :=
  let f := acl_typed s in
  set_modal (modal_title s) (set_topic [] (set_target [] (f_target_disabled f) f))
    (initialize_form (aclValidation s))
    (set_button (enableConfirm (confirm_button (acl_dialog s))) (acl_dialog s)) (oper s) s.

Definition click_add_acl (s : acl_page) : acl_page :=
  let s := set_modal (title_of "acl_add_title" s) (acl_typed s) (aclValidation s) (acl_dialog s) (oper s) s in
  let f := acl_typed s in
  let f := set_lists (list_val type_options (js "1")) (list_val access_options (js "1"))
             (list_val authority_options (js "0")) f in
  let s := put_fields (set_target (f_target f) false f) s in
  let s := initialize_acl s in
  set_modal (modal_title s) (acl_typed s) (aclValidation s) (show (acl_dialog s)) (js "add") s.

(** An element of a row, [undefined] past its end. *)
Definition elem_of_row (row : json) (i : nat) : option json :=
  match row with JArr l => l !! i | _ => None end.

(** ['' + x]. *)
Definition plus_text (o : option json) : jsstr :=
  match o with Some j => json_str j | None => js "undefined" end.

Definition is_num (o : option json) (n : Z) : bool :=
  match o with Some (JNum m) => m =? n | _ => false end.

(** The row whose node is clicked. *)
Definition acl_row_data (n : nat) (s : acl_page) : option json :=
  aData <$> List.find (λ r, (nTr r =? n)%nat) (acl_rows s).

Definition click_edit_acl (n : nat) (s : acl_page) : acl_page :=
  let s := set_acl_selected (acl_row_data n s) s in
  match selectedAclData s with
  | None | Some JNull => s
  | Some row =>
      let s := initialize_acl s in
      let f := set_lists (list_val type_options (plus_text (elem_of_row row 2)))
                 (list_val access_options (plus_text (elem_of_row row 4)))
                 (list_val authority_options (plus_text (elem_of_row row 5))) (acl_typed s) in
      let f := set_target (val_text (elem_of_row row 1)) (is_num (elem_of_row row 2) 4) f in
      let f := set_topic (val_text (elem_of_row row 3)) f in
      set_modal (title_of "acl_edit_title" s) f (aclValidation s) (show (acl_dialog s)) (js "update") s
  end.

Definition json_list_val (o : option jsstr) : json :=
  match o with Some v => JStr v | None => JNull end.

(** The parameters of a save, without the sequence number of an update. *)
Definition acl_params (f : acl_fields) : list (jsstr * json) :=
  [(js "target", JStr (clean_value (f_target f))); (js "type", json_list_val (f_type f));
   (js "topic", JStr (clean_value (f_topic f))); (js "access", json_list_val (f_access f));
   (js "authority", json_list_val (f_authority f))].

Definition hide_acl (s : acl_page) : acl_page := put_dialog (hide (acl_dialog s)) s.

Definition click_save_acl (s : acl_page) : acl_page :=
  let d := acl_dialog s in
  let busy := disableConfirm p text_of (confirm_button d) in
  let '(r, v) := form text_of (with_context (acl_context s) (aclValidation s)) in
  match r with
  | Some true =>
      let s := put_dialog (set_button busy d) (put_validation v s) in
      if jseqb (oper s) (js "add") then
        acl_ajax "/sys/acl/add" (JObj (acl_params (acl_typed s))) WaitAclAdd s
      else if jseqb (oper s) (js "update") then
        match selectedAclData s with
        | None | Some JNull => s
        | Some row =>
            acl_ajax "/sys/acl/update"
              (JObj (acl_params (acl_typed s) ++ opt_prop "seq" (elem_of_row row 0))) WaitAclUpdate s
        end
      else hide_acl s
  | Some false => put_dialog (set_button (enableConfirm busy) d) (put_validation v s)
  | None => put_dialog (set_button busy d) (put_validation v s)
  end.

Definition acl_say (key : string) (failed : bool) (s : acl_page) : acl_page :=
  set_acl_alert (alertMessage (msg p "common_alert_title") (msg p key) failed (acl_alert s)) s.

Definition acl_exception (s : acl_page) : acl_page :=
  set_acl_alert (alertSystemException p (acl_alert s)) s.

(** [res.result > 0]. *)
Definition result_positive (res : option json) : bool :=
  match res ≫= λ j, member j "result" with
  | Some (JNum n) => 0 <? n
  | Some (JBool b) => b
  | _ => false
  end.

Definition on_acl_add (a : answer) (s : acl_page) : acl_page :=
  match a with
  | NoAnswer => acl_exception (hide_acl s)
  | Answered res =>
      if code_ok res && result_positive res
      then acl_say "user_add_succeeded" false (query_acl WaitReload (hide_acl s))
      else acl_say "acl_add_failed" true (hide_acl s)
  end.

Definition on_acl_update (a : answer) (s : acl_page) : acl_page :=
  match a with
  | NoAnswer => acl_exception (hide_acl s)
  | Answered res =>
      if code_ok res && result_is res 1
      then acl_say "user_edit_succeeded" false (query_acl WaitReload (hide_acl s))
      else acl_say "acl_edit_failed" true (hide_acl s)
  end.

(** ** The dialog to confirm a deletion *)
Definition tag (icon color : string) : jsstr :=
  js "<i class=" ++ [34] ++ js "fa fa-" ++ js icon ++ js " text-" ++ js color ++ [34] ++ js "></i>".

Definition type_html (ty : option json) (old : jsstr) : jsstr :=
  if is_num ty 1 then tag "tag" "red" ++ opt_str (msg p "acl_connect_user")
  else if is_num ty 2 then tag "tag" "yellow" ++ opt_str (msg p "acl_ip_addr")
  else if is_num ty 3 then tag "tag" "aqua" ++ opt_str (msg p "acl_client_id")
  else if is_num ty 4 then tag "tag" "green" ++ opt_str (msg p "acl_all")
  else put_text ty old.

Definition access_html (ac : option json) (old : jsstr) : jsstr :=
  if is_num ac 1 then tag "feed" "red" ++ opt_str (msg p "acl_sub")
  else if is_num ac 2 then tag "feed" "yellow" ++ opt_str (msg p "acl_pub")
  else if is_num ac 3 then tag "feed" "aqua" ++ opt_str (msg p "acl_subpub")
  else put_text ac old.

Definition circle (icon : string) : jsstr :=
  js "<i class=" ++ [34] ++ js "fa fa-" ++ js icon ++ [34] ++ js " aria-hidden=" ++ [34]
  ++ js "true" ++ [34] ++ js "></i>".

Definition show_texts (row : json) (t : acl_texts) : acl_texts :=
  let au := elem_of_row row 5 in
  mkAclTexts (put_text (elem_of_row row 1) (t_target t)) (type_html (elem_of_row row 2) (t_type t))
    (put_text (elem_of_row row 3) (t_topic t)) (access_html (elem_of_row row 4) (t_access t))
    (if is_num au 0 then circle "times-circle" ++ opt_str (msg p "acl_deny")
     else if is_num au 1 then circle "check-circle" ++ opt_str (msg p "acl_allow")
     else put_text au (t_authority t))
    (is_num au 0) (negb (is_num au 0) && is_num au 1).

Definition click_delete_acl (n : nat) (s : acl_page) : acl_page :=
  let s := set_acl_selected (acl_row_data n s) s in
  match selectedAclData s with
  | None | Some JNull => s
  | Some row =>
      let d := acl_delete_dialog s in
      set_confirm (show (set_button (enableConfirm (confirm_button d)) d))
        (show_texts row (delete_texts s)) s
  end.

Definition click_conf_acl (s : acl_page) : acl_page :=
  let d := acl_delete_dialog s in
  let s := set_confirm (set_button (disableConfirm p text_of (confirm_button d)) d) (delete_texts s) s in
  match selectedAclData s with
  | None | Some JNull => s
  | Some row => acl_ajax "/sys/acl/delete" (JObj (opt_prop "seq" (elem_of_row row 0))) WaitAclDelete s
  end.

Definition hide_confirm (s : acl_page) : acl_page :=
  set_confirm (hide (acl_delete_dialog s)) (delete_texts s) s.

Definition on_acl_delete (a : answer) (s : acl_page) : acl_page :=
  match a with
  | NoAnswer => acl_exception (hide_confirm s)
  | Answered res =>
      if code_ok res && result_is res 1
      then acl_say "user_delete_succeeded" false (query_acl WaitReload (hide_confirm s))
      else acl_say "acl_delete_failed" true (hide_confirm s)
  end.

(** ** Dragging a row *)

(** A row taken out of a list and put elsewhere. *)
Definition move_row {A} (from to : nat) (l : list A) : list A :=
  match l !! from with
  | Some x => take to (delete from l) ++ x :: drop to (delete from l)
  | None => l
  end.

Record reorder_detail := mkDetail { d_node : nat; d_newData : option json }.

(** The difference [_mouseUp] makes of the nodes before and after the drag: each
    node at a new place gets the sequence number of the row that was there. *)
Definition full_diff (data_of : nat -> option json) (startNodes endNodes : list nat) :
    list reorder_detail :=
  omap (λ '(a, b), if (a =? b)%nat then None
                   else Some (mkDetail b (data_of a ≫= λ r, elem_of_row r 0)))
    (zip startNodes endNodes).

(** [row[0] = x]. *)
Definition set_seq (x : option json) (row : json) : json :=
  match row with JArr l => JArr (default JNull x :: tail l) | _ => row end.

Definition alter_row (n : nat) (g : json -> json) (rows : list row) : list row :=
  map (λ r, if (nTr r =? n)%nat then mkRow (nTr r) (rowIndex r) (g (aData r)) else r) rows.

(** The handler of [row-reorder] writes the new numbers into the rows and sends
    the rows that changed; RowReorder then writes the same numbers. *)
Definition reorder_rows (details : list reorder_detail) (s : acl_page) : acl_page :=
  let '(s, reorders) := foldl (λ '(s, reorders) d,
      let s := set_rows (alter_row (d_node d) (set_seq (d_newData d)) (acl_rows s)) (acl_next_node s) s in
      (s, reorders ++ option_list (acl_row_data (d_node d) s))) (s, []) details in
  acl_ajax "/sys/acl/reorder" (JObj [(js "reorders", JArr reorders)]) WaitReorder s.

(** [shown] are the nodes of the rows in the order of the page. *)
Definition drag (shown : list nat) (from to : nat) (s : acl_page) : acl_page :=
  reorder_rows (full_diff (λ n, acl_row_data n s) shown (move_row from to shown)) s.

Definition on_reorder (a : answer) (s : acl_page) : acl_page :=
  match a with NoAnswer => acl_exception s | Answered _ => s end.

(** ** What can happen to the page *)
Inductive acl_event :=
  | ClickAddAcl
  | ClickEditAcl (node : nat)
  | ClickDeleteAcl (node : nat)
  | SelectType (id : jsstr)
  | SelectAccess (id : jsstr)
  | SelectAuthority (id : jsstr)
  | TypeTarget (x : jsstr) (which keyCode : Z)
  | TypeTopic (x : jsstr) (which keyCode : Z)
  | LeaveAcl (i : nat)
  | ClickSaveAcl
  | ClickConfAcl
  | DismissAcl
  | DismissConfirm
  | DismissAclAlert
  | Drag (shown : list nat) (from to : nat)
  | AnswerAcl (i : nat) (a : answer).

Definition on_acl_answer (i : nat) (a : answer) (s : acl_page) : acl_page :=
  match acl_waiting s !! i with
  | None => s
  | Some w =>
      let s := set_acl_net (acl_sent s) (delete i (acl_waiting s)) s in
      match w with
      | WaitInit => on_acl_query true a s
      | WaitReload => on_acl_query false a s
      | WaitAclAdd => on_acl_add a s
      | WaitAclUpdate => on_acl_update a s
      | WaitAclDelete => on_acl_delete a s
      | WaitReorder => on_reorder a s
      end
  end.

Definition run_acl (e : acl_event) (s : acl_page) : acl_page :=
  match e with
  | ClickAddAcl => click_add_acl s
  | ClickEditAcl n => click_edit_acl n s
  | ClickDeleteAcl n => click_delete_acl n s
  | SelectType id => select_type id s
  | SelectAccess id => select_access id s
  | SelectAuthority id => select_authority id s
  | TypeTarget x which keyCode =>
      let f := acl_typed s in
      let s := put_fields (set_target x (f_target_disabled f) f) s in
      put_validation (key_pressed text_of 0 which keyCode (acl_context s) (aclValidation s)) s
  | TypeTopic x which keyCode =>
      let s := put_fields (set_topic x (acl_typed s)) s in
      put_validation (key_pressed text_of 1 which keyCode (acl_context s) (aclValidation s)) s
  | LeaveAcl i => put_validation (focus_lost text_of i (acl_context s) (aclValidation s)) s
  | ClickSaveAcl => click_save_acl s
  | ClickConfAcl => click_conf_acl s
  | DismissAcl => hide_acl s
  | DismissConfirm => hide_confirm s
  | DismissAclAlert =>
      set_acl_alert (mkAlert (alert_title (acl_alert s)) (alert_content (acl_alert s)) false) s
  | Drag shown from to => drag shown from to s
  | AnswerAcl i a => on_acl_answer i a s
  end.

Definition acl_in_front (s : acl_page) : bool :=
  negb (dialog_shown (acl_dialog s)) && negb (dialog_shown (acl_delete_dialog s))
  && negb (alert_shown (acl_alert s)).

Definition modal_in_front (d : dialog) (s : acl_page) : bool :=
  dialog_shown d && negb (alert_shown (acl_alert s)).

Definition acl_possible (e : acl_event) (s : acl_page) : bool :=
  match e with
  | ClickAddAcl => acl_in_front s
  | ClickEditAcl n | ClickDeleteAcl n =>
      acl_in_front s && existsb (λ r, (nTr r =? n)%nat) (acl_rows s)
  | SelectType id => modal_in_front (acl_dialog s) s && existsb (jseqb id) type_options
  | SelectAccess id => modal_in_front (acl_dialog s) s && existsb (jseqb id) access_options
  | SelectAuthority id => modal_in_front (acl_dialog s) s && existsb (jseqb id) authority_options
  | TypeTarget _ _ _ => modal_in_front (acl_dialog s) s && negb (f_target_disabled (acl_typed s))
  | TypeTopic _ _ _ => modal_in_front (acl_dialog s) s
  | LeaveAcl i => modal_in_front (acl_dialog s) s && (i <? 2)%nat
  | ClickSaveAcl =>
      modal_in_front (acl_dialog s) s && negb (disabled (confirm_button (acl_dialog s)))
  | ClickConfAcl =>
      modal_in_front (acl_delete_dialog s) s
      && negb (disabled (confirm_button (acl_delete_dialog s)))
  | DismissAcl => modal_in_front (acl_dialog s) s
  | DismissConfirm => modal_in_front (acl_delete_dialog s) s
  | DismissAclAlert => alert_shown (acl_alert s)
  | Drag shown from to =>
      acl_in_front s && bool_decide (NoDup shown) && bool_decide (from < length shown)%nat
      && bool_decide (to < length shown)%nat
      && forallb (λ n, existsb (λ r, (nTr r =? n)%nat) (acl_rows s)) shown
  | AnswerAcl i _ => (i <? length (acl_waiting s))%nat
  end.

(** The page as it is loaded: the validator, the table and its first query; the
    attribute of the save button is [add]. *)
Definition acl_loaded (default_messages : gmap jsstr jsstr) (save confirm : jsstr) (a : alert) : acl_page :=
  let f := mkAclFields (Some (js "1")) [] false [] (Some (js "1")) (Some (js "0")) in
  let ctx := mkContext [input "acl-target" true []; input "acl-topic" true []] (λ _, false) in
  query_acl WaitInit
    (mkAcl [] f (new_form p aclRules (λ _, []) default_messages ctx) (new_dialog save) (js "add")
       (new_dialog confirm) (mkAclTexts [] [] [] [] [] false false) a None [] 0 [] []).

Inductive acl_reachable (default_messages : gmap jsstr jsstr) (save confirm : jsstr) (a : alert) :
    acl_page -> Prop :=
  | acl_start : acl_reachable default_messages save confirm a (acl_loaded default_messages save confirm a)
  | acl_step s e :
      acl_reachable default_messages save confirm a s -> acl_possible e s = true ->
      acl_reachable default_messages save confirm a (run_acl e s).
End Page.
