(* ===== verification/AclFacts.v ===== *)
(** * What the page of access rules does

    The order of the rules follows the drags, and the rules that are sent are
    well formed whatever was done before. *)

From stdpp Require Import base tactics strings gmap numbers list.
From Stdlib Require Import ZArith Lia.
From S2P Require Import Prelude Locale Language Json DataTable Console ConsoleFacts DataTableFacts.
From S2P Require Import Validator Forms FormsFacts ConsoleForms Accounts AccountsFacts Acl.
Import Common.
Local Open Scope Z_scope.

(** ** Dragging a row *)
Lemma move_row_perm {A} from to (l : list A) : move_row from to l ≡ₚ l.
Proof.
  unfold move_row. destruct (l !! from) as [x|] eqn:E; [|done].
  rewrite <- Permutation_middle, take_drop. symmetry. by apply delete_Permutation.
Qed.

(** The row of a node in a list of rows. *)
Definition data_in (rows : list row) (n : nat) : option json :=
  aData <$> List.find (λ r, (nTr r =? n)%nat) rows.

Lemma data_alter n m g rows :
  data_in (alter_row m g rows) n = if (m =? n)%nat then g <$> data_in rows n else data_in rows n.
Proof.
  unfold data_in, alter_row. induction rows as [|r rows IH]; cbn; [by case_match|].
  destruct (Nat.eqb_spec (nTr r) m) as [->|Hm]; cbn.
  - destruct (Nat.eqb_spec m n) as [->|Hn]; [done|exact IH].
  - destruct (Nat.eqb_spec (nTr r) n) as [E|]; [|exact IH].
    destruct (Nat.eqb_spec m n); [|done]. by rewrite <- E in *.
Qed.

(** The rows after the numbers of [details] are written. *)
Definition renumbered (details : list reorder_detail) (rows : list row) : list row :=
  foldl (λ rows d, alter_row (d_node d) (set_seq (d_newData d)) rows) rows details.

Lemma renumbered_cons d details rows :
  renumbered (d :: details) rows
  = renumbered details (alter_row (d_node d) (set_seq (d_newData d)) rows).
Proof. done. Qed.

Lemma data_renumbered_other details rows n : n ∉ d_node <$> details ->
  data_in (renumbered details rows) n = data_in rows n.
Proof.
  revert rows. induction details as [|d details IH]; intros rows; [done|].
  rewrite renumbered_cons. cbn [fmap list_fmap]. intros [Hd Hn]%not_elem_of_cons.
  rewrite IH, data_alter by done. by destruct (Nat.eqb_spec (d_node d) n).
Qed.

Lemma data_renumbered details rows d : NoDup (d_node <$> details) -> d ∈ details ->
  data_in (renumbered details rows) (d_node d) = set_seq (d_newData d) <$> data_in rows (d_node d).
Proof.
  revert rows. induction details as [|e details IH]; intros rows; [by intros _ ?%not_elem_of_nil|].
  rewrite renumbered_cons. cbn [fmap list_fmap].
  intros [He Hd]%NoDup_cons [->|Hin]%elem_of_cons.
  - rewrite data_renumbered_other, data_alter by done. by rewrite Nat.eqb_refl.
  - rewrite IH, data_alter by done. destruct (Nat.eqb_spec (d_node e) (d_node d)) as [E|]; [|done].
    exfalso. apply He. rewrite E. by apply list_elem_of_fmap_2.
Qed.

Lemma reorder_rows_eq details s : NoDup (d_node <$> details) ->
  let rows := renumbered details (acl_rows s) in
  reorder_rows details s
  = acl_ajax "/sys/acl/reorder"
      (JObj [(js "reorders", JArr (omap (λ d, data_in rows (d_node d)) details))]) WaitReorder
      (set_rows rows (acl_next_node s) s).
Proof.
  intros Hd rows. unfold reorder_rows.
  assert (forall acc, foldl (λ '(s, reorders) d,
      let s := set_rows (alter_row (d_node d) (set_seq (d_newData d)) (acl_rows s)) (acl_next_node s) s in
      (s, reorders ++ option_list (acl_row_data (d_node d) s))) (s, acc) details
    = (set_rows rows (acl_next_node s) s,
       acc ++ omap (λ d, data_in rows (d_node d)) details)) as ->; [|done].
  subst rows. revert s Hd. induction details as [|d details IH]; intros s Hd acc.
  { cbn. rewrite app_nil_r. by destruct s. }
  cbn in Hd. apply NoDup_cons in Hd as [Hd Hn]. rewrite renumbered_cons.
  cbn [foldl omap list_omap]. rewrite IH by done. cbn [acl_rows acl_next_node set_rows].
  set (rows' := alter_row _ _ _). fold (data_in rows' (d_node d)).
  rewrite (data_renumbered_other details rows' (d_node d) Hd).
  f_equal. rewrite <- app_assoc. f_equal.
  change (acl_row_data (d_node d) _) with (data_in rows' (d_node d)).
  by destruct (data_in rows' (d_node d)).
Qed.

Lemma diff_in data_of l l' d : d ∈ full_diff data_of l l' <->
  exists i a b, l !! i = Some a /\ l' !! i = Some b /\ a <> b
  /\ d = mkDetail b (data_of a ≫= λ r, elem_of_row r 0).
Proof.
  unfold full_diff. rewrite list_elem_of_omap. split.
  - intros ([a b] & (i & Hi)%list_elem_of_lookup & E).
    apply lookup_zip_with_Some in Hi as (x & y & [= <- <-] & Ha & Hb).
    destruct (Nat.eqb_spec a b) as [|Hn]; [done|]. injection E as <-. by exists i, a, b.
  - intros (i & a & b & Ha & Hb & Hn & ->). exists (a, b). split.
    + apply list_elem_of_lookup. exists i. apply lookup_zip_with_Some. by exists a, b.
    + by destruct (Nat.eqb_spec a b).
Qed.

Lemma diff_nodes data_of l l' : sublist (d_node <$> full_diff data_of l l') l'.
Proof.
  unfold full_diff. revert l. induction l' as [|b l' IH]; intros [|a l]; cbn; try apply sublist_nil_l.
  destruct (a =? b)%nat; cbn; [by apply sublist_cons|by apply sublist_skip].
Qed.

Lemma diff_stays data_of l l' i b : NoDup l' -> l !! i = Some b -> l' !! i = Some b ->
  b ∉ d_node <$> full_diff data_of l l'.
Proof.
  intros Hn Ha Hb (d & -> & (j & x & y & Hx & Hy & Hxy & ->)%diff_in)%list_elem_of_fmap.
  cbn in Hb. pose proof (NoDup_lookup _ _ _ _ Hn Hb Hy) as ->. by simplify_eq.
Qed.

Lemma elem_set_seq x r i :
  elem_of_row (set_seq x r) (S i) = elem_of_row r (S i).
Proof. destruct r as [| | | |[]|]; done. Qed.

Lemma elem_set_first x r y : elem_of_row r 0 = Some y ->
  elem_of_row (set_seq (Some x) r) 0 = Some x.
Proof. by destruct r. Qed.

(** The column [i] of the row of a node. *)
Definition cell (s : acl_page) (n i : nat) : option json :=
  acl_row_data n s ≫= λ r, elem_of_row r i.

Definition moved_rows (s : acl_page) (shown shown' : list nat) : list json :=
  omap (λ '(a, b), if (a =? b)%nat then None else acl_row_data b s) (zip shown shown').

Lemma move_row_to {A} from to (l : list A) x :
  l !! from = Some x -> (to < length l)%nat -> move_row from to l !! to = Some x.
Proof.
  intros Hx Ht. unfold move_row. rewrite Hx. pose proof (lookup_lt_Some _ _ _ Hx).
  rewrite lookup_app_r; rewrite length_take, length_delete by done; [|lia].
  by replace (to - _)%nat with 0%nat by lia.
Qed.

Lemma omap_ext_all {A B} (f g : A -> option B) (l : list A) : (forall x, f x = g x) -> omap f l = omap g l.
Proof. intros H. induction l as [|x l IH]; cbn; [done|]. rewrite H. by rewrite IH. Qed.

Lemma diff_rows (g : nat -> option json) data_of l l' :
  omap (λ d, g (d_node d)) (full_diff data_of l l')
  = omap (λ '(a, b), if (a =? b)%nat then None else g b) (zip l l').
Proof.
  unfold full_diff. revert l'. induction l as [|a l IH]; intros [|b l']; [done..|]. cbn.
  destruct (a =? b)%nat; [exact (IH l')|]. cbn. by rewrite <- IH.
Qed.

Section Drag.
Context (s : acl_page) (shown : list nat) (from to : nat).
Hypothesis distinct : NoDup shown.
Let shown' := move_row from to shown.
Let diff := full_diff (λ n, acl_row_data n s) shown shown'.
Let s' := drag shown from to s.

Lemma shown_distinct : NoDup shown'.
Proof. unfold shown'. by rewrite move_row_perm. Qed.

Lemma diff_distinct : NoDup (d_node <$> diff).
Proof. exact (sublist_NoDup _ _ shown_distinct (diff_nodes _ _ _)). Qed.

Lemma drag_row n : acl_row_data n s' = data_in (renumbered diff (acl_rows s)) n.
Proof. unfold s', drag. fold shown' diff. by rewrite (reorder_rows_eq _ _ diff_distinct). Qed.

Lemma drag_other n : n ∉ d_node <$> diff -> acl_row_data n s' = acl_row_data n s.
Proof. intros Hn. rewrite drag_row. by apply data_renumbered_other. Qed.

Lemma drag_moved n x : mkDetail n x ∈ diff ->
  acl_row_data n s' = set_seq x <$> acl_row_data n s.
Proof.
  intros Hx. rewrite drag_row. exact (data_renumbered diff (acl_rows s) _ diff_distinct Hx).
Qed.

Lemma drag_sent :
  acl_sent s' = acl_sent s ++
    [("/sys/acl/reorder", JObj [(js "reorders", JArr (moved_rows s' shown shown'))])].
Proof.
  unfold moved_rows. rewrite <- (diff_rows (λ n, acl_row_data n s') (λ n, acl_row_data n s)).
  fold diff. rewrite (omap_ext_all _ (λ d, data_in (renumbered diff (acl_rows s)) (d_node d)))
    by (intros; apply drag_row).
  unfold s', drag. fold shown' diff. by rewrite (reorder_rows_eq _ _ diff_distinct).
Qed.

(** A row that moved has the number of the row that was at its new place. *)
Lemma drag_number i a b : is_Some (cell s a 0) -> is_Some (cell s b 0) ->
  shown !! i = Some a -> shown' !! i = Some b -> cell s' b 0 = cell s a 0.
Proof.
  intros [x Hx] [y Hy] Ha Hb. unfold cell in *. destruct (decide (a = b)) as [<-|Hab].
  - rewrite drag_other; [done|]. by apply (diff_stays _ _ _ i); [apply shown_distinct|..].
  - rewrite (drag_moved b (cell s a 0)).
    2: { apply diff_in. by exists i, a, b. }
    unfold cell. rewrite Hx. destruct (acl_row_data b s) as [r|]; [|done].
    by apply (elem_set_first x r y).
Qed.

Lemma drag_cell n i : cell s' n (S i) = cell s n (S i).
Proof.
  unfold cell. destruct (decide (n ∈ d_node <$> diff)) as [Hn|Hn]; [|by rewrite drag_other].
  apply list_elem_of_fmap in Hn as ([m x] & -> & Hd). cbn [d_node].
  rewrite (drag_moved _ x Hd). destruct (acl_row_data m s) as [r|]; [apply elem_set_seq|done].
Qed.
End Drag.

(** Dragging a rule keeps the sequence numbers where they are.  The rules of
    the page are permuted, the one that was dragged ends where it was dropped,
    and the numbers down the page are the same as before, so that a page in the
    order of the numbers stays in it; no other column and no other rule changes;
    and the server is sent once exactly the rules that have a new place, with
    their new numbers. *)
Theorem drag_keeps_numbers s shown from to :
  NoDup shown -> (forall n, n ∈ shown -> is_Some (cell s n 0)) ->
  let s' := drag shown from to s in
  let shown' := move_row from to shown in
  shown' ≡ₚ shown
  /\ (forall n, shown !! from = Some n -> (to < length shown)%nat -> shown' !! to = Some n)
  /\ (λ n, cell s' n 0) <$> shown' = (λ n, cell s n 0) <$> shown
  /\ (forall n i, cell s' n (S i) = cell s n (S i))
  /\ (forall n, n ∉ shown -> acl_row_data n s' = acl_row_data n s)
  /\ acl_sent s' = acl_sent s ++
       [("/sys/acl/reorder", JObj [(js "reorders", JArr (moved_rows s' shown shown'))])].
Proof.
  intros Hn Hs s' shown'.
  assert (shown' ≡ₚ shown) as Hp by apply move_row_perm.
  split_and!; [done|intros n; apply move_row_to| |by intros; apply drag_cell| |by apply drag_sent].
  - apply list_eq_same_length with (length shown); rewrite ?length_fmap; [done|by rewrite Hp|].
    intros i x y _ (b & -> & Hb)%list_lookup_fmap_Some (a & -> & Ha)%list_lookup_fmap_Some.
    apply (drag_number s shown from to Hn i); try done; apply Hs.
    + by apply (list_elem_of_lookup_2 _ i).
    + rewrite <- Hp. by apply (list_elem_of_lookup_2 _ i).
  - intros n Hx. apply drag_other; [done|]. intros Hd. apply Hx. rewrite <- Hp.
    apply (elem_of_submseteq _ _ _ Hd), sublist_submseteq, diff_nodes.
Qed.

(** ** What the page sends *)
Definition new_form_ok (f : acl_fields) : Prop :=
  (exists ty, f_type f = Some ty /\ ty ∈ type_options)
  /\ (exists ac, f_access f = Some ac /\ ac ∈ access_options)
  /\ (exists au, f_authority f = Some au /\ au ∈ authority_options)
  /\ (f_target_disabled f = true <-> f_type f = Some (js "4"))
  /\ (f_target_disabled f = true -> f_target f = js "$all").

(** A rule as it is sent to be added. *)
Definition new_rule (body : json) : Prop :=
  exists target ty topic ac au,
  body = JObj [(js "target", JStr target); (js "type", JStr ty); (js "topic", JStr topic);
               (js "access", JStr ac); (js "authority", JStr au)]
  /\ ty ∈ type_options /\ ac ∈ access_options /\ au ∈ authority_options
  /\ 1 <= len topic <= 1024 /\ 1 <= len target <= 1024
  /\ (ty = js "4" -> target = js "$all").

(** The dialog to confirm a deletion shows the rule that is selected. *)
Definition confirm_ok (s : acl_page) : Prop :=
  exists row, selectedAclData s = Some row /\ row <> JNull
  /\ (forall x, elem_of_row row 1 = Some (JStr x) -> t_target (delete_texts s) = x)
  /\ (forall x, elem_of_row row 3 = Some (JStr x) -> t_topic (delete_texts s) = x)
  /\ (class_deny (delete_texts s) = true <-> elem_of_row row 5 = Some (JNum 0))
  /\ (class_allow (delete_texts s) = true <-> elem_of_row row 5 = Some (JNum 1)).

Section Steps.
Context (p : page) (text_of : jsstr -> jsstr) (dm : gmap jsstr jsstr).

Definition acl_settings : settings := mkSettings aclRules [] dm.

Record acl_ok (s : acl_page) : Prop := {
  ao_valid : sound_validator acl_settings (aclValidation s);
  ao_form : jseqb (oper s) (js "add") = true -> new_form_ok (acl_typed s);
  ao_sent : forall body, ("/sys/acl/add"%string, body) ∈ acl_sent s -> new_rule body;
  ao_delete : dialog_shown (acl_delete_dialog s) = true -> confirm_ok s;
}.

Lemma acl_known s : Forall (known acl_settings) (fields (acl_context s)).
Proof. apply known_all. vm_compute. reflexivity. Qed.

Lemma acl_field_ok ctx f :
  rules acl_settings f = [(js "required", PBool true); (js "maxlength", PNum 1024)] ->
  holds acl_settings ctx f = true -> 1 <= len (elementValue f) <= 1024.
Proof.
  intros Hr H. rewrite holds_ok, Hr in H.
  2: { unfold known. rewrite Hr. repeat constructor; by vm_compute. }
  cbn [forallb] in H. rewrite rule_ok_maxlength, rule_ok_required in H by lia.
  rewrite andb_true_r in H. apply andb_true_iff in H as [H1%Z.leb_le H2%Z.leb_le]. lia.
Qed.

(** The form is valid only with a topic, and a target unless it is fixed. *)
Lemma acl_form_valid s : sound_validator acl_settings (aclValidation s) ->
  fst (form text_of (with_context (acl_context s) (aclValidation s))) = Some true ->
  1 <= len (clean_value (f_topic (acl_typed s))) <= 1024
  /\ (f_target_disabled (acl_typed s) = false ->
      1 <= len (clean_value (f_target (acl_typed s))) <= 1024).
Proof.
  intros [Hs Ht]. set (v := with_context _ _).
  assert (v_settings v = acl_settings) as Hv by done.
  assert (elements v = (if f_target_disabled (acl_typed s) then [] else [input "acl-target" true (f_target (acl_typed s))])
            ++ [input "acl-topic" true (f_topic (acl_typed s))]) as He.
  { unfold elements. rewrite Hv. cbn [v_context v with_context acl_context fields].
    by destruct (f_target_disabled (acl_typed s)). }
  rewrite form_result; [|done|].
  2: { apply elements_known. rewrite Hv. apply acl_known. }
  rewrite He, Hv, forallb_app. intros [= [H1 H2]%andb_true_iff].
  cbn [forallb] in H2. rewrite andb_true_r in H2.
  split; [by apply (acl_field_ok (v_context v) (input "acl-topic" true _))|].
  intros E. rewrite E in H1. cbn [forallb] in H1. rewrite andb_true_r in H1.
  by apply (acl_field_ok (v_context v) (input "acl-target" true _)).
Qed.

(** Steps that leave the form and the rule selected alone and add no rule. *)
Definition acl_part (s : acl_page) :=
  (aclValidation s, oper s, acl_typed s, selectedAclData s, delete_texts s).

Definition sends_no_rule (s s' : acl_page) : Prop :=
  exists l, acl_sent s' = acl_sent s ++ l /\ "/sys/acl/add"%string ∉ fst <$> l.

Lemma acl_same s s' : acl_part s' = acl_part s -> sends_no_rule s s' ->
  (dialog_shown (acl_delete_dialog s') = true -> dialog_shown (acl_delete_dialog s) = true) ->
  acl_ok s -> acl_ok s'.
Proof.
  intros [= E1 E2 E3 E4 E5] (l & El & Hl) Hd [H1 H2 H3 H4].
  split; rewrite ?E1, ?E2, ?E3; try done.
  - intros body. rewrite El, elem_of_app. intros [Hb|Hb]; [by apply H3|].
    destruct Hl. by apply (list_elem_of_fmap_2 fst) in Hb.
  - intros Hs. destruct (H4 (Hd Hs)) as (row & Hr). exists row. by rewrite E4, E5.
Qed.

Lemma sends_nothing s s' : acl_sent s' = acl_sent s -> sends_no_rule s s'.
Proof. intros E. exists []. split; [by rewrite E, app_nil_r|apply not_elem_of_nil]. Qed.

Lemma sends_one s s' url body : acl_sent s' = acl_sent s ++ [(url, body)] ->
  url <> "/sys/acl/add"%string -> sends_no_rule s s'.
Proof.
  intros E Hu. exists [(url, body)]. split; [done|]. intros H%list_elem_of_singleton. by apply Hu.
Qed.

Lemma on_acl_query_frame b a s :
  let s' := on_acl_query b a s in
  acl_part s' = acl_part s /\ acl_sent s' = acl_sent s /\ acl_delete_dialog s' = acl_delete_dialog s.
Proof. unfold on_acl_query, take_rows. repeat case_match; done. Qed.

Ltac same_page s :=
  apply (acl_same s); [done|(by apply sends_nothing) || (eapply sends_one; [done|discriminate])|done|done].

Lemma on_acl_answer_ok i a s : acl_ok s -> acl_ok (on_acl_answer p i a s).
Proof.
  intros H. unfold on_acl_answer. destruct (acl_waiting s !! i) as [w|]; [|done].
  set (s0 := set_acl_net _ _ s). assert (acl_ok s0) as H0 by same_page s.
  assert (forall b, acl_ok (on_acl_query b a s0)) as Hq.
  { intros b. destruct (on_acl_query_frame b a s0) as (E1 & E2 & E3).
    apply (acl_same s0); [done|by apply sends_nothing|by rewrite E3|done]. }
  destruct w; try apply Hq.
  - unfold on_acl_add. repeat case_match; same_page s0.
  - unfold on_acl_update. repeat case_match; same_page s0.
  - unfold on_acl_delete. repeat case_match; same_page s0.
  - unfold on_reorder. case_match; same_page s0.
Qed.

(** *** The form *)
Lemma list_val_in options id : existsb (jseqb id) options = true ->
  list_val options id = Some id /\ id ∈ options.
Proof.
  intros H. unfold list_val. rewrite H. split; [done|].
  apply existsb_exists in H as (x & Hx & ->%jseqb_eq). by apply list_elem_of_In.
Qed.

Lemma jseqb_false x y : jseqb x y = false -> x <> y.
Proof. intros H ->. by rewrite jseqb_refl in H. Qed.

Lemma select_type_form id s : existsb (jseqb id) type_options = true ->
  new_form_ok (acl_typed s) -> new_form_ok (acl_typed (select_type id s)).
Proof.
  intros [Hv Hid]%list_val_in (_ & Ha & Hu & _). unfold select_type. rewrite Hv.
  destruct (jseqb id (js "4")) eqn:E; cbn.
  - apply jseqb_eq in E as ->. split_and!; [by eexists|done|done|done|done].
  - apply jseqb_false in E. split_and!; [by eexists|done|done| |done].
    split; [done|]. by intros [= ->].
Qed.

Lemma select_access_form id s : existsb (jseqb id) access_options = true ->
  new_form_ok (acl_typed s) -> new_form_ok (acl_typed (select_access id s)).
Proof.
  intros [Hv Hid]%list_val_in (Ht & _ & Hu & H). unfold select_access. rewrite Hv.
  split_and!; [done|by eexists|done|apply H..].
Qed.

Lemma select_authority_form id s : existsb (jseqb id) authority_options = true ->
  new_form_ok (acl_typed s) -> new_form_ok (acl_typed (select_authority id s)).
Proof.
  intros [Hv Hid]%list_val_in (Ht & Ha & _ & H). unfold select_authority. rewrite Hv.
  split_and!; [done|done|by eexists|apply H..].
Qed.

Lemma click_add_form s : new_form_ok (acl_typed (click_add_acl p s)).
Proof. split_and!; try done; eexists; (split; [reflexivity|set_solver]). Qed.

(** A step that changes the form only. *)
Lemma acl_form_step s s' : sound_validator acl_settings (aclValidation s') ->
  (new_form_ok (acl_typed s) -> new_form_ok (acl_typed s')) -> oper s' = oper s ->
  acl_sent s' = acl_sent s -> acl_delete_dialog s' = acl_delete_dialog s ->
  selectedAclData s' = selectedAclData s -> delete_texts s' = delete_texts s ->
  acl_ok s -> acl_ok s'.
Proof.
  intros Hv Hf Eo Es Ed Ej Et [H1 H2 H3 H4]. split; [done| | |].
  - rewrite Eo. intros E. by apply Hf, H2.
  - by rewrite Es.
  - unfold confirm_ok. by rewrite Ed, Ej, Et.
Qed.

(** *** A click on a button of a row *)
Lemma front_hides s : acl_in_front s = true -> dialog_shown (acl_delete_dialog s) = false.
Proof. unfold acl_in_front. by destruct (dialog_shown (acl_dialog s)), (dialog_shown (acl_delete_dialog s)). Qed.

Lemma click_edit_ok n s : acl_in_front s = true -> acl_ok s -> acl_ok (click_edit_acl p n s).
Proof.
  intros Hd%front_hides [H1 H2 H3 H4]. unfold click_edit_acl. cbn [selectedAclData set_acl_selected].
  assert (acl_ok (set_acl_selected (acl_row_data n s) s)) as H.
  { split; try done. cbn. by rewrite Hd. }
  destruct (acl_row_data n s) as [[]|]; [exact H|..|exact H];
    (split; [exact H1|done|exact H3|cbn; by rewrite Hd]).
Qed.

Lemma num_iff o n : is_num o n = true <-> o = Some (JNum n).
Proof.
  split; [|intros ->; cbn; apply Z.eqb_refl].
  destruct o as [[]|]; cbn; try done. by intros ->%Z.eqb_eq.
Qed.

Lemma show_texts_ok row t s : row <> JNull -> selectedAclData s = Some row ->
  delete_texts s = show_texts p row t -> confirm_ok s.
Proof.
  intros Hn Hs Ht. exists row. rewrite Ht. cbn [show_texts t_target t_topic class_deny class_allow].
  split_and!; [done|done|by intros x ->|by intros x ->|apply num_iff|].
  rewrite andb_true_iff, negb_true_iff, num_iff. split; [by intros []|]. by intros ->.
Qed.

Lemma click_delete_ok n s : acl_in_front s = true -> acl_ok s -> acl_ok (click_delete_acl p n s).
Proof.
  intros Hd%front_hides [H1 H2 H3 H4]. unfold click_delete_acl. cbn [selectedAclData set_acl_selected].
  assert (acl_ok (set_acl_selected (acl_row_data n s) s)) as H.
  { split; try done. cbn. by rewrite Hd. }
  destruct (acl_row_data n s) as [row|]; [|exact H].
  destruct row; try exact H; (split; [exact H1|exact H2|exact H3|]);
    (intros _; eapply show_texts_ok; [| |reflexivity]; done).
Qed.

(** *** Saving *)
Lemma params_rule s : acl_ok s -> jseqb (oper s) (js "add") = true ->
  fst (form text_of (with_context (acl_context s) (aclValidation s))) = Some true ->
  new_rule (JObj (acl_params (acl_typed s))).
Proof.
  intros [Hv Hf _ _] Ho Hr. destruct (acl_form_valid s Hv Hr) as [Ht Hg].
  destruct (Hf Ho) as ((ty & Ety & Hty) & (ac & Eac & Hac) & (au & Eau & Hau) & Hd & Ha).
  unfold acl_params. rewrite Ety, Eac, Eau. do 5 eexists. split; [reflexivity|].
  split_and!; try done; try apply Ht.
  - destruct (f_target_disabled (acl_typed s)) eqn:E; [rewrite Ha by done; vm_compute; done|by apply Hg].
  - destruct (f_target_disabled (acl_typed s)) eqn:E; [rewrite Ha by done; vm_compute; done|by apply Hg].
  - intros ->. rewrite Ha by by apply Hd. reflexivity.
Qed.

Lemma click_save_ok s : acl_ok s -> acl_ok (click_save_acl p text_of s).
Proof.
  intros H. unfold click_save_acl.
  pose proof (form_ctx_sound text_of _ (acl_context s) (acl_known s) _ (ao_valid s H)) as Hw.
  pose proof (params_rule s H) as Hp.
  destruct (form text_of _) as [r v]. cbn [fst snd] in *.
  assert (forall d, acl_ok (put_dialog d (put_validation v s))) as Hd.
  { intros d. by apply (acl_form_step s). }
  destruct r as [[]|]; [|apply Hd..]. set (s1 := put_dialog _ _).
  assert (acl_ok s1) as H1 by apply Hd.
  change (oper s) with (oper s1) in Hp. change (acl_typed s) with (acl_typed s1) in Hp. clearbody s1.
  destruct (jseqb (oper s1) (js "add")).
  - destruct H1 as [K1 K2 K3 K4]. split; [exact K1|exact K2| |exact K4].
    intros body [Hb|[= ->]%list_elem_of_singleton]%elem_of_app; [by apply K3|by apply Hp].
  - destruct (jseqb (oper s1) (js "update")); [|same_page s1].
    destruct (selectedAclData s1) as [[]|]; (exact H1 || same_page s1).
Qed.

Lemma click_conf_ok s : acl_ok s -> acl_ok (click_conf_acl p text_of s).
Proof.
  intros H. unfold click_conf_acl. cbn [selectedAclData set_confirm].
  destruct (selectedAclData s) as [[]|]; same_page s.
Qed.

Lemma drag_ok shown from to s : NoDup shown -> acl_ok s -> acl_ok (drag shown from to s).
Proof.
  intros Hn H. pose proof (drag_sent s shown from to Hn) as Hs.
  assert (acl_part (drag shown from to s) = acl_part s
          /\ acl_delete_dialog (drag shown from to s) = acl_delete_dialog s) as [E1 E2].
  { unfold drag. by rewrite reorder_rows_eq by by apply diff_distinct. }
  apply (acl_same s); [done|by eapply sends_one|by rewrite E2|done].
Qed.

(** Every event keeps the page right. *)
Lemma run_acl_ok e s : acl_possible e s = true -> acl_ok s -> acl_ok (run_acl p text_of e s).
Proof.
  intros Hp H. pose proof (ao_valid s H) as Hv.
  assert (forall s', acl_part s' = acl_part s -> acl_sent s' = acl_sent s ->
            (dialog_shown (acl_delete_dialog s') = true -> dialog_shown (acl_delete_dialog s) = true) ->
            acl_ok s') as Hsame.
  { intros s' E1 E2 Hd. apply (acl_same s); [done|by apply sends_nothing|done|done]. }
  destruct e; cbn [run_acl acl_possible] in *.
  - split; [exact Hv|intros _; apply click_add_form|apply H|]. cbn. by rewrite front_hides.
  - apply andb_true_iff in Hp as [Hp _]. by apply click_edit_ok.
  - apply andb_true_iff in Hp as [Hp _]. by apply click_delete_ok.
  - apply andb_true_iff in Hp as [_ Hp]. apply (acl_form_step s); try done.
    by apply select_type_form.
  - apply andb_true_iff in Hp as [_ Hp]. apply (acl_form_step s); try done.
    by apply select_access_form.
  - apply andb_true_iff in Hp as [_ Hp]. apply (acl_form_step s); try done.
    by apply select_authority_form.
  - apply andb_true_iff in Hp as [_ Hp%negb_true_iff].
    apply (acl_form_step s); try done; [apply key_pressed_sound; [apply acl_known|done]|].
    intros (Ht & Ha & Hu & Hd & Hx). split_and!; try done. cbn. by rewrite Hp.
  - apply (acl_form_step s); try done. apply key_pressed_sound; [apply acl_known|done].
  - apply (acl_form_step s); try done. apply focus_lost_sound; [apply acl_known|done].
  - by apply click_save_ok.
  - by apply click_conf_ok.
  - by apply Hsame.
  - by apply Hsame.
  - by apply Hsame.
  - repeat match goal with H : _ && _ = true |- _ => apply andb_true_iff in H as [H ?] end.
    apply drag_ok; [|done]. by eapply bool_decide_eq_true.
  - by apply on_acl_answer_ok.
Qed.

Lemma loaded_acl_ok save confirm a : acl_ok (acl_loaded p dm save confirm a).
Proof.
  split; [done| | |done].
  - intros _. split_and!; try done; eexists; (split; [reflexivity|set_solver]).
  - intros body [=]%list_elem_of_singleton.
Qed.

Lemma reachable_acl_ok save confirm a s :
  acl_reachable p text_of dm save confirm a s -> acl_ok s.
Proof. induction 1; [apply loaded_acl_ok|by apply run_acl_ok]. Qed.
End Steps.

(** C31: the page of access rules sends what it shows.  Whatever was clicked,
    chosen, typed, dragged and answered before, in any order: every rule that was
    sent to be added has a type, an access and an authority of the lists, a topic
    and a target of 1 to 1024 characters, and the target [$all] if it is for
    everybody; and the confirmation button sends one request, to delete the rule
    selected, whose target, topic and authority are those the dialog shows, and is
    disabled with it. *)
Theorem acl_sends_what_it_shows p text_of dm save confirm a s :
  acl_reachable p text_of dm save confirm a s ->
  (forall body, ("/sys/acl/add", body) ∈ acl_sent s -> new_rule body)
  /\ (acl_possible ClickConfAcl s = true ->
      let s' := run_acl p text_of ClickConfAcl s in
      let t := delete_texts s in
      acl_possible ClickConfAcl s' = false
      /\ exists row, selectedAclData s = Some row
         /\ acl_sent s' = acl_sent s ++
              [("/sys/acl/delete", JObj (opt_prop "seq" (elem_of_row row 0)))]
         /\ (forall x, elem_of_row row 1 = Some (JStr x) -> t_target t = x)
         /\ (forall x, elem_of_row row 3 = Some (JStr x) -> t_topic t = x)
         /\ (class_deny t = true <-> elem_of_row row 5 = Some (JNum 0))
         /\ (class_allow t = true <-> elem_of_row row 5 = Some (JNum 1))).
Proof.
  intros Hr. pose proof (reachable_acl_ok p text_of dm save confirm a s Hr) as H.
  split; [apply (ao_sent _ _ H)|]. intros Hp s' t. cbn [acl_possible] in Hp.
  apply andb_true_iff in Hp as [[Hd _]%andb_true_iff _].
  destruct (ao_delete _ _ H Hd) as (row & Hs & Hn & Hx).
  unfold s'. cbn [run_acl]. unfold click_conf_acl. cbn [selectedAclData set_confirm]. rewrite Hs.
  split.
  - destruct row; try done; cbn; by rewrite andb_false_r.
  - exists row. split; [done|]. split; [by destruct row|exact Hx].
Qed.

(** ** An example *)
Fixpoint visit_acl (p : page) (text_of : jsstr -> jsstr) (es : list acl_event) (s : acl_page) :
    option acl_page :=
  match es with
  | [] => Some s
  | e :: es => if acl_possible e s then visit_acl p text_of es (run_acl p text_of e s) else None
  end.

Lemma visit_acl_reachable p text_of dm save confirm a es s s' :
  acl_reachable p text_of dm save confirm a s -> visit_acl p text_of es s = Some s' ->
  acl_reachable p text_of dm save confirm a s'.
Proof.
  revert s. induction es as [|e es IH]; intros s H; cbn; [by intros [= <-]|].
  destruct (acl_possible e s) eqn:E; [|done]. apply IH. by apply acl_step.
Qed.

Definition demo_acl : page := mkPage [] ∅ None.
Definition demo_acl_loaded : acl_page := acl_loaded demo_acl ∅ (js "Save") (js "Confirm") (mkAlert [] [] false).

Definition added_rule : json :=
  JObj [(js "target", JStr (js "$all")); (js "type", JStr (js "4")); (js "topic", JStr (js "c/d"));
        (js "access", JStr (js "1")); (js "authority", JStr (js "0"))].

Definition demo_rule (seq : Z) (target : string) (ty : Z) : json :=
  JArr [JNum seq; JStr (js target); JNum ty; JStr (js "a/b"); JNum 1; JNum 0].

Definition demo_rules : answer :=
  Answered (Some (JObj [(js "code", JNum 1);
    (js "result", JObj [(js "total", JNum 3);
       (js "items", JArr [demo_rule 3 "bob" 1; demo_rule 2 "10.0.0.1" 2; demo_rule 1 "$all" 4])])])).

Definition demo_acl_events : list acl_event :=
  [AnswerAcl 0 demo_rules; ClickAddAcl; SelectType (js "4"); TypeTopic (js "c/d") 67 67;
   ClickSaveAcl; DismissAcl; ClickDeleteAcl 1].

Definition demo_acl_page : acl_page :=
  default demo_acl_loaded (visit_acl demo_acl id demo_acl_events demo_acl_loaded).

Lemma demo_acl_reachable :
  acl_reachable demo_acl id ∅ (js "Save") (js "Confirm") (mkAlert [] [] false) demo_acl_page.
Proof.
  unfold demo_acl_page.
  assert (match visit_acl demo_acl id demo_acl_events demo_acl_loaded with Some _ => true | None => false end
          = true) as H by (vm_compute; reflexivity).
  destruct (visit_acl _ _ demo_acl_events demo_acl_loaded) as [s|] eqn:E; [|done].
  by apply (visit_acl_reachable _ _ _ _ _ _ demo_acl_events demo_acl_loaded s
              (acl_start _ _ _ _ _ _)).
Qed.

Lemma acl_sends_what_it_shows_witness :
  let s := demo_acl_page in
  new_rule added_rule
  /\ t_target (delete_texts s) = js "10.0.0.1" /\ class_deny (delete_texts s) = true
  /\ last (acl_sent (run_acl demo_acl id ClickConfAcl s))
     = Some ("/sys/acl/delete", JObj [(js "seq", JNum 2)]).
Proof.
  intros s.
  destruct (acl_sends_what_it_shows demo_acl id ∅ (js "Save") (js "Confirm") (mkAlert [] [] false) s
    demo_acl_reachable) as [H1 H2].
  split; [apply H1, list_elem_of_In; vm_compute; auto|].
  destruct (H2 ltac:(vm_compute; reflexivity)) as (_ & row & Er & Es & Ht & _ & Hd & _).
  assert (row = demo_rule 2 "10.0.0.1" 2) as ->.
  { enough (Some row = Some (demo_rule 2 "10.0.0.1" 2)) as [= ->] by done.
    rewrite <- Er. vm_compute. reflexivity. }
  split_and!; [by apply Ht|by apply Hd|].
  rewrite Es, last_snoc. reflexivity.
Defined.

Definition demo_table : acl_page :=
  default demo_acl_loaded (visit_acl demo_acl id [AnswerAcl 0 demo_rules] demo_acl_loaded).

(** The last of three rules dragged to the first place. *)
Lemma drag_keeps_numbers_witness :
  let s' := drag [0; 1; 2]%nat 2 0 demo_table in
  move_row 2 0 [0; 1; 2]%nat = [2; 0; 1]%nat
  /\ [cell s' 2%nat 0; cell s' 0%nat 0; cell s' 1%nat 0] = [Some (JNum 3); Some (JNum 2); Some (JNum 1)]
  /\ cell s' 2%nat 1 = Some (JStr (js "$all"))
  /\ last (acl_sent s') = Some ("/sys/acl/reorder"%string,
       JObj [(js "reorders", JArr [demo_rule 3 "$all" 4; demo_rule 2 "bob" 1; demo_rule 1 "10.0.0.1" 2])]).
Proof.
  intros s'. split; [reflexivity|].
  destruct (drag_keeps_numbers demo_table [0; 1; 2]%nat 2 0) as (_ & _ & Hn & Hc & _ & Hs).
  - by apply (bool_decide_unpack _).
  - intros n Hn. repeat (apply elem_of_cons in Hn as [->|Hn]; [eexists; vm_compute; reflexivity|]). by apply not_elem_of_nil in Hn.
  - split_and!; [etransitivity; [exact Hn|vm_compute; reflexivity]| |].
    + etransitivity; [apply (Hc 2%nat 0%nat)|vm_compute; reflexivity].
    + etransitivity; [apply (f_equal last), Hs|]. rewrite last_snoc. vm_compute. reflexivity.
Defined.
