(* ===== verification/Monitor.v ===== *)
(** * The pages that show the state of the broker
    (ui/page/connect.html, session.html, topic.html, subscribe.html,
    listener.html; console.html).

    Five pages are a table each, whose rows the server gives a page at a time;
    they differ in their columns, in what a search names and in the address they
    ask.  The first page of the console shows three answers of the server.

    Modelled choices: the data of a row is a JSON object or array, and the status
    of a node a number; the counters of the broker are JSON values whose numbers
    are integers below 2^53, in an object whose names are those of the cells; the line below a table and its buttons are what the
    last complete draw made of them ([Pager]). *)

From stdpp Require Import base tactics strings gmap numbers list.
From Stdlib Require Import ZArith Lia.
From S2P Require Import Prelude Json Language Dates DataTable Console Pager Validator.
Import Common.
Local Open Scope Z_scope.

(** ** Cells *)

(** What the [render] function of a column does. *)
Inductive render :=
  | RenderData           (* return data *)
  | RenderOrZero         (* data, or 0 when it counts as false *)
  | RenderTime           (* getFormatDateByLong(data, 'yyyy-MM-dd hh:mm:ss') *)
  | RenderInstance       (* full.instanceId *)
  | RenderStatus.        (* running or stopped *)

Record column := mkColumn { col_data : string; col_render : render }.

Definition quoted (s : string) : jsstr := [34] ++ js s ++ [34].

Definition status_html (running : bool) : jsstr :=
  let div c := js "<div class=" ++ quoted c ++ js ">" in
  let i c := js "<i class=" ++ quoted c ++ js " aria-hidden=" ++ quoted "true" ++ js "></i>" in
  if running
  then div "node-status-running" ++ i "fa fa-check-circle" ++ js "<span>Running</span>" ++ js "</div>"
  else div "node-status-stopped" ++ i "fa fa-exclamation-circle" ++ js "<span>Stopped</span>" ++ js "</div>".

Section Cells.
(** How the browser writes a time value, and what it makes of a time that is not
    a number. *)
Context (local_time : Z -> date) (odd_time : option json -> jsstr) (now : date).

Definition render_value (r : render) (data : option json) (full : json) : option json :=
  match r with
  | RenderData => data
  | RenderOrZero => if json_truthy data then data else Some (JNum 0)
  | RenderTime =>
      Some (JStr match data with
                 | Some (JNum l) => getFormatDateByLong local_time now l (Some (js "yyyy-MM-dd hh:mm:ss"))
                 | _ => odd_time data
                 end)
  | RenderInstance => member full "instanceId"
  | RenderStatus =>
      Some (JStr (status_html match data with
                              | Some (JNum 1) | Some (JBool true) => true
                              | _ => false
                              end))
  end.

(** [_fnGetCellData] for display, without a default content: [None] is the
    unknown parameter the table complains of. *)
Definition _fnGetCellData (c : column) (rowData : json) : option json :=
  match render_value (col_render c) (member rowData (col_data c)) rowData with
  | Some JNull => Some (JStr [])
  | v => v
  end.

(** The HTML of the cell. *)
Definition cell_html (c : column) (rowData : json) : jsstr :=
  match _fnGetCellData c rowData with Some v => json_str v | None => [] end.

Definition row_cells (cols : list column) (rowData : json) : list jsstr :=
  map (λ c, cell_html c rowData) cols.
End Cells.

(** ** The pages *)
Record list_page := mkListPage {
  list_url : string;
  search_key : option string;   (* what a search names; [None]: a table without pages *)
  columns : list column;
}.

Definition plain (d : string) : column := mkColumn d RenderData.
Definition or_zero (d : string) : column := mkColumn d RenderOrZero.

Definition connect_html : list_page :=
  mkListPage "/sys/connect/get" (Some "clientId")
    [plain "clientId"; plain "username"; plain "ipAddr"; plain "port"; plain "cleanSession";
     plain "protocolVersion"; plain "keepAliveTime"; mkColumn "connectTime" RenderTime].

Definition session_html : list_page :=
  mkListPage "/sys/session/get" (Some "clientId")
    [plain "clientId"; plain "cleanSession"; or_zero "topicCount"; or_zero "maxInflightSize";
     or_zero "inflightSize"; or_zero "queueSize"; or_zero "droppedCount"; or_zero "awaitSize";
     or_zero "sentCount"; or_zero "enqueueCount"; mkColumn "createTime" RenderTime].

Definition topic_html : list_page :=
  mkListPage "/sys/topic/get" (Some "topic") [plain "topic"; plain "node"].

Definition subscribe_html : list_page :=
  mkListPage "/sys/sub/get" (Some "clientId") [plain "clientId"; plain "topic"; plain "qos"].

Definition listener_html : list_page :=
  mkListPage "/sys/listener/get" None
    [plain "protocol"; plain "addressAndPort"; plain "connMaxLimit"; plain "connCount"].

(** What stands below the table. *)
Record foot := mkFoot { foot_info : jsstr; foot_pager : list li }.

Record listing := mkListing {
  l_grid : tables;
  l_name : option jsstr;                    (* queryConnectClientId and the like *)
  l_foot : option foot;                     (* of the table in use *)
  l_sent : list (string * json);
  l_waiting : list (nat * Z);               (* table and draw of each query due *)
}.

Section List.
Context (c : list_page) (p : page).

Definition labels_of : labels := oLanguage (datatablesLanguage p).

Definition draw_foot (t : dtable) : foot := mkFoot (_fnUpdateInfo labels_of t) (pager labels_of t).

Definition list_params (name : option jsstr) (call : ajax_call) : json :=
  match search_key c with
  | Some key =>
      JObj [(js key, match name with Some a => JStr a | None => JNull end);
            (js "pageNum", JNum (call_start call / call_length call + 1));
            (js "pageSize", JNum (call_length call))]
  | None => JObj []
  end.

(** The [ajax] function of the table. *)
Definition list_ajax (call : ajax_call) (s : listing) : listing :=
  mkListing (l_grid s) (l_name s) (l_foot s)
    (l_sent s ++ [(list_url c, list_params (l_name s) call)])
    (l_waiting s ++ [(call_table call, call_draw call)]).

Definition with_grid (r : tables * option ajax_call) (s : listing) : listing :=
  let s := mkListing r.1 (l_name s) (l_foot s) (l_sent s) (l_waiting s) in
  match r.2 with Some call => list_ajax call s | None => s end.

Definition clear_foot (s : listing) : listing :=
  mkListing (l_grid s) (l_name s) None (l_sent s) (l_waiting s).

(** [queryConnectDataTable] and the like: a new table, with nothing below it. *)
Definition list_table (s : listing) : listing :=
  with_grid (newDataTable datatables_paging_len (l_grid s)) (clear_foot s).

(** The table in use: the last one made. *)
Definition in_use (s : listing) : option nat :=
  match instances (l_grid s) with [] => None | l => Some (length l - 1)%nat end.

(** The callback of a query.  Data that is taken is drawn; what is drawn below a
    table that was replaced is not in the page. *)
Definition list_callback (k : nat) (d : draw_data) (s : listing) : listing :=
  let w := _fnAjaxUpdateDraw k d (l_grid s) in
  let f := match instances (l_grid s) !! k, instances w !! k with
           | Some t, Some t' =>
               if out_of_sequence d t then l_foot s
               else if decide (in_use s = Some k) then Some (draw_foot t') else l_foot s
           | _, _ => l_foot s
           end in
  mkListing w (l_name s) f (l_sent s) (l_waiting s).

Definition on_list (k : nat) (draw : Z) (a : answer) (s : listing) : listing :=
  match a with
  | NoAnswer => list_callback k datatables_no_data s
  | Answered res =>
      if code_ok res then
        match res ≫= λ j, member j "result" with
        | None | Some JNull => s
        | Some result =>
            match rows_of_page result with
            | Some (total, items) => list_callback k (mkDrawData draw total total items) s
            | None => list_callback k datatables_no_data s
            end
        end
      else list_callback k datatables_no_data s
  end.

(** ** What can happen to the page *)
Inductive list_event :=
  | SearchFor (typed : jsstr)
  | ClickButton (i : nat)                 (* a button below the table *)
  | AnswerQuery (i : nat) (a : answer).   (* to the [i]th query that is due *)

Definition run_list (e : list_event) (s : listing) : listing :=
  match e with
  | SearchFor typed =>
      if search_key c is Some _
      then list_table (mkListing (l_grid s) (Some (clean_value typed)) (l_foot s) (l_sent s) (l_waiting s))
      else s
  | ClickButton i =>
      match in_use s, f ← l_foot s; foot_pager f !! i, search_key c with
      | Some k, Some b, Some _ => with_grid (click_li k b (l_grid s)) s
      | _, _, _ => s
      end
  | AnswerQuery i a =>
      match l_waiting s !! i with
      | Some (k, draw) =>
          on_list k draw a
            (mkListing (l_grid s) (l_name s) (l_foot s) (l_sent s) (delete i (l_waiting s)))
      | None => s
      end
  end.

Definition list_loaded : listing := list_table (mkListing no_tables None None [] []).

Definition run_listing (es : list list_event) : listing :=
  foldl (λ s e, run_list e s) list_loaded es.
End List.

(** ** console.html *)
Module ConsolePage.

(** The columns of the two tables of nodes. *)
Definition queryNodeColDefs : list column :=
  [mkColumn "nodeId" RenderInstance; plain "javaVersion"; plain "thread"; plain "cpu"; plain "heap";
   plain "offHeap"; plain "maxFileDescriptors"; mkColumn "status" RenderStatus].

Definition queryStatsColDefs : list column :=
  mkColumn "nodeId" RenderInstance
  :: map or_zero ["connCount"; "connMax"; "topicCount"; "topicMax"; "retainCount"; "retainMax";
                  "sessCount"; "sessMax"; "subCount"; "subMax"]%string.

(** The heads of the two tables; a message that is missing leaves its cell empty. *)
Definition table_html (id : string) (keys : list string) (p : page) : jsstr :=
  js "<table class=" ++ quoted "table table-bordered table-striped table-hover"
  ++ js " id=" ++ quoted id ++ js ">" ++ js "<thead><tr>"
  ++ concat (map (λ k, js "<th>" ++ default [] (msg p k) ++ js "</th>") keys)
  ++ js "</tr></thead>" ++ js "<tbody></tbody></table>".

Definition initNodeTable : page -> jsstr :=
  table_html "console-node-table"
    ["common_node"; "console_java_version"; "console_thread"; "console_cpu"; "console_heap";
     "console_off_heap"; "console_max_fds"; "console_status"].

Definition initStatsTable : page -> jsstr :=
  table_html "console-stats-table"
    ["common_node"; "console_stats_conn_count"; "console_stats_conn_max";
     "console_stats_topic_count"; "console_stats_topic_max"; "console_stats_retain_count";
     "console_stats_retain_max"; "console_stats_sess_count"; "console_stats_sess_max";
     "console_stats_sub_count"; "console_stats_sub_max"].

(** The cells of the three tables of counters, by their class. *)
Definition packet_cells : list string :=
  ["packetReceived"; "packetSent"; "packetConnect"; "packetConnack"; "packetDisconnect";
   "packetPingreq"; "packetPingresp"; "packetPublishReceived"; "packetPublishSent";
   "packetPubackReceived"; "packetPubackSent"; "packetPubackMissed"; "packetPubcompReceived";
   "packetPubcompSent"; "packetPubcompMissed"; "packetPubrecReceived"; "packetPubrecSent";
   "packetPubrecMissed"; "packetPubrelReceived"; "packetPubrelSent"; "packetPubrelMissed";
   "packetSubscribe"; "packetSuback"; "packetUnsubscribe"; "packetUnsuback"].

Definition message_cells : list string :=
  ["messageReceived"; "messageSent"; "messageDropped"; "messageRetained"; "messageQos0Received";
   "messageQos0Sent"; "messageQos1Received"; "messageQos1Sent"; "messageQos2Received";
   "messageQos2Sent"].

Definition byte_cells : list string := ["byteReceived"; "byteSent"].

Definition metric_cells : list string := packet_cells ++ message_cells ++ byte_cells.

(** The sums the page adds to the answer. *)
Definition packets_received : list string :=
  ["packetConnect"; "packetDisconnect"; "packetPingreq"; "packetPublishReceived";
   "packetPubackReceived"; "packetPubcompReceived"; "packetPubrecReceived"; "packetPubrelReceived";
   "packetSubscribe"; "packetUnsubscribe"].

Definition packets_sent : list string :=
  ["packetConnack"; "packetPingresp"; "packetPublishSent"; "packetPubackSent"; "packetPubcompSent";
   "packetPubrecSent"; "packetPubrelSent"; "packetSuback"; "packetUnsuback"].

Definition messages_received : list string :=
  ["messageQos0Received"; "messageQos1Received"; "messageQos2Received"].

Definition messages_sent : list string := ["messageQos0Sent"; "messageQos1Sent"; "messageQos2Sent"].

Definition sums : list (string * list string) :=
  [("packetReceived", packets_received); ("packetSent", packets_sent);
   ("messageReceived", messages_received); ("messageSent", messages_sent)].

(** A value of the language: [a + b] of what may be missing. *)
Inductive value := Undefined | NaN | Value (j : json).

Definition value_of (o : option json) : value := match o with Some j => Value j | None => Undefined end.

Definition as_text (v : value) : option jsstr :=
  match v with
  | Value (JStr s) => Some s
  | Value (JArr _ as j) | Value (JObj _ as j) => Some (json_str j)
  | _ => None
  end.

Definition as_number (v : value) : option Z :=
  match v with
  | Value (JNum n) => Some n
  | Value JNull | Value (JBool false) => Some 0
  | Value (JBool true) => Some 1
  | _ => None
  end.

Definition value_str (v : value) : jsstr :=
  match v with Undefined => js "undefined" | NaN => js "NaN" | Value j => json_str j end.

Definition plus (a b : value) : value :=
  match as_text a, as_text b with
  | None, None =>
      match as_number a, as_number b with
      | Some x, Some y => Value (JNum (x + y))
      | _, _ => NaN
      end
  | _, _ => Value (JStr (value_str a ++ value_str b))
  end.

Definition sum_of (result : json) (keys : list string) : value :=
  match map (λ k, value_of (member result k)) keys with
  | [] => Undefined
  | v :: vs => foldl plus v vs
  end.

(** The answer with the sums in it. *)
Definition metric (result : json) (key : string) : value :=
  match find (λ e, String.eqb e.1 key) sums with
  | Some e => sum_of result e.2
  | None => value_of (member result key)
  end.

(** [.text(v)]. *)
Definition text_value (v : value) (old : jsstr) : jsstr :=
  match v with Undefined => old | NaN => js "NaN" | Value j => put_text (Some j) old end.

Inductive console_request := InfoRequest | NodesRequest | MqttRequest.

#[export] Instance console_request_eq_dec : EqDecision console_request.
Proof. solve_decision. Defined.

Record console := mkConsole {
  sys_version : jsstr;
  sys_uptime : jsstr;
  sys_time : jsstr;
  node_count : jsstr;
  stats_count : jsstr;
  node_table : tables;
  stats_rows : list json;
  metric_texts : list (string * jsstr);
  due : list console_request;
}.

(** [drawBasicInfo]. *)
Definition on_info (a : answer) (s : console) : console :=
  match a with
  | Answered res =>
      match res ≫= λ j, member j "result" with
      | Some result =>
          if code_ok res && json_truthy (Some result)
          then mkConsole (put_text (member result "version") (sys_version s))
                 (put_text (member result "uptime") (sys_uptime s))
                 (put_text (member result "systime") (sys_time s))
                 (node_count s) (stats_count s) (node_table s) (stats_rows s) (metric_texts s) (due s)
          else s
      | None => s
      end
  | NoAnswer => s
  end.

(** The rows [drawStatsTable] is given; without a list there are those of the
    empty body. *)
Definition list_rows (items : option json) : list json :=
  match items with Some (JArr l) => l | _ => [] end.

Definition draw_nodes (total : option json) (d : draw_data) (items : option json) (s : console) : console :=
  mkConsole (sys_version s) (sys_uptime s) (sys_time s)
    (put_text total (node_count s)) (put_text total (stats_count s))
    (_fnAjaxUpdateDraw 0 d (node_table s)) (list_rows items) (metric_texts s) (due s).

(** [drawNodeDataTable]; the table draws once. *)
Definition on_nodes (draw : Z) (a : answer) (s : console) : console :=
  match a with
  | NoAnswer => draw_nodes (Some (JNum 0)) datatables_no_data (Some (JArr [])) s
  | Answered res =>
      if code_ok res then
        match res ≫= λ j, member j "result" with
        | None | Some JNull => s
        | Some result =>
            let d := match rows_of_page result with
                     | Some (total, items) => mkDrawData draw total total items
                     | None => datatables_no_data
                     end in
            draw_nodes (member result "total") d (member result "items") s
        end
      else draw_nodes (Some (JNum 0)) datatables_no_data None s
  end.

Definition set_metrics (f : string -> jsstr -> jsstr) (s : console) : console :=
  mkConsole (sys_version s) (sys_uptime s) (sys_time s) (node_count s) (stats_count s) (node_table s)
    (stats_rows s) (map (λ e, (e.1, f e.1 e.2)) (metric_texts s)) (due s).

(** [drawMetricsTables]. *)
Definition on_mqtt (a : answer) (s : console) : console :=
  match a with
  | Answered res =>
      match res ≫= λ j, member j "result" with
      | Some result =>
          if code_ok res && json_truthy (Some result)
          then set_metrics (λ key old, text_value (metric result key) old) s
          else set_metrics (λ _ _, js "0") s
      | None => set_metrics (λ _ _, js "0") s
      end
  | NoAnswer => s
  end.

Definition settle (r : console_request) (s : console) : console :=
  mkConsole (sys_version s) (sys_uptime s) (sys_time s) (node_count s) (stats_count s) (node_table s)
    (stats_rows s) (metric_texts s) (filter (.≠ r) (due s)).

(** An answer to one of the requests that are due. *)
Definition run_console (e : console_request * answer) (s : console) : console :=
  if decide (e.1 ∈ due s) then
    let s := settle e.1 s in
    match e.1 with
    | InfoRequest => on_info e.2 s
    | NodesRequest => on_nodes 1 e.2 s
    | MqttRequest => on_mqtt e.2 s
    end
  else s.

Definition console_loaded : console :=
  mkConsole [] [] [] [] (js "3") (fst (newDataTable datatables_paging_len no_tables)) []
    (map (λ k, (k, [])) metric_cells) [InfoRequest; NodesRequest; MqttRequest].
End ConsolePage.
