(* ===== verification/MonitorFacts.v ===== *)
(** * What the pages that show the state of the broker do

    Whatever is searched for and clicked, and in whatever order the server
    answers: the rows, the line below them and the buttons of a page belong
    together and to the last request; a query that fails leaves the page as it
    was; the totals of the console count every packet once. *)

From stdpp Require Import base tactics strings gmap numbers list.
From Stdlib Require Import ZArith Lia.
From S2P Require Import Prelude Json Locale Language Dates DataTable Console DataTableFacts Pager Monitor.
Import Common.
Local Open Scope Z_scope.

(** ** The tables *)

(** A table as it is made and drawn for the first time. *)
Lemma new_table_eq w : grid_ok w ->
  let k := length (instances w) in
  newDataTable datatables_paging_len w
  = (put k (set_asked (fresh_table datatables_paging_len)) (added w),
     Some (mkCall k 1 0 datatables_paging_len))
  /\ length (instances (added w)) = S k.
Proof.
  intros Hw k.
  assert (length (instances (added w)) = S k) as Hl.
  { unfold added, fnDestroy. cbn. rewrite length_app. case_match; cbn; rewrite ?length_insert; unfold k; lia. }
  assert (instances (added w) !! k = Some (fresh_table datatables_paging_len)) as Hk.
  { unfold added. cbn. apply list_lookup_middle. unfold fnDestroy. case_match; [|done].
    cbn. by rewrite length_insert. }
  split; [|done]. change (newDataTable datatables_paging_len w) with (_fnReDraw k false (added w)).
  unfold _fnReDraw. rewrite Hk. unfold _fnDraw. cbn [instances put]. rewrite list_lookup_insert_eq by lia.
  cbn. unfold put. cbn. by rewrite list_insert_insert_eq.
Qed.

(** A click below a table in use changes nothing, or asks for some page of it. *)
Lemma click_page_eq k t action w : grid_ok w -> instances w !! k = Some t -> bDestroying t = false ->
  click_page k action w = (w, None)
  \/ click_page k action w
     = (put k (set_asked (set_start (page_start action t) t)) w,
        Some (mkCall k (iDraw t + 1) (page_start action t) (iDisplayLength t))).
Proof.
  intros Hw Hk Hd. pose proof (lookup_lt_Some _ _ _ Hk) as Hl.
  pose proof (may_ask w (g_tables w Hw) k t Hk) as Ha. unfold click_page. rewrite Hk.
  case_match; [by left|right]. unfold fnPageChange. rewrite Hk, andb_false_r. cbn [fst]. unfold _fnDraw.
  cbn [put instances]. rewrite list_lookup_insert_eq by done. cbn [bDestroying set_start bAjaxDataGet].
  rewrite Ha, Hd. cbn [negb andb]. unfold put. cbn [instances body_rows next_node].
  by rewrite list_insert_insert_eq.
Qed.

Lemma page_start_nonneg action t : 0 <= iDisplayStart t -> 0 < iDisplayLength t -> 0 <= iRecordsDisplay t ->
  match action with PageNumber n => 0 <= n | _ => True end -> 0 <= page_start action t.
Proof.
  intros Hs Hl Hr Ha. unfold page_start. destruct (Z.eqb_spec (iRecordsDisplay t) 0); [done|].
  destruct (Z.eqb_spec (iDisplayLength t) (-1)); [done|]. cbn [orb].
  destruct action; repeat case_match; try lia; try nia.
  pose proof (Z.div_pos (iRecordsDisplay t - 1) (iDisplayLength t) ltac:(lia) ltac:(lia)). nia.
Qed.

Lemma numbers_nonneg page pages n : 0 <= page -> BPage n ∈ _numbers page pages -> 0 <= n.
Proof.
  intros Hp. unfold _numbers. change (numbers_length / 2) with 3. change (numbers_length - 2) with 5.
  unfold numbers_length.
  assert (forall a b, BPage n ∈ _range a b -> a <= n) as Hr by (intros a b H%range_elem; lia).
  destruct (Z.leb_spec pages 7); [by intros ?%Hr|]. destruct (Z.leb_spec page 3).
  { intros [?%Hr|[|[[= ->]|?%elem_of_nil]%elem_of_cons]%elem_of_cons]%elem_of_app; try done; lia. }
  destruct (Z.geb_spec page (pages - 1 - 3)).
  { intros [[= ->]|[|?%Hr]%elem_of_cons]%elem_of_cons; try done; lia. }
  intros [[= ->]|[|[?%Hr|[|[[= ->]|?%elem_of_nil]%elem_of_cons]%elem_of_cons]%elem_of_app]%elem_of_cons]%elem_of_cons;
    try done; lia.
Qed.

Lemma pager_nonneg lang t b n : 0 <= iDisplayStart t -> 0 < iDisplayLength t -> b ∈ pager lang t ->
  li_button b = BPage n -> 0 <= n.
Proof.
  intros Hs Hl Hb Hn. apply pager_button in Hb as [Hb _]. rewrite Hn in Hb.
  apply (numbers_nonneg (drawn_page t) (drawn_pages t)); [|unfold full_numbers in Hb; set_solver].
  unfold drawn_page, ceil_div. case_match; [done|]. Z.div_mod_to_equations. nia.
Qed.

(** ** Every state a list page can reach *)
Section Lists.
Context (c : list_page) (p : page).

(** The server counts its rows. *)
Definition counted (a : answer) : Prop :=
  forall res result total items, a = Answered res -> res ≫= (λ j, member j "result") = Some result ->
  rows_of_page result = Some (total, items) -> 0 <= total.

Definition event_ok (e : list_event) : Prop :=
  match e with AnswerQuery _ a => counted a | _ => True end.

(** The query for what the table in use shows or waits for. *)
Definition query_of (name : option jsstr) (k : nat) (t : dtable) : string * json :=
  (list_url c, list_params c name (mkCall k (iDraw t) (iDisplayStart t) (iDisplayLength t))).

Record list_ok (s : listing) : Prop := {
  lo_grid : grid_ok (l_grid s);
  lo_start : forall k t, instances (l_grid s) !! k = Some t ->
    0 <= iDisplayStart t /\ 0 <= iRecordsDisplay t;
  lo_waits : forall k draw, (k, draw) ∈ l_waiting s ->
    exists t, instances (l_grid s) !! k = Some t /\ 0 < draw <= iDraw t;
  lo_last : exists k t, in_use s = Some k /\ instances (l_grid s) !! k = Some t /\ 0 < iDraw t
    /\ last (l_sent s) = Some (query_of (l_name s) k t);
  lo_foot : forall f b n, l_foot s = Some f -> b ∈ foot_pager f -> li_button b = BPage n -> 0 <= n;
}.

Lemma in_use_spec s k : in_use s = Some k <-> length (instances (l_grid s)) = S k.
Proof.
  unfold in_use. destruct (instances (l_grid s)) as [|t l]; cbn; [done|].
  split; [intros [= <-]; lia|intros [= ->]; f_equal; lia].
Qed.

Lemma in_use_current s k t : grid_ok (l_grid s) -> in_use s = Some k -> instances (l_grid s) !! k = Some t ->
  bDestroying t = false.
Proof.
  intros H Hk%in_use_spec Ht. rewrite (g_last _ H k t Ht), Hk. by rewrite Nat.sub_succ, Nat.sub_0_r, Nat.eqb_refl.
Qed.

(** A table put in the place of another. *)
Lemma starts_put w k t t' : (forall j u, instances w !! j = Some u -> 0 <= iDisplayStart u /\ 0 <= iRecordsDisplay u) ->
  instances w !! k = Some t -> 0 <= iDisplayStart t' -> 0 <= iRecordsDisplay t' ->
  forall j u, instances (put k t' w) !! j = Some u -> 0 <= iDisplayStart u /\ 0 <= iRecordsDisplay u.
Proof.
  intros H Hk H1 H2 j u. cbn. rewrite list_lookup_insert_Some. intros [(_ & <- & _)|[_ Hj]]; [done|by apply (H j)].
Qed.

Lemma added_starts w : (forall j u, instances w !! j = Some u -> 0 <= iDisplayStart u /\ 0 <= iRecordsDisplay u) ->
  forall j u, instances (added w) !! j = Some u -> 0 <= iDisplayStart u /\ 0 <= iRecordsDisplay u.
Proof.
  intros H j u. unfold added, fnDestroy. cbn.
  intros [Hj|[_ [_ <-]%list_lookup_singleton_Some]]%lookup_app_Some; [|done].
  destruct (instances w !! _) as [t|] eqn:E; [|by apply (H j)]. cbn in Hj.
  apply list_lookup_insert_Some in Hj as [(_ & <- & _)|[_ Hj]]; [|by apply (H j)]. by apply (H _ t E).
Qed.

Lemma with_grid_call w call s :
  with_grid c (w, Some call) s
  = mkListing w (l_name s) (l_foot s) (l_sent s ++ [(list_url c, list_params c (l_name s) call)])
      (l_waiting s ++ [(call_table call, call_draw call)]).
Proof. done. Qed.

(** A new table. *)
Lemma list_table_ok s : grid_ok (l_grid s) ->
  (forall k t, instances (l_grid s) !! k = Some t -> 0 <= iDisplayStart t /\ 0 <= iRecordsDisplay t) ->
  (forall k draw, (k, draw) ∈ l_waiting s ->
    exists t, instances (l_grid s) !! k = Some t /\ 0 < draw <= iDraw t) ->
  list_ok (list_table c s).
Proof.
  intros Hg Hs Hw. destruct (new_table_eq (l_grid s) Hg) as [E Hl].
  set (k := length (instances (l_grid s))) in *. set (t' := set_asked _) in E.
  pose proof (grid_new (l_grid s) Hg) as Hg'. rewrite E in Hg'. cbn [fst] in Hg'.
  assert (instances (put k t' (added (l_grid s))) !! k = Some t') as Ht'.
  { apply list_lookup_insert_eq. lia. }
  unfold list_table. rewrite E, with_grid_call. split; cbn [l_grid l_name l_foot l_sent l_waiting clear_foot].
  - done.
  - intros j u. cbn. rewrite list_lookup_insert_Some.
    intros [(_ & <- & _)|[_ Hj]]; [done|]. by apply (added_starts (l_grid s) Hs j).
  - intros j draw [Hin|[= -> ->]%list_elem_of_singleton]%elem_of_app; [|exists t'; split; [exact Ht'|done]].
    destruct (Hw j draw Hin) as (t & Ht & Hd). destruct (new_le (l_grid s) Hg) as [Hle _].
    rewrite E in Hle. destruct (Hle j t Ht) as (u & Hu & ?). exists u. split; [done|lia].
  - exists k, t'. split; [|split; [done|split; [done|by rewrite last_snoc]]].
    apply in_use_spec. cbn. by rewrite length_insert.
  - done.
Qed.

(** A click on a button below the table. *)
Lemma list_click_ok i s : list_ok s -> list_ok (run_list c p (ClickButton i) s).
Proof.
  intros H. pose proof H as [H1 H2 H3 (k & t & Hk & Ht & Hd & Hlast) H5]. cbn [run_list]. rewrite Hk.
  destruct (l_foot s) as [f|] eqn:Ef; [|exact H]. cbn [mbind option_bind].
  destruct (foot_pager f !! i) as [b|] eqn:Eb; [|exact H].
  destruct (search_key c) as [key|] eqn:Ec; [|exact H].
  apply list_elem_of_lookup_2 in Eb.
  assert (with_grid c (l_grid s, None) s = s) as Esame by by destruct s.
  unfold click_li. destruct (li_disabled b); [by rewrite Esame|].
  destruct (action_of (li_button b)) as [action|] eqn:Ea; [|by rewrite Esame].
  destruct (click_page_eq k t action (l_grid s) H1 Ht (in_use_current s k t H1 Hk Ht)) as [->| E];
    [by rewrite Esame|].
  destruct (g_pages _ H1 k t Ht) as [Hlen _]. destruct (H2 k t Ht) as [Hs Hr].
  set (start := page_start action t) in *. assert (0 <= start) as Hst.
  { apply page_start_nonneg; [done|by rewrite Hlen|done|]. destruct action as [m| | | |]; try done.
    destruct (li_button b) as [| | | | |m'] eqn:El; try done. injection Ea as <-. by apply (H5 f b m'). }
  pose proof (grid_click k action (l_grid s) H1) as Hg. destruct (click_le k action (l_grid s) H1) as [Hle _].
  rewrite E in Hg, Hle |- *. cbn [fst] in *. set (t' := set_asked (set_start start t)) in *.
  assert (instances (put k t' (l_grid s)) !! k = Some t') as Ht'
    by (apply list_lookup_insert_eq; by apply lookup_lt_Some in Ht).
  rewrite with_grid_call. split; cbn [l_grid l_name l_foot l_sent l_waiting].
  - done.
  - by apply (starts_put _ k t).
  - intros j draw [Hin|[= -> ->]%list_elem_of_singleton]%elem_of_app.
    + destruct (H3 j draw Hin) as (u & Hu & ?). destruct (Hle j u Hu) as (u' & ? & ?).
      exists u'. split; [done|lia].
    + exists t'. split; [done|]. cbn. lia.
  - exists k, t'. split_and!; [|done|cbn; lia|by rewrite last_snoc].
    apply in_use_spec in Hk. apply in_use_spec. cbn. by rewrite length_insert.
  - rewrite Ef. exact H5.
Qed.

Lemma callback_eq k d s t : instances (l_grid s) !! k = Some t ->
  list_callback p k d s
  = if out_of_sequence d t then s
    else mkListing (_fnAjaxUpdateDraw k d (l_grid s)) (l_name s)
           (if decide (in_use s = Some k) then Some (draw_foot p (filled d (next_node (l_grid s)) t)) else l_foot s)
           (l_sent s) (l_waiting s).
Proof.
  intros Ht. unfold list_callback. rewrite Ht, (update_draw_eq k d t _ Ht).
  destruct (out_of_sequence d t); [by rewrite Ht; destruct s|]. cbn [instances].
  by rewrite list_lookup_insert_eq by by apply lookup_lt_Some in Ht.
Qed.

(** Data that is not dropped belongs to the last draw. *)
Lemma in_sequence d t : 0 < dd_draw d <= iDraw t -> out_of_sequence d t = false -> dd_draw d = iDraw t.
Proof.
  intros Hd. unfold out_of_sequence. rewrite (proj2 (Z.eqb_neq _ _)) by lia. cbn.
  intros H%Z.ltb_ge. lia.
Qed.

Lemma callback_ok k d s t : list_ok s -> instances (l_grid s) !! k = Some t -> 0 < dd_draw d <= iDraw t ->
  0 <= recordsFiltered d -> list_ok (list_callback p k d s).
Proof.
  intros H Ht Hd Hr. rewrite (callback_eq k d s t Ht). destruct (out_of_sequence d t) eqn:Ho; [done|].
  pose proof H as [H1 H2 H3 (k0 & t0 & Hk & Ht0 & Hd0 & Hlast) H5].
  pose proof (in_sequence d t Hd Ho) as Ed. destruct (H2 k t Ht) as [Hs _].
  pose proof (grid_update k d _ H1) as Hg. pose proof (update_le k d (l_grid s)) as Hle.
  pose proof (update_length k d (l_grid s)) as Hl.
  set (t' := filled d (next_node (l_grid s)) t).
  assert (instances (_fnAjaxUpdateDraw k d (l_grid s)) = <[k := t']> (instances (l_grid s))) as Ei
    by (by rewrite (update_draw_eq k d t _ Ht), Ho).
  assert (iDraw t' = iDraw t) as Edraw.
  { cbn. rewrite (proj2 (Z.eqb_neq _ _)) by lia. done. }
  split; cbn [l_grid l_name l_foot l_sent l_waiting].
  - done.
  - intros j u. rewrite Ei, list_lookup_insert_Some. intros [(_ & <- & _)|[_ Hj]]; [done|by apply (H2 j)].
  - intros j draw Hin. destruct (H3 j draw Hin) as (u & Hu & ?). destruct (Hle j u Hu) as (u' & ? & ?).
    exists u'. split; [done|lia].
  - assert (in_use (mkListing (_fnAjaxUpdateDraw k d (l_grid s)) (l_name s)
      (if decide (in_use s = Some k) then Some (draw_foot p t') else l_foot s) (l_sent s) (l_waiting s)) = Some k0) as Hk'
      by (apply in_use_spec; cbn [l_grid]; rewrite Hl; by apply in_use_spec).
    destruct (decide (k = k0)) as [->|Hne].
    + exists k0, t'. rewrite Ht in Ht0. injection Ht0 as <-. split_and!; [done| |by rewrite Edraw|].
      * rewrite Ei. apply list_lookup_insert_eq. by apply lookup_lt_Some in Ht.
      * rewrite Hlast. unfold query_of. by rewrite Edraw.
    + exists k0, t0. split_and!; try done. by rewrite Ei, list_lookup_insert_ne.
  - intros f b n Hf Hb Hn. destruct (decide (in_use s = Some k)); [|by apply (H5 f b n)].
    injection Hf as <-. destruct (g_pages _ H1 k t Ht) as [Hlen _].
    apply (pager_nonneg (labels_of p) t' b n); [done|cbn; by rewrite Hlen|done|done].
Qed.

Lemma list_answer_ok k draw a s t : list_ok s -> counted a -> instances (l_grid s) !! k = Some t ->
  0 < draw <= iDraw t -> list_ok (on_list p k draw a s).
Proof.
  intros H Hc Ht Hd.
  assert (list_ok (list_callback p k datatables_no_data s)) as Hno
    by (apply (callback_ok k _ s t); [done|done|cbn; lia|done]).
  unfold on_list. destruct a as [res|]; [|exact Hno].
  destruct (code_ok res); [|exact Hno].
  destruct (res ≫= λ j, member j "result") as [result|] eqn:Er; [|exact H].
  assert (list_ok match rows_of_page result with
                  | Some (total, items) => list_callback p k (mkDrawData draw total total items) s
                  | None => list_callback p k datatables_no_data s
                  end) as Hrows.
  { destruct (rows_of_page result) as [[total items]|] eqn:Ep; [|exact Hno].
    apply (callback_ok k _ s t); [done|done|done|]. cbn. by apply (Hc res result total items). }
  destruct result; first [exact H|exact Hrows].
Qed.

Lemma run_list_ok e s : event_ok e -> list_ok s -> list_ok (run_list c p e s).
Proof.
  intros He H. destruct e as [typed|i|i a].
  - cbn [run_list]. destruct (search_key c); [|done]. apply list_table_ok; apply H.
  - by apply list_click_ok.
  - cbn [run_list]. destruct (l_waiting s !! i) as [[k draw]|] eqn:Ew; [|done].
    destruct (lo_waits s H k draw (list_elem_of_lookup_2 _ _ _ Ew)) as (t & Ht & Hd).
    set (s0 := mkListing _ _ _ _ _). assert (list_ok s0) as H0.
    { destruct H as [H1 H2 H3 H4 H5]. split; try done. intros j u Hin. apply H3. by apply (elem_delete i). }
    by apply (list_answer_ok k draw a s0 t).
Qed.

Lemma list_loaded_ok : list_ok (list_loaded c).
Proof.
  apply list_table_ok; cbn; [split; [exact no_tables_ok|by intros..]|by intros|].
  by intros k draw ?%elem_of_nil.
Qed.

Lemma run_listing_ok es : Forall event_ok es -> list_ok (run_listing c p es).
Proof.
  intros H. unfold run_listing. pose proof list_loaded_ok as Hs. revert Hs. generalize (list_loaded c).
  induction H as [|e es He Hes IH]; intros s Hs; [done|]. cbn. by apply IH, run_list_ok.
Qed.
End Lists.

(** ** What a page shows *)

(** The page in a language of the console. *)
Definition page_in (l : language) : page := mkPage [] (list_to_map (messages l)) None.

Lemma rows_callback c p i k draw res result total items s :
  l_waiting s !! i = Some (k, draw) -> code_ok res = true ->
  res ≫= (λ j, member j "result") = Some result -> rows_of_page result = Some (total, items) ->
  run_list c p (AnswerQuery i (Answered res)) s
  = list_callback p k (mkDrawData draw total total items)
      (mkListing (l_grid s) (l_name s) (l_foot s) (l_sent s) (delete i (l_waiting s))).
Proof.
  intros Hw Hc Hr Hrows. cbn [run_list]. rewrite Hw. unfold on_list. rewrite Hc, Hr.
  destruct result; first [done|by rewrite Hrows].
Qed.

(** What stands below the rows of a page. *)
Lemma foot_shown l t n : iDisplayStart t = 10 * n -> 0 <= n -> iDisplayLength t = 10 ->
  10 * n < iRecordsDisplay t -> iRecordsTotal t = iRecordsDisplay t ->
  let number := fnFormatNumber (js ",") in
  let f := draw_foot (page_in l) t in
  foot_info f = info_text l (number (10 * n + 1)) (number (Z.min (10 * n + 10) (iRecordsDisplay t)))
                  (number (iRecordsDisplay t))
  /\ exists b, b ∈ foot_pager f /\ li_button b = BPage n /\ li_active b = true.
Proof.
  intros Hs Hn Hl Hr Ht number f. split.
  - change (foot_info f) with (_fnUpdateInfo (console_labels l) t).
    rewrite update_info by lia. by rewrite Hs, Hl.
  - destruct (page_arith t) as (q & Eq & Ep & _ & Hp & _);
      [done|exists n; rewrite Hs; unfold datatables_paging_len; lia|lia|].
    assert (q = n) as -> by lia. destruct (active_shown (labels_of (page_in l)) t) as (b & Hb & Ex & Ha).
    + by rewrite Ep.
    + exists b. split; [exact Hb|]. by rewrite Ex, Ep.
Qed.

(** C32: a page of the state of the broker shows the answer with rows to its last
    query, and says rightly what it shows.  Whatever was searched for and clicked
    and in whatever order the server answered, with numbers of rows that are not
    negative: an answer with rows to an earlier query of the table in use changes
    no row and nothing below the rows; an answer with rows to its last query, which
    asked for the name searched for last and the page of ten rows that begins at
    the table's start, puts exactly its rows into the page, and, if this page
    begins before the end of all rows, the numbers of the first and the last row
    and of all rows below them, and buttons with this page marked.  (An answer without rows is dropped or keeps
    the page: [failed_query_keeps_page], [search_without_result].) *)
Theorem listing_shows_answer c l es i k draw res result total items :
  Forall event_ok es ->
  let s := run_listing c (page_in l) es in
  l_waiting s !! i = Some (k, draw) -> in_use s = Some k ->
  code_ok res = true -> res ≫= (λ j, member j "result") = Some result ->
  rows_of_page result = Some (total, items) ->
  let s' := run_list c (page_in l) (AnswerQuery i (Answered res)) s in
  exists t, instances (l_grid s) !! k = Some t /\ 0 < draw <= iDraw t
  /\ (draw < iDraw t -> l_grid s' = l_grid s /\ l_foot s' = l_foot s)
  /\ (draw = iDraw t ->
      let n := iDisplayStart t / 10 in
      let number := fnFormatNumber (js ",") in
      iDisplayStart t = 10 * n /\ 0 <= n
      /\ last (l_sent s) = Some (list_url c, list_params c (l_name s) (mkCall k draw (10 * n) 10))
      /\ aData <$> body_rows (l_grid s') = items
      /\ (10 * n < total -> exists f, l_foot s' = Some f
          /\ foot_info f = info_text l (number (10 * n + 1)) (number (Z.min (10 * n + 10) total)) (number total)
          /\ exists b, b ∈ foot_pager f /\ li_button b = BPage n /\ li_active b = true)).
Proof.
  intros Hes s Hw Hu Hc Hr Hrows s'.
  pose proof (run_listing_ok c (page_in l) es Hes) as Hok. fold s in Hok.
  destruct (lo_waits _ s Hok k draw (list_elem_of_lookup_2 _ _ _ Hw)) as (t & Ht & Hd).
  exists t. split; [done|]. split; [done|].
  set (d := mkDrawData draw total total items).
  assert (s' = list_callback (page_in l) k d
      (mkListing (l_grid s) (l_name s) (l_foot s) (l_sent s) (delete i (l_waiting s)))) as Es
    by (by apply (rows_callback c (page_in l) i k draw res result total items s)).
  rewrite (callback_eq _ k d _ t) in Es by done. rewrite Es. split.
  - intros Hlt. unfold out_of_sequence, d. cbn [dd_draw].
    by rewrite (proj2 (Z.eqb_neq _ _)), (proj2 (Z.ltb_lt _ _)) by lia.
  - intros ->. destruct (g_pages _ (lo_grid _ s Hok) k t Ht) as [Hlen [n Hn]].
    destruct (lo_start _ s Hok k t Ht) as [Hs _]. unfold datatables_paging_len in *.
    assert (iDisplayStart t / 10 = n) as -> by (rewrite Hn; by apply Z.div_mul).
    destruct (lo_last _ s Hok) as (k' & t' & Hk' & Ht' & _ & Hlast).
    rewrite Hu in Hk'. injection Hk' as <-. rewrite Ht in Ht'. injection Ht' as <-.
    assert (out_of_sequence d t = false) as Hseq.
    { unfold out_of_sequence, d. cbn [dd_draw]. rewrite Z.ltb_irrefl. apply andb_false_r. }
    rewrite Hseq in *. split_and!; [lia|lia| | |].
    + rewrite Hlast. unfold query_of. by rewrite Hlen, Hn, (Z.mul_comm n).
    + cbn [l_grid]. rewrite (update_draw_eq k d t _ Ht), Hseq. cbn [body_rows]. apply add_data_data.
    + intros Htot. cbn [l_foot]. rewrite decide_True by done. eexists. split; [done|].
      apply (foot_shown l (filled d (next_node (l_grid s)) t) n); [|lia|done|done|done].
      change (iDisplayStart t = 10 * n). lia.
Qed.

Definition rows_answer (total : Z) (items : list json) : json :=
  JObj [(js "code", JNum 1);
        (js "result", JObj [(js "total", JNum total); (js "items", JArr items)])].

Definition client_row (name : string) : json := JObj [(js "clientId", JStr (js name)); (js "port", JNum 1883)].

(** Twenty-five connections, and a click on the second page. *)
Definition second_page : list list_event :=
  [AnswerQuery 0 (Answered (Some (rows_answer 25 [client_row "a"]))); ClickButton 3].

Lemma counted_rows total items : 0 <= total -> counted (Answered (Some (rows_answer total items))).
Proof.
  intros Ht res result tot its [= <-] Hr Hrows.
  assert (result = JObj [(js "total", JNum total); (js "items", JArr items)]) as ->
    by (revert Hr; by intros [= <-]).
  change ((if total =? 0 then None else Some (total, items)) = Some (tot, its)) in Hrows.
  destruct (total =? 0); [done|]. by injection Hrows as <- <-.
Qed.

Lemma listing_shows_answer_witness :
  let s := run_listing connect_html (page_in En) second_page in
  let s' := run_list connect_html (page_in En) (AnswerQuery 0 (Answered (Some (rows_answer 25 [client_row "b"])))) s in
  last (l_sent s) = Some ("/sys/connect/get",
    JObj [(js "clientId", JNull); (js "pageNum", JNum 2); (js "pageSize", JNum 10)])
  /\ aData <$> body_rows (l_grid s') = [client_row "b"]
  /\ foot_info <$> l_foot s' = Some (js "Showing 11 to 20 of 25 entries").
Proof.
  intros s s'.
  destruct (listing_shows_answer connect_html En second_page 0 0 2 (Some (rows_answer 25 [client_row "b"]))
    (JObj [(js "total", JNum 25); (js "items", JArr [client_row "b"])]) 25 [client_row "b"])
    as (t & Ht & _ & _ & H).
  - repeat constructor. cbn. by apply counted_rows.
  - vm_compute. reflexivity.
  - vm_compute. reflexivity.
  - vm_compute. reflexivity.
  - reflexivity.
  - reflexivity.
  - assert (iDraw t = 2 /\ iDisplayStart t = 10) as [Ed Es].
    { apply (f_equal (fmap (λ t, (iDraw t, iDisplayStart t)))) in Ht.
      assert ((λ t, (iDraw t, iDisplayStart t)) <$> instances (l_grid (run_listing connect_html (page_in En) second_page)) !! 0%nat
              = Some (2, 10)) as E by (vm_compute; reflexivity).
      rewrite Ht in E. injection E as E1 E2. split; [exact E1|exact E2]. }
    rewrite Ed, Es in H. destruct (H eq_refl) as (_ & _ & H3 & H4 & H5).
    destruct (H5 ltac:(vm_compute; reflexivity)) as (f & Ef & Hf & _).
    split; [exact H3|]. split; [exact H4|]. unfold s', s. rewrite Ef. cbn [fmap option_fmap option_map].
    rewrite Hf. vm_compute. reflexivity.
Defined.

(** ** A query that fails *)

(** An answer the page takes for an empty list. *)
Definition no_rows (a : answer) : Prop :=
  match a with
  | NoAnswer => True
  | Answered res =>
      code_ok res = false
      \/ exists r, res ≫= (λ j, member j "result") = Some r /\ r <> JNull /\ rows_of_page r = None
  end.

(** Once a table has asked twice, a query that fails, or finds nothing, changes
    nothing: the rows and the line of the page before stay, and the table goes on
    showing that it waits. *)
Lemma failed_query_keeps_page l k draw a s t : no_rows a -> instances (l_grid s) !! k = Some t ->
  1 < iDraw t -> on_list (page_in l) k draw a s = s.
Proof.
  intros Ha Hk Ht.
  assert (list_callback (page_in l) k datatables_no_data s = s) as Hno.
  { rewrite (callback_eq _ k _ s t Hk). unfold out_of_sequence. cbn [dd_draw datatables_no_data].
    by rewrite (proj2 (Z.ltb_lt 1 (iDraw t)) Ht). }
  unfold on_list. destruct a as [res|]; [|done].
  destruct Ha as [Hc|(r & Hr & Hn & Hrows)]; [by rewrite Hc|]. destruct (code_ok res); [|done].
  rewrite Hr. destruct r; first [done|by rewrite Hrows].
Qed.

Example search_without_result :
  let s := run_listing connect_html (page_in En)
             [AnswerQuery 0 (Answered (Some (rows_answer 25 [client_row "a"]))); ClickButton 3;
              AnswerQuery 0 (Answered (Some (rows_answer 0 [])))] in
  aData <$> body_rows (l_grid s) = [client_row "a"]
  /\ foot_info <$> l_foot s = Some (js "Showing 1 to 10 of 25 entries")
  /\ (processing_shown <$> instances (l_grid s) !! 0%nat) = Some true.
Proof. vm_compute. by split_and!. Qed.

(** A list that became shorter than the page that is shown: the first row is after
    the last, and no button is marked. *)
Example page_beyond_the_end :
  let s := run_listing connect_html (page_in En)
             (second_page ++ [AnswerQuery 0 (Answered (Some (rows_answer 7 [])))]) in
  (foot_info <$> l_foot s) = Some (js "Showing 11 to 7 of 7 entries")
  /\ (forallb (λ b, negb (li_active b)) ∘ foot_pager <$> l_foot s) = Some true.
Proof. vm_compute. by split. Qed.

(** ** The cells *)
Example connect_cells local_time odd_time now :
  row_cells local_time odd_time now (columns connect_html) (client_row "a")
  = [js "a"; []; []; js "1883"; []; []; []; odd_time None].
Proof. reflexivity. Qed.

(** ** The counters of the console *)
Import ConsolePage.

(** The tables of nodes have a head for each of their columns, in both languages. *)
Example heads_for_columns :
  forallb (λ l, forallb (λ k, bool_decide (is_Some (msg (page_in l) k)))
    ["common_node"; "console_java_version"; "console_thread"; "console_cpu"; "console_heap";
     "console_off_heap"; "console_max_fds"; "console_status"; "console_stats_conn_count";
     "console_stats_conn_max"; "console_stats_topic_count"; "console_stats_topic_max";
     "console_stats_retain_count"; "console_stats_retain_max"; "console_stats_sess_count";
     "console_stats_sess_max"; "console_stats_sub_count"; "console_stats_sub_max"]%string) [En; Zh] = true.
Proof. vm_compute. reflexivity. Qed.

Definition counters_ok (result : json) (v : string -> Z) : Prop :=
  (exists ps, result = JObj ps)
  /\ forall k, k ∈ metric_cells -> find (λ e, String.eqb e.1 k) sums = None ->
     member result k = Some (JNum (v k)).

Definition total (v : string -> Z) (keys : list string) : Z := foldr Z.add 0 (map v keys).

Lemma plus_numbers v l x : (forall k, k ∈ l -> True) ->
  foldl plus (Value (JNum x)) (map (λ k, Value (JNum (v k))) l) = Value (JNum (x + total v l)).
Proof.
  intros _. revert x. induction l as [|k l IH]; intros x; cbn; [by rewrite Z.add_0_r|].
  rewrite IH. unfold total. cbn. do 2 f_equal. lia.
Qed.

Lemma sum_numbers result v keys : keys <> [] -> (forall k, k ∈ keys -> member result k = Some (JNum (v k))) ->
  sum_of result keys = Value (JNum (total v keys)).
Proof.
  intros Hne Hk. unfold sum_of.
  assert (map (λ k, value_of (member result k)) keys = map (λ k, Value (JNum (v k))) keys) as ->.
  { apply map_ext_in. intros k Hin. by rewrite Hk by by apply list_elem_of_In. }
  destruct keys as [|k keys]; [done|]. cbn. by rewrite plus_numbers.
Qed.

(** What a cell is meant to show. *)
Definition count (v : string -> Z) (key : string) : Z :=
  match find (λ e, String.eqb e.1 key) sums with Some e => total v e.2 | None => v key end.

Lemma sums_counted : forallb (λ e, forallb (λ k, bool_decide (k ∈ metric_cells)
    && match find (λ e, String.eqb e.1 k) sums with None => true | Some _ => false end) e.2
    && negb (Nat.eqb (length e.2) 0)) sums = true.
Proof. vm_compute. reflexivity. Qed.

Lemma metric_count result v key : counters_ok result v -> key ∈ metric_cells ->
  metric result key = Value (JNum (count v key)).
Proof.
  intros [_ Hv] Hk. unfold metric, count. destruct (find _ sums) as [e|] eqn:E; [|by rewrite Hv].
  apply find_some in E as [He _]. pose proof sums_counted as Hs. rewrite forallb_forall in Hs.
  specialize (Hs e He). apply andb_true_iff in Hs as [Hs Hne]. apply sum_numbers.
  - intros En. by rewrite En in Hne.
  - intros k Hin. rewrite forallb_forall in Hs. apply list_elem_of_In in Hin. specialize (Hs k Hin).
    apply andb_true_iff in Hs as [H1 H2]. apply bool_decide_eq_true in H1. apply Hv; [done|].
    by destruct (find _ sums).
Qed.

Lemma total_app v l l' : total v (l ++ l') = total v l + total v l'.
Proof. unfold total. induction l as [|k l IH]; cbn; [done|]. rewrite IH. lia. Qed.

Lemma total_perm v l l' : l ≡ₚ l' -> total v l = total v l'.
Proof. unfold total. induction 1; cbn; lia. Qed.

Definition packets_missed : list string :=
  ["packetPubackMissed"; "packetPubcompMissed"; "packetPubrecMissed"; "packetPubrelMissed"].

(** The counters of the console.  When the server answers with its counters
    every cell shows its own; the first two cells of the packets show the sums of
    the kinds of packets received and sent, and together with the packets that
    were missed they count every kind that is listed below them once; so do the
    cells of the messages for the three qualities of service. *)
Theorem counters_shown v res result s :
  code_ok res = true -> res ≫= (λ j, member j "result") = Some result -> counters_ok result v ->
  fst <$> metric_texts s = metric_cells ->
  metric_texts (on_mqtt (Answered res) s) = (λ k, (k, dec (count v k))) <$> metric_cells
  /\ count v "packetReceived" + count v "packetSent" + total v packets_missed = total v (drop 2 packet_cells)
  /\ count v "messageReceived" + count v "messageSent" = total v (drop 4 message_cells).
Proof.
  intros Hc Hr Hv Hk. split; [|split].
  - unfold on_mqtt. rewrite Hr, Hc. destruct Hv as [[ps E] Hv']. assert (counters_ok result v) as Hv
      by (split; [by exists ps|done]). rewrite E at 1. cbn [json_truthy andb set_metrics metric_texts].
    rewrite <- Hk. rewrite <- list_fmap_compose. apply map_ext_in. intros [k old] Hin. cbn. f_equal.
    rewrite metric_count with (v := v); [done|done|]. rewrite <- Hk.
    apply list_elem_of_fmap. exists (k, old). split; [done|by apply list_elem_of_In].
  - change (count v "packetReceived") with (total v packets_received).
    change (count v "packetSent") with (total v packets_sent). rewrite <- !total_app. apply total_perm.
    apply (bool_decide_unpack _). vm_compute. exact I.
  - change (count v "messageReceived") with (total v messages_received).
    change (count v "messageSent") with (total v messages_sent). rewrite <- !total_app. apply total_perm.
    apply (bool_decide_unpack _). vm_compute. exact I.
Qed.

(** A broker that has counted one of everything. *)
Lemma counters_shown_witness :
  let result := JObj (map (λ k, (js k, JNum 1)) metric_cells) in
  metric_texts (on_mqtt (Answered (Some (JObj [(js "code", JNum 1); (js "result", result)]))) console_loaded)
    = (λ k, (k, dec (count (λ _, 1) k))) <$> metric_cells
  /\ count (λ _, 1) "packetReceived" = 10.
Proof.
  intros result.
  destruct (counters_shown (λ _, 1) (Some (JObj [(js "code", JNum 1); (js "result", result)])) result console_loaded)
    as [H _].
  - reflexivity.
  - reflexivity.
  - split; [by eexists|]. intros k Hk _.
    assert (forallb (λ k, match member result k with Some (JNum 1) => true | _ => false end) metric_cells = true) as Hm
      by (vm_compute; reflexivity).
    rewrite forallb_forall in Hm. apply list_elem_of_In in Hk. specialize (Hm k Hk).
    destruct (member result k) as [[| |[|[]|]| | |]|]; first [reflexivity|discriminate].
  - reflexivity.
  - split; [exact H|reflexivity].
Defined.
