(* ===== verification/Methods.v ===== *)
(** * The additional validation methods
    (static/components/jquery-validation/additional-methods.js).

    Each method is a function of the value and the field, like those of
    [Validator].  Most are patterns; the others compute check digits, card types
    and dates.  A method that may throw answers in [result].

    Modelled choices: [toUpperCase] maps the ASCII letters and, through a
    parameter, every other code unit; numbers are integers; the methods that read
    other fields or files (accept, require_from_group, skip_or_fill_minimum,
    strippedminlength) and vinUS are not here; notEqualTo is replaced by the
    console's own. *)

From stdpp Require Import base tactics strings gmap numbers list.
From Stdlib Require Import ZArith Lia.
From S2P Require Import Prelude Regex Validator.
Local Open Scope Z_scope.

(** ** Patterns *)
Definition pattern_method (icase : bool) (pattern : jsstr) : method := λ _ value f _,
  or_optional f (test icase (default Empty (RegExp pattern)) value).

Definition alphanumeric : method := pattern_method true (js "^\w+$").
Definition dateFA : method := pattern_method false
  (js "^[1-4]\d{3}\/((0?[1-6]\/((3[0-1])|([1-2][0-9])|(0?[1-9])))|((1[0-2]|(0?[7-9]))\/(30|([1-2][0-9])|(0?[1-9]))))$").
Definition dateNL : method := pattern_method false
  (js "^(0?[1-9]|[12]\d|3[01])[\.\/\-](0?[1-9]|1[012])[\.\/\-]([12]\d)?(\d\d)$").
Definition giroaccountNL : method := pattern_method false (js "^[0-9]{1,7}$").
Definition integer : method := pattern_method false (js "^-?\d+$").
Definition ipv4 : method := pattern_method true
  (js "^(25[0-5]|2[0-4]\d|[01]?\d\d?)\.(25[0-5]|2[0-4]\d|[01]?\d\d?)\.(25[0-5]|2[0-4]\d|[01]?\d\d?)\.(25[0-5]|2[0-4]\d|[01]?\d\d?)$").
Definition ipv6 : method := pattern_method true
  (js "^((([0-9A-Fa-f]{1,4}:){7}[0-9A-Fa-f]{1,4})|(([0-9A-Fa-f]{1,4}:){6}:[0-9A-Fa-f]{1,4})|(([0-9A-Fa-f]{1,4}:){5}:([0-9A-Fa-f]{1,4}:)?[0-9A-Fa-f]{1,4})|(([0-9A-Fa-f]{1,4}:){4}:([0-9A-Fa-f]{1,4}:){0,2}[0-9A-Fa-f]{1,4})|(([0-9A-Fa-f]{1,4}:){3}:([0-9A-Fa-f]{1,4}:){0,3}[0-9A-Fa-f]{1,4})|(([0-9A-Fa-f]{1,4}:){2}:([0-9A-Fa-f]{1,4}:){0,4}[0-9A-Fa-f]{1,4})|(([0-9A-Fa-f]{1,4}:){6}((\b((25[0-5])|(1\d{2})|(2[0-4]\d)|(\d{1,2}))\b)\.){3}(\b((25[0-5])|(1\d{2})|(2[0-4]\d)|(\d{1,2}))\b))|(([0-9A-Fa-f]{1,4}:){0,5}:((\b((25[0-5])|(1\d{2})|(2[0-4]\d)|(\d{1,2}))\b)\.){3}(\b((25[0-5])|(1\d{2})|(2[0-4]\d)|(\d{1,2}))\b))|(::([0-9A-Fa-f]{1,4}:){0,5}((\b((25[0-5])|(1\d{2})|(2[0-4]\d)|(\d{1,2}))\b)\.){3}(\b((25[0-5])|(1\d{2})|(2[0-4]\d)|(\d{1,2}))\b))|([0-9A-Fa-f]{1,4}::([0-9A-Fa-f]{1,4}:){0,5}[0-9A-Fa-f]{1,4})|(::([0-9A-Fa-f]{1,4}:){0,6}[0-9A-Fa-f]{1,4})|(([0-9A-Fa-f]{1,4}:){1,7}:))$").
Definition lettersonly : method := pattern_method true (js "^[a-z]+$").
Definition letterswithbasicpunc : method := pattern_method true
  (js "^[a-z\-.,()'" ++ [34] ++ js "\s]+$").
Definition mobileNL : method := pattern_method false
  (js "^((\+|00(\s|\s?\-\s?)?)31(\s|\s?\-\s?)?(\(0\)[\-\s]?)?|0)6((\s|\s?\-\s?)?[0-9]){8}$").
Definition netmask : method := pattern_method true
  (js "^(254|252|248|240|224|192|128)\.0\.0\.0|255\.(254|252|248|240|224|192|128|0)\.0\.0|255\.255\.(254|252|248|240|224|192|128|0)\.0|255\.255\.255\.(254|252|248|240|224|192|128|0)").
Definition nowhitespace : method := pattern_method true (js "^\S+$").
Definition phoneNL : method := pattern_method false
  (js "^((\+|00(\s|\s?\-\s?)?)31(\s|\s?\-\s?)?(\(0\)[\-\s]?)?|0)[1-9]((\s|\s?\-\s?)?[0-9]){8}$").
Definition postalcodeBR : method := pattern_method false (js "^\d{2}.\d{3}-\d{3}?$|^\d{5}-?\d{3}?$").
Definition postalCodeCA : method := pattern_method true
  (js "^[ABCEGHJKLMNPRSTVXY]\d[ABCEGHJKLMNPRSTVWXYZ] *\d[ABCEGHJKLMNPRSTVWXYZ]\d$").
Definition postalcodeIT : method := pattern_method false (js "^\d{5}$").
Definition postalcodeNL : method := pattern_method false (js "^[1-9][0-9]{3}\s?[a-zA-Z]{2}$").
Definition postcodeUK : method := pattern_method true
  (js "^((([A-PR-UWYZ][0-9])|([A-PR-UWYZ][0-9][0-9])|([A-PR-UWYZ][A-HK-Y][0-9])|([A-PR-UWYZ][A-HK-Y][0-9][0-9])|([A-PR-UWYZ][0-9][A-HJKSTUW])|([A-PR-UWYZ][A-HK-Y][0-9][ABEHMNPRVWXY]))\s?([0-9][ABD-HJLNP-UW-Z]{2})|(GIR)\s?(0AA))$").
Definition time : method := pattern_method false (js "^([01]\d|2[0-3]|[0-9])(:[0-5]\d){1,2}$").
Definition time12h : method := pattern_method true (js "^((0?[1-9]|1[012])(:[0-5]\d){1,2}(\ ?[AP]M))$").
Definition url2 : method := pattern_method true
  (js "^(https?|ftp):\/\/(((([a-z]|\d|-|\.|_|~|[\u00A0-\uD7FF\uF900-\uFDCF\uFDF0-\uFFEF])|(%[\da-f]{2})|[!\$&'\(\)\*\+,;=]|:)*@)?(((\d|[1-9]\d|1\d\d|2[0-4]\d|25[0-5])\.(\d|[1-9]\d|1\d\d|2[0-4]\d|25[0-5])\.(\d|[1-9]\d|1\d\d|2[0-4]\d|25[0-5])\.(\d|[1-9]\d|1\d\d|2[0-4]\d|25[0-5]))|((([a-z]|\d|[\u00A0-\uD7FF\uF900-\uFDCF\uFDF0-\uFFEF])|(([a-z]|\d|[\u00A0-\uD7FF\uF900-\uFDCF\uFDF0-\uFFEF])([a-z]|\d|-|\.|_|~|[\u00A0-\uD7FF\uF900-\uFDCF\uFDF0-\uFFEF])*([a-z]|\d|[\u00A0-\uD7FF\uF900-\uFDCF\uFDF0-\uFFEF])))\.)*(([a-z]|[\u00A0-\uD7FF\uF900-\uFDCF\uFDF0-\uFFEF])|(([a-z]|[\u00A0-\uD7FF\uF900-\uFDCF\uFDF0-\uFFEF])([a-z]|\d|-|\.|_|~|[\u00A0-\uD7FF\uF900-\uFDCF\uFDF0-\uFFEF])*([a-z]|[\u00A0-\uD7FF\uF900-\uFDCF\uFDF0-\uFFEF])))\.?)(:\d*)?)(\/((([a-z]|\d|-|\.|_|~|[\u00A0-\uD7FF\uF900-\uFDCF\uFDF0-\uFFEF])|(%[\da-f]{2})|[!\$&'\(\)\*\+,;=]|:|@)+(\/(([a-z]|\d|-|\.|_|~|[\u00A0-\uD7FF\uF900-\uFDCF\uFDF0-\uFFEF])|(%[\da-f]{2})|[!\$&'\(\)\*\+,;=]|:|@)*)*)?)?(\?((([a-z]|\d|-|\.|_|~|[\u00A0-\uD7FF\uF900-\uFDCF\uFDF0-\uFFEF])|(%[\da-f]{2})|[!\$&'\(\)\*\+,;=]|:|@)|[\uE000-\uF8FF]|\/|\?)*)?(#((([a-z]|\d|-|\.|_|~|[\u00A0-\uD7FF\uF900-\uFDCF\uFDF0-\uFFEF])|(%[\da-f]{2})|[!\$&'\(\)\*\+,;=]|:|@)|\/|\?)*)?$").
Definition zipcodeUS : method := pattern_method false (js "^\d{5}(-\d{4})?$").
Definition ziprange : method := pattern_method false (js "^90[2-5]\d\{2\}-\d{4}$").

(** Telephone numbers, punctuation removed first. *)
Definition phone_method (strip pattern : jsstr) : method := λ _ value f _,
  let phone_number := replace_all false (default Empty (RegExp strip)) (λ _, []) value in
  or_optional f ((9 <? len phone_number)
                 && test false (default Empty (RegExp pattern)) phone_number).

Definition uk_strip : jsstr := js "\(|\)|\s+|-".

Definition mobileUK : method := phone_method uk_strip
  (js "^(?:(?:(?:00\s?|\+)44\s?|0)7(?:[1345789]\d{2}|624)\s?\d{3}\s?\d{3})$").
Definition phonesUK : method := phone_method uk_strip
  (js "^(?:(?:(?:00\s?|\+)44\s?|0)(?:1\d{8,9}|[23]\d{9}|7(?:[1345789]\d{8}|624\d{6})))$").
Definition phoneUK : method := phone_method uk_strip
  (js "^(?:(?:(?:00\s?|\+)44\s?)|(?:\(?0))(?:\d{2}\)?\s?\d{4}\s?\d{4}|\d{3}\)?\s?\d{3}\s?\d{3,4}|\d{4}\)?\s?(?:\d{5}|\d{3}\s?\d{3})|\d{5}\)?\s?\d{4,5})$").
Definition phoneUS : method := phone_method (js "\s+")
  (js "^(\+?1-?)?(\([2-9]([02-9]\d|1[02-9])\)|[2-9]([02-9]\d|1[02-9]))-?[2-9]([02-9]\d|1[02-9])-?\d{4}$").

(** Patterns built from the parameter; a pattern that does not parse throws. *)
Definition built_pattern (icase : bool) (pattern : jsstr) (f : field) (value : jsstr)
    : result jsstr check_answer :=
  match RegExp pattern with
  | Some r => Ret (or_optional f (test icase r value))
  | None => Throw (js "SyntaxError")
  end.

Definition without_commas (s : jsstr) : jsstr := List.filter (λ c, negb (c =? 44)) s.

Definition currency (value : jsstr) (f : field) (symbol : jsstr) (soft : bool)
    : result jsstr check_answer :=
  let symbol := without_commas symbol ++ if soft then js "]" else js "]?" in
  built_pattern false
    (js "^[" ++ symbol ++ js "([1-9]{1}[0-9]{0,2}(\,[0-9]{3})*(\.[0-9]{0,2})?|[1-9]{1}[0-9]{0,}(\.[0-9]{0,2})?|0(\.[0-9]{0,2})?|(\.[0-9]{1,2})?)$")
    f value.

(** [extension] tests the optional value first and builds the pattern only then. *)
Definition extension (value : jsstr) (f : field) (p : option jsstr) : result jsstr check_answer :=
  let param := match p with
               | Some s => map (λ c, if c =? 44 then 124 else c) s
               | None => js "png|jpe?g|gif"
               end in
  if optional f then Ret Mismatch
  else built_pattern true (js "\.(" ++ param ++ js ")$") f value.

Definition pattern (value : jsstr) (f : field) (param : jsstr) : result jsstr check_answer :=
  if optional f then Ret Yes
  else match RegExp (js "^(?:" ++ param ++ js ")$") with
       | Some r => Ret (answer_of (test false r value))
       | None => Throw (js "SyntaxError")
       end.

(** The states of the United States. *)
Record state_options := mkStateOptions {
  caseSensitive : bool;
  includeTerritories : bool;
  includeMilitary : bool;
}.

Definition stateUS (o : state_options) : method := λ _ value f _,
  let regex :=
    if negb (includeTerritories o) && negb (includeMilitary o) then
      "^(A[KLRZ]|C[AOT]|D[CE]|FL|GA|HI|I[ADLN]|K[SY]|LA|M[ADEINOST]|N[CDEHJMVY]|O[HKR]|PA|RI|S[CD]|T[NX]|UT|V[AT]|W[AIVY])$"%string
    else if includeTerritories o && includeMilitary o then
      "^(A[AEKLPRSZ]|C[AOT]|D[CE]|FL|G[AU]|HI|I[ADLN]|K[SY]|LA|M[ADEINOPST]|N[CDEHJMVY]|O[HKR]|P[AR]|RI|S[CD]|T[NX]|UT|V[AIT]|W[AIVY])$"%string
    else if includeTerritories o then
      "^(A[KLRSZ]|C[AOT]|D[CE]|FL|G[AU]|HI|I[ADLN]|K[SY]|LA|M[ADEINOPST]|N[CDEHJMVY]|O[HKR]|P[AR]|RI|S[CD]|T[NX]|UT|V[AIT]|W[AIVY])$"%string
    else
      "^(A[AEKLPRZ]|C[AOT]|D[CE]|FL|GA|HI|I[ADLN]|K[SY]|LA|M[ADEINOST]|N[CDEHJMVY]|O[HKR]|PA|RI|S[CD]|T[NX]|UT|V[AT]|W[AIVY])$"%string in
  pattern_method (negb (caseSensitive o)) (js regex) (mkContext [] (λ _, false)) value f (PBool true).

(** ** Words *)
Definition remove (pattern : jsstr) (by_ : jsstr) (icase : bool) (s : jsstr) : jsstr :=
  replace_all icase (default Empty (RegExp pattern)) (λ _, by_) s.

Definition stripHtml (value : jsstr) : jsstr :=
  remove (js "[.(),;:!?%#$'" ++ [92; 34] ++ js "_+=\/\-“”’]*") [] false
    (remove (js "&nbsp;|&#160;") (js " ") true
      (remove (js "<.[^<>]*?>") (js " ") false value)).

(** The number of words; no word at all is [null], whose length is a TypeError. *)
Definition word_count (value : jsstr) : result jsstr Z :=
  match match_all false (regex "\b\w+\b") (stripHtml value) with
  | [] => Throw (js "TypeError")
  | ws => Ret (Z.of_nat (length ws))
  end.

Definition words_method (ok : Z -> bool) (value : jsstr) (f : field) : result jsstr check_answer :=
  if optional f then Ret Mismatch else rmap (λ n, answer_of (ok n)) (word_count value).

Definition maxWords (n : Z) := words_method (λ k, k <=? n).
Definition minWords (n : Z) := words_method (λ k, k >=? n).
Definition rangeWords (a b : Z) := words_method (λ k, (k >=? a) && (k <=? b)).

(** ** Check digits *)

(** [Number] of a digit, and [parseInt] of text that is known to be one. *)
Definition digit_of (c : Z) : Z := c - 48.

Definition only_digits (s : jsstr) : jsstr := List.filter is_digit s.

(** Dutch bank accounts: weights [len] down to 1; a letter makes the sum [NaN]. *)
Fixpoint elf_sum (s : jsstr) (sum : Z) : jsnum :=
  match s with
  | [] => Num sum
  | c :: s' =>
      if is_digit c then elf_sum s' (sum + Z.of_nat (length s) * digit_of c)
      else if is_space c then elf_sum s' sum       (* Number of white space is 0 *)
      else NaN
  end.

Definition bankaccountNL_pattern : re := regex "^[0-9]{9}|([0-9]{2} ){3}[0-9]{3}$".

Definition bankaccountNL : method := λ _ value f _,
  if optional f then Yes
  else if negb (test false bankaccountNL_pattern value) then No
  else answer_of match elf_sum (List.filter (λ c, negb (c =? 32)) value) 0 with
                 | Num sum => sum mod 11 =? 0
                 | NaN => false
                 end.

Definition truthy_answer (a : check_answer) : bool := match a with No => false | _ => true end.

Definition bankorgiroaccountNL : method := λ ctx value f p,
  if optional f then Mismatch
  else if truthy_answer (bankaccountNL ctx value f p) then bankaccountNL ctx value f p
  else giroaccountNL ctx value f p.

(** Credit cards: the Luhn sum, from the last digit. *)
Definition luhn_double (d : Z) : Z := if 2 * d >? 9 then 2 * d - 9 else 2 * d.

Fixpoint luhn_sum (reversed : list Z) (bEven : bool) (nCheck : Z) : Z :=
  match reversed with
  | [] => nCheck
  | d :: l => luhn_sum l (negb bEven) (nCheck + if bEven then luhn_double d else d)
  end.

Definition creditcard : method := λ _ value f _,
  if optional f then Mismatch
  else if test false (regex "[^0-9 \-]+") value then No
  else
    let value := only_digits value in
    if (len value <? 13) || (len value >? 19) then No
    else answer_of (luhn_sum (map digit_of (rev value)) false 0 mod 10 =? 0).

Record card_types := mkCards {
  mastercard : bool; visa : bool; amex : bool; dinersclub : bool;
  enroute : bool; discover : bool; jcb : bool; unknown : bool; all_cards : bool;
}.

(** The bits of [validTypes] by their masks. *)
Definition validTypes (t : card_types) : Z :=
  let bit (b : bool) n := if b then n else 0 in
  if all_cards t then Z.lor 1 (Z.lor 2 (Z.lor 4 (Z.lor 8 (Z.lor 16 (Z.lor 32 (Z.lor 64 128))))))
  else Z.lor (bit (mastercard t) 1) (Z.lor (bit (visa t) 2) (Z.lor (bit (amex t) 4)
       (Z.lor (bit (dinersclub t) 8) (Z.lor (bit (enroute t) 16) (Z.lor (bit (discover t) 32)
       (Z.lor (bit (jcb t) 64) (bit (unknown t) 128))))))).

Definition card_table : list (Z * string * Z) :=
  [(1, "^(5[12345])", 16); (2, "^(4)", 16); (4, "^(3[47])", 15);
   (8, "^(3(0[012345]|[68]))", 14); (16, "^(2(014|149))", 15); (32, "^(6011)", 16);
   (64, "^(3)", 16); (64, "^(2131|1800)", 15)]%string.

Definition creditcardtypes (t : card_types) (value : jsstr) : bool :=
  if test false (regex "[^0-9\-]+") value then false
  else
    let value := only_digits value in
    let types := validTypes t in
    match head (List.filter (λ '(mask, prefix, _),
                  negb (Z.land types mask =? 0) && test false (regex prefix) value) card_table) with
    | Some (_, _, n) => len value =? n
    | None => negb (Z.land types 128 =? 0)
    end.

(** Brazilian tax numbers: [checkResult] for weights from [w] down. *)
Fixpoint weighted (ds : list Z) (w : Z) : Z :=
  match ds with [] => 0 | d :: ds' => d * w + weighted ds' (w - 1) end.

Definition checkResult (sum : Z) (cn : jsnum) : bool :=
  let result := (sum * 10) mod 11 in
  let result := if (result =? 10) || (result =? 11) then 0 else result in
  match cn with Num d => result =? d | NaN => false end.

Definition cpf_special (c : Z) : bool :=
  existsb (Z.eqb c) (js "~!@#$%^&*()_+=`{}[]-|\:;'<>,./? ").

(** A character that is no digit makes the sums [NaN], which no digit equals. *)
Definition cpfBR (value : jsstr) : bool :=
  let value := List.filter (λ c, negb (cpf_special c)) value in
  if negb (len value =? 11) then false
  else if existsb (λ d, jseqb value (repeat d 11)) (js "0123456789") then false
  else
    let cn i := parseInt 10 (substring value i (i + 1)) in
    let digits n := map digit_of (take n value) in
    let numeric n := forallb is_digit (take n value) in
    if numeric 9%nat && checkResult (weighted (digits 9%nat) 10) (cn 9)
    then numeric 10%nat && checkResult (weighted (digits 10%nat) 11) (cn 10)
    else false.

(** Polish tax numbers. *)
Definition arrSteps : list Z := [6; 5; 7; 2; 3; 4; 5; 6; 7].

Definition nipPL (value : jsstr) : bool :=
  let value := map digit_of (only_digits value) in
  if negb (Z.of_nat (length value) =? 10) then false
  else
    let intSum := foldl (λ s '(a, b), s + a * b) 0 (zip arrSteps value) in
    let int2 := intSum mod 11 in
    let intControlNr := if int2 =? 10 then 0 else int2 in
    bool_decide (Some intControlNr = value !! 9%nat).

(** ** Dates *)

(** Days from 1 January 1970 to 1 January of a year, and the days before a month. *)
Definition day_from_year (y : Z) : Z :=
  365 * (y - 1970) + (y - 1969) / 4 - (y - 1901) / 100 + (y - 1601) / 400.

Definition leap (y : Z) : bool :=
  (y mod 4 =? 0) && (negb (y mod 100 =? 0) || (y mod 400 =? 0)).

Definition month_lengths (y : Z) : list Z :=
  [31; if leap y then 29 else 28; 31; 30; 31; 30; 31; 31; 30; 31; 30; 31].

Definition month_start (y m : Z) : Z := foldr Z.add 0 (take (Z.to_nat m) (month_lengths y)).

(** [Date.UTC(year, month, date, ...)], its day: months and days out of range
    carry over, and the years 0 to 99 stand for 1900 to 1999. *)
Definition utc_day (year month date : Z) : Z :=
  let year := if (0 <=? year) && (year <=? 99) then 1900 + year else year in
  let y := year + month / 12 in
  day_from_year y + month_start y (month mod 12) + date - 1.

(** [getUTCFullYear], [getUTCMonth] and [getUTCDate] of a day. *)
Fixpoint year_search (fuel : nat) (y day : Z) : Z :=
  match fuel with
  | O => y
  | S n => if day_from_year (y + 1) <=? day then year_search n (y + 1) day else y
  end.

Definition year_of (day : Z) : Z :=
  let low := Z.min (day / 365) (day / 366) + 1969 in
  year_search (Z.to_nat (Z.max (day / 365) (day / 366) + 1970 - low)) low day.

Fixpoint month_search (lengths : list Z) (m day : Z) : Z * Z :=
  match lengths with
  | n :: l => if n <=? day then month_search l (m + 1) (day - n) else (m, day)
  | [] => (m, day)
  end.

Definition month_and_date (day : Z) : Z * Z :=
  let y := year_of day in month_search (month_lengths y) 0 (day - day_from_year y).

Definition getUTCFullYear (day : Z) : Z := year_of day.
Definition getUTCMonth (day : Z) : Z := fst (month_and_date day).
Definition getUTCDate (day : Z) : Z := snd (month_and_date day) + 1.

Definition dateITA_pattern : re := regex "^\d{1,2}\/\d{1,2}\/\d{4}$".

(** The fields of the UTC date are the ones it was made of. *)
Definition same_fields (y m d : Z) : bool :=
  let xdata := utc_day y (m - 1) d in
  (getUTCFullYear xdata =? y) && (getUTCMonth xdata =? m - 1) && (getUTCDate xdata =? d).

Definition dateITA_check (value : jsstr) : bool :=
  if test false dateITA_pattern value then
    match map (parseInt 10) (split_on (Z.eqb 47) value) with
    | Num gg :: Num mm :: Num aaaa :: _ => same_fields aaaa mm gg
    | _ => false
    end
  else false.

Definition dateITA : method := λ _ value f _, or_optional f (dateITA_check value).

(** ** IBAN *)
Definition bbancountrypatterns : list (jsstr * jsstr) :=
  [(js "AL", js "\d{8}[\dA-Z]{16}");
   (js "AD", js "\d{8}[\dA-Z]{12}");
   (js "AT", js "\d{16}");
   (js "AZ", js "[\dA-Z]{4}\d{20}");
   (js "BE", js "\d{12}");
   (js "BH", js "[A-Z]{4}[\dA-Z]{14}");
   (js "BA", js "\d{16}");
   (js "BR", js "\d{23}[A-Z][\dA-Z]");
   (js "BG", js "[A-Z]{4}\d{6}[\dA-Z]{8}");
   (js "CR", js "\d{17}");
   (js "HR", js "\d{17}");
   (js "CY", js "\d{8}[\dA-Z]{16}");
   (js "CZ", js "\d{20}");
   (js "DK", js "\d{14}");
   (js "DO", js "[A-Z]{4}\d{20}");
   (js "EE", js "\d{16}");
   (js "FO", js "\d{14}");
   (js "FI", js "\d{14}");
   (js "FR", js "\d{10}[\dA-Z]{11}\d{2}");
   (js "GE", js "[\dA-Z]{2}\d{16}");
   (js "DE", js "\d{18}");
   (js "GI", js "[A-Z]{4}[\dA-Z]{15}");
   (js "GR", js "\d{7}[\dA-Z]{16}");
   (js "GL", js "\d{14}");
   (js "GT", js "[\dA-Z]{4}[\dA-Z]{20}");
   (js "HU", js "\d{24}");
   (js "IS", js "\d{22}");
   (js "IE", js "[\dA-Z]{4}\d{14}");
   (js "IL", js "\d{19}");
   (js "IT", js "[A-Z]\d{10}[\dA-Z]{12}");
   (js "KZ", js "\d{3}[\dA-Z]{13}");
   (js "KW", js "[A-Z]{4}[\dA-Z]{22}");
   (js "LV", js "[A-Z]{4}[\dA-Z]{13}");
   (js "LB", js "\d{4}[\dA-Z]{20}");
   (js "LI", js "\d{5}[\dA-Z]{12}");
   (js "LT", js "\d{16}");
   (js "LU", js "\d{3}[\dA-Z]{13}");
   (js "MK", js "\d{3}[\dA-Z]{10}\d{2}");
   (js "MT", js "[A-Z]{4}\d{5}[\dA-Z]{18}");
   (js "MR", js "\d{23}");
   (js "MU", js "[A-Z]{4}\d{19}[A-Z]{3}");
   (js "MC", js "\d{10}[\dA-Z]{11}\d{2}");
   (js "MD", js "[\dA-Z]{2}\d{18}");
   (js "ME", js "\d{18}");
   (js "NL", js "[A-Z]{4}\d{10}");
   (js "NO", js "\d{11}");
   (js "PK", js "[\dA-Z]{4}\d{16}");
   (js "PS", js "[\dA-Z]{4}\d{21}");
   (js "PL", js "\d{24}");
   (js "PT", js "\d{21}");
   (js "RO", js "[A-Z]{4}[\dA-Z]{16}");
   (js "SM", js "[A-Z]\d{10}[\dA-Z]{12}");
   (js "SA", js "\d{2}[\dA-Z]{18}");
   (js "RS", js "\d{18}");
   (js "SK", js "\d{20}");
   (js "SI", js "\d{15}");
   (js "ES", js "\d{20}");
   (js "SE", js "\d{20}");
   (js "CH", js "\d{5}[\dA-Z]{12}");
   (js "TN", js "\d{20}");
   (js "TR", js "\d{5}[\dA-Z]{17}");
   (js "AE", js "\d{3}\d{16}");
   (js "GB", js "[A-Z]{4}\d{14}");
   (js "VG", js "[\dA-Z]{4}\d{16}")].

Section Upper.
(** The upper case of a code unit above 127. *)
Variable upper_other : Z -> jsstr.

Definition toUpperCase (s : jsstr) : jsstr :=
  concat (map (λ c, if (0 <=? c) && (c <=? 127) then [upper_ascii c] else upper_other c) s).

Definition iban_normal (value : jsstr) : jsstr :=
  toUpperCase (List.filter (λ c, negb (c =? 32)) value).

(** The country's pattern, when the country is known. *)
Definition iban_format (iban : jsstr) : bool :=
  match assoc (substring iban 0 2) bbancountrypatterns with
  | Some bbanpattern =>
      test false (default Empty (RegExp (js "^[A-Z]{2}\d{2}" ++ bbanpattern ++ js "$"))) iban
  | None => true
  end.

Definition iban_alphabet : jsstr := js "0123456789ABCDEFGHIJKLMNOPQRSTUVWXYZ".

(** The loop that spells the code in digits, leading zeros left out. *)
Fixpoint spell (ibancheck : jsstr) (leadingZeroes : bool) : jsstr :=
  match ibancheck with
  | [] => []
  | c :: s =>
      let leadingZeroes := leadingZeroes && (c =? 48) in
      (if leadingZeroes then [] else dec (indexOf iban_alphabet [c])) ++ spell s leadingZeroes
  end.

(** [Number] of digits; anything else the loops can meet is no number. *)
Definition number_of (s : jsstr) : jsnum :=
  if forallb is_digit s && negb (jseqb s []) then parseInt 10 s else NaN.

(** The remainder so far: the empty string, then a number. *)
Definition cRest_str (r : option jsnum) : jsstr :=
  match r with
  | None => []
  | Some (Num z) => dec z
  | Some NaN => js "NaN"
  end.

Definition rest_step (cRest : option jsnum) (cChar : Z) : option jsnum :=
  Some match number_of (cRest_str cRest ++ [cChar]) with
       | Num z => Num (z mod 97)
       | NaN => NaN
       end.

Definition iban_check (iban : jsstr) : bool :=
  let ibancheck := substring iban 4 (len iban) ++ substring iban 0 4 in
  bool_decide (foldl rest_step None (spell ibancheck true) = Some (Num 1)).

Definition iban_valid (iban : jsstr) : bool :=
  if len iban <? 5 then false else iban_format iban && iban_check iban.

Definition iban : method := λ _ value f _,
  if optional f then Yes else answer_of (iban_valid (iban_normal value)).

(** ** Spanish and business identifiers *)
Definition bic : method := λ _ value f _, or_optional f (test false
  (regex "^([A-Z]{6}[A-Z2-9][A-NP-Z1-9])(X{3}|[A-WY-Z0-9][A-Z0-9]{2})?$") (toUpperCase value)).

Definition dni_letters : jsstr := js "TRWAGMYFPDXBNJZSQVHLCKET".

(** [charAt] of a remainder: [NaN] is index 0. *)
Definition letter_at (letters : jsstr) (n : jsnum) : jsstr :=
  charAt letters match n with Num z => z mod 23 | NaN => 0 end.

Definition nieES : method := λ _ value f _,
  if optional f then Yes
  else
    let letter := toUpperCase (substr_from value (len value - 1)) in
    let value := toUpperCase value in
    if (len value >? 10) || (len value <? 9)
       || negb (test true (regex "^[MXYZ]{1}[0-9]{7,8}[TRWAGMYFPDXBNJZSQVHLCKET]{1}$") value)
    then No
    else
      let swap (p d : string) s := replace_first false (regex p) (λ _, js d) s in
      let value := swap "^[Z]"%string "2"%string (swap "^[Y]"%string "1"%string
                     (swap "^[X]"%string "0"%string value)) in
      let number := if len value =? 9 then substr value 0 8 else substr value 0 9 in
      answer_of (jseqb (letter_at dni_letters (parseInt 10 number)) letter).

Definition nifES : method := λ _ value f _,
  if optional f then Yes
  else
    let value := toUpperCase value in
    let nif := js "TRWAGMYFPDXBNJZSQVHLCKE" in
    if negb (test false
         (regex "((^[A-Z]{1}[0-9]{7}[A-Z0-9]{1}$|^[T]{1}[A-Z0-9]{8}$)|^[0-9]{8}[A-Z]{1}$)") value)
    then No
    else if test false (regex "^[0-9]{8}[A-Z]{1}$") value then
      answer_of (jseqb (letter_at nif (number_of (substring value 8 0))) (charAt value 8))
    else if test false (regex "^[KLM]{1}") value then
      answer_of (jseqb (charAt value 8) (letter_at nif (number_of (substring value 8 1))))
    else No.
End Upper.

(** Spanish companies: the sums over the seven digits. *)
Fixpoint cif_sum (ds : list Z) (odd : bool) : Z :=
  match ds with
  | [] => 0
  | n :: ds' =>
      (if odd then if 2 * n <? 10 then 2 * n else 2 * n - 9 else n) + cif_sum ds' (negb odd)
  end.

Definition cifES : method := λ _ value f _,
  if optional f then Yes
  else
    let letter := substring value 0 1 in
    let number := substring value 1 8 in
    let control := substring value 8 9 in
    if negb (len value =? 9)
       || negb (test true (regex "^([ABCDEFGHJKLMNPQRSUVW])(\d{7})([0-9A-J])$") value)
    then No
    else
      let all_sum := cif_sum (map digit_of number) true in
      let control_digit := 10 - all_sum mod 10 in
      let control_digit := if control_digit >? 9 then 0 else control_digit in
      let control_letter := charAt (js "JABCDEFGHI") control_digit in
      if test false (regex "[ABEH]") letter then answer_of (jseqb control (dec control_digit))
      else if test false (regex "[KPQS]") letter then answer_of (jseqb control control_letter)
      else answer_of (jseqb control (dec control_digit) || jseqb control control_letter).
