(* ===== verification/MethodsFacts.v ===== *)
(** * What the check digits and dates accept

    The Luhn sum of the credit cards and the errors it catches, the IBAN check as
    a remainder of one large number. *)

From stdpp Require Import base tactics strings gmap numbers list.
From Stdlib Require Import ZArith Lia.
From S2P Require Import Prelude Regex RegexFacts Validator Methods.
Local Open Scope Z_scope.

(** ** Digits *)
Lemma is_digit_range c : is_digit c = true <-> 48 <= c <= 57.
Proof. unfold is_digit. rewrite andb_true_iff, !Z.leb_le. done. Qed.

Lemma only_digits_id s : forallb is_digit s = true -> only_digits s = s.
Proof.
  unfold only_digits. induction s as [|c s IH]; [done|]. cbn.
  intros [Hc H]%andb_true_iff. rewrite Hc. f_equal. by apply IH.
Qed.

(** A class repeated matches somewhere exactly when a character is in it. *)
Lemma test_class_somewhere neg its s :
  test false (Rep (Class neg its) 1 None true) s = existsb (class_in false neg its) s.
Proof.
  apply eq_iff_eq_true. rewrite test_spec by done. rewrite existsb_exists. split.
  - intros (p & q & Hp & n & Hn & _ & Hs). destruct n as [|n]; [lia|].
    inversion Hs as [|? ? p' ? (c & rest & E & Hc & _)]; subst. exists c. split; [|done].
    clear -Hp E. revert Hp. generalize (@None Z) as prev.
    induction s as [|d s IH]; intros prev Hp; cbn in Hp.
    + apply list_elem_of_singleton in Hp as ->. done.
    + apply elem_of_cons in Hp as [->|Hp]; [cbn in E; injection E as -> ->; by left|].
      right. by eapply IH.
  - intros (c & Hin & Hc). apply list_elem_of_In, list_elem_of_split in Hin as (l & r & ->).
    exists (match last l with Some x => Some x | None => None end, c :: r), (Some c, r). split.
    + generalize (@None Z) as prev. induction l as [|d l IH]; intros prev; [by left|].
      cbn. right. replace (match last (d :: l) with Some x => Some x | None => prev end)
        with (match last l with Some x => Some x | None => Some d end); [apply IH|].
      rewrite last_cons. by destruct (last l).
    + exists 1%nat. split_and!; [lia|done|]. eapply nsteps_once. by exists c, r.
Qed.

(** ** Luhn *)
Lemma luhn_acc l b acc : luhn_sum l b acc = acc + luhn_sum l b 0.
Proof.
  revert b acc. induction l as [|d l IH]; intros b acc; cbn [luhn_sum]; [lia|].
  rewrite (IH _ (acc + _)), (IH _ (0 + _)). lia.
Qed.

(** The flag after reading a list. *)
Definition parity (l : list Z) (b : bool) : bool := foldl (λ b _, negb b) b l.

Lemma luhn_app l r b : luhn_sum (l ++ r) b 0 = luhn_sum l b 0 + luhn_sum r (parity l b) 0.
Proof.
  revert b. induction l as [|d l IH]; intros b; [done|]. cbn [app luhn_sum parity foldl].
  rewrite (luhn_acc (l ++ r) _ (0 + _)), IH, (luhn_acc l _ (0 + _)). unfold parity. lia.
Qed.

Definition luhn_weight (b : bool) (d : Z) : Z := if b then luhn_double d else d.

Lemma luhn_cons d l b : luhn_sum (d :: l) b 0 = luhn_weight b d + luhn_sum l (negb b) 0.
Proof. cbn [luhn_sum]. rewrite luhn_acc. done. Qed.

(** Distinct digits weigh differently modulo 10, doubled or not; so do the two
    orders of a pair of neighbours, unless the pair is 0 and 9. *)
Lemma luhn_weight_differs b d e : 0 <= d < 10 -> 0 <= e < 10 -> d <> e ->
  (luhn_weight b d - luhn_weight b e) mod 10 <> 0.
Proof.
  intros Hd He Hn.
  assert (-9 <= luhn_weight b d - luhn_weight b e <= 9 /\ luhn_weight b d - luhn_weight b e <> 0)
    as [H1 H2].
  { unfold luhn_weight, luhn_double. destruct b; [|lia].
    destruct (2 * d >? 9) eqn:E1, (2 * e >? 9) eqn:E2;
      rewrite ?Z.gtb_ltb in *; zbool; lia. }
  intros E. apply Z.mod_divide in E as [k E]; lia.
Qed.

Lemma luhn_swap_differs b d e : 0 <= d < 10 -> 0 <= e < 10 -> d <> e ->
  ~ (d = 0 /\ e = 9) -> ~ (d = 9 /\ e = 0) ->
  (luhn_weight b d + luhn_weight (negb b) e - (luhn_weight b e + luhn_weight (negb b) d)) mod 10 <> 0.
Proof.
  intros Hd He Hn H09 H90.
  assert (-10 < luhn_double d - d - (luhn_double e - e) < 10
          /\ luhn_double d - d - (luhn_double e - e) <> 0) as [H1 H2].
  { unfold luhn_double. destruct (2 * d >? 9) eqn:E1, (2 * e >? 9) eqn:E2;
      rewrite ?Z.gtb_ltb in *; zbool; lia. }
  unfold luhn_weight. intros E. apply Z.mod_divide in E as [k E]; [|lia].
  destruct b; cbn [negb] in E; lia.
Qed.

Lemma creditcard_digits ctx s f p : optional f = false -> forallb is_digit s = true ->
  creditcard ctx s f p
  = if (len s <? 13) || (len s >? 19) then No
    else answer_of (luhn_sum (map digit_of (rev s)) false 0 mod 10 =? 0).
Proof.
  intros Ho Hs. unfold creditcard. rewrite Ho.
  change (regex "[^0-9 \-]+") with (Rep (Class true [Range 48 57; Range 32 32; Range 45 45]) 1 None true).
  rewrite test_class_somewhere.
  replace (existsb _ s) with false; [by rewrite only_digits_id|].
  symmetry. induction s as [|c s IH]; [done|]. cbn in Hs |- *. apply andb_true_iff in Hs as [Hc Hs].
  rewrite IH by done. apply is_digit_range in Hc. unfold class_in. cbn.
  replace ((48 <=? c) && (c <=? 57)) with true; [done|]. symmetry. apply andb_true_iff; lia.
Qed.

(** The sum around one place. *)
Lemma luhn_place l d r :
  luhn_sum (map digit_of (rev (l ++ d :: r))) false 0
  = luhn_sum (map digit_of (rev r)) false 0
    + luhn_weight (parity (map digit_of (rev r)) false) (digit_of d)
    + luhn_sum (map digit_of (rev l)) (negb (parity (map digit_of (rev r)) false)) 0.
Proof.
  rewrite rev_app_distr. cbn [rev]. rewrite <- app_assoc, map_app, luhn_app. cbn [app map].
  rewrite luhn_cons. lia.
Qed.

Lemma luhn_pair l d e r :
  luhn_sum (map digit_of (rev (l ++ d :: e :: r))) false 0
  = luhn_sum (map digit_of (rev r)) false 0
    + luhn_weight (parity (map digit_of (rev r)) false) (digit_of e)
    + luhn_weight (negb (parity (map digit_of (rev r)) false)) (digit_of d)
    + luhn_sum (map digit_of (rev l)) (parity (map digit_of (rev r)) false) 0.
Proof.
  rewrite rev_app_distr. cbn [rev]. rewrite <- !app_assoc, map_app, luhn_app. cbn [app map].
  rewrite !luhn_cons, negb_involutive. lia.
Qed.

Lemma luhn_refused (x y : Z) : x mod 10 = 0 -> (y - x) mod 10 <> 0 -> (y mod 10 =? 0) = false.
Proof.
  intros Hx Hd. apply Z.eqb_neq. intros Hy. apply Hd. rewrite Zminus_mod, Hx, Hy. done.
Qed.

Lemma accepted_sum (b : bool) (x : Z) : (if b then No else answer_of (x mod 10 =? 0)) = Yes ->
  b = false /\ x mod 10 = 0.
Proof. destruct b; [done|]. destruct (Z.eqb_spec (x mod 10) 0); done. Qed.

(** An accepted card number is no longer accepted when one of its digits is
    replaced by another, or when two different neighbouring digits are exchanged,
    unless they are 0 and 9. *)
Theorem card_errors_detected ctx f p l a b r : optional f = false ->
  forallb is_digit (l ++ a :: b :: r) = true ->
  creditcard ctx (l ++ a :: b :: r) f p = Yes ->
  (forall c, is_digit c = true -> c <> a -> creditcard ctx (l ++ c :: b :: r) f p = No)
  /\ (a <> b -> ~ (a = 48 /\ b = 57) -> ~ (a = 57 /\ b = 48) ->
      creditcard ctx (l ++ b :: a :: r) f p = No).
Proof.
  intros Ho Hd Hy. rewrite creditcard_digits in Hy by done.
  apply accepted_sum in Hy as [Hlen Hsum].
  rewrite forallb_app in Hd. cbn in Hd. rewrite !andb_true_iff in Hd.
  destruct Hd as (Hl & Ha & Hb & Hr). rewrite is_digit_range in Ha, Hb.
  assert (forall c d, len (l ++ c :: d :: r) = len (l ++ a :: b :: r)) as Hlens
    by (intros; unfold len; rewrite !length_app; done).
  split.
  - intros c Hc Hca. rewrite creditcard_digits, Hlens, Hlen; [|done|].
    + rewrite (luhn_refused (luhn_sum (map digit_of (rev (l ++ a :: b :: r))) false 0)); [done..|].
      rewrite is_digit_range in Hc. rewrite !luhn_place.
      match goal with |- (?x + ?w1 + ?y - (?x + ?w2 + ?y)) mod _ <> _ =>
        replace (x + w1 + y - (x + w2 + y)) with (w1 - w2) by lia end.
      apply luhn_weight_differs; unfold digit_of; lia.
    + rewrite forallb_app. cbn. rewrite Hl, Hc, Hr. rewrite !andb_true_iff. split_and!; try done.
      by apply is_digit_range.
  - intros Hab H1 H2. rewrite creditcard_digits, Hlens, Hlen; [|done|].
    + rewrite (luhn_refused (luhn_sum (map digit_of (rev (l ++ a :: b :: r))) false 0)); [done..|].
      rewrite !luhn_pair. set (q := parity _ _).
      match goal with |- (?x + ?w1 + ?w2 + ?y - (?x + ?w3 + ?w4 + ?y)) mod _ <> _ =>
        replace (x + w1 + w2 + y - (x + w3 + w4 + y)) with (w1 + w2 - (w3 + w4)) by lia end.
      apply luhn_swap_differs; unfold digit_of; lia.
    + rewrite forallb_app. cbn. rewrite Hl, Hr. rewrite !andb_true_iff.
      split_and!; try done; by apply is_digit_range.
Qed.

Lemma card_errors_detected_witness :
  let f := mkField [] [] TText (js "4111111111111111") true true [] [] in
  let ctx := mkContext [] (λ _, false) in
  creditcard ctx (js "4111111111111111") f (PBool true) = Yes
  /\ creditcard ctx (js "5111111111111111") f (PBool true) = No.
Proof.
  intros f ctx. assert (creditcard ctx (js "4111111111111111") f (PBool true) = Yes) as H by (by vm_compute).
  split; [exact H|].
  exact (proj1 (card_errors_detected ctx f (PBool true) [] 52 49 (js "11111111111111")
                  eq_refl eq_refl H) 53 eq_refl ltac:(discriminate)).
Defined.

(** ** IBAN *)
Definition in_alphabet (c : Z) : bool := existsb (Z.eqb c) iban_alphabet.

(** The number a code spells: a digit is one decimal place, a letter two. *)
Definition numeral_step (n c : Z) : Z :=
  let v := indexOf iban_alphabet [c] in (if v <? 10 then 10 else 100) * n + v.

Definition numeral (s : jsstr) : Z := foldl numeral_step 0 s.

Definition decimal (s : jsstr) (acc : Z) : Z := foldl (λ n c, 10 * n + (c - 48)) acc s.

Lemma decimal_app a b acc : decimal (a ++ b) acc = decimal b (decimal a acc).
Proof. apply foldl_app. Qed.

Lemma decimal_mod s a : decimal s (a mod 97) mod 97 = decimal s a mod 97.
Proof.
  revert a. induction s as [|c s IH]; intros a; cbn; [apply Zmod_mod|]. unfold decimal in IH.
  rewrite <- (IH (10 * (a mod 97) + (c - 48))), <- (IH (10 * a + (c - 48))).
  f_equal. f_equal. rewrite Zplus_mod, (Zmult_mod 10 (a mod 97)), Zmod_mod, <- Zmult_mod, <- Zplus_mod.
  done.
Qed.

Lemma rest_step_digit r c : 0 <= r < 97 -> is_digit c = true ->
  rest_step (Some (Num r)) c = Some (Num ((10 * r + (c - 48)) mod 97)).
Proof.
  intros Hr Hc%is_digit_range.
  pose proof (bounded_forall (λ n, bool_decide
    (rest_step (Some (Num (n / 10))) (48 + n mod 10) = Some (Num (n mod 97)))) 970) as H.
  specialize (H ltac:(vm_compute; reflexivity) (10 * r + (c - 48)) ltac:(lia)).
  apply bool_decide_eq_true in H.
  replace ((10 * r + (c - 48)) / 10) with r in H by (apply Z.div_unique with (c - 48); lia).
  replace ((10 * r + (c - 48)) mod 10) with (c - 48) in H by (apply Z.mod_unique with r; lia).
  by replace (48 + (c - 48)) with c in H by lia.
Qed.

Lemma rest_step_first c : is_digit c = true -> rest_step None c = Some (Num ((c - 48) mod 97)).
Proof.
  intros Hc%is_digit_range.
  pose proof (bounded_forall (λ n, bool_decide (rest_step None (48 + n) = Some (Num (n mod 97)))) 10) as H.
  specialize (H ltac:(vm_compute; reflexivity) (c - 48) ltac:(lia)).
  apply bool_decide_eq_true in H. by replace (48 + (c - 48)) with c in H by lia.
Qed.

Lemma rest_digits s r : 0 <= r < 97 -> forallb is_digit s = true ->
  foldl rest_step (Some (Num r)) s = Some (Num (decimal s r mod 97)).
Proof.
  revert r. induction s as [|c s IH]; intros r Hr Hs; cbn; [by rewrite Z.mod_small|].
  cbn in Hs. apply andb_true_iff in Hs as [Hc Hs].
  rewrite rest_step_digit by done. rewrite IH; [|apply Z.mod_pos_bound; lia|done].
  f_equal. f_equal. apply decimal_mod.
Qed.

Lemma rest_all s : forallb is_digit s = true -> s <> [] ->
  foldl rest_step None s = Some (Num (decimal s 0 mod 97)).
Proof.
  destruct s as [|c s]; [done|]. cbn. intros [Hc Hs]%andb_true_iff _.
  rewrite rest_step_first by done. rewrite rest_digits; [|apply Z.mod_pos_bound; lia|done].
  f_equal. f_equal. apply decimal_mod.
Qed.

Lemma rest_not_a_number s r : 45 ∈ s -> foldl rest_step r s = Some NaN.
Proof.
  assert (forall s, foldl rest_step (Some NaN) s = Some NaN) as Hn.
  { intros t. induction t as [|c t IH]; [done|]. exact IH. }
  revert r. induction s as [|c s IH]; intros r; [by intros ?%elem_of_nil|].
  intros [<-|Hin]%elem_of_cons; [|by apply IH]. cbn. unfold rest_step at 2, number_of.
  rewrite forallb_app. cbn. rewrite andb_false_r. apply Hn.
Qed.

Lemma index_absent (h : jsstr) c i : existsb (Z.eqb c) h = false -> index_at [c] h i = -1.
Proof.
  revert i. induction h as [|d h IH]; intros i; [done|]. cbn.
  intros [Hd Hh]%orb_false_iff. rewrite Hd. cbn. by apply IH.
Qed.

Lemma indexOf_absent c : in_alphabet c = false -> indexOf iban_alphabet [c] = -1.
Proof. unfold in_alphabet, indexOf. apply index_absent. Qed.

#[local] Opaque indexOf iban_alphabet.

(** The value of a character of the alphabet and how it is written. *)
Definition value_ok (c v : Z) : bool := (0 <=? v) && (v <? 36) && Bool.eqb (c =? 48) (v =? 0).

Lemma alphabet_ok : forallb (λ c, value_ok c (indexOf iban_alphabet [c])) iban_alphabet = true.
Proof. vm_compute. reflexivity. Qed.

Lemma value_ok_spec c v : value_ok c v = true -> 0 <= v < 36 /\ (c = 48 <-> v = 0).
Proof.
  unfold value_ok. rewrite !andb_true_iff, Bool.eqb_true_iff. intros [[H1 H2] H3]. zbool.
  split; [lia|]. destruct (Z.eqb_spec c 48), (Z.eqb_spec v 0); split; intros; congruence.
Qed.

Lemma alphabet_value c : in_alphabet c = true ->
  0 <= indexOf iban_alphabet [c] < 36 /\ (c = 48 <-> indexOf iban_alphabet [c] = 0).
Proof.
  unfold in_alphabet. intros H. apply existsb_exists in H as (d & Hin & E).
  apply Z.eqb_eq in E. rewrite <- E in Hin. apply value_ok_spec.
  pose proof (proj1 (forallb_forall (λ c, value_ok c (indexOf iban_alphabet [c])) iban_alphabet)
                alphabet_ok c Hin) as H. cbv beta in H. exact H.
Qed.

Lemma dec_value v acc : 0 <= v < 36 ->
  decimal (dec v) acc = (if v <? 10 then 10 else 100) * acc + v /\ forallb is_digit (dec v) = true.
Proof.
  intros Hv. pose proof (bounded_forall (λ v, bool_decide
    (dec v = if v <? 10 then [48 + v] else [48 + v / 10; 48 + v mod 10])) 36) as H.
  specialize (H ltac:(vm_compute; reflexivity) v ltac:(lia)). apply bool_decide_eq_true in H.
  rewrite H. pose proof (Z.mod_pos_bound v 10 ltac:(lia)). pose proof (Z.div_mod v 10 ltac:(lia)).
  destruct (v <? 10) eqn:E; zbool; cbn; rewrite ?andb_true_iff, ?andb_true_r, !is_digit_range; split; lia.
Qed.

Lemma spell_value s lead acc : forallb in_alphabet s = true -> (lead = true -> acc = 0) ->
  decimal (spell s lead) acc = foldl numeral_step acc s /\ forallb is_digit (spell s lead) = true.
Proof.
  revert lead acc. induction s as [|c s IH]; intros lead acc Hs Hl; [done|].
  cbn in Hs. apply andb_true_iff in Hs as [Hc Hs].
  destruct (alphabet_value c Hc) as [Hv H48]. destruct (dec_value _ acc Hv) as [Hd Hdig].
  cbn [spell foldl]. destruct (lead && (c =? 48)) eqn:E.
  - apply andb_true_iff in E as [-> Ec%Z.eqb_eq]. rewrite (Hl eq_refl) in *.
    replace (numeral_step 0 c) with 0 by (unfold numeral_step; rewrite (proj1 H48 Ec); done).
    apply (IH true 0 Hs). done.
  - rewrite decimal_app, forallb_app, Hdig, Hd. apply (IH false); done.
Qed.

Lemma spell_stranger s lead : forallb in_alphabet s = false -> 45 ∈ spell s lead.
Proof.
  revert lead. induction s as [|c s IH]; intros lead; [done|]. cbn [forallb spell].
  destruct (in_alphabet c) eqn:E; cbn [andb]; intros H; apply elem_of_app; [right; by apply IH|left].
  replace (c =? 48) with false.
  - rewrite andb_false_r. rewrite indexOf_absent by exact E. vm_compute. left.
  - symmetry. apply Z.eqb_neq. intros ->. by vm_compute in E.
Qed.

(** Leading zeros and nothing else leave no digits, and no remainder 1. *)
Lemma spell_empty s lead : forallb in_alphabet s = true -> spell s lead = [] -> foldl numeral_step 0 s = 0.
Proof.
  intros Hs E. destruct (spell_value s lead 0 Hs) as [H _]; [done|]. by rewrite E in H.
Qed.

Lemma substring_drop s (k : nat) : (k <= length s)%nat ->
  substring s (Z.of_nat k) (Z.of_nat (length s)) = drop k s.
Proof.
  intros H. unfold substring, clamp.
  rewrite !(Z.min_l _ (Z.of_nat (length s))), !(Z.max_r 0) by lia.
  rewrite (Z.min_l (Z.of_nat k)), (Z.max_r (Z.of_nat k)), !Nat2Z.id by lia.
  apply take_ge. rewrite length_drop. lia.
Qed.

Lemma substring_take s (k : nat) : (k <= length s)%nat ->
  substring s 0 (Z.of_nat k) = take k s.
Proof.
  intros H. unfold substring, clamp.
  rewrite !(Z.min_l _ (Z.of_nat (length s))), !(Z.max_r 0) by lia.
  rewrite (Z.min_l 0) by lia. rewrite Nat2Z.id. change (Z.to_nat 0) with 0%nat.
  by rewrite Nat.sub_0_r.
Qed.

Lemma iban_check_spec b : 5 <= len b ->
  iban_check b = forallb in_alphabet b && (numeral (drop 4 b ++ take 4 b) mod 97 =? 1).
Proof.
  intros Hlen. unfold iban_check, len.
  unfold len in Hlen. change 4 with (Z.of_nat 4). rewrite substring_drop, substring_take by lia.
  set (s := drop 4 b ++ take 4 b).
  assert (forallb in_alphabet b = forallb in_alphabet s) as ->.
  { unfold s. rewrite forallb_app, andb_comm, <- forallb_app. by rewrite take_drop. }
  destruct (forallb in_alphabet s) eqn:E; cbn [andb].
  - destruct (spell_value s true 0 E) as [Hv Hd]; [done|].
    destruct (decide (spell s true = [])) as [Hn|Hn].
    + unfold numeral. rewrite (spell_empty s true E Hn), Hn. done.
    + rewrite (rest_all _ Hd Hn), Hv. unfold numeral.
      destruct (Z.eqb_spec (foldl numeral_step 0 s mod 97) 1) as [->|H]; [by rewrite bool_decide_true|].
      apply bool_decide_eq_false. congruence.
  - rewrite (rest_not_a_number _ None (spell_stranger s true E)). done.
Qed.

(** C36: The IBAN check, which reads the code a digit at a time keeping only a
    remainder as text, accepts exactly the codes of at least five digits and
    letters, in the format of their country when it is known, whose rearranged
    code spells a number, of any size, that leaves the remainder 1 modulo 97. *)
Theorem iban_mod_97 upper_other ctx value f p : optional f = false ->
  let b := iban_normal upper_other value in
  iban upper_other ctx value f p = Yes
  <-> 5 <= len b /\ iban_format b = true /\ forallb in_alphabet b = true
      /\ numeral (drop 4 b ++ take 4 b) mod 97 = 1.
Proof.
  intros Ho b. unfold iban. rewrite Ho. fold b. unfold iban_valid.
  destruct (Z.ltb_spec (len b) 5) as [Hl|Hl]; [split; [done|lia]|].
  rewrite iban_check_spec by done.
  destruct (iban_format b); cbn [andb]; [|by split; [|intros (_ & ? & _)]].
  destruct (forallb in_alphabet b); cbn [andb]; [|by split; [|intros (_ & _ & ? & _)]].
  destruct (Z.eqb_spec (numeral (drop 4 b ++ take 4 b) mod 97) 1); split; try done.
  by intros (_ & _ & _ & ?).
Qed.

Lemma iban_mod_97_witness :
  let value := js "GB82 West 1234 5698 7654 32" in
  let f := mkField [] [] TText value true true [] [] in
  iban (λ c, [c]) (mkContext [] (λ _, false)) value f (PBool true) = Yes
  /\ numeral (js "WEST12345698765432GB82") mod 97 = 1.
Proof.
  intros value f.
  assert (iban (λ c, [c]) (mkContext [] (λ _, false)) value f (PBool true) = Yes) as H by (by vm_compute).
  split; [exact H|].
  exact (proj2 (proj2 (proj2 (proj1 (iban_mod_97 (λ c, [c]) (mkContext [] (λ _, false)) value f
                                       (PBool true) eq_refl) H)))).
Defined.
