(* ===== verification/CalendarFacts.v ===== *)
(** * The dates the method dateITA accepts

    The days of the years and months, the fields read back from a day, and the
    check of a text as a date of the calendar. *)

From stdpp Require Import base tactics strings gmap numbers list relations.
From Stdlib Require Import ZArith Lia.
From S2P Require Import Prelude Regex RegexFacts Validator Methods MethodsFacts.
Local Open Scope Z_scope.

(** ** Years *)
Lemma div_next n k : 0 < k -> (n + 1) / k = n / k + if (n + 1) mod k =? 0 then 1 else 0.
Proof.
  intros Hk. pose proof (Z.div_mod n k ltac:(lia)). pose proof (Z.mod_pos_bound n k Hk).
  destruct (Z.eq_dec (n mod k) (k - 1)) as [E|E].
  - replace ((n + 1) mod k) with 0 by (apply Z.mod_unique with (n / k + 1); lia).
    rewrite Z.eqb_refl. symmetry. apply Z.div_unique with 0; lia.
  - replace ((n + 1) mod k) with (n mod k + 1) by (apply Z.mod_unique with (n / k); lia).
    rewrite (proj2 (Z.eqb_neq _ 0)) by lia. symmetry. apply Z.div_unique with (n mod k + 1); lia.
Qed.

Lemma mod_shift n k q : 0 < k -> (n - k * q) mod k = n mod k.
Proof. intros Hk. replace (n - k * q) with (n + (- q) * k) by lia. apply Z.mod_add. lia. Qed.

Definition year_length (y : Z) : Z := if leap y then 366 else 365.

Lemma day_from_year_next y : day_from_year (y + 1) = day_from_year y + year_length y.
Proof.
  unfold day_from_year.
  replace (y + 1 - 1969) with (y - 1969 + 1) by lia. replace (y + 1 - 1901) with (y - 1901 + 1) by lia.
  replace (y + 1 - 1601) with (y - 1601 + 1) by lia. rewrite !div_next by lia.
  replace (y - 1969 + 1) with (y - 4 * 492) by lia. replace (y - 1901 + 1) with (y - 100 * 19) by lia.
  replace (y - 1601 + 1) with (y - 400 * 4) by lia. rewrite !mod_shift by lia.
  assert (y mod 400 = 0 -> y mod 100 = 0) as H400
    by (intros H; apply Z.mod_divide in H as [k ->]; [|lia];
        replace (k * 400) with (4 * k * 100) by lia; apply Z.mod_mul; lia).
  assert (y mod 100 = 0 -> y mod 4 = 0) as H100
    by (intros H; apply Z.mod_divide in H as [k ->]; [|lia];
        replace (k * 100) with (25 * k * 4) by lia; apply Z.mod_mul; lia).
  unfold year_length, leap.
  destruct (Z.eqb_spec (y mod 4) 0), (Z.eqb_spec (y mod 100) 0), (Z.eqb_spec (y mod 400) 0);
    cbn; lia || (exfalso; auto).
Qed.

Lemma day_from_year_bounds y :
  Z.min (365 * (y - 1970)) (366 * (y - 1970)) <= day_from_year y
  <= Z.max (365 * (y - 1970)) (366 * (y - 1970)).
Proof. unfold day_from_year. Z.to_euclidean_division_equations. lia. Qed.

Lemma day_from_year_mono y z : y <= z -> day_from_year y <= day_from_year z.
Proof.
  intros H. replace z with (y + Z.of_nat (Z.to_nat (z - y))) by lia.
  induction (Z.to_nat (z - y)) as [|n IH]; [by rewrite Z.add_0_r|].
  replace (y + Z.of_nat (S n)) with (y + Z.of_nat n + 1) by lia. rewrite day_from_year_next.
  unfold year_length. destruct (leap _); lia.
Qed.

Lemma year_search_spec fuel y day :
  day_from_year y <= day < day_from_year (y + Z.of_nat fuel + 1) ->
  let r := year_search fuel y day in day_from_year r <= day < day_from_year (r + 1).
Proof.
  revert y. induction fuel as [|n IH]; intros y H; cbn [year_search].
  - by replace (y + Z.of_nat 0 + 1) with (y + 1) in H by lia.
  - destruct (day_from_year (y + 1) <=? day) eqn:E; zbool; [|cbv zeta; lia].
    apply IH. replace (y + 1 + Z.of_nat n + 1) with (y + Z.of_nat (S n) + 1) by lia. lia.
Qed.

Lemma year_of_spec day : day_from_year (year_of day) <= day < day_from_year (year_of day + 1).
Proof.
  unfold year_of. apply year_search_spec.
  set (low := Z.min (day / 365) (day / 366) + 1969).
  replace (low + Z.of_nat (Z.to_nat (Z.max (day / 365) (day / 366) + 1970 - low)) + 1)
    with (Z.max (day / 365) (day / 366) + 1971) by lia.
  pose proof (day_from_year_bounds low). pose proof (day_from_year_bounds (Z.max (day / 365) (day / 366) + 1971)).
  pose proof (Z.div_mod day 365). pose proof (Z.mod_pos_bound day 365).
  pose proof (Z.div_mod day 366). pose proof (Z.mod_pos_bound day 366). lia.
Qed.

Lemma year_of_unique day y : day_from_year y <= day < day_from_year (y + 1) -> year_of day = y.
Proof.
  intros H. pose proof (year_of_spec day) as Hy.
  destruct (Z.lt_trichotomy (year_of day) y) as [Hl|[E|Hl]]; [|done|].
  - pose proof (day_from_year_mono (year_of day + 1) y). lia.
  - pose proof (day_from_year_mono (y + 1) (year_of day)). lia.
Qed.

(** ** Months *)
Definition total (l : list Z) : Z := foldr Z.add 0 l.

Lemma total_months y : total (month_lengths y) = year_length y.
Proof. unfold total, month_lengths, year_length. by destruct (leap y). Qed.

Lemma month_search_at l b m k n : Forall (Z.lt 0) l -> l !! m = Some n -> 0 <= k < n ->
  month_search l b (total (take m l) + k) = (b + Z.of_nat m, k).
Proof.
  revert b m. induction l as [|x l IH]; intros b m Hl Hm Hk; [by rewrite lookup_nil in Hm|].
  inversion Hl as [|? ? Hx Hl']; subst. destruct m as [|m]; cbn [take total foldr month_search].
  - injection Hm as ->. rewrite (proj2 (Z.leb_gt n (0 + k))) by lia. f_equal; lia.
  - fold (total (take m l)). assert (0 <= total (take m l)) as H0.
    { clear -Hl'. revert m. induction Hl' as [|y l Hy Hl IH]; intros [|m]; cbn; try lia.
      specialize (IH m). unfold total in IH. lia. }
    rewrite (proj2 (Z.leb_le x _)) by lia.
    replace (x + total (take m l) + k - x) with (total (take m l) + k) by lia.
    rewrite (IH (b + 1) m Hl' Hm Hk). f_equal. lia.
Qed.

Lemma month_search_inv l b r m k : Forall (Z.lt 0) l -> 0 <= r < total l ->
  month_search l b r = (m, k) ->
  exists i n, m = b + Z.of_nat i /\ l !! i = Some n /\ 0 <= k < n /\ r = total (take i l) + k.
Proof.
  revert b r. induction l as [|x l IH]; intros b r Hl Hr E; [cbn in Hr; lia|].
  inversion Hl as [|? ? Hx Hl']; subst. cbn [month_search] in E.
  unfold total in Hr. cbn [foldr] in Hr. fold (total l) in Hr.
  destruct (x <=? r) eqn:Ex; zbool.
  - destruct (IH (b + 1) (r - x) Hl' ltac:(lia) E) as (i & n & -> & Hi & Hk & Hr').
    exists (S i), n. split_and!; [lia|done|lia|lia|]. cbn [take]. unfold total in *. cbn [foldr]. lia.
  - injection E as <- <-. exists O, x. split_and!; try lia; [done|]. cbn. lia.
Qed.

Lemma month_lengths_pos y : Forall (Z.lt 0) (month_lengths y).
Proof. unfold month_lengths. repeat constructor. by destruct (leap y). Qed.

(** ** Dates *)

(** A date of the calendar, from the year 100 on. *)
Definition calendar_date (y m d : Z) : Prop :=
  100 <= y /\ 1 <= m <= 12 /\ exists n, month_lengths y !! Z.to_nat (m - 1) = Some n /\ 1 <= d <= n.

Lemma utc_day_plain y m d : 100 <= y -> 1 <= m <= 12 ->
  utc_day y (m - 1) d = day_from_year y + total (take (Z.to_nat (m - 1)) (month_lengths y)) + (d - 1).
Proof.
  intros Hy Hm. unfold utc_day.
  replace ((0 <=? y) && (y <=? 99)) with false by (symmetry; apply andb_false_iff; right; zlia).
  rewrite Z.div_small, Z.mod_small, Z.add_0_r by lia. unfold month_start, total. lia.
Qed.

Lemma take_month_bound y m n : month_lengths y !! m = Some n ->
  0 <= total (take m (month_lengths y)) /\ total (take m (month_lengths y)) + n <= year_length y.
Proof.
  rewrite <- total_months. unfold month_lengths, total.
  do 12 (destruct m as [|m]; [cbn; intros [= <-]; destruct (leap y); lia|]). done.
Qed.

Lemma calendar_same_fields y m d : calendar_date y m d -> same_fields y m d = true.
Proof.
  intros (Hy & Hm & n & Hn & Hd). unfold same_fields. rewrite utc_day_plain by done.
  set (x := day_from_year y + _ + _).
  pose proof (take_month_bound y _ n Hn) as [H1 H2]. pose proof (day_from_year_next y).
  assert (year_of x = y) as Hx by (apply year_of_unique; unfold x; lia).
  assert (month_and_date x = (m - 1, d - 1)) as E.
  { unfold month_and_date. rewrite Hx.
    replace (x - day_from_year y) with (total (take (Z.to_nat (m - 1)) (month_lengths y)) + (d - 1))
      by (unfold x; lia).
    rewrite (month_search_at _ _ _ _ n) by (try apply month_lengths_pos; done || lia).
    f_equal. lia. }
  unfold getUTCFullYear, getUTCMonth, getUTCDate. rewrite Hx, E. cbn [fst snd].
  rewrite !andb_true_iff, !Z.eqb_eq. lia.
Qed.

Lemma same_fields_calendar y m d : 0 <= y -> same_fields y m d = true -> calendar_date y m d.
Proof.
  intros Hy0. unfold same_fields, getUTCFullYear, getUTCMonth, getUTCDate.
  set (x := utc_day y (m - 1) d). rewrite !andb_true_iff, !Z.eqb_eq. intros [[Hy Hm] Hd].
  pose proof (year_of_spec x) as Hyx. rewrite Hy in Hyx. pose proof (day_from_year_next y) as Hn.
  unfold month_and_date in Hm, Hd. rewrite Hy in Hm, Hd.
  destruct (month_search _ 0 _) as [m' k] eqn:E. cbn [fst snd] in Hm, Hd.
  destruct (month_search_inv _ _ (x - day_from_year y) _ _ (month_lengths_pos y)
              ltac:(rewrite total_months; lia) E)
    as (i & n & Em & Hi & Hk & Hr).
  pose proof (lookup_lt_Some _ _ _ Hi) as Hlt. change (length (month_lengths y)) with 12%nat in Hlt.
  destruct (Z.le_gt_cases 100 y) as [Hc|Hc].
  - split_and!; [done|lia|lia|]. exists n. replace (Z.to_nat (m - 1)) with i by lia. split; [done|lia].
  - exfalso. unfold x, utc_day in Hyx.
    rewrite (proj2 (Z.leb_le 0 y)), (proj2 (Z.leb_le y 99)) in Hyx by lia. cbn [andb] in Hyx.
    rewrite Z.div_small, Z.add_0_r in Hyx by lia.
    pose proof (day_from_year_mono (y + 1) (1900 + y) ltac:(lia)).
    assert (0 <= month_start (1900 + y) ((m - 1) mod 12)); [|lia].
    unfold month_start. rewrite Z.mod_small by lia.
    destruct (lookup_lt_is_Some_2 (month_lengths (1900 + y)) (Z.to_nat (m - 1))) as [n' Hn'];
      [change (length (month_lengths (1900 + y))) with 12%nat; lia|].
    exact (proj1 (take_month_bound _ _ _ Hn')).
Qed.

(** ** Texts *)
Lemma class_run min max g p q :
  Matches false (Rep (Class false [Digit]) min max g) p q
  <-> exists l, forallb is_digit l = true /\ (min <= length l)%nat /\ within max (length l)
      /\ p.2 = l ++ q.2 /\ q.1 = match last l with Some c => Some c | None => p.1 end.
Proof.
  assert (forall n p q, nsteps (Matches false (Class false [Digit])) n p q
    <-> exists l, forallb is_digit l = true /\ length l = n /\ p.2 = l ++ q.2
        /\ q.1 = match last l with Some c => Some c | None => p.1 end) as H.
  { clear. intros n. induction n as [|n IH]; intros p q.
    - split.
      + intros H. inversion H; subst. by exists [].
      + intros ([|] & _ & Hl & E1 & E2); [|done]. destruct p, q; cbn in *; subst. constructor.
    - split.
      + intros H. inversion H as [|? ? p' ? (c & rest & E1 & Hc & ->) Hs]; subst.
        apply IH in Hs as (l & Hl & <- & E2 & E3). exists (c :: l). cbn in *.
        split_and!; [|done|by rewrite E1, E2|rewrite E3, last_cons; by destruct (last l)].
        rewrite Hl, andb_true_r. unfold class_in in Hc. cbn in Hc. by destruct (is_digit c).
      + intros ([|c l] & Hl & Hn & E1 & E2); [done|]. cbn in *. apply andb_true_iff in Hl as [Hc Hl].
        injection Hn as Hn. apply nsteps_l with (Some c, l ++ q.2).
        * exists c, (l ++ q.2). split_and!; [done| |done]. unfold class_in. cbn. by rewrite Hc.
        * apply IH. exists l. split_and!; try done. rewrite E2, last_cons. by destruct (last l). }
  cbn [Matches]. split.
  - intros (n & H1 & H2 & (l & Hl & <- & E1 & E2)%H). by exists l.
  - intros (l & Hl & H1 & H2 & E1 & E2). exists (length l). split_and!; try done. apply H. by exists l.
Qed.

Lemma slash p q : Matches false (Class false [Range 47 47]) p q
  <-> p.2 = 47 :: q.2 /\ q.1 = Some 47.
Proof.
  cbn. unfold class_in. cbn. split.
  - intros (c & rest & E & Hc & ->). cbn. rewrite orb_false_r in Hc.
    assert (c = 47) as -> by (destruct ((47 <=? c) && (c <=? 47)) eqn:E'; [zbool; lia|done]). done.
  - intros [E1 E2]. exists 47, q.2. split_and!; [done|done|]. destruct q; cbn in *. by subst.
Qed.

(** The pattern: one or two digits, twice, and four digits, between slashes. *)
Lemma dateITA_shape s : test false dateITA_pattern s = true
  <-> exists g m a, s = g ++ 47 :: m ++ 47 :: a
      /\ forallb is_digit g = true /\ forallb is_digit m = true /\ forallb is_digit a = true
      /\ (1 <= length g <= 2)%nat /\ (1 <= length m <= 2)%nat /\ length a = 4%nat.
Proof.
  change dateITA_pattern with
    (Cat Bol (Cat (Rep (Class false [Digit]) 1 (Some 2%nat) true) (Cat (Class false [Range 47 47])
      (Cat (Rep (Class false [Digit]) 1 (Some 2%nat) true) (Cat (Class false [Range 47 47])
        (Cat (Rep (Class false [Digit]) 4 (Some 4%nat) true) Eol)))))).
  rewrite test_spec by done. split.
  - intros (p & q & Hp & p0 & (Hb & ->) & p1 & H1 & p2 & H2 & p3 & H3 & p4 & H4 & p5 & H5 & He & ->).
    apply class_run in H1 as (g & Hg & Lg1 & Lg2 & E1 & _).
    apply slash in H2 as [E2 _]. apply class_run in H3 as (m & Hm & Lm1 & Lm2 & E3 & _).
    apply slash in H4 as [E4 _]. apply class_run in H5 as (a & Ha & La1 & La2 & E5 & _).
    rewrite He, app_nil_r in E5. cbn in *. exists g, m, a.
    rewrite (places_start p s None Hp Hb eq_refl) in E1. cbn in E1.
    split_and!; try done; try lia. by rewrite E1, E2, E3, E4, E5.
  - intros (g & m & a & -> & Hg & Hm & Ha & Lg & Lm & La).
    set (e1 := match last g with Some c => Some c | None => None end).
    set (e3 := match last m with Some c => Some c | None => Some 47 end).
    set (e5 := match last a with Some c => Some c | None => Some 47 end).
    exists (None, g ++ 47 :: m ++ 47 :: a), (e5, []). split; [destruct g; cbn; left|].
    exists (None, g ++ 47 :: m ++ 47 :: a). split; [done|].
    exists (e1, 47 :: m ++ 47 :: a). split; [apply class_run; exists g; cbn; split_and!; done || lia|].
    exists (Some 47, m ++ 47 :: a). split; [by apply slash|].
    exists (e3, 47 :: a). split; [apply class_run; exists m; cbn; split_and!; done || lia|].
    exists (Some 47, a). split; [by apply slash|].
    exists (e5, []). split; [|done]. apply class_run. exists a. cbn. rewrite app_nil_r.
    split_and!; done || lia.
Qed.

Lemma split_at_slash g rest : forallb is_digit g = true ->
  split_on (Z.eqb 47) (g ++ 47 :: rest) = g :: split_on (Z.eqb 47) rest.
Proof.
  induction g as [|c g IH]; [done|]. cbn [forallb app split_on].
  intros [Hc Hg]%andb_true_iff. apply is_digit_range in Hc.
  rewrite (proj2 (Z.eqb_neq 47 c)) by lia. by rewrite IH.
Qed.

Lemma split_digits a : forallb is_digit a = true -> split_on (Z.eqb 47) a = [a].
Proof.
  induction a as [|c a IH]; [done|]. cbn [forallb split_on].
  intros [Hc Ha]%andb_true_iff. apply is_digit_range in Hc.
  rewrite (proj2 (Z.eqb_neq 47 c)) by lia. by rewrite IH.
Qed.

Lemma parse_decimal s acc : forallb is_digit s = true ->
  parse_digits 10 s (Some acc) = Some (decimal s acc).
Proof.
  revert acc. induction s as [|c s IH]; intros acc; [done|]. cbn [forallb parse_digits].
  intros [Hc Hs]%andb_true_iff. apply is_digit_range in Hc. unfold digit_val.
  replace ((48 <=? c) && (c <=? 57)) with true by (symmetry; apply andb_true_iff; lia).
  replace (c - 48 <? 10) with true by (symmetry; zlia). by rewrite IH.
Qed.

Lemma parseInt_decimal s : forallb is_digit s = true -> s <> [] -> parseInt 10 s = Num (decimal s 0).
Proof.
  destruct s as [|c s]; [done|]. intros H _. pose proof H as H'. cbn in H.
  apply andb_true_iff in H as [Hc _]. apply is_digit_range in Hc. unfold parseInt. cbn [drop_while].
  replace (is_space c) with false by (symmetry; unfold is_space; lia).
  assert (match c :: s with 45 :: s' => (-1, s') | 43 :: s' => (1, s') | _ => (1, c :: s) end
          = (1, c :: s)) as ->.
  { destruct c as [|q|q]; try lia; repeat (destruct q as [q|q|]; try lia; try done). }
  assert (parse_digits 10 (c :: s) None = parse_digits 10 (c :: s) (Some 0)) as ->.
  { cbn [parse_digits]. unfold digit_val.
    replace ((48 <=? c) && (c <=? 57)) with true by (symmetry; apply andb_true_iff; lia).
    by replace (c - 48 <? 10) with true by (symmetry; zlia). }
  rewrite parse_decimal by done. f_equal. lia.
Qed.

Lemma decimal_nonneg s acc : forallb is_digit s = true -> 0 <= acc -> 0 <= decimal s acc.
Proof.
  revert acc. induction s as [|c s IH]; intros acc H Ha; [done|]. cbn in H.
  apply andb_true_iff in H as [Hc H]. apply is_digit_range in Hc. cbn. apply IH; [done|lia].
Qed.

(** DateITA accepts exactly the dates of the calendar written with one or two
    digits for the day and the month and four for the year, leap years included,
    of the years from 100 on: the years 0000 to 0099 are taken for those of the
    twentieth century and refused. *)
Theorem dateITA_calendar s : dateITA_check s = true
  <-> exists g m a, s = g ++ js "/" ++ m ++ js "/" ++ a
      /\ forallb is_digit g = true /\ forallb is_digit m = true /\ forallb is_digit a = true
      /\ (1 <= length g <= 2)%nat /\ (1 <= length m <= 2)%nat /\ length a = 4%nat
      /\ calendar_date (decimal a 0) (decimal m 0) (decimal g 0).
Proof.
  change (js "/") with [47]. unfold dateITA_check.
  assert (forall g m a, forallb is_digit g = true -> forallb is_digit m = true ->
    forallb is_digit a = true -> (1 <= length g)%nat -> (1 <= length m)%nat -> length a = 4%nat ->
    map (parseInt 10) (split_on (Z.eqb 47) (g ++ 47 :: m ++ 47 :: a))
    = [Num (decimal g 0); Num (decimal m 0); Num (decimal a 0)]) as Hmap.
  { intros g m a Hg Hm Ha Lg Lm La. rewrite !split_at_slash, split_digits by done. cbn [map].
    rewrite !parseInt_decimal; try done; intros ->; cbn in *; lia. }
  destruct (test false dateITA_pattern s) eqn:E.
  - apply dateITA_shape in E as (g & m & a & -> & Hg & Hm & Ha & Lg & Lm & La).
    rewrite Hmap by (done || lia). split.
    + intros H. exists g, m, a. do 7 (split; [done|]).
      by apply same_fields_calendar; [apply decimal_nonneg|].
    + intros (g' & m' & a' & Eq & Hg' & Hm' & Ha' & Lg' & Lm' & La' & Hc).
      pose proof (Hmap g m a Hg Hm Ha ltac:(lia) ltac:(lia) La) as E1.
      change (g' ++ [47] ++ m' ++ [47] ++ a') with (g' ++ 47 :: m' ++ 47 :: a') in Eq.
      cbn [app] in Eq. rewrite Eq, Hmap in E1 by (done || lia). injection E1 as <- <- <-.
      by apply calendar_same_fields.
  - split; [done|]. intros (g & m & a & -> & Hg & Hm & Ha & Lg & Lm & La & _).
    rewrite <- not_true_iff_false in E. destruct E. apply dateITA_shape. by exists g, m, a.
Qed.
