(* ===== verification/Api.v ===== *)
(** * The public interface of the MQTT client
    (mqttws31.js: validate 130-145, Client 1569-2016).

    The interface is called by application code with any values, so it is
    modelled over JavaScript values: what is checked, in which order, which
    error is thrown, and what is then handed to [ClientImpl] (Client.v).

    Modelled choices: numbers are integers or [NaN]; objects are plain objects
    without accessors; the browser has [WebSocket], [localStorage] and
    [ArrayBuffer].  A [NaN] keep-alive interval or timeout acts as 0 in every
    use and is handed on as 0; a [NaN] version is neither below 3, above 4 nor
    equal to 3 or 4, and is handed on as 5, which is treated alike. *)

From stdpp Require Import base tactics list strings gmap numbers.
From Stdlib Require Import ZArith Lia.
From S2P Require Import Prelude PahoBase Utf8 Wire Client.
From S2P Require Import Regex.
Local Open Scope Z_scope.
Local Open Scope st_scope.

(** ** Values *)
Inductive value :=
  | Undefined
  | Null
  | Bool (b : bool)
  | Number (n : jsnum)
  | Str (s : jsstr)
  | Function (source : jsstr) (params : nat)
  | Array (l : list value)
  | Object (props : list (jsstr * value))
  | Binary (p : byte_view)
  | MessageObject (m : Message).

Abbreviation props := (list (jsstr * value)).

Definition typeof (v : value) : jsstr :=
  match v with
  | Undefined => js "undefined"
  | Bool _ => js "boolean"
  | Number _ => js "number"
  | Str _ => js "string"
  | Function _ _ => js "function"
  | _ => js "object"
  end.

Definition truthy (v : value) : bool :=
  match v with
  | Undefined | Null | Bool false | Number (Num 0) | Number NaN | Str [] => false
  | _ => true
  end.

(** Conversion to a string, as [+] does it. *)
Fixpoint to_str (v : value) : jsstr :=
  match v with
  | Undefined => js "undefined"
  | Null => js "null"
  | Bool true => js "true"
  | Bool false => js "false"
  | Number n => num_str n
  | Str s => s
  | Function source _ => source
  | Array l =>
      join (js ",") (map (λ x, match x with Undefined | Null => [] | _ => to_str x end) l)
  | Binary (Uint8Array bs) => join (js ",") (map dec bs)
  | Binary (ArrayBuffer _) => js "[object ArrayBuffer]"
  | Object _ | MessageObject _ => js "[object Object]"
  end.

Definition is_type (t : string) (v : value) : bool := jseqb (typeof v) (js t).

(** Properties of a plain object, in insertion order. *)
Fixpoint has_own (o : props) (key : jsstr) : bool :=
  match o with [] => false | p :: o' => jseqb p.1 key || has_own o' key end.

Fixpoint prop_get (o : props) (key : jsstr) : value :=
  match o with
  | [] => Undefined
  | p :: o' => if jseqb p.1 key then p.2 else prop_get o' key
  end.

Fixpoint prop_set (key : jsstr) (v : value) (o : props) : props :=
  match o with
  | [] => [(key, v)]
  | p :: o' => if jseqb p.1 key then (key, v) :: o' else p :: prop_set key v o'
  end.

Definition invalid {A} (e : ERROR) (v : jsstr) (what : jsstr) : result exn A :=
  Throw (Error (format e [v; what])).

(** ** validate *)
Fixpoint key_type (keys : list (jsstr * jsstr)) (key : jsstr) : option jsstr :=
  match keys with
  | [] => None
  | k :: keys' => if jseqb k.1 key then Some k.2 else key_type keys' key
  end.

Definition unknown_property (key : jsstr) (keys : list (jsstr * jsstr)) : jsstr :=
  js "Unknown property, " ++ key ++ js ". Valid properties are:"
  ++ concat (map (λ k, js " " ++ k.1) keys).

Fixpoint validate (obj : props) (keys : list (jsstr * jsstr)) : result exn unit :=
  match obj with
  | [] => Ret tt
  | (key, v) :: obj' =>
      match key_type keys key with
      | Some t =>
          if jseqb (typeof v) t then validate obj' keys
          else invalid INVALID_TYPE (typeof v) key
      | None => Throw (Error (unknown_property key keys))
      end
  end.

(** ** The object *)
Record api := mkApi {
  a_host : jsstr;
  a_port : jsnum;
  a_path : jsstr;
  a_uri : jsstr;
  a_client : client;
}.

Definition set_client (c : client) (a : api) : api :=
  mkApi (a_host a) (a_port a) (a_path a) (a_uri a) c.

Definition ws_uri : re := regex "^(wss?):\/\/((\[(.+)\])|([^\/]+?))(:(\d+))?(\/.*)$".

(** [a || b] on what two groups captured. *)
Definition capture_or (a b : option jsstr) : option jsstr :=
  match a with Some [] | None => b | _ => a end.

(** A surrogate pair counts once. *)
Fixpoint code_points (s : jsstr) : Z :=
  match s with
  | [] => 0
  | c :: s' =>
      if (0xD800 <=? c) && (c <=? 0xDBFF)
      then match s' with [] => 1 | _ :: s'' => 1 + code_points s'' end
      else 1 + code_points s'
  end.

(** The length loop on any value: [undefined] and [null] have no properties,
    and what has a positive [length] without being a string no [charCodeAt]. *)
Definition clientIdLength (v : value) : result exn Z :=
  let counted n := if 0 <? n then Throw TypeError else Ret 0 in
  match v with
  | Str s => Ret (code_points s)
  | Undefined | Null => Throw TypeError
  | Array l => counted (Z.of_nat (length l))
  | Binary (Uint8Array bs) => counted (Z.of_nat (length bs))
  | Function _ n => counted (Z.of_nat n)
  | Object o => match prop_get o (js "length") with Number (Num n) => counted n | _ => Ret 0 end
  | _ => Ret 0
  end.

Definition arg (args : list value) (i : nat) : value := default Undefined (args !! i).

Definition add_brackets (host : jsstr) : jsstr :=
  if negb (indexOf host (js ":") =? -1) && negb (jseqb (slice host 0 1) (js "["))
     && negb (jseqb (substr_from host (-1)) (js "]"))
  then js "[" ++ host ++ js "]" else host.

Definition host_uri (host : jsstr) (port : jsnum) (path : jsstr) : jsstr :=
  js "ws://" ++ host ++ js ":" ++ num_str port ++ path.

(** Host, port, path, URI and client identifier, from the arguments. *)
Definition client_address (args : list value) :
    result exn (jsstr * jsnum * jsstr * jsstr * value) :=
  match arg args 0 with
  | Str host =>
      if (length args =? 2)%nat then
        match exec false ws_uri host with
        | Some caps =>
            Ret (default [] (capture_or (caps 4%nat) (caps 2%nat)),
                 parseInt 10 (default (js "undefined") (caps 7%nat)),
                 default [] (caps 8%nat), host, arg args 1)
        | None => invalid INVALID_ARGUMENT host (js "host")
        end
      else
        let three := (length args =? 3)%nat in
        let clientId := if three then arg args 2 else arg args 3 in
        let path := if three then Str (js "/mqtt") else arg args 2 in
        match arg args 1 with
        | Number port =>
            if match port with Num z => z <? 0 | NaN => false end
            then invalid INVALID_TYPE (js "number") (js "port")
            else match path with
                 | Str path =>
                     Ret (host, port, path, host_uri (add_brackets host) port path, clientId)
                 | v => invalid INVALID_TYPE (typeof v) (js "path")
                 end
        | v => invalid INVALID_TYPE (typeof v) (js "port")
        end
  | v => invalid INVALID_TYPE (typeof v) (js "host")
  end.

(** [new Client(...)]. *)
Definition new_Client (args : list value) (localStorage : gmap jsstr StoredMessage) :
    result exn api :=
  let* (host, port, path, uri, clientId) := client_address args in
  n <-? clientIdLength clientId ;;
  match clientId with
  | Str id =>
      if n >? 65535 then invalid INVALID_ARGUMENT id (js "clientId")
      else
        client <-? new_ClientImpl true true true uri host port path id localStorage ;;
        Ret (mkApi host port path uri client)
  | v => invalid INVALID_ARGUMENT (to_str v) (js "clientId")
  end.

(** ** connect

    The checks complete the object they are given: the state is that object
    and the variable [uri] of the constructor, which the loop over the hosts
    assigns. *)
Record checking := mkChecking { ck_options : props; ck_uri : jsstr }.

Abbreviation Chk := (St checking exn).

Definition option_of (key : string) : Chk value := get (λ s, prop_get (ck_options s) (js key)).
Definition set_option (key : string) (v : value) : Chk unit :=
  modify (λ s, mkChecking (prop_set (js key) v (ck_options s)) (ck_uri s)).

Definition connect_keys : list (jsstr * jsstr) :=
  [(js "timeout", js "number"); (js "userName", js "string"); (js "password", js "string");
   (js "willMessage", js "object"); (js "keepAliveInterval", js "number");
   (js "cleanSession", js "boolean"); (js "useSSL", js "boolean");
   (js "invocationContext", js "object"); (js "onSuccess", js "function");
   (js "onFailure", js "function"); (js "hosts", js "object"); (js "ports", js "object");
   (js "mqttVersion", js "number")].

Definition is_undefined (v : value) : bool := is_type "undefined" v.

Definition out_of_range (v : value) : bool :=
  match v with Number (Num z) => (z >? 4) || (z <? 3) | _ => false end.

Definition check_version : Chk unit :=
  v <- option_of "mqttVersion" ;;
  when (out_of_range v)
    (lift (invalid INVALID_ARGUMENT (to_str v) (js "connectOptions.mqttVersion"))) ;;
  if is_undefined v then
    set_option "mqttVersionExplicit" (Bool false) ;;
    set_option "mqttVersion" (Number (Num 4))
  else set_option "mqttVersionExplicit" (Bool true).

Definition check_password : Chk unit :=
  password <- option_of "password" ;;
  userName <- option_of "userName" ;;
  when (is_undefined password && negb (is_undefined userName))
    (lift (invalid INVALID_ARGUMENT (to_str password) (js "connectOptions.password"))).

(** The property [stringPayload] read here does not exist: nothing is checked. *)
Definition check_will : Chk unit :=
  v <- option_of "willMessage" ;;
  when (truthy v)
    (match v with
     | MessageObject m =>
         match destinationName m with
         | Some _ => ret tt
         | None => lift (invalid INVALID_TYPE (js "undefined")
                           (js "connectOptions.willMessage.destinationName"))
         end
     | _ => lift (invalid INVALID_TYPE (to_str v) (js "connectOptions.willMessage"))
     end).

Definition indexed (what : string) (i : nat) : jsstr :=
  js what ++ js "[" ++ dec (Z.of_nat i) ++ js "]".

Fixpoint check_hosts (i : nat) (hosts : list value) (usingURIs : bool) : result exn bool :=
  match hosts with
  | [] => Ret usingURIs
  | Str h :: rest =>
      if test false ws_uri h then
        if (i =? 0)%nat then check_hosts (S i) rest true
        else if negb usingURIs
        then invalid INVALID_ARGUMENT h (indexed "connectOptions.hosts" i)
        else check_hosts (S i) rest usingURIs
      else if usingURIs then invalid INVALID_ARGUMENT h (indexed "connectOptions.hosts" i)
      else check_hosts (S i) rest usingURIs
  | v :: _ => invalid INVALID_TYPE (typeof v) (indexed "connectOptions.hosts" i)
  end.

Definition bracketed (host : jsstr) : jsstr :=
  if negb (indexOf host (js ":") =? -1) then js "[" ++ host ++ js "]" else host.

Definition push_uri (u : jsstr) : Chk unit :=
  modify (λ s, mkChecking (ck_options s) u) ;;
  uris <- option_of "uris" ;;
  set_option "uris" (match uris with Array l => Array (l ++ [Str u]) | v => v end).

Fixpoint build_uris (i : nat) (path : jsstr) (hosts ports : list value) : Chk unit :=
  match hosts with
  | [] => ret tt
  | h :: hosts' =>
      match head ports with
      | Some (Number port) =>
          if match port with Num z => z <? 0 | NaN => false end
          then lift (invalid INVALID_TYPE (js "number") (indexed "connectOptions.ports" i))
          else
            push_uri (host_uri (bracketed (to_str h)) port path) ;;
            build_uris (S i) path hosts' (tail ports)
      | v => lift (invalid INVALID_TYPE (typeof (default Undefined v))
                     (indexed "connectOptions.ports" i))
      end
  end.

Definition check_servers (path : jsstr) : Chk unit :=
  hosts <- option_of "hosts" ;;
  when (truthy hosts)
    (let bad_hosts := invalid INVALID_ARGUMENT (to_str hosts) (js "connectOptions.hosts") in
     match hosts with
     | Array [] => lift bad_hosts
     | Array hs =>
         usingURIs <- lift (check_hosts 0 hs false) ;;
         if usingURIs : bool then set_option "uris" hosts
         else
           ports <- option_of "ports" ;;
           let bad := lift (invalid INVALID_ARGUMENT (to_str ports) (js "connectOptions.ports")) in
           match ports with
           | Array ps =>
               if (length hs =? length ps)%nat then
                 set_option "uris" (Array []) ;;
                 build_uris 0 path hs ps
               else bad
           | _ => bad
           end
     | _ => lift bad_hosts
     end).

Definition check_connect (path : jsstr) : Chk unit :=
  o <- get ck_options ;;
  lift (validate o connect_keys) ;;
  keepAlive <- option_of "keepAliveInterval" ;;
  when (is_undefined keepAlive) (set_option "keepAliveInterval" (Number (Num 60))) ;;
  check_version ;;
  check_password ;;
  check_will ;;
  cleanSession <- option_of "cleanSession" ;;
  when (is_undefined cleanSession) (set_option "cleanSession" (Bool true)) ;;
  check_servers path.

(** The options as [ClientImpl] reads them. *)
Definition num_or (d : Z) (v : value) : Z := match v with Number (Num z) => z | _ => d end.
Definition str_opt (v : value) : option jsstr := match v with Str s => Some s | _ => None end.
Definition bool_of (v : value) : bool := match v with Bool b => b | _ => false end.

Definition read_options (o : props) : ConnectOptions :=
  let p key := prop_get o (js key) in
  mkConnectOptions
    (match p "timeout" with Number (Num z) => Some z | _ => None end)
    (str_opt (p "userName")) (str_opt (p "password"))
    (match p "willMessage" with MessageObject m => Some m | _ => None end)
    (num_or 0 (p "keepAliveInterval")) (bool_of (p "cleanSession")) (bool_of (p "useSSL"))
    (truthy (p "onSuccess")) (truthy (p "onFailure"))
    (match p "uris" with Array l => Some (map to_str l) | _ => None end)
    (num_or 5 (p "mqttVersion")) (bool_of (p "mqttVersionExplicit")).

(** ** The methods *)
Abbreviation A := (St api exn).

Definition on_client (k : C unit) : A unit := λ a,
  let '(r, c) := k (a_client a) in (r, set_client c a).

(** The caller's object is returned as the call leaves it; a missing argument
    is a fresh object. *)
Definition api_connect (connectOptions : props) : api -> result exn unit * api * props := λ a,
  match check_connect (a_path a) (mkChecking connectOptions (a_uri a)) with
  | (r, s) =>
      let a := mkApi (a_host a) (a_port a) (a_path a) (ck_uri s) (a_client a) in
      match r with
      | Ret _ =>
          let '(r, a) := on_client (connect (read_options (ck_options s))) a in
          (r, a, ck_options s)
      | Throw e => (Throw e, a, ck_options s)
      end
  end.

Definition subscribe_keys : list (jsstr * jsstr) :=
  [(js "qos", js "number"); (js "invocationContext", js "object");
   (js "onSuccess", js "function"); (js "onFailure", js "function"); (js "timeout", js "number")].

Definition unsubscribe_keys : list (jsstr * jsstr) := tail subscribe_keys.

Definition subscribe_options (o : props) : SubscribeOptions :=
  let p key := prop_get o (js key) in
  mkSubscribeOptions
    (match p "qos" with Number (Num z) => Some z | _ => None end)
    (truthy (p "onSuccess")) (truthy (p "onFailure"))
    (match p "timeout" with Number (Num z) => Some z | _ => None end).

Definition timeout_alone (o : props) : bool :=
  truthy (prop_get o (js "timeout")) && negb (truthy (prop_get o (js "onFailure"))).

Definition valid_qos (v : value) : bool :=
  match v with Number (Num z) => (z =? 0) || (z =? 1) || (z =? 2) | _ => false end.

Definition api_subscribe (filter : value) (o : props) : A unit :=
  match filter with
  | Str f =>
      lift (validate o subscribe_keys) ;;
      when (timeout_alone o)
        (throw (Error (js "subscribeOptions.timeout specified with no onFailure callback."))) ;;
      let q := prop_get o (js "qos") in
      when (negb (is_undefined q) && negb (valid_qos q))
        (lift (invalid INVALID_ARGUMENT (to_str q) (js "subscribeOptions.qos"))) ;;
      on_client (subscribe f (subscribe_options o))
  | v => throw (Error (js "Invalid argument:" ++ to_str v))
  end.

Definition api_unsubscribe (filter : value) (o : props) : A unit :=
  match filter with
  | Str f =>
      lift (validate o unsubscribe_keys) ;;
      when (timeout_alone o)
        (throw (Error (js "unsubscribeOptions.timeout specified with no onFailure callback."))) ;;
      on_client (unsubscribe f (subscribe_options o))
  | v => throw (Error (js "Invalid argument:" ++ to_str v))
  end.

(** [new Message(payload)] and its checked properties. *)
Definition make_Message (newPayload : value) : result exn Message :=
  match newPayload with
  | Str s => Ret (new_Message (PString s))
  | Binary (Uint8Array bs) => Ret (new_Message (PUint8Array bs))
  | Binary (ArrayBuffer bs) => Ret (new_Message (PArrayBuffer bs))
  | v => Throw (ThrownString (format INVALID_ARGUMENT [to_str v; js "newPayload"]))
  end.

Definition assign_destinationName (v : value) (m : Message) : result exn Message :=
  match v with
  | Str d => Ret (setDestinationName d m)
  | v => invalid INVALID_ARGUMENT (to_str v) (js "newDestinationName")
  end.

Definition assign_qos (v : value) (m : Message) : result exn Message :=
  match v with
  | Number (Num q) => setQos q m
  | v => Throw (Error (js "Invalid argument:" ++ to_str v))
  end.

Definition assign_retained (v : value) (m : Message) : result exn Message :=
  match v with
  | Bool b => Ret (setRetained b m)
  | v => invalid INVALID_ARGUMENT (to_str v) (js "newRetained")
  end.

Definition assign_duplicate (v : value) (m : Message) : Message := setDuplicate (truthy v) m.

(** The message [send(topic, payload, qos, retained)] builds. *)
Definition message_of (args : list value) : result exn Message :=
  m <-? make_Message (arg args 1) ;;
  m <-? assign_destinationName (arg args 0) m ;;
  m <-? (if (3 <=? length args)%nat then assign_qos (arg args 2) m else Ret m) ;;
  if (4 <=? length args)%nat then assign_retained (arg args 3) m else Ret m.

Definition api_send (args : list value) : A unit :=
  match args with
  | [] => throw (Error (js "Invalid argument." ++ js "length"))
  | [MessageObject m] =>
      match destinationName m with
      | Some _ => on_client (send m)
      | None => lift (invalid INVALID_ARGUMENT (js "undefined") (js "Message.destinationName"))
      end
  | [Str _] => lift (invalid INVALID_ARGUMENT (js "undefined") (js "Message.destinationName"))
  | [v] => throw (Error (js "Invalid argument:" ++ typeof v))
  | _ => m <- lift (message_of args) ;; on_client (send m)
  end.

Definition api_disconnect : A unit := on_client disconnect.
Definition isConnected (a : api) : bool := c_connected (a_client a).

(** Accessors.  The address and the identifier are read only. *)
Definition unsupported : A unit := throw (Error (format UNSUPPORTED_OPERATION [])).

Inductive accessor := AHost | APort | APath | AClientId.

Definition get_property (p : accessor) (a : api) : value :=
  match p with
  | AHost => Str (a_host a)
  | APort => Number (a_port a)
  | APath => Str (a_path a)
  | AClientId => Str (cf_clientId (c_cfg (a_client a)))
  end.

Definition set_property (p : accessor) (v : value) : A unit := unsupported.

Inductive callback := OnConnectionLostProp | OnMessageDeliveredProp | OnMessageArrivedProp.

Definition callback_name (c : callback) : jsstr :=
  match c with
  | OnConnectionLostProp => js "onConnectionLost"
  | OnMessageDeliveredProp => js "onMessageDelivered"
  | OnMessageArrivedProp => js "onMessageArrived"
  end.

Definition installed (c : callback) (h : handlers) : handlers :=
  match c with
  | OnConnectionLostProp => mkHandlers true (h_onMessageDelivered h) (h_onMessageArrived h)
  | OnMessageDeliveredProp => mkHandlers (h_onConnectionLost h) true (h_onMessageArrived h)
  | OnMessageArrivedProp => mkHandlers (h_onConnectionLost h) (h_onMessageDelivered h) true
  end.

Definition set_callback (c : callback) (v : value) : A unit :=
  if is_type "function" v then
    on_client (modify (λ cl, set_handlers (installed c (c_handlers cl)) cl))
  else lift (invalid INVALID_TYPE (typeof v) (callback_name c)).
