(* ===== verification/ApiFacts.v ===== *)
(** * What the public interface guarantees

    What [connect] and [send] accept and hand on, and what goes wrong with options
    used twice or a password alone; then every call as the one request it asks of
    the client, which is always a reachable one (so the theorems of the other
    files hold for it). *)

From stdpp Require Import base tactics list strings gmap numbers.
From Stdlib Require Import ZArith Lia.
From S2P Require Import Prelude PahoBase Utf8 Wire Client.
From S2P Require Import Regex Api.
Local Open Scope Z_scope.
Local Open Scope st_scope.

(** ** Calls of the interface *)
Inductive request :=
  | RConnect (o : props)
  | RSubscribe (filter : value) (o : props)
  | RUnsubscribe (filter : value) (o : props)
  | RSend (args : list value)
  | RDisconnect
  | RSetProperty (p : accessor) (v : value)
  | RSetCallback (c : callback) (v : value)
  | RSocketOpened
  | RSocketData (data : list Z)
  | RSocketErrored (data : jsstr)
  | RSocketClosed
  | RTimerFires (t : nat).

Definition on_event (e : event) : A unit := on_client (run_event e).

(** What a call returns, and the object after it. *)
Definition api_call (r : request) : A unit :=
  match r with
  | RConnect o => λ a, (api_connect o a).1
  | RSubscribe f o => api_subscribe f o
  | RUnsubscribe f o => api_unsubscribe f o
  | RSend args => api_send args
  | RDisconnect => api_disconnect
  | RSetProperty p v => set_property p v
  | RSetCallback c v => set_callback c v
  | RSocketOpened => on_event SocketOpened
  | RSocketData d => on_event (SocketData d)
  | RSocketErrored d => on_event (SocketErrored d)
  | RSocketClosed => on_event SocketClosed
  | RTimerFires t => on_event (TimerFires t)
  end.

Definition run_request (r : request) (a : api) : api := snd (api_call r a).

Lemma on_client_run k a : on_client k a = (fst (k (a_client a)), set_client (snd (k (a_client a))) a).
Proof. unfold on_client. by destruct (k (a_client a)). Qed.

Lemma steps_snoc c es c' e : steps c es c' -> steps c (es ++ [e]) (snd (run_event e c')).
Proof.
  induction 1; cbn; [|econstructor; eauto].
  econstructor; [|constructor]. destruct (run_event e c) as [r c'] eqn:E. by econstructor.
Qed.

Lemma new_Client_reachable args st a : new_Client args st = Ret a -> reachable (a_client a).
Proof.
  unfold new_Client. destruct (client_address args) as [[[[[host port] path] uri] v]|]; [|done].
  cbv beta iota delta [rbind]. destruct (clientIdLength v) as [n|]; [|done].
  destruct v; try done. destruct (n >? 65535); [done|].
  destruct (new_ClientImpl true true true uri host port path s st) as [c|] eqn:E; [|done].
  intros [= <-]. exists uri, host, port, path, s, st, c, []. split; [done|constructor].
Qed.

(** ** Properties of plain objects *)
Lemma jseqb_spec a b : reflect (a = b) (jseqb a b).
Proof. unfold jseqb. destruct (bool_decide_reflect (a = b)); by constructor. Qed.

Lemma prop_get_set k k' v o :
  prop_get (prop_set k v o) k' = if jseqb k k' then v else prop_get o k'.
Proof.
  induction o as [|[k0 v0] o IH]; cbn; [done|].
  destruct (jseqb_spec k0 k) as [->|Hne]; cbn.
  - by destruct (jseqb_spec k k').
  - destruct (jseqb_spec k0 k') as [->|]; [|done].
    destruct (jseqb_spec k k') as [->|]; [done|done].
Qed.

(** Evaluates the comparisons of literal keys. *)
Ltac keys :=
  repeat match goal with
  | |- context [jseqb (js ?a) (js ?b)] =>
      let r := eval vm_compute in (jseqb (js a) (js b)) in
      change (jseqb (js a) (js b)) with r
  | H : context [jseqb (js ?a) (js ?b)] |- _ =>
      let r := eval vm_compute in (jseqb (js a) (js b)) in
      change (jseqb (js a) (js b)) with r in H
  end; cbv iota.

Definition well_typed (keys : list (jsstr * jsstr)) (o : props) : Prop :=
  Forall (λ p, key_type keys p.1 = Some (typeof p.2)) o.

Lemma validate_ok keys o : validate o keys = Ret tt <-> well_typed keys o.
Proof.
  induction o as [|[k v] o IH]; cbn; [split; [constructor|done]|].
  split.
  - destruct (key_type keys k) as [t|] eqn:E; [|done].
    destruct (jseqb_spec (typeof v) t) as [<-|]; [|done].
    intros H. constructor; [done|by apply IH].
  - intros H. inversion H as [|? ? H1 H2]; subst. cbn in H1. rewrite H1.
    destruct (jseqb_spec (typeof v) (typeof v)); [by apply IH|done].
Qed.

Lemma well_typed_get keys o k :
  well_typed keys o -> key_type keys k = None -> prop_get o k = Undefined.
Proof.
  induction 1 as [|[k' v] o H Ho IH]; intros Hk; cbn; [done|].
  destruct (jseqb_spec k' k) as [->|]; [|auto]. cbn in H. congruence.
Qed.

(** ** What [connect] accepts *)
Definition with_default (key : string) (v : value) (o : props) : props :=
  if is_undefined (prop_get o (js key)) then prop_set (js key) v o else o.

Definition versioned (o : props) : props :=
  if is_undefined (prop_get o (js "mqttVersion")) then
    prop_set (js "mqttVersion") (Number (Num 4))
      (prop_set (js "mqttVersionExplicit") (Bool false) o)
  else prop_set (js "mqttVersionExplicit") (Bool true) o.

Definition completed (o : props) : props :=
  with_default "cleanSession" (Bool true)
    (versioned (with_default "keepAliveInterval" (Number (Num 60)) o)).

(** The servers named by the options. *)
Inductive servers (path : jsstr) : value -> value -> option (list jsstr) -> Prop :=
  | servers_none hosts ports : truthy hosts = false -> servers path hosts ports None
  | servers_uris hs ports : hs <> [] -> Forall (λ h, test false ws_uri h = true) hs ->
      servers path (Array (map Str hs)) ports (Some hs)
  | servers_hosts hs ps : hs <> [] -> Forall (λ h, test false ws_uri h = false) hs ->
      length hs = length ps -> Forall (λ p, forall z, p = Num z -> 0 <= z) ps ->
      servers path (Array (map Str hs)) (Array (map Number ps))
        (Some (zip_with (λ h p, host_uri (bracketed h) p path) hs ps)).

Definition accepted (path : jsstr) (o : props) (co : ConnectOptions) : Prop :=
  let p key := prop_get o (js key) in
  well_typed connect_keys o
  /\ co_timeout co = match p "timeout" with Number (Num z) => Some z | _ => None end
  /\ co_userName co = str_opt (p "userName")
  /\ co_password co = str_opt (p "password")
  /\ (co_userName co <> None -> co_password co <> None)
  /\ (forall m, co_willMessage co = Some m -> destinationName m <> None)
  /\ co_keepAliveInterval co = (if is_undefined (p "keepAliveInterval") then 60
                                else num_or 0 (p "keepAliveInterval"))
  /\ co_cleanSession co = (if is_undefined (p "cleanSession") then true
                           else bool_of (p "cleanSession"))
  /\ (if is_undefined (p "mqttVersion")
      then co_mqttVersion co = 4 /\ co_mqttVersionExplicit co = false
      else 3 <= co_mqttVersion co <= 5 /\ co_mqttVersionExplicit co = true
           /\ (co_mqttVersion co = 5 -> p "mqttVersion" = Number NaN))
  /\ servers path (p "hosts") (p "ports") (co_uris co).

Lemma check_hosts_rest i hs b b' : check_hosts (S i) hs b = Ret b' ->
  b' = b /\ exists l, hs = map Str l /\ Forall (λ h, test false ws_uri h = b) l.
Proof.
  revert i. induction hs as [|v hs IH]; intros i; cbn -[test].
  - intros [= ->]. split; [done|]. exists []. by split; [|constructor].
  - destruct v; try done. destruct (test false ws_uri s) eqn:E, b; cbn -[test]; try done;
      intros H; apply IH in H as (-> & l & -> & Hl); split; try done;
      (exists (s :: l); split; [done|by constructor]).
Qed.

Lemma check_hosts_ok hs b : check_hosts 0 hs false = Ret b -> hs <> [] ->
  exists l, hs = map Str l /\ l <> [] /\ Forall (λ h, test false ws_uri h = b) l.
Proof.
  destruct hs as [|v hs]; [done|]. cbn -[test]. destruct v; try done.
  destruct (test false ws_uri s) eqn:E; intros H _;
    apply check_hosts_rest in H as (-> & l & -> & Hl);
    (exists (s :: l); split_and!; [done|done|by constructor]).
Qed.

(** Inversion of a sequence of checks that returned. *)
Lemma when_throw {S Ex} (b : bool) (m : St S Ex unit) s s' :
  (forall t, exists e, fst (m t) = Throw e) -> when b m s = (Ret tt, s') -> b = false /\ s' = s.
Proof.
  intros H. destruct b; cbn; [|by intros [= <-]].
  destruct (H s) as [e He]. intros Hm. rewrite Hm in He. done.
Qed.

Ltac next_check H x :=
  apply bind_ret in H as (x & ? & [= <- <-] & H).

Lemma check_version_ok s s' : check_version s = (Ret tt, s') ->
  out_of_range (prop_get (ck_options s) (js "mqttVersion")) = false
  /\ s' = mkChecking (versioned (ck_options s)) (ck_uri s).
Proof.
  unfold check_version. intros H. next_check H v.
  apply bind_ret in H as ([] & s1 & Hw & H).
  apply when_throw in Hw as [Hr ->]; [|by eexists]. split; [done|].
  unfold versioned. destruct (is_undefined _); [|by inversion H].
  next_check H u. by inversion H.
Qed.

Lemma check_password_ok s s' : check_password s = (Ret tt, s') ->
  s' = s /\ is_undefined (prop_get (ck_options s) (js "password"))
            && negb (is_undefined (prop_get (ck_options s) (js "userName"))) = false.
Proof.
  unfold check_password. intros H. next_check H v. next_check H v.
  by apply when_throw in H as [? ->]; [|by eexists].
Qed.

Definition will_ok (v : value) : Prop :=
  truthy v = false \/ exists m, v = MessageObject m /\ destinationName m <> None.

Lemma check_will_ok s s' : check_will s = (Ret tt, s') ->
  s' = s /\ will_ok (prop_get (ck_options s) (js "willMessage")).
Proof.
  unfold check_will. intros H. next_check H v.
  destruct (truthy (prop_get (ck_options s) (js "willMessage"))) eqn:Et; cbn [when] in H.
  - destruct (prop_get (ck_options s) (js "willMessage")) as [| | | | | | | | |m]; try done.
    destruct (destinationName m) eqn:Ed; [|done]. split; [by inversion H|].
    right. exists m. split; [done|congruence].
  - split; [by inversion H|by left].
Qed.

Lemma build_uris_ok path hs : forall i ps acc s s',
  build_uris i path (map Str hs) ps s = (Ret tt, s') -> (length hs <= length ps)%nat ->
  prop_get (ck_options s) (js "uris") = Array (map Str acc) ->
  exists ns, take (length hs) ps = map Number ns /\ length ns = length hs
  /\ Forall (λ p, forall z, p = Num z -> 0 <= z) ns
  /\ prop_get (ck_options s') (js "uris")
     = Array (map Str (acc ++ zip_with (λ h p, host_uri (bracketed h) p path) hs ns))
  /\ forall k, jseqb (js "uris") k = false -> prop_get (ck_options s') k = prop_get (ck_options s) k.
Proof.
  induction hs as [|h hs IH]; intros i ps acc s s' H Hl Hu.
  { cbn in H. inversion H; subst. exists [].
    split_and!; [done|done|constructor|by rewrite app_nil_r|done]. }
  destruct ps as [|p ps]; [cbn in Hl; lia|]. cbn [map build_uris head] in H.
  destruct p as [| | |n| | | | | |]; try done.
  destruct (match n with Num z => z <? 0 | NaN => false end) eqn:En; [done|].
  apply bind_ret in H as ([] & s1 & Hp & H).
  assert (s1 = mkChecking (prop_set (js "uris")
            (Array (map Str (acc ++ [host_uri (bracketed h) n path]))) (ck_options s))
            (host_uri (bracketed h) n path)) as ->.
  { unfold push_uri, set_option, option_of, bind, get, modify in Hp. cbn in Hp.
    rewrite Hu in Hp. inversion Hp. by rewrite map_app. }
  apply (IH _ _ (acc ++ [host_uri (bracketed h) n path])) in H as (ns & H1 & H2 & H3 & H4 & H5).
  - exists (n :: ns). split_and!.
    + change (tail (Number n :: ps)) with ps in H1. cbn. by rewrite H1.
    + cbn. by rewrite H2.
    + constructor; [|done]. intros z ->. zbool. lia.
    + rewrite H4. cbn. by rewrite <- app_assoc.
    + intros k Hk. rewrite H5 by done. cbn. by rewrite prop_get_set, Hk.
  - cbn in Hl |- *. lia.
  - cbn. rewrite prop_get_set. by keys.
Qed.

Lemma check_servers_ok path s s' : check_servers path s = (Ret tt, s') ->
  prop_get (ck_options s) (js "uris") = Undefined ->
  exists uris, servers path (prop_get (ck_options s) (js "hosts"))
                 (prop_get (ck_options s) (js "ports")) uris
  /\ prop_get (ck_options s') (js "uris")
     = match uris with Some l => Array (map Str l) | None => Undefined end
  /\ forall k, jseqb (js "uris") k = false -> prop_get (ck_options s') k = prop_get (ck_options s) k.
Proof.
  unfold check_servers. intros H Hu. next_check H v.
  destruct (truthy (prop_get (ck_options s) (js "hosts"))) eqn:Et; cbn [when] in H.
  2: { inversion H; subst. exists None. split; [by apply servers_none|done]. }
  destruct (prop_get (ck_options s) (js "hosts")) as [| | | | | |hs| | |]; try done.
  destruct hs as [|h hs0]; [done|]. set (hs := h :: hs0) in *.
  apply bind_ret in H as (b & s1 & Hb & H). unfold lift in Hb.
  assert (check_hosts 0 hs false = Ret b) as Hc by congruence.
  assert (s1 = s) as -> by congruence. clear Hb.
  apply check_hosts_ok in Hc as (l & El & Hne & Hl); [|done]. rewrite El in *. destruct b.
  - inversion H; subst. cbn. exists (Some l). split; [by apply servers_uris|].
    split; [by rewrite prop_get_set; keys|]. intros k Hk. by rewrite prop_get_set, Hk.
  - next_check H v'.
    destruct (prop_get (ck_options s) (js "ports")) as [| | | | | |ps| | |]; try done.
    destruct (_ =? _)%nat eqn:En in H; [|done]. apply Nat.eqb_eq in En.
    rewrite length_map in En. apply bind_ret in H as ([] & s1 & H1 & H). inversion H1; subst s1.
    apply (build_uris_ok path l 0 ps []) in H as (ns & E1 & E2 & E3 & E4 & E5);
      [|lia|cbn; by rewrite prop_get_set; keys].
    rewrite En, take_ge in E1 by lia. subst ps.
    exists (Some (zip_with (λ h p, host_uri (bracketed h) p path) l ns)).
    split; [by apply servers_hosts|]. split; [done|].
    intros k Hk. rewrite E5 by done. cbn. by rewrite prop_get_set, Hk.
Qed.

Lemma set_default_ok key v s s' :
  when (is_undefined (prop_get (ck_options s) (js key))) (set_option key v) s = (Ret tt, s') ->
  s' = mkChecking (with_default key v (ck_options s)) (ck_uri s).
Proof.
  intros H. unfold with_default. destruct s, (is_undefined _); by inversion H.
Qed.

Lemma prop_get_with_default key v o k :
  prop_get (with_default key v o) k
  = if jseqb (js key) k && is_undefined (prop_get o k) then v else prop_get o k.
Proof.
  unfold with_default. destruct (jseqb_spec (js key) k) as [<-|Hne]; cbn.
  - destruct (is_undefined _); [|done]. rewrite prop_get_set.
    by destruct (jseqb_spec (js key) (js key)).
  - destruct (is_undefined _); [|done]. rewrite prop_get_set.
    by destruct (jseqb_spec (js key) k).
Qed.

Lemma prop_get_versioned o k :
  prop_get (versioned o) k
  = if jseqb (js "mqttVersion") k && is_undefined (prop_get o k) then Number (Num 4)
    else if jseqb (js "mqttVersionExplicit") k
    then Bool (negb (is_undefined (prop_get o (js "mqttVersion"))))
    else prop_get o k.
Proof.
  unfold versioned. destruct (jseqb_spec (js "mqttVersion") k) as [<-|Hne]; cbn [andb].
  - destruct (is_undefined (prop_get o (js "mqttVersion"))); rewrite ?prop_get_set; by keys.
  - destruct (is_undefined (prop_get o (js "mqttVersion"))); rewrite ?prop_get_set; [|done].
    by destruct (jseqb_spec (js "mqttVersion") k).
Qed.

(** Lookups in the completed options. *)
Ltac lookups :=
  unfold completed; rewrite ?prop_get_with_default, ?prop_get_versioned, ?prop_get_with_default;
  keys; cbn [andb].

(** A check that returned, read as a change of the options. *)
Lemma check_connect_ok path o u s' : check_connect path (mkChecking o u) = (Ret tt, s') ->
  well_typed connect_keys o
  /\ out_of_range (prop_get o (js "mqttVersion")) = false
  /\ (is_undefined (prop_get o (js "password"))
      && negb (is_undefined (prop_get o (js "userName"))) = false)
  /\ will_ok (prop_get o (js "willMessage"))
  /\ check_servers path (mkChecking (completed o) u) = (Ret tt, s').
Proof.
  unfold check_connect. intros H. next_check H o0.
  apply bind_ret in H as ([] & s1 & Hv & H).
  assert (s1 = mkChecking o u /\ validate o connect_keys = Ret tt) as [-> Hval]
    by (unfold lift in Hv; cbn [ck_options] in Hv; split; congruence).
  apply validate_ok in Hval. next_check H k.
  apply bind_ret in H as ([] & s2 & Hk & H). apply (set_default_ok _ _ (mkChecking o u)) in Hk as ->.
  apply bind_ret in H as ([] & s3 & Hver & H). apply check_version_ok in Hver as [Hr ->].
  apply bind_ret in H as ([] & s4 & Hpw & H). apply check_password_ok in Hpw as [-> Hpw].
  apply bind_ret in H as ([] & s5 & Hw & H). apply check_will_ok in Hw as [-> Hw].
  next_check H v. apply bind_ret in H as ([] & s7 & Hc & H).
  apply (set_default_ok _ _ (mkChecking _ _)) in Hc as ->.
  cbn [ck_options ck_uri] in *. split; [done|].
  revert Hr Hpw Hw. lookups. intros. by split_and!.
Qed.

Lemma well_typed_typeof keys o k t : well_typed keys o -> key_type keys k = Some t ->
  prop_get o k = Undefined \/ typeof (prop_get o k) = t.
Proof.
  induction 1 as [|[k' v] o H Ho IH]; intros Hk; cbn; [by left|].
  destruct (jseqb_spec k' k) as [->|]; [|auto]. cbn in H. right. congruence.
Qed.

Lemma checked_options path o u s : check_connect path (mkChecking o u) = (Ret tt, s) ->
  accepted path o (read_options (ck_options s))
  /\ will_ok (prop_get o (js "willMessage"))
  /\ (forall n, prop_get o (js "mqttVersion") = Number n ->
      prop_get (ck_options s) (js "mqttVersion") = Number n)
  /\ forall k, In k ["willMessage"; "useSSL"; "onSuccess"; "onFailure"]%string ->
     prop_get (ck_options s) (js k) = prop_get o (js k).
Proof.
  intros E. apply check_connect_ok in E as (Hty & Hr & Hpw & Hw & Hs).
  apply check_servers_ok in Hs as (uris & Hsrv & Hu & Hother).
  2: { cbn [ck_options]. lookups. by apply (well_typed_get connect_keys). }
  cbn [ck_options] in Hsrv, Hother. revert Hsrv. lookups. intros Hsrv. split.
  2: { split_and!; [done| |].
       - intros n Hn. rewrite Hother by (by keys). lookups. by rewrite Hn.
       - intros k [<-|[<-|[<-|[<-|[]]]]]; rewrite Hother by (by keys); lookups; done. }
  unfold accepted, read_options. cbn [co_timeout co_userName co_password co_willMessage
    co_keepAliveInterval co_cleanSession co_mqttVersion co_mqttVersionExplicit co_uris].
  rewrite Hu, !Hother by (by keys). lookups. split_and!; try done.
  - intros H1 H2.
    destruct (well_typed_typeof _ _ (js "password") (js "string") Hty) as [E|E]; [done| |].
    + rewrite E in Hpw. destruct (prop_get o (js "userName")); done.
    + destruct (prop_get o (js "password")); vm_compute in E; done.
  - intros m Hm. destruct Hw as [Hw|(m' & Hw & Hd)].
    + by destruct (prop_get o (js "willMessage")).
    + rewrite Hw in Hm. by injection Hm as ->.
  - by destruct (is_undefined (prop_get o (js "keepAliveInterval"))).
  - by destruct (is_undefined (prop_get o (js "cleanSession"))).
  - destruct (well_typed_typeof _ _ (js "mqttVersion") (js "number") Hty) as [E|E]; [done| |].
    + by rewrite E.
    + destruct (prop_get o (js "mqttVersion")) as [| | |[z|]| | | | | |]; vm_compute in E; try done.
      cbn in *. change (is_undefined (Number (Num z))) with false. cbn.
      split_and!; [zlia|zlia|done|lia].
  - destruct uris as [l|]; [|done]. rewrite map_map, map_id. done.
Qed.

(** C21: [connect] either throws without touching the client, or hands it
    options that are complete and sound: every property has its type, the
    defaults are filled in, the version is 3 or 4 (or [NaN]), a user name comes with a
    password, a will with its destination, and the list of servers is the given
    URIs or is built from as many hosts as ports, never empty. *)
Theorem connect_checked o a r a' o' :
  api_connect o a = (r, a', o') ->
  ((exists e, r = Throw e) /\ a_client a' = a_client a)
  \/ exists co, accepted (a_path a) o co /\ (r, a_client a') = connect co (a_client a).
Proof.
  unfold api_connect.
  destruct (check_connect (a_path a) (mkChecking o (a_uri a))) as [[[]|e] s] eqn:E.
  2: { intros [= <- <- <-]. left. split; [by eexists|done]. }
  unfold on_client. cbn [a_client]. destruct (connect (read_options (ck_options s)) (a_client a))
    as [r0 c] eqn:Ec. intros [= <- <- <-]. right. exists (read_options (ck_options s)).
  split; [|by cbn; symmetry].
  by apply checked_options in E as [E _].
Qed.

(** ** Options used twice *)

(** The checks leave their mark after well-typed properties. *)
Definition stamped (o : props) : Prop :=
  exists o1 v rest, o = o1 ++ (js "mqttVersionExplicit", v) :: rest
                    /\ well_typed connect_keys o1.

Lemma stamped_set o k v : stamped o -> k <> js "mqttVersionExplicit" ->
  key_type connect_keys k = Some (typeof v) \/ key_type connect_keys k = None ->
  stamped (prop_set k v o).
Proof.
  intros (o1 & w & rest & -> & Ho1) Hk Hty.
  induction Ho1 as [|[k1 v1] o1 H1 Ho1 IH].
  - exists [], w, (prop_set k v rest). split; [|constructor]. cbn.
    by destruct (jseqb_spec (js "mqttVersionExplicit") k); [congruence|].
  - cbn. destruct (jseqb_spec k1 k) as [->|Hne].
    + exists ((k, v) :: o1), w, rest. split; [done|]. constructor; [|done]. cbn in *.
      destruct Hty; congruence.
    + destruct IH as (o2 & w2 & rest2 & E & Ho2).
      exists ((k1, v1) :: o2), w2, rest2. split; [by rewrite E|by constructor].
Qed.

Lemma well_typed_set o k v : well_typed connect_keys o ->
  key_type connect_keys k = Some (typeof v) -> well_typed connect_keys (prop_set k v o).
Proof.
  intros Ho Hk. induction Ho as [|[k1 v1] o H1 Ho IH]; cbn; [by repeat constructor|].
  destruct (jseqb_spec k1 k) as [->|]; by constructor.
Qed.

Lemma stamped_explicit o v : well_typed connect_keys o ->
  stamped (prop_set (js "mqttVersionExplicit") v o).
Proof.
  intros Ho. exists o, v, []. split; [|done].
  induction Ho as [|[k1 v1] o H1 Ho IH]; cbn; [done|].
  destruct (jseqb_spec k1 (js "mqttVersionExplicit")) as [->|]; [|by rewrite IH].
  vm_compute in H1. done.
Qed.

Lemma stamped_completed o : well_typed connect_keys o -> stamped (completed o).
Proof.
  intros Ho. unfold completed, versioned.
  assert (well_typed connect_keys (with_default "keepAliveInterval" (Number (Num 60)) o)) as H1.
  { unfold with_default. destruct (is_undefined _); [by apply well_typed_set|done]. }
  unfold with_default at 1. destruct (is_undefined _);
    [apply stamped_set; [|done|by left]|];
    (destruct (is_undefined _); [|by apply stamped_explicit]);
    (apply stamped_set; [by apply stamped_explicit|done|by left]).
Qed.

Lemma stamped_uri u s s' : stamped (ck_options s) -> push_uri u s = (Ret tt, s') ->
  stamped (ck_options s').
Proof.
  intros Hs H. unfold push_uri, set_option, option_of, bind, get, modify in H.
  inversion H; subst; cbn. apply stamped_set; [done|done|by right].
Qed.

Lemma stamped_build path hs : forall i ps s s',
  stamped (ck_options s) -> build_uris i path hs ps s = (Ret tt, s') -> stamped (ck_options s').
Proof.
  induction hs as [|h hs IH]; intros i ps s s' Hs H; [by inversion H; subst|].
  cbn [build_uris] in H. destruct (head ps) as [v|]; [|done].
  destruct v as [| | |n| | | | | |]; try done.
  destruct (match n with Num z => z <? 0 | NaN => false end); [done|].
  apply bind_ret in H as ([] & s1 & Hp & H). eapply IH; [|done]. by eapply stamped_uri.
Qed.

Lemma stamped_servers path s s' : stamped (ck_options s) ->
  check_servers path s = (Ret tt, s') -> stamped (ck_options s').
Proof.
  intros Hs H. unfold check_servers in H. next_check H v.
  destruct (truthy (prop_get (ck_options s) (js "hosts"))); cbn [when] in H;
    [|by inversion H; subst].
  destruct (prop_get (ck_options s) (js "hosts")) as [| | | | | |hs| | |]; try done.
  destruct hs as [|h hs]; [done|].
  apply bind_ret in H as (b & s1 & Hb & H).
  assert (s1 = s) as -> by (unfold lift in Hb; congruence). destruct b.
  - inversion H; subst; cbn. apply stamped_set; [done|done|by right].
  - next_check H v'.
    destruct (prop_get (ck_options s) (js "ports")) as [| | | | | |ps| | |]; try done.
    destruct (_ =? _)%nat in H; [|done]. apply bind_ret in H as ([] & s1 & H1 & H).
    inversion H1; subst s1. eapply stamped_build; [|done].
    apply stamped_set; [done|done|by right].
Qed.

Lemma validate_stamped o : stamped o ->
  validate o connect_keys
  = Throw (Error (unknown_property (js "mqttVersionExplicit") connect_keys)).
Proof.
  intros (o1 & v & rest & -> & Ho). induction Ho as [|[k1 v1] o1 H1 Ho IH]; [done|].
  cbn [app validate]. cbn [fst snd] in H1. rewrite H1.
  by destruct (jseqb_spec (typeof v1) (typeof v1)).
Qed.

(** An options object serves one connection only: once [connect] has
    accepted it and passed it on, any [connect] given the same object again, on
    this client or another, throws that [mqttVersionExplicit], which the first
    call added, is an unknown property. *)
Theorem connect_options_single_use o a a1 o1 b :
  api_connect o a = (Ret tt, a1, o1) ->
  api_connect o1 b
  = (Throw (Error (unknown_property (js "mqttVersionExplicit") connect_keys)), b, o1).
Proof.
  unfold api_connect at 1.
  destruct (check_connect (a_path a) (mkChecking o (a_uri a))) as [[[]|e] s] eqn:E; [|done].
  unfold on_client. cbn [a_client].
  destruct (connect (read_options (ck_options s)) (a_client a)) as [r c].
  intros [= _ _ <-]. apply check_connect_ok in E as (Hty & _ & _ & _ & Hs).
  apply stamped_servers in Hs; [|by apply stamped_completed].
  unfold api_connect, check_connect, bind, lift, get. cbn [ck_options].
  rewrite validate_stamped by done. by destruct b.
Qed.

(** The check of user name and password is the reverse of what its comment
    says: a password without a user name is accepted and sent in a CONNECT whose
    flags announce a password and no user name (0x42), and a user name without a
    password is refused before anything is done. *)
Theorem password_without_user_name a p u :
  (exists co o', co_userName co = None /\ co_password co = Some p /\ connect_flags co = 0x42
   /\ forall r c, connect co (a_client a) = (r, c) ->
      api_connect [(js "password", Str p)] a = (r, set_client c a, o'))
  /\ api_connect [(js "userName", Str u)] a
     = (Throw (Error (format INVALID_ARGUMENT [js "undefined"; js "connectOptions.password"])), a,
        [(js "userName", Str u); (js "keepAliveInterval", Number (Num 60));
         (js "mqttVersionExplicit", Bool false); (js "mqttVersion", Number (Num 4))]).
Proof.
  split.
  - set (o := [(js "password", Str p); (js "keepAliveInterval", Number (Num 60));
               (js "mqttVersionExplicit", Bool false); (js "mqttVersion", Number (Num 4));
               (js "cleanSession", Bool true)]).
    exists (read_options o), o. split_and!; [done..|]. intros r c Hc. unfold api_connect.
    assert (check_connect (a_path a) (mkChecking [(js "password", Str p)] (a_uri a))
            = (Ret tt, mkChecking o (a_uri a))) as -> by (vm_compute; reflexivity).
    unfold on_client. cbn [a_client ck_options]. by rewrite Hc.
  - unfold api_connect.
    assert (check_connect (a_path a) (mkChecking [(js "userName", Str u)] (a_uri a))
      = (Throw (Error (format INVALID_ARGUMENT [js "undefined"; js "connectOptions.password"])),
         mkChecking [(js "userName", Str u); (js "keepAliveInterval", Number (Num 60));
           (js "mqttVersionExplicit", Bool false); (js "mqttVersion", Number (Num 4))] (a_uri a)))
      as -> by (vm_compute; reflexivity).
    by destruct a.
Qed.

(** ** Sending *)
Definition payload_of (v : value) : option payload :=
  match v with
  | Str s => Some (PString s)
  | Binary (Uint8Array bs) => Some (PUint8Array bs)
  | Binary (ArrayBuffer bs) => Some (PArrayBuffer bs)
  | _ => None
  end.

(** The arguments that describe a message. *)
Inductive args_message : list value -> Message -> Prop :=
  | args_one m d : destinationName m = Some d -> args_message [MessageObject m] m
  | args_two t v p : payload_of v = Some p ->
      args_message [Str t; v] (mkMessage p (Some t) 0 false false)
  | args_three t v p q : payload_of v = Some p -> 0 <= q <= 2 ->
      args_message [Str t; v; Number (Num q)] (mkMessage p (Some t) q false false)
  | args_four t v p q r rest : payload_of v = Some p -> 0 <= q <= 2 ->
      args_message (Str t :: v :: Number (Num q) :: Bool r :: rest)
        (mkMessage p (Some t) q r false).

Lemma make_Message_spec v :
  (exists p, payload_of v = Some p /\ make_Message v = Ret (mkMessage p None 0 false false))
  \/ (payload_of v = None /\ exists e, make_Message v = Throw e).
Proof. destruct v as [| | | | | | | |[]|]; cbn; eauto 6. Qed.

Lemma setQos_spec q m : (0 <= q <= 2 /\ setQos q m
    = Ret (mkMessage (msg_payload m) (destinationName m) q (retained m) (duplicate m)))
  \/ (~ (0 <= q <= 2) /\ exists e, setQos q m = Throw e).
Proof.
  unfold setQos. destruct (_ || _) eqn:E; [left|right; split; [|by eexists]].
  - split; [|done]. apply orb_true_iff in E as [E|E]; [apply orb_true_iff in E as [E|E]|]; lia.
  - zbool. lia.
Qed.

Lemma message_of_spec args : (2 <= length args)%nat ->
  (exists m, args_message args m /\ message_of args = Ret m)
  \/ ((forall m, ~ args_message args m) /\ exists e, message_of args = Throw e).
Proof.
  intros Hl. destruct args as [|t [|v rest]]; cbn in Hl; try lia. unfold message_of.
  change (arg (t :: v :: rest) 1) with v. change (arg (t :: v :: rest) 0) with t.
  destruct (make_Message_spec v) as [(p & Hp & ->)|(Hp & e & ->)]; cbn [rbind].
  2: { right. split; [|by eexists]. intros ? Hm. inversion Hm; subst; congruence. }
  destruct t; try (right; split; [intros ? Hm; inversion Hm|by eexists]).
  cbn [assign_destinationName rbind]. destruct rest as [|vq rest].
  { left. eexists. split; [by apply args_two|done]. }
  change (3 <=? length (Str s :: v :: vq :: rest))%nat with true. cbv iota.
  change (arg (Str s :: v :: vq :: rest) 2) with vq.
  destruct vq as [| | |[q|]| | | | | |];
    try (right; split; [intros ? Hm; inversion Hm|by eexists]).
  cbn [assign_qos]. destruct (setQos_spec q (setDestinationName s (mkMessage p None 0 false false)))
    as [[Hq ->]|(Hq & e & ->)]; cbn [rbind].
  2: { right. split; [|by eexists]. intros ? Hm. inversion Hm; subst; tauto. }
  destruct rest as [|vr rest]; [left; eexists; split; [by apply args_three|done]|].
  change (4 <=? length (Str s :: v :: Number (Num q) :: vr :: rest))%nat with true. cbv iota.
  change (arg (Str s :: v :: Number (Num q) :: vr :: rest) 3) with vr.
  destruct vr; try (right; split; [intros ? Hm; inversion Hm|by eexists]).
  left. eexists. split; [by apply args_four|done].
Qed.

(** [send] publishes exactly the message its arguments describe (a message
    object with a destination, or a topic and a payload with an optional qos 0,
    1 or 2 and retained flag); any other arguments throw and leave the client as
    it was. *)
Theorem send_checked args a :
  (exists m, args_message args m /\ api_send args a = on_client (send m) a)
  \/ ((forall m, ~ args_message args m) /\ exists e, api_send args a = (Throw e, a)).
Proof.
  destruct args as [|v [|v' args]].
  - right. split; [intros m Hm; inversion Hm|by eexists].
  - destruct v; try (right; split; [intros m' Hm; by inversion Hm|by eexists]). cbn [api_send].
    destruct (destinationName m) eqn:E.
    + left. exists m. split; [by eapply args_one|done].
    + right. split; [intros m' Hm; inversion Hm; subst; congruence|by eexists].
  - assert (api_send (v :: v' :: args)
        = bind (lift (message_of (v :: v' :: args))) (λ m, on_client (send m))) as ->
      by (by destruct v).
    destruct (message_of_spec (v :: v' :: args)) as [(m & Hm & E)|(Hm & e & E)];
      [cbn; lia|left; exists m|right; split; [done|exists e]]; unfold bind, lift; by rewrite E.
Qed.

(** ** The whole interface

    What each call asks of the client, said of its arguments; a call that asks for
    nothing throws. *)
Definition subscribe_accepts (o : props) (so : SubscribeOptions) : Prop :=
  let p key := prop_get o (js key) in
  well_typed [(js "qos", js "number"); (js "invocationContext", js "object");
              (js "onSuccess", js "function"); (js "onFailure", js "function");
              (js "timeout", js "number")] o
  /\ (truthy (p "timeout") = true -> truthy (p "onFailure") = true)
  /\ match so_qos so with
     | Some q => p "qos" = Number (Num q) /\ 0 <= q <= 2
     | None => p "qos" = Undefined
     end
  /\ so_onSuccess so = truthy (p "onSuccess") /\ so_onFailure so = truthy (p "onFailure")
  /\ so_timeout so = match p "timeout" with Number (Num z) => Some z | _ => None end.

Definition unsubscribe_accepts (o : props) (so : SubscribeOptions) : Prop :=
  let p key := prop_get o (js key) in
  well_typed [(js "invocationContext", js "object"); (js "onSuccess", js "function");
              (js "onFailure", js "function"); (js "timeout", js "number")] o
  /\ (truthy (p "timeout") = true -> truthy (p "onFailure") = true)
  /\ so_qos so = None
  /\ so_onSuccess so = truthy (p "onSuccess") /\ so_onFailure so = truthy (p "onFailure")
  /\ so_timeout so = match p "timeout" with Number (Num z) => Some z | _ => None end.

(** [accepted], and what it leaves open: the will, the flags and the version are
    those of the options. *)
Definition connect_accepts (path : jsstr) (o : props) (co : ConnectOptions) : Prop :=
  let p key := prop_get o (js key) in
  accepted path o co
  /\ match co_willMessage co with
     | Some m => p "willMessage" = MessageObject m
     | None => truthy (p "willMessage") = false
     end
  /\ co_useSSL co = bool_of (p "useSSL")
  /\ co_onSuccess co = truthy (p "onSuccess") /\ co_onFailure co = truthy (p "onFailure")
  /\ (forall n, p "mqttVersion" = Number n -> co_mqttVersion co = match n with Num z => z | NaN => 5 end).

Definition handler_of (c : callback) (h : handlers) : bool :=
  match c with
  | OnConnectionLostProp => h_onConnectionLost h
  | OnMessageDeliveredProp => h_onMessageDelivered h
  | OnMessageArrivedProp => h_onMessageArrived h
  end.

(** The event of the client that a call stands for. *)
Inductive asks (path : jsstr) (h : handlers) : request -> event -> Prop :=
  | asks_connect o co : connect_accepts path o co -> asks path h (RConnect o) (Connect co)
  | asks_subscribe f o so : subscribe_accepts o so -> asks path h (RSubscribe (Str f) o) (Subscribe f so)
  | asks_unsubscribe f o so : unsubscribe_accepts o so ->
      asks path h (RUnsubscribe (Str f) o) (Unsubscribe f so)
  | asks_send args m : args_message args m -> asks path h (RSend args) (Send m)
  | asks_disconnect : asks path h RDisconnect Disconnect
  | asks_callback c src n h' : handler_of c h' = true ->
      (forall c', c' <> c -> handler_of c' h' = handler_of c' h) ->
      asks path h (RSetCallback c (Function src n)) (SetHandlers h')
  | asks_opened : asks path h RSocketOpened SocketOpened
  | asks_data d : asks path h (RSocketData d) (SocketData d)
  | asks_errored d : asks path h (RSocketErrored d) (SocketErrored d)
  | asks_closed : asks path h RSocketClosed SocketClosed
  | asks_timer t : asks path h (RTimerFires t) (TimerFires t).

(** A call gives the client the event it asks for and returns what the client
    does; or it asks for none, throws, and the client is as it was. *)
Definition served (a : api) (r : request) (res : result exn unit) (a' : api) : Prop :=
  a_host a' = a_host a /\ a_port a' = a_port a /\ a_path a' = a_path a
  /\ ((exists e, asks (a_path a) (c_handlers (a_client a)) r e
        /\ run_event e (a_client a) = (res, a_client a'))
      \/ (forall e, ~ asks (a_path a) (c_handlers (a_client a)) r e)
         /\ (exists x, res = Throw x) /\ a_client a' = a_client a).

Lemma served_event a r e : asks (a_path a) (c_handlers (a_client a)) r e -> api_call r a = on_event e a ->
  served a r (fst (api_call r a)) (run_request r a).
Proof.
  intros Ha E. unfold run_request, served. rewrite E. unfold on_event. rewrite on_client_run.
  split_and!; [done..|]. left. exists e. split; [done|]. cbn. by destruct (run_event e (a_client a)).
Qed.

Lemma served_throw a r x : (forall e, ~ asks (a_path a) (c_handlers (a_client a)) r e) ->
  api_call r a = (Throw x, a) -> served a r (fst (api_call r a)) (run_request r a).
Proof. intros Ha E. unfold run_request, served. rewrite E. split_and!; [done..|]. right. eauto. Qed.

Lemma validate_throws keys o : validate o keys <> Ret tt -> exists e, validate o keys = Throw e.
Proof. destruct (validate o keys) as [[]|e]; [done|by exists e]. Qed.

Lemma timeout_alone_false o : timeout_alone o = false <->
  (truthy (prop_get o (js "timeout")) = true -> truthy (prop_get o (js "onFailure")) = true).
Proof. unfold timeout_alone. destruct (truthy _), (truthy _); cbn; intuition congruence. Qed.

Lemma valid_qos_spec v : valid_qos v = true <-> exists q, v = Number (Num q) /\ 0 <= q <= 2.
Proof.
  split.
  - destruct v as [| | |[q|]| | | | | |]; try done. cbn. intros H. exists q. split; [done|].
    apply orb_true_iff in H as [H|H]; [apply orb_true_iff in H as [H|H]|]; lia.
  - intros (q & -> & Hq). cbn. zlia.
Qed.

Lemma subscribe_served a filter o :
  served a (RSubscribe filter o) (fst (api_subscribe filter o a)) (snd (api_subscribe filter o a)).
Proof.
  assert ((exists f, filter = Str f) \/ (forall f, filter <> Str f)) as [[f ->]|Hf]
    by (destruct filter; try (right; by intros ? ?); left; by eexists).
  2: { eapply (served_throw a (RSubscribe filter o)); [intros e He; inversion He; subst; by eapply Hf|].
       cbn. destruct filter; try done. by destruct (Hf s). }
  assert (api_call (RSubscribe (Str f) o) a = api_subscribe (Str f) o a) as Ec by done. revert Ec.
  set (q := prop_get o (js "qos")). unfold api_subscribe at 1. cbv zeta. fold q. unfold bind, lift.
  destruct (validate o subscribe_keys) as [[]|e] eqn:Ev.
  2: { intros Ec. eapply (served_throw a (RSubscribe (Str f) o)); [|exact Ec].
       intros e' He. inversion He as [|? ? ? [H _]| | | | | | | | |]; subst.
       apply (validate_ok subscribe_keys) in H. congruence. }
  apply validate_ok in Ev. destruct (timeout_alone o) eqn:Et; cbn [when].
  { intros Ec. eapply (served_throw a (RSubscribe (Str f) o)); [|exact Ec].
    intros e' He. inversion He as [|? ? ? (_ & H & _)| | | | | | | | |]; subst.
    apply timeout_alone_false in H. congruence. }
  destruct (negb (is_undefined q) && negb (valid_qos q)) eqn:Eq; cbn [when].
  { intros Ec. eapply (served_throw a (RSubscribe (Str f) o)); [|exact Ec].
    intros e' He. inversion He as [|? ? so (_ & _ & H & _)| | | | | | | | |]; subst.
    apply andb_true_iff in Eq as [E1 E2]. apply negb_true_iff in E1, E2.
    destruct (so_qos so) as [z|]; [|unfold q in E1; by rewrite H in E1].
    destruct H as [H Hz]. unfold q in E2. rewrite H in E2. by rewrite (proj2 (valid_qos_spec _)) in E2; eauto. }
  intros Ec. apply (served_event a (RSubscribe (Str f) o) (Subscribe f (subscribe_options o))); [|exact Ec].
  constructor. split_and!; try done; [by apply timeout_alone_false|]. cbn [so_qos subscribe_options]. fold q.
  apply andb_false_iff in Eq as [E|E]; apply negb_false_iff in E.
  - destruct (well_typed_typeof _ _ (js "qos") (js "number") Ev) as [Hq|Hq]; [done|by unfold q; rewrite Hq|].
    fold q in Hq. unfold is_undefined, is_type in E. by rewrite Hq in E.
  - by apply valid_qos_spec in E as (z & -> & Hz).
Qed.

Lemma unsubscribe_served a filter o :
  served a (RUnsubscribe filter o) (fst (api_unsubscribe filter o a)) (snd (api_unsubscribe filter o a)).
Proof.
  assert ((exists f, filter = Str f) \/ (forall f, filter <> Str f)) as [[f ->]|Hf]
    by (destruct filter; try (right; by intros ? ?); left; by eexists).
  2: { eapply (served_throw a (RUnsubscribe filter o)); [intros e He; inversion He; subst; by eapply Hf|].
       cbn. destruct filter; try done. by destruct (Hf s). }
  assert (api_call (RUnsubscribe (Str f) o) a = api_unsubscribe (Str f) o a) as Ec by done. revert Ec.
  unfold api_unsubscribe at 1. unfold bind, lift.
  destruct (validate o unsubscribe_keys) as [[]|e] eqn:Ev.
  2: { intros Ec. eapply (served_throw a (RUnsubscribe (Str f) o)); [|exact Ec].
       intros e' He. inversion He as [| |? ? ? [H _]| | | | | | | |]; subst.
       apply (validate_ok unsubscribe_keys) in H. congruence. }
  apply validate_ok in Ev. destruct (timeout_alone o) eqn:Et; cbn [when].
  { intros Ec. eapply (served_throw a (RUnsubscribe (Str f) o)); [|exact Ec].
    intros e' He. inversion He as [| |? ? ? (_ & H & _)| | | | | | | |]; subst.
    apply timeout_alone_false in H. congruence. }
  intros Ec. apply (served_event a (RUnsubscribe (Str f) o) (Unsubscribe f (subscribe_options o))); [|exact Ec].
  constructor. split_and!; try done; [by apply timeout_alone_false|].
  cbn [so_qos subscribe_options]. by rewrite (well_typed_get unsubscribe_keys).
Qed.

Lemma callback_served a c v :
  served a (RSetCallback c v) (fst (set_callback c v a)) (snd (set_callback c v a)).
Proof.
  destruct (is_type "function" v) eqn:E.
  - assert (exists src n, v = Function src n) as (src & n & ->) by (destruct v; try done; eauto).
    apply (served_event a (RSetCallback c (Function src n)) (SetHandlers (installed c (c_handlers (a_client a)))));
      [|done]. constructor; [by destruct c|]. by intros [] Hc; destruct c.
  - eapply (served_throw a (RSetCallback c v)); [intros e He; inversion He; by subst|].
    cbn. unfold set_callback. by rewrite E.
Qed.

Lemma send_served a args : served a (RSend args) (fst (api_send args a)) (snd (api_send args a)).
Proof.
  destruct (send_checked args a) as [(m & Hm & E)|(Hm & x & E)].
  - by apply (served_event a (RSend args) (Send m)); [constructor|].
  - apply (served_throw a (RSend args) x); [|done]. intros e He. inversion He; subst. by eapply Hm.
Qed.

(** *** The checks of [connect] pass on what it accepts *)
Lemma check_hosts_passes l b : l <> [] -> Forall (λ h, test false ws_uri h = b) l ->
  check_hosts 0 (map Str l) false = Ret b.
Proof.
  assert (forall l i, Forall (λ h, test false ws_uri h = b) l -> check_hosts (S i) (map Str l) b = Ret b) as Hr.
  { clear l. induction l as [|h l IH]; intros i Hl; [done|]. apply Forall_cons_1 in Hl as [Hh Hl].
    cbn -[test]. rewrite Hh. destruct b; cbn -[test]; by apply IH. }
  intros Hne Hl. destruct l as [|h l]; [done|]. apply Forall_cons_1 in Hl as [Hh Hl].
  cbn -[test]. rewrite Hh. by destruct b; apply Hr.
Qed.

Lemma build_uris_passes path hs : forall i ns s, length hs = length ns ->
  Forall (λ p, forall z, p = Num z -> 0 <= z) ns ->
  exists s', build_uris i path (map Str hs) (map Number ns) s = (Ret tt, s').
Proof.
  induction hs as [|h hs IH]; intros i [|n ns] s Hl Hn; try done; [by eexists|].
  apply Forall_cons_1 in Hn as [Hn Hns]. cbn [map build_uris head].
  replace (match n with Num z => z <? 0 | NaN => false end) with false.
  2: { symmetry. destruct n as [z|]; [|done]. specialize (Hn z eq_refl). lia. }
  unfold bind at 1, push_uri, set_option, option_of, bind, modify, get. cbn [tail].
  apply IH; [by injection Hl|done].
Qed.

Lemma check_servers_passes path s uris :
  servers path (prop_get (ck_options s) (js "hosts")) (prop_get (ck_options s) (js "ports")) uris ->
  exists s', check_servers path s = (Ret tt, s').
Proof.
  unfold check_servers, bind at 1, option_of at 1, get. intros H.
  inversion H as [hosts ports Hf E1 E2|hs ports Hne Hall E1 E2|hs ps Hne Hall Hl Hp E1 E2].
  - rewrite Hf. by eexists.
  - pose proof (check_hosts_passes hs true Hne Hall) as Hc. destruct hs as [|h hs]; [done|].
    cbn [truthy when map] in *. unfold bind at 1, lift at 1. rewrite Hc. by eexists.
  - pose proof (check_hosts_passes hs false Hne Hall) as Hc. destruct hs as [|h hs]; [done|].
    cbn [truthy when map] in *. unfold bind at 1, lift at 1. rewrite Hc.
    unfold bind at 1, option_of at 1, get. rewrite <- E2. cbn [length] in *. rewrite !length_map, Hl, Nat.eqb_refl.
    unfold bind at 1, set_option at 1, modify. by apply (build_uris_passes path (h :: hs)).
Qed.

Lemma bind_run {S Ex X Y} (m : St S Ex X) (k : X -> St S Ex Y) s x s' :
  m s = (Ret x, s') -> bind m k s = k x s'.
Proof. intros E. unfold bind. by rewrite E. Qed.

Lemma set_default_run key v s :
  when (is_undefined (prop_get (ck_options s) (js key))) (set_option key v) s
  = (Ret tt, mkChecking (with_default key v (ck_options s)) (ck_uri s)).
Proof. unfold with_default. by destruct s, (is_undefined _). Qed.

Lemma check_version_run s : out_of_range (prop_get (ck_options s) (js "mqttVersion")) = false ->
  check_version s = (Ret tt, mkChecking (versioned (ck_options s)) (ck_uri s)).
Proof.
  intros H. unfold check_version, bind at 1, option_of at 1, get. rewrite H. unfold versioned.
  unfold bind at 1. cbn [when]. by destruct (is_undefined _).
Qed.

Lemma check_password_run s :
  is_undefined (prop_get (ck_options s) (js "password"))
  && negb (is_undefined (prop_get (ck_options s) (js "userName"))) = false ->
  check_password s = (Ret tt, s).
Proof. intros H. unfold check_password, bind, option_of, get. by rewrite H. Qed.

Lemma check_will_run s :
  will_ok (prop_get (ck_options s) (js "willMessage")) -> check_will s = (Ret tt, s).
Proof.
  unfold check_will, bind, option_of, get. intros [->|(m & -> & Hd)]; [done|].
  cbn. by destruct (destinationName m).
Qed.

Lemma connect_passes path o co u : connect_accepts path o co ->
  exists s, check_connect path (mkChecking o u) = (Ret tt, s).
Proof.
  intros [(Hty & _ & Hu & Hp & Hup & Hdest & _ & _ & Hver & Hs) (Hw & _ & _ & _ & Hv)].
  assert (out_of_range (prop_get o (js "mqttVersion")) = false) as Hr.
  { destruct (prop_get o (js "mqttVersion")) as [| | |[z|]| | | | | |] eqn:E; try done. cbn.
    change (is_undefined (Number (Num z))) with false in Hver. cbv iota in Hver.
    rewrite (Hv _ eq_refl) in Hver. destruct Hver as (? & _ & Hn).
    assert (z <> 5) by (by intros ->; specialize (Hn eq_refl)). zlia. }
  assert (is_undefined (prop_get o (js "password")) && negb (is_undefined (prop_get o (js "userName"))) = false) as Hpw.
  { rewrite Hu, Hp in Hup. destruct (prop_get o (js "password")); try done.
    destruct (well_typed_typeof _ _ (js "userName") (js "string") Hty) as [E|E]; [done|by rewrite E|].
    destruct (prop_get o (js "userName")); try (by vm_compute in E). by destruct Hup. }
  assert (will_ok (prop_get o (js "willMessage"))) as Hwill.
  { destruct (co_willMessage co) as [m|]; [right; exists m; split; [done|by apply Hdest]|by left]. }
  assert (exists s, check_servers path (mkChecking (completed o) u) = (Ret tt, s)) as [s Hrun].
  { apply (check_servers_passes path (mkChecking (completed o) u) (co_uris co)). cbn [ck_options]. lookups. done. }
  exists s. rewrite <- Hrun. unfold check_connect.
  rewrite (bind_run _ _ _ o (mkChecking o u)) by done.
  rewrite (bind_run _ _ _ tt (mkChecking o u)) by (unfold lift; cbn; by rewrite (proj2 (validate_ok _ _) Hty)).
  rewrite (bind_run (option_of _) _ _ _ _ eq_refl).
  rewrite (bind_run _ _ _ _ _ (set_default_run "keepAliveInterval" _ (mkChecking o u))). cbn [ck_options ck_uri].
  set (o1 := with_default "keepAliveInterval" (Number (Num 60)) o).
  rewrite (bind_run check_version _ _ _ _ (check_version_run (mkChecking o1 u)
    ltac:(subst o1; cbn [ck_options]; lookups; exact Hr))). cbn [ck_options ck_uri].
  rewrite (bind_run check_password _ _ _ _ (check_password_run (mkChecking (versioned o1) u)
    ltac:(subst o1; cbn [ck_options]; lookups; exact Hpw))).
  rewrite (bind_run check_will _ _ _ _ (check_will_run (mkChecking (versioned o1) u)
    ltac:(subst o1; cbn [ck_options]; lookups; exact Hwill))).
  rewrite (bind_run (option_of _) _ _ _ _ eq_refl).
  by rewrite (bind_run _ _ _ _ _ (set_default_run "cleanSession" _ (mkChecking (versioned o1) u))).
Qed.

Lemma connect_served a o : served a (RConnect o) (api_connect o a).1.1 (api_connect o a).1.2.
Proof.
  unfold api_connect, served.
  destruct (check_connect (a_path a) (mkChecking o (a_uri a))) as [[[]|x] s] eqn:E.
  2: { split_and!; [done..|]. right. split_and!; [|by eexists|done]. intros e He.
       inversion He as [? co Ha| | | | | | | | | |]; subst.
       destruct (connect_passes (a_path a) o co (a_uri a) Ha) as [s' E']. by rewrite E in E'. }
  rewrite on_client_run. cbn [a_client]. split_and!; [done..|]. left.
  exists (Connect (read_options (ck_options s))).
  split; [|cbn; apply surjective_pairing].
  apply checked_options in E as (Ha & Hw & Hv & Hk). constructor. split; [exact Ha|].
  unfold read_options. cbn [co_willMessage co_useSSL co_onSuccess co_onFailure co_mqttVersion].
  rewrite !Hk by (cbn; tauto). split_and!; [|done..|].
  - destruct Hw as [Hw|(m & -> & _)]; [|done]. by destruct (prop_get o (js "willMessage")).
  - intros n Hn. rewrite (Hv n Hn). by destruct n.
Qed.

Lemma call_served a r : served a r (fst (api_call r a)) (run_request r a).
Proof.
  destruct r; try (by eapply (served_event a); [constructor|reflexivity]).
  - apply connect_served.
  - apply subscribe_served.
  - apply unsubscribe_served.
  - apply send_served.
  - by eapply (served_throw a (RSetProperty p v)); [intros e He; inversion He|].
  - apply callback_served.
Qed.

Lemma reachable_served a r res a' : reachable (a_client a) -> served a r res a' -> reachable (a_client a').
Proof.
  intros H (_ & _ & _ & [(e & _ & E)|(_ & _ & ->)]); [|done].
  destruct H as (uri & host & port & path & id & st & c0 & es & H0 & Hs).
  exists uri, host, port, path, id, st, c0, (es ++ [e]). split; [done|].
  replace (a_client a') with (snd (run_event e (a_client a))) by (by rewrite E). by apply steps_snoc.
Qed.

(** The arguments of a client made from a host and a port. *)
Definition constructed (args : list value) (storage : gmap jsstr StoredMessage) (a : api) : Prop :=
  exists id, new_ClientImpl true true true (a_uri a) (a_host a) (a_port a) (a_path a) id storage = Ret (a_client a)
  /\ code_points id <= 65535
  /\ (length args <> 2%nat ->
      (a_port a = NaN \/ exists z, a_port a = Num z /\ 0 <= z)
      /\ if decide (length args = 3%nat)
         then args = [Str (a_host a); Number (a_port a); Str id] /\ a_path a = js "/mqtt"
         else exists rest, args = Str (a_host a) :: Number (a_port a) :: Str (a_path a) :: Str id :: rest).

Lemma client_address_parts args host port path uri v : length args <> 2%nat ->
  client_address args = Ret (host, port, path, uri, v) ->
  (port = NaN \/ exists z, port = Num z /\ 0 <= z)
  /\ if decide (length args = 3%nat)
     then args = [Str host; Number port; v] /\ path = js "/mqtt"
     else exists rest, args = Str host :: Number port :: Str path :: rest /\ v = arg rest 0.
Proof.
  unfold client_address. intros Hn. destruct args as [|h args]; [done|].
  change (arg (h :: args) 0) with h. destruct h as [| | | |h| | | | |]; try done.
  rewrite (proj2 (Nat.eqb_neq _ _)) by done. destruct args as [|p args]; [done|].
  change (arg (Str h :: p :: args) 1) with p. destruct p as [| | |p| | | | | |]; try done.
  assert (forall b : bool, b = (match p with Num z => z <? 0 | NaN => false end) -> b = false ->
    p = NaN \/ exists z, p = Num z /\ 0 <= z) as Hp.
  { intros b -> Hb. destruct p as [z|]; [right; exists z; split; [done|zlia]|by left]. }
  destruct (match p with Num z => z <? 0 | NaN => false end) eqn:E; [done|].
  specialize (Hp _ eq_refl eq_refl). destruct (Nat.eqb_spec (length (Str h :: Number p :: args)) 3) as [E3|E3].
  - cbv iota. intros [= <- <- <- _ <-]. split; [done|]. rewrite decide_True by done.
    by destruct args as [|i [|? ?]].
  - destruct args as [|q args]; [done|]. change (arg (Str h :: Number p :: q :: args) 2) with q.
    cbv iota. destruct q as [| | | |q| | | | |]; try done. intros [= <- <- <- _ <-]. split; [done|].
    rewrite decide_False by done. by exists args.
Qed.

Lemma new_Client_constructed args storage a : new_Client args storage = Ret a -> constructed args storage a.
Proof.
  unfold new_Client. destruct (client_address args) as [[[[[host port] path] uri] v]|] eqn:Ea; [|done].
  cbv beta iota delta [rbind]. destruct (clientIdLength v) as [n|] eqn:En; [|done].
  destruct v as [| | | |id| | | | |]; try done. destruct (n >? 65535) eqn:Eg; [done|].
  destruct (new_ClientImpl true true true uri host port path id storage) as [c|] eqn:E; [|done].
  intros [= <-]. exists id. split; [exact E|]. injection En as <-. split; [zlia|]. intros Hn.
  destruct (client_address_parts _ _ _ _ _ _ Hn Ea) as [Hp Hargs]. split; [exact Hp|].
  cbn [a_host a_port a_path]. case_decide; [done|]. destruct Hargs as (rest & -> & Hr).
  destruct rest as [|i rest]; [done|]. exists rest. by rewrite Hr.
Qed.

(** C20: the public interface is the client of the implementation with its arguments
    checked.  Whatever was called before, each call whose arguments are what the
    interface accepts gives the client the one request that says what they say,
    and returns what the client does; every other call, an assignment to the
    address or the identifier among them, throws and leaves the client as it was.
    The constructor makes the client of the address it reports, which is the host,
    port and path of its arguments unless these give a URI instead (whose parts
    are the subject of ApiUri), and of the identifier given; so what is behind the
    interface is always a client that events reach: the guarantees about reachable
    clients hold for every user. *)
Theorem api_refines_client args storage a0 requests r :
  new_Client args storage = Ret a0 ->
  constructed args storage a0
  /\ let a := foldl (λ a r, run_request r a) a0 requests in
     reachable (a_client a) /\ served a r (fst (api_call r a)) (snd (api_call r a)).
Proof.
  intros H. split; [by apply new_Client_constructed|]. intros a. split; [|apply call_served].
  apply new_Client_reachable in H. unfold a. clear a. revert a0 H.
  induction requests as [|q rs IH]; intros a0 H; cbn; [done|].
  apply IH. eapply reachable_served; [done|apply call_served].
Qed.

(** ** A concrete client *)
Definition demo_args : list value :=
  [Str (js "h"); Number (Num 1); Str (js "/mqtt"); Str (js "a")].

Definition demo_api : api :=
  match new_Client demo_args ∅ with
  | Ret a => a
  | Throw _ => mkApi [] NaN [] [] (initial_client [] [] NaN [] [] ∅)
  end.

Definition demo_connect : props :=
  [(js "cleanSession", Bool false); (js "hosts", Array [Str (js "h"); Str (js "::1")]);
   (js "ports", Array [Number (Num 1); Number (Num 2)])].

Lemma api_refines_client_witness :
  let a := foldl (λ a r, run_request r a) demo_api [RConnect demo_connect; RSocketOpened] in
  let r := RSubscribe (Str (js "t")) [(js "qos", Number (Num 1))] in
  new_Client demo_args ∅ = Ret demo_api
  /\ constructed demo_args ∅ demo_api
  /\ reachable (a_client a) /\ served a r (fst (api_call r a)) (snd (api_call r a)).
Proof.
  assert (new_Client demo_args ∅ = Ret demo_api) as H by (vm_compute; reflexivity).
  intros a r. split; [exact H|exact (api_refines_client demo_args ∅ demo_api _ _ H)].
Defined.

Lemma connect_checked_witness :
  let '(r, a', o') := api_connect demo_connect demo_api in
  r = Ret tt
  /\ (((exists e, r = Throw e) /\ a_client a' = a_client demo_api)
      \/ exists co, accepted (a_path demo_api) demo_connect co
                    /\ (r, a_client a') = connect co (a_client demo_api)).
Proof.
  destruct (api_connect demo_connect demo_api) as [[r a'] o'] eqn:E. split.
  - transitivity ((api_connect demo_connect demo_api).1.1); [by rewrite E|vm_compute; reflexivity].
  - exact (connect_checked demo_connect demo_api r a' o' E).
Defined.

Lemma connect_options_single_use_witness :
  let '(r, a1, o1) := api_connect demo_connect demo_api in
  r = Ret tt
  /\ api_connect o1 a1
     = (Throw (Error (unknown_property (js "mqttVersionExplicit") connect_keys)), a1, o1).
Proof.
  destruct (api_connect demo_connect demo_api) as [[r a1] o1] eqn:E.
  assert (r = Ret tt) as ->.
  { transitivity ((api_connect demo_connect demo_api).1.1); [by rewrite E|vm_compute; reflexivity]. }
  split; [reflexivity|exact (connect_options_single_use demo_connect demo_api a1 o1 a1 E)].
Defined.

Lemma password_without_user_name_witness :
  exists co o', connect_flags co = 0x42
  /\ api_connect [(js "password", Str (js "p"))] demo_api
     = ((connect co (a_client demo_api)).1, set_client (connect co (a_client demo_api)).2 demo_api, o').
Proof.
  destruct (password_without_user_name demo_api (js "p") (js "u"))
    as [(co & o' & _ & _ & Hf & H) _].
  exists co, o'. split; [exact Hf|]. apply H. by destruct (connect co (a_client demo_api)).
Defined.

Lemma send_checked_witness :
  (exists m, args_message [Str (js "t"); Str (js "hi"); Number (Num 1)] m
     /\ api_send [Str (js "t"); Str (js "hi"); Number (Num 1)] demo_api = on_client (send m) demo_api)
  \/ ((forall m, ~ args_message [Str (js "t"); Str (js "hi"); Number (Num 1)] m)
      /\ exists e, api_send [Str (js "t"); Str (js "hi"); Number (Num 1)] demo_api = (Throw e, demo_api)).
Proof. exact (send_checked [Str (js "t"); Str (js "hi"); Number (Num 1)] demo_api). Defined.
