(* ===== verification/ApiUri.v ===== *)
(** * The address of a server as one URI
    (mqttws31.js 1577-1598).

    The constructor takes host, port and path, and builds a URI; or takes a URI
    and splits it.  The two agree. *)

From stdpp Require Import base tactics strings gmap numbers list.
From Stdlib Require Import ZArith Lia.
From S2P Require Import Prelude PahoBase Utf8 Wire Client.
From S2P Require Import Regex RegexFacts RegexSteps Api.
Local Open Scope Z_scope.

(** ** The parts of the pattern *)
Definition port_re : re := Group 6 (Cat (Char 58) (Group 7 (Rep (Class false [Digit]) 1 None true))).
Definition path_re : re := Group 8 (Cat (Char 47) (Rep Dot 0 None true)).
Definition tail_re : re := Cat (Rep port_re 0 (Some 1%nat) true) (Cat path_re Eol).
Definition host_re : re :=
  Group 2 (Alt (Group 3 (Cat (Char 91) (Cat (Group 4 (Rep Dot 1 None true)) (Char 93))))
               (Group 5 (Rep (Class true [Range 47 47]) 1 None false))).
Definition scheme_re : re :=
  Group 1 (Cat (Char 119) (Cat (Char 115) (Rep (Char 115) 0 (Some 1%nat) true))).

Lemma ws_uri_parts : ws_uri =
  Cat Bol (Cat scheme_re (Cat (Char 58) (Cat (Char 47) (Cat (Char 47) (Cat host_re tail_re))))).
Proof. vm_compute. reflexivity. Qed.

Definition no_terminator (c : Z) : bool := class_in false true [Range 10 10; Range 13 13; Range 0x2028 0x2029] c.

Lemma tail_match prev d p caps :
  (forall s, ms_caps s = caps -> clear_caps port_re s = s) ->
  d <> [] -> Forall (λ c, is_digit c = true) d -> Forall (λ c, no_terminator c = true) p ->
  exists prev', m false tail_re Some (mkM prev (58 :: d ++ 47 :: p) caps)
    = Some (mkM prev' [] ((8%nat, 47 :: p) :: (6%nat, 58 :: d) :: (7%nat, d) :: caps)).
Proof.
  intros Hc Hd Hdig Hp. exists (prev_of (Some 47) p). unfold tail_re. rewrite m_Cat.
  apply optional_present; [by apply Hc| |done].
  unfold port_re. rewrite m_Group, m_Cat, m_Char, m_Group, m_rep. cbn [ms_rest].
  destruct d as [|c d]; [done|]. inversion Hdig as [|? ? H1 H2]; subst.
  cbn [app Nat.add]. rewrite rep_class. cbn [Nat.ltb Nat.leb pred].
  rewrite digit_in, H1.
  apply (greedy_class false false [Digit]).
  - cbn [length]. lia.
  - eapply Forall_impl; [exact H2|]. intros c0 Hc0. by rewrite digit_in.
  - cbn [ms_prev ms_rest ms_caps].
    change (58 :: c :: d ++ 47 :: p) with ((58 :: c :: d) ++ 47 :: p).
    change (c :: d ++ 47 :: p) with ((c :: d) ++ 47 :: p).
    rewrite !captured.
    assert (same_place (mkM prev ((58 :: c :: d) ++ 47 :: p) caps)
              (mkM (prev_of (Some c) d) (47 :: p)
                 ((6%nat, 58 :: c :: d) :: (7%nat, c :: d) :: caps)) = false) as ->.
    { unfold same_place. apply Nat.eqb_neq. cbn [ms_rest]. rewrite length_app. cbn [length]. lia. }
    unfold path_re. rewrite m_Cat, m_Group, m_Cat, m_Char, m_rep.
    cbn [ms_rest Nat.add]. rewrite <- (app_nil_r p) at 2 3.
    apply (greedy_class false true).
    + rewrite app_nil_r; lia.
    + exact Hp.
    + cbn [ms_rest ms_prev ms_caps m]. pose proof (captured (47 :: p) []) as Hcap.
      rewrite app_nil_r in Hcap. by rewrite Hcap, app_nil_r.
    + intros t1 t2 p0 E Ht. destruct t1; done.
  - intros t1 t2 p0 E Ht Hall. destruct t1 as [|c1 t1]; [done|]. cbn in E. injection E as <- E.
    inversion Hall as [|? ? Hx _]. rewrite digit_in in Hx. done.
Qed.

(** ** The host *)
Lemma tail_none prev c rest caps : c <> 58 -> c <> 47 ->
  m false tail_re Some (mkM prev (c :: rest) caps) = None.
Proof.
  intros H1 H2. unfold tail_re. rewrite m_Cat, optional_absent.
  - unfold path_re. rewrite m_Cat, m_Group, m_Cat. by rewrite m_Char_no.
  - intros k'. unfold clear_caps. cbv zeta. cbn [ms_prev ms_rest ms_caps].
    unfold port_re. rewrite m_Group, m_Cat. by rewrite m_Char_no.
Qed.

Definition plain_host (h : jsstr) : Prop :=
  h <> [] /\ head h <> Some 91 /\ Forall (λ c, c <> 58 /\ c <> 47) h.

(** A host in brackets: a colon inside, no bracket at either end. *)
Definition v6_host (h : jsstr) : Prop :=
  h <> [] /\ Forall (λ c, no_terminator c = true) h.

Lemma plain_match prev h rest caps x : plain_host h ->
  m false tail_re Some
    (mkM (prev_of prev h) rest ((2%nat, h) :: (5%nat, h) :: caps)) = Some x ->
  m false host_re (m false tail_re Some) (mkM prev (h ++ rest) caps) = Some x.
Proof.
  intros (Hne & Hb & Hh) Hx. unfold host_re. rewrite m_Group.
  destruct h as [|c h]; [done|]. inversion Hh as [|? ? [H1 H2] Hh']; subst. cbn [app].
  assert (c <> 91) as Hc by (cbn in Hb; congruence).
  match goal with |- m false (Alt ?a ?b) ?k ?s = _ =>
    change (m false (Alt a b) k s) with (orelse (m false a k s) (m false b k s)) end.
  rewrite m_Group, m_Cat, m_Char_no by done. cbn [orelse].
  rewrite m_Group, m_rep. cbn [ms_rest Nat.add]. rewrite rep_class.
  cbn [Nat.ltb Nat.leb pred]. rewrite not_char_in.
  replace (negb (c =? 47)) with true by (symmetry; apply negb_true_iff, Z.eqb_neq; done).
  apply (lazy_class false true).
  - cbn [length]. lia.
  - eapply Forall_impl; [exact Hh'|]. intros c0 [_ ?]. rewrite not_char_in.
    by apply negb_true_iff, Z.eqb_neq.
  - cbn [ms_prev ms_rest ms_caps]. change (c :: h ++ rest) with ((c :: h) ++ rest).
    rewrite !captured, <- prev_of_cons with (prev := prev). exact Hx.
  - intros l1 l2 p -> Hl2. destruct l2 as [|c2 l2]; [done|]. cbn [app].
    apply Forall_app in Hh' as [_ Hh']. inversion Hh' as [|? ? [? ?] _]; subst.
    by apply tail_none.
Qed.

Lemma v6_match prev h rest caps x : v6_host h -> Forall (λ c, c <> 93) rest ->
  m false tail_re Some
    (mkM (Some 93) rest ((2%nat, 91 :: h ++ [93]) :: (3%nat, 91 :: h ++ [93])
                           :: (4%nat, h) :: caps)) = Some x ->
  m false host_re (m false tail_re Some) (mkM prev (91 :: h ++ 93 :: rest) caps) = Some x.
Proof.
  intros (Hne & Hh) Hrest Hx. unfold host_re. rewrite m_Group.
  destruct h as [|c h]; [done|]. inversion Hh as [|? ? H1 H2]; subst.
  match goal with |- m false (Alt ?a ?b) ?k ?s = _ =>
    change (m false (Alt a b) k s) with (orelse (m false a k s) (m false b k s)) end.
  match goal with |- orelse ?a _ = _ => replace a with (Some x); [done|symmetry] end.
  rewrite m_Group, m_Cat, m_Char, m_Cat, m_Group, m_rep. cbn [ms_rest Nat.add app].
  unfold Dot. rewrite rep_class. cbn [Nat.ltb Nat.leb pred].
  change (class_in false true _ c) with (no_terminator c). rewrite H1.
  apply (greedy_class false true).
  - cbn [length]. lia.
  - exact H2.
  - cbn [ms_prev ms_rest ms_caps]. change (c :: h ++ 93 :: rest) with ((c :: h) ++ 93 :: rest).
    rewrite m_Char, captured. cbn [ms_prev ms_rest ms_caps].
    replace (91 :: (c :: h) ++ 93 :: rest) with ((91 :: (c :: h) ++ [93]) ++ rest)
      by (cbn; by rewrite <- app_assoc).
    rewrite !captured. exact Hx.
  - intros t1 t2 p E Ht _. destruct t1 as [|c1 t1]; [done|]. cbn in E. injection E as <- ->.
    destruct t2 as [|c2 t2]; [done|]. apply Forall_app in Hrest as [_ Hrest].
    inversion Hrest; subst. by apply m_Char_no.
Qed.

(** ** The whole URI *)
Lemma uri_match text rest caps prev' x :
  m false host_re (m false tail_re Some) (mkM (Some 47) (text ++ rest) [(1%nat, js "ws")])
  = Some (mkM prev' [] caps) ->
  x = take (length (js "ws://" ++ text ++ rest)) (js "ws://" ++ text ++ rest) ->
  exec false ws_uri (js "ws://" ++ text ++ rest)
  = Some (λ n, if (n =? 0)%nat then Some x else cap caps n).
Proof.
  intros H ->. change (js "ws://") with [119; 115; 58; 47; 47]. cbn [app].
  unfold exec. assert (match_here false ws_uri (mkM None (119 :: 115 :: 58 :: 47 :: 47 :: text ++ rest) [])
    = Some (mkM prev' [] caps)) as Hm.
  { unfold match_here. rewrite ws_uri_parts, m_Cat, m_Bol. unfold scheme_re.
    rewrite m_Cat, m_Group, m_Cat, m_Char, m_Cat, m_Char, optional_absent.
    2: { intros k'. unfold clear_caps. cbv zeta. cbn [ms_prev ms_rest ms_caps].
         by apply m_Char_no. }
    cbn [ms_prev ms_rest ms_caps]. rewrite m_Cat, m_Char, m_Cat, m_Char, m_Cat, m_Char, m_Cat.
    change (119 :: 115 :: 58 :: 47 :: 47 :: text ++ rest)
      with ([119; 115] ++ 58 :: 47 :: 47 :: text ++ rest).
    rewrite captured. exact H. }
  cbn [search]. rewrite Hm. cbn [ms_rest length mbind option_bind]. rewrite Nat.sub_0_r. done.
Qed.

Lemma index_colon h i : 0 <= i -> index_at [58] h i = -1 <-> Forall (λ c, c <> 58) h.
Proof.
  revert i. induction h as [|c h IH]; intros i Hi; cbn [index_at is_prefix].
  - split; [constructor|done].
  - rewrite andb_true_r. destruct (58 =? c) eqn:E; zbool.
    + split; [lia|]. intros H. inversion H; subst. done.
    + rewrite IH by lia. split; [intros; constructor; [lia|done]|by inversion 1].
Qed.

(** A host as the constructor takes it: a name, or an IPv6 address bare. *)
Definition bare_v6 (h : jsstr) : Prop :=
  v6_host h /\ ~ Forall (λ c, c <> 58) h /\ head h <> Some 91 /\ last h <> Some 93.

Lemma add_brackets_plain h : plain_host h -> add_brackets h = h.
Proof.
  intros (_ & _ & Hh). unfold add_brackets, indexOf. change (js ":") with [58].
  replace (index_at [58] h 0) with (-1); [done|]. symmetry. apply index_colon; [lia|].
  eapply Forall_impl; [exact Hh|]. by intros ? [? _].
Qed.

Lemma add_brackets_v6 h : bare_v6 h -> add_brackets h = 91 :: h ++ [93].
Proof.
  intros ((Hne & _) & Hc & Hh & Hl). unfold add_brackets, indexOf. change (js ":") with [58].
  replace (index_at [58] h 0 =? -1) with false.
  2: { symmetry. apply Z.eqb_neq. intros E. by apply Hc, (index_colon h 0). }
  destruct h as [|c h]; [done|].
  assert (slice (c :: h) 0 1 = [c]) as ->.
  { unfold slice, slice_index. replace (0 <? 0) with false by done.
    replace (1 <? 0) with false by done. cbn [length].
    replace (Z.min 0 (Z.of_nat (S (length h)))) with 0 by lia.
    replace (Z.min 1 (Z.of_nat (S (length h)))) with 1 by lia. done. }
  assert (substr_from (c :: h) (-1) = [default 0 (last (c :: h))]) as ->.
  { unfold substr_from, slice_index. replace (-1 <? 0) with true by done.
    replace (Z.to_nat (Z.max 0 (Z.of_nat (length (c :: h)) + -1))) with (length h)
      by (cbn [length]; lia).
    clear. revert c. induction h as [|d h IH]; intros c; [done|]. cbn [length drop]. by rewrite IH. }
  change (js "[") with [91]. change (js "]") with [93].
  unfold jseqb. rewrite !bool_decide_eq_false_2; [done| |].
  - intros [= E]. apply Hl. destruct (last (c :: h)) eqn:El; cbn in E; [congruence|].
    by apply last_None in El.
  - intros [= E]. by subst.
Qed.

(** What the constructor reads in a URI, from what the host part captures. *)
Lemma address_of_uri text host z p id prev caps :
  0 <= z -> Forall (λ c, no_terminator c = true) p ->
  (forall s, ms_caps s = caps -> clear_caps port_re s = s) ->
  (forall x, m false tail_re Some (mkM prev (58 :: dec z ++ 47 :: p) caps) = Some x ->
     m false host_re (m false tail_re Some)
       (mkM (Some 47) (text ++ 58 :: dec z ++ 47 :: p) [(1%nat, js "ws")]) = Some x) ->
  capture_or (cap caps 4) (cap caps 2) = Some host ->
  client_address [Str (host_uri text (Num z) (47 :: p)); id]
  = Ret (host, Num z, 47 :: p, host_uri text (Num z) (47 :: p), id).
Proof.
  intros Hz Hp Hc Hhost Hcap. destruct (dec_digits z Hz) as [Hd1 Hd2].
  destruct (tail_match prev (dec z) p caps Hc Hd1 Hd2 Hp) as [prev' Ht].
  apply Hhost in Ht. unfold client_address, host_uri. cbn [arg default lookup list_lookup length].
  change (js ":") with [58]. cbn [app num_str]. unfold Datatypes.id. cbn [Nat.eqb].
  rewrite (uri_match _ _ _ _ _ Ht eq_refl). cbn [Nat.eqb].
  set (caps' := _ :: _ :: _ :: caps).
  assert (cap caps' 4 = cap caps 4) as -> by done.
  assert (cap caps' 2 = cap caps 2) as -> by done. rewrite Hcap.
  assert (cap caps' 7 = Some (dec z)) as -> by done.
  assert (cap caps' 8 = Some (47 :: p)) as -> by done. cbn [default].
  assert (parseInt 10 (dec z) = Num z) as Hpi by (apply (parseInt_to_base 10 z); lia).
  by rewrite Hpi.
Qed.

(** The two ways to give an address agree: for a host name, or a bare IPv6
    address (put into brackets), a port and a path, the URI the constructor
    builds is one it splits back into the same host, port and path. *)
Theorem address_roundtrip host z p id :
  plain_host host \/ (bare_v6 host /\ Forall (λ c, c <> 93) p) ->
  0 <= z -> Forall (λ c, no_terminator c = true) p ->
  exists uri,
    client_address [Str host; Number (Num z); Str (47 :: p); id]
    = Ret (host, Num z, 47 :: p, uri, id)
    /\ client_address [Str uri; id] = Ret (host, Num z, 47 :: p, uri, id).
Proof.
  intros Hh Hz Hp. exists (host_uri (add_brackets host) (Num z) (47 :: p)). split.
  { unfold client_address. cbn [arg default lookup list_lookup length Nat.eqb].
    unfold Datatypes.id. cbn [Nat.eqb].
    destruct (z <? 0) eqn:E; [zbool; lia|done]. }
  destruct Hh as [Hh|[Hh Hb]].
  - rewrite add_brackets_plain by done.
    eapply (address_of_uri host host z p id (prev_of (Some 47) host)
              [(2%nat, host); (5%nat, host); (1%nat, js "ws")]); [exact Hz|exact Hp| | |].
    + by intros [prev rest caps]; cbn; intros ->.
    + intros x Hx. by apply plain_match.
    + destruct Hh as (Hne & _). cbn. by destruct host.
  - rewrite add_brackets_v6 by done. destruct (dec_digits z Hz) as [_ Hd].
    eapply (address_of_uri (91 :: host ++ [93]) host z p id (Some 93)
              [(2%nat, 91 :: host ++ [93]); (3%nat, 91 :: host ++ [93]); (4%nat, host);
               (1%nat, js "ws")]); [exact Hz|exact Hp| | |].
    + by intros [prev rest caps]; cbn; intros ->.
    + intros x Hx. cbn [app]. rewrite <- app_assoc. cbn [app].
      apply v6_match; [apply Hh| |done]. constructor; [done|]. apply Forall_app. split.
      * eapply Forall_impl; [exact Hd|]. intros c Hc. unfold is_digit in Hc. zbool. lia.
      * constructor; [done|]. exact Hb.
    + destruct Hh as ((Hne & _) & _). cbn. by destruct host.
Qed.

Lemma address_roundtrip_witness :
  client_address [Str (js "ws://localhost:8080/mqtt"); Str (js "a")]
    = Ret (js "localhost", Num 8080, js "/mqtt", js "ws://localhost:8080/mqtt", Str (js "a"))
  /\ exists uri,
    client_address [Str (js "::1"); Number (Num 80); Str (js "/mqtt"); Str (js "a")]
    = Ret (js "::1", Num 80, js "/mqtt", uri, Str (js "a"))
    /\ client_address [Str uri; Str (js "a")]
       = Ret (js "::1", Num 80, js "/mqtt", uri, Str (js "a")).
Proof.
  split; [vm_compute; reflexivity|].
  apply (address_roundtrip (js "::1") 80 (js "mqtt") (Str (js "a"))); [right|lia|].
  - split; [|repeat constructor; discriminate]. unfold bare_v6, v6_host. split_and!.
    + discriminate.
    + repeat constructor.
    + intros H. inversion H; subst. done.
    + discriminate.
    + discriminate.
  - repeat constructor.
Defined.
