(* ===== verification/WebSocket.v ===== *)
(** * The MQTT client page of the console
    (ui/page/websocket.html, the script on lines 371-838).

    The state of the page: its fields, its variables, the buttons, the status
    line and the three tables, with every client it has made.  A client is used
    through the public interface (Api.v); what it reports goes to the callbacks
    the page installed when it made it.

    Modelled choices: a client runs the callbacks of the page in the middle of
    its methods; they change the page only, so they run here when the method is
    done, in the same order.  The one that can throw (a received payload that is
    not UTF-8) marks the page [faulted], since what the client does with the
    exception depends on where it was.  The buttons in the rows of the table of
    subscriptions are looked at for their topic only. *)

From stdpp Require Import base tactics list strings gmap numbers.
From Stdlib Require Import ZArith Lia.
From S2P Require Import Prelude PahoBase Utf8 Wire Client Api Language Dates Console.
Local Open Scope Z_scope.
Local Open Scope st_scope.

(** ** State *)

(** The fields of the three forms; the lists of qos have the values 0, 1, 2. *)
Record ws_form := mkWsForm {
  conn_host : jsstr;
  conn_port : jsstr;
  conn_path : jsstr;
  conn_clientid : jsstr;
  conn_username : jsstr;
  conn_password : jsstr;
  conn_heartbeat : jsstr;
  clean_session : bool;
  ssl : bool;
  sub_topic_field : jsstr;
  sub_qos_field : jsstr;
  pub_topic_field : jsstr;
  pub_msg_field : jsstr;
  pub_qos_field : jsstr;
  msg_retain : bool;
}.

Record sub_item := mkSubItem { si_topic : jsstr; si_qos : jsstr; si_time : jsstr }.

Record msg_item := mkMsgItem {
  mi_payload : jsstr;
  mi_topic : option jsstr;
  mi_qos : Z;
  mi_time : jsstr;
}.

(** A button: class disabled, and its icon a spinner. *)
Record ws_button := mkWsButton { btn_disabled : bool; btn_spinning : bool }.

(** A client with the [cleanSession] its callbacks captured. *)
Record ws_client := mkWsClient { wc_api : api; wc_clean : bool }.

Inductive ws_notice :=
  | Succeeded (m : option jsstr)
  | FailedWith (m : option errtext).   (* [None]: the message is undefined *)

Record ws_page := mkWsPage {
  ws_fields : ws_form;
  ws_clients : list ws_client;
  pahoMqttClient : option nat;         (* an index in [ws_clients] *)
  ws_localStorage : gmap jsstr StoredMessage;
  globalCleanSession : bool;
  globalSubscribes : list sub_item;
  globalPubMessages : list msg_item;
  globalSubMessages : list msg_item;
  sub_table : list sub_item;           (* the rows drawn *)
  pubmsg_table : list msg_item;
  submsg_table : list msg_item;
  conn_btn : ws_button;
  disconn_btn : ws_button;
  sub_btn : ws_button;
  pub_btn : ws_button;
  status_connected : bool;
  ws_notices : list ws_notice;
  faulted : bool;
}.

(** Updates of one field. *)
Definition with_ws_clients (v : list ws_client) (s : ws_page) : ws_page :=
  mkWsPage (ws_fields s) v (pahoMqttClient s) (ws_localStorage s) (globalCleanSession s)
    (globalSubscribes s) (globalPubMessages s) (globalSubMessages s) (sub_table s)
    (pubmsg_table s) (submsg_table s) (conn_btn s) (disconn_btn s) (sub_btn s) (pub_btn s)
    (status_connected s) (ws_notices s) (faulted s).
Definition with_pahoMqttClient (v : option nat) (s : ws_page) : ws_page :=
  mkWsPage (ws_fields s) (ws_clients s) v (ws_localStorage s) (globalCleanSession s)
    (globalSubscribes s) (globalPubMessages s) (globalSubMessages s) (sub_table s)
    (pubmsg_table s) (submsg_table s) (conn_btn s) (disconn_btn s) (sub_btn s) (pub_btn s)
    (status_connected s) (ws_notices s) (faulted s).
Definition with_ws_localStorage (v : gmap jsstr StoredMessage) (s : ws_page) : ws_page :=
  mkWsPage (ws_fields s) (ws_clients s) (pahoMqttClient s) v (globalCleanSession s)
    (globalSubscribes s) (globalPubMessages s) (globalSubMessages s) (sub_table s)
    (pubmsg_table s) (submsg_table s) (conn_btn s) (disconn_btn s) (sub_btn s) (pub_btn s)
    (status_connected s) (ws_notices s) (faulted s).
Definition with_globalCleanSession (v : bool) (s : ws_page) : ws_page :=
  mkWsPage (ws_fields s) (ws_clients s) (pahoMqttClient s) (ws_localStorage s) v
    (globalSubscribes s) (globalPubMessages s) (globalSubMessages s) (sub_table s)
    (pubmsg_table s) (submsg_table s) (conn_btn s) (disconn_btn s) (sub_btn s) (pub_btn s)
    (status_connected s) (ws_notices s) (faulted s).
Definition with_globalSubscribes (v : list sub_item) (s : ws_page) : ws_page :=
  mkWsPage (ws_fields s) (ws_clients s) (pahoMqttClient s) (ws_localStorage s)
    (globalCleanSession s) v (globalPubMessages s) (globalSubMessages s) (sub_table s)
    (pubmsg_table s) (submsg_table s) (conn_btn s) (disconn_btn s) (sub_btn s) (pub_btn s)
    (status_connected s) (ws_notices s) (faulted s).
Definition with_globalPubMessages (v : list msg_item) (s : ws_page) : ws_page :=
  mkWsPage (ws_fields s) (ws_clients s) (pahoMqttClient s) (ws_localStorage s)
    (globalCleanSession s) (globalSubscribes s) v (globalSubMessages s) (sub_table s)
    (pubmsg_table s) (submsg_table s) (conn_btn s) (disconn_btn s) (sub_btn s) (pub_btn s)
    (status_connected s) (ws_notices s) (faulted s).
Definition with_globalSubMessages (v : list msg_item) (s : ws_page) : ws_page :=
  mkWsPage (ws_fields s) (ws_clients s) (pahoMqttClient s) (ws_localStorage s)
    (globalCleanSession s) (globalSubscribes s) (globalPubMessages s) v (sub_table s)
    (pubmsg_table s) (submsg_table s) (conn_btn s) (disconn_btn s) (sub_btn s) (pub_btn s)
    (status_connected s) (ws_notices s) (faulted s).
Definition with_sub_table (v : list sub_item) (s : ws_page) : ws_page :=
  mkWsPage (ws_fields s) (ws_clients s) (pahoMqttClient s) (ws_localStorage s)
    (globalCleanSession s) (globalSubscribes s) (globalPubMessages s) (globalSubMessages s)
    v (pubmsg_table s) (submsg_table s) (conn_btn s) (disconn_btn s) (sub_btn s)
    (pub_btn s) (status_connected s) (ws_notices s) (faulted s).
Definition with_pubmsg_table (v : list msg_item) (s : ws_page) : ws_page :=
  mkWsPage (ws_fields s) (ws_clients s) (pahoMqttClient s) (ws_localStorage s)
    (globalCleanSession s) (globalSubscribes s) (globalPubMessages s) (globalSubMessages s)
    (sub_table s) v (submsg_table s) (conn_btn s) (disconn_btn s) (sub_btn s) (pub_btn s)
    (status_connected s) (ws_notices s) (faulted s).
Definition with_submsg_table (v : list msg_item) (s : ws_page) : ws_page :=
  mkWsPage (ws_fields s) (ws_clients s) (pahoMqttClient s) (ws_localStorage s)
    (globalCleanSession s) (globalSubscribes s) (globalPubMessages s) (globalSubMessages s)
    (sub_table s) (pubmsg_table s) v (conn_btn s) (disconn_btn s) (sub_btn s) (pub_btn s)
    (status_connected s) (ws_notices s) (faulted s).
Definition with_conn_btn (v : ws_button) (s : ws_page) : ws_page :=
  mkWsPage (ws_fields s) (ws_clients s) (pahoMqttClient s) (ws_localStorage s)
    (globalCleanSession s) (globalSubscribes s) (globalPubMessages s) (globalSubMessages s)
    (sub_table s) (pubmsg_table s) (submsg_table s) v (disconn_btn s) (sub_btn s)
    (pub_btn s) (status_connected s) (ws_notices s) (faulted s).
Definition with_disconn_btn (v : ws_button) (s : ws_page) : ws_page :=
  mkWsPage (ws_fields s) (ws_clients s) (pahoMqttClient s) (ws_localStorage s)
    (globalCleanSession s) (globalSubscribes s) (globalPubMessages s) (globalSubMessages s)
    (sub_table s) (pubmsg_table s) (submsg_table s) (conn_btn s) v (sub_btn s) (pub_btn s)
    (status_connected s) (ws_notices s) (faulted s).
Definition with_sub_btn (v : ws_button) (s : ws_page) : ws_page :=
  mkWsPage (ws_fields s) (ws_clients s) (pahoMqttClient s) (ws_localStorage s)
    (globalCleanSession s) (globalSubscribes s) (globalPubMessages s) (globalSubMessages s)
    (sub_table s) (pubmsg_table s) (submsg_table s) (conn_btn s) (disconn_btn s) v
    (pub_btn s) (status_connected s) (ws_notices s) (faulted s).
Definition with_pub_btn (v : ws_button) (s : ws_page) : ws_page :=
  mkWsPage (ws_fields s) (ws_clients s) (pahoMqttClient s) (ws_localStorage s)
    (globalCleanSession s) (globalSubscribes s) (globalPubMessages s) (globalSubMessages s)
    (sub_table s) (pubmsg_table s) (submsg_table s) (conn_btn s) (disconn_btn s)
    (sub_btn s) v (status_connected s) (ws_notices s) (faulted s).
Definition with_status_connected (v : bool) (s : ws_page) : ws_page :=
  mkWsPage (ws_fields s) (ws_clients s) (pahoMqttClient s) (ws_localStorage s)
    (globalCleanSession s) (globalSubscribes s) (globalPubMessages s) (globalSubMessages s)
    (sub_table s) (pubmsg_table s) (submsg_table s) (conn_btn s) (disconn_btn s)
    (sub_btn s) (pub_btn s) v (ws_notices s) (faulted s).
Definition with_ws_notices (v : list ws_notice) (s : ws_page) : ws_page :=
  mkWsPage (ws_fields s) (ws_clients s) (pahoMqttClient s) (ws_localStorage s)
    (globalCleanSession s) (globalSubscribes s) (globalPubMessages s) (globalSubMessages s)
    (sub_table s) (pubmsg_table s) (submsg_table s) (conn_btn s) (disconn_btn s)
    (sub_btn s) (pub_btn s) (status_connected s) v (faulted s).
Definition with_faulted (v : bool) (s : ws_page) : ws_page :=
  mkWsPage (ws_fields s) (ws_clients s) (pahoMqttClient s) (ws_localStorage s)
    (globalCleanSession s) (globalSubscribes s) (globalPubMessages s) (globalSubMessages s)
    (sub_table s) (pubmsg_table s) (submsg_table s) (conn_btn s) (disconn_btn s)
    (sub_btn s) (pub_btn s) (status_connected s) (ws_notices s) v.

Abbreviation W := (St ws_page exn).

Section Page.
Variable messages : page.           (* the console's page, with its messages *)
Variable now : date.                (* [new Date()] *)
Variable attr_text : jsstr -> jsstr.  (* a text put between quotation marks in HTML, read back *)

Definition ws_msg (key : string) : option jsstr := msg messages key.
Definition now_text : jsstr := getSmpFormatNowDate now (Some true).

(** [Number(s)] of decimal and hexadecimal integers and of blank text; any other
    text is [NaN]. *)
Definition unsigned_number (base : Z) (s : jsstr) : jsnum :=
  if forallb (λ c, match digit_val base c with Some _ => true | None => false end) s
     && negb (jseqb s [])
  then parseInt base s else NaN.

Definition to_Number (s : jsstr) : jsnum :=
  match trim s with
  | [] => Num 0
  | c :: s' =>
      if c =? 45 then num_scale (-1) (unsigned_number 10 s')
      else if c =? 43 then unsigned_number 10 s'
      else if (c =? 48) && match s' with x :: _ => (x =? 120) || (x =? 88) | [] => false end
      then unsigned_number 16 (tail s')
      else unsigned_number 10 (c :: s')
  end.

(** ** What the functions show *)
Definition subDataTable (s : ws_page) : ws_page := with_sub_table (globalSubscribes s) s.
Definition pubMsgDataTalbe (s : ws_page) : ws_page := with_pubmsg_table (globalPubMessages s) s.
Definition subMsgDataTable (s : ws_page) : ws_page := with_submsg_table (globalSubMessages s) s.

Definition enabled_btn : ws_button := mkWsButton false false.
Definition disabled_btn : ws_button := mkWsButton true false.

Definition init4Connected (s : ws_page) : ws_page :=
  let s := with_conn_btn disabled_btn s in
  let s := with_disconn_btn (mkWsButton false (btn_spinning (disconn_btn s))) s in
  let s := with_sub_btn enabled_btn s in
  let s := with_pub_btn enabled_btn s in
  with_status_connected true s.

Definition init4Disconnected (s : ws_page) : ws_page :=
  let s := with_conn_btn enabled_btn s in
  let s := with_disconn_btn (mkWsButton true (btn_spinning (disconn_btn s))) s in
  let s := with_sub_btn disabled_btn s in
  let s := with_pub_btn disabled_btn s in
  with_status_connected false s.

Definition processing4Btn : ws_button := mkWsButton true true.
Definition endProcessing4Btn : ws_button := mkWsButton false false.

Definition notify (n : ws_notice) (s : ws_page) : ws_page := with_ws_notices (ws_notices s ++ [n]) s.

(** ** The callbacks *)

(** The row of a message published or received. *)
Definition message_row (m : Message) : result exn msg_item :=
  payload <-? getPayloadString m ;;
  Ret (mkMsgItem payload (destinationName m) (qos m) now_text).

Definition on_delivered (m : Message) (s : ws_page) : ws_page :=
  match message_row m with
  | Ret pubItem =>
      let s := with_globalPubMessages (globalPubMessages s ++ [pubItem]) s in
      notify (Succeeded (ws_msg "ws_notify_send_succeed")) (pubMsgDataTalbe s)
  | Throw _ => with_faulted true s
  end.

Definition on_arrived (m : Message) (s : ws_page) : ws_page :=
  match message_row m with
  | Ret subItem => subMsgDataTable (with_globalSubMessages (globalSubMessages s ++ [subItem]) s)
  | Throw _ => with_faulted true s
  end.

(** The loop over the subscriptions: the first of the same topic is updated. *)
Fixpoint update_sub (item : sub_item) (l : list sub_item) : list sub_item * bool :=
  match l with
  | [] => ([], false)
  | oneSub :: l' =>
      if jseqb (si_topic item) (si_topic oneSub)
      then (mkSubItem (si_topic oneSub) (si_qos item) (si_time item) :: l', true)
      else let '(r, hasSameTopic) := update_sub item l' in (oneSub :: r, hasSameTopic)
  end.

Definition on_subscribed (topic : jsstr) (q : jsstr) (s : ws_page) : ws_page :=
  let item := mkSubItem topic q now_text in
  let '(subs, hasSameTopic) := update_sub item (globalSubscribes s) in
  let s := with_globalSubscribes (if hasSameTopic then subs else subs ++ [item]) s in
  let s := subDataTable s in
  let s := with_sub_btn endProcessing4Btn s in
  notify (Succeeded (ws_msg "ws_notify_sub_succeed")) s.

Definition on_subscribe_failure (m : option errtext) (s : ws_page) : ws_page :=
  notify (FailedWith m) (with_sub_btn endProcessing4Btn s).

Definition on_unsubscribed (topic : jsstr) (s : ws_page) : ws_page :=
  let newGlobalSubscribes :=
    List.filter (λ oneSub, negb (jseqb topic (si_topic oneSub))) (globalSubscribes s) in
  let s := subDataTable (with_globalSubscribes newGlobalSubscribes s) in
  notify (Succeeded (ws_msg "ws_notify_unsub_succeed")) s.

Definition on_connect_success (clean : bool) (s : ws_page) : ws_page :=
  let s := init4Connected (with_globalCleanSession clean s) in
  notify (Succeeded (ws_msg "ws_notify_connect_succeed")) s.

Definition on_connect_failure (m : errtext) (s : ws_page) : ws_page :=
  notify (FailedWith (Some m)) (init4Disconnected s).

(** What a client reports. *)
Definition on_output (clean : bool) (o : output) (s : ws_page) : ws_page :=
  match o with
  | OpenSocket _ _ | SocketSend _ | SocketClose => s
  | OnConnectSuccess => on_connect_success clean s
  | OnConnectFailure _ m => on_connect_failure m s
  | OnConnectionLost _ _ => init4Disconnected s
  | OnMessageArrived (Some m) => on_arrived m s
  | OnMessageDelivered (Some m) => on_delivered m s
  | OnMessageArrived None | OnMessageDelivered None => with_faulted true s
  | OnSubscribeSuccess topics q _ => on_subscribed (default [] (head topics)) (dec (default 0 (head q))) s
  | OnSubscribeFailure _ _ => on_subscribe_failure None s
  | OnSubscribeTimeout _ _ m => on_subscribe_failure (Some m) s
  | OnUnsubscribeSuccess topics => on_unsubscribed (default [] (head topics)) s
  | OnUnsubscribeTimeout _ _ m => notify (FailedWith (Some m)) s
  end.

(** A method of the client [k]; the storage is the browser's. *)
Definition call (k : nat) (method : A unit) : W unit := λ s,
  match ws_clients s !! k with
  | None => (Throw TypeError, s)
  | Some wc =>
      let a := set_client (set_localStorage (ws_localStorage s) (a_client (wc_api wc))) (wc_api wc) in
      let '(r, a') := method a in
      let reported := drop (length (e_output (a_client a))) (e_output (a_client a')) in
      let s := with_ws_clients (<[k := mkWsClient a' (wc_clean wc)]> (ws_clients s)) s in
      let s := with_ws_localStorage (e_localStorage (a_client a')) s in
      (r, foldl (λ s o, on_output (wc_clean wc) o s) s reported)
  end.

(** ** The functions of the buttons *)
Definition a_function : value := Function [] 1.

Definition ws_connect_options (f : ws_form) : props :=
  [(js "timeout", Number (Num 10)); (js "userName", Str (conn_username f));
   (js "password", Str (conn_password f));
   (js "keepAliveInterval", Number (to_Number (conn_heartbeat f)));
   (js "cleanSession", Bool (clean_session f)); (js "useSSL", Bool (ssl f));
   (js "onSuccess", a_function); (js "onFailure", a_function)].

Definition ws_connect : W unit :=
  modify (with_conn_btn processing4Btn) ;;
  f <- get ws_fields ;;
  localStorage <- get ws_localStorage ;;
  a <- lift (new_Client [Str (conn_host f); Number (to_Number (conn_port f)); Str (conn_path f);
                         Str (conn_clientid f)] localStorage) ;;
  k <- get (λ s, length (ws_clients s)) ;;
  modify (λ s, with_pahoMqttClient (Some k)
    (with_ws_clients (ws_clients s ++ [mkWsClient a (clean_session f)]) s)) ;;
  call k (set_callback OnConnectionLostProp a_function) ;;
  call k (set_callback OnMessageDeliveredProp a_function) ;;
  call k (set_callback OnMessageArrivedProp a_function) ;;
  call k (λ a, (api_connect (ws_connect_options f) a).1).

Definition ws_disconnect : W unit :=
  clean <- get globalCleanSession ;;
  when clean (modify (λ s, subDataTable (with_globalSubscribes [] s))) ;;
  o <- get pahoMqttClient ;;
  match o with
  | Some k => call k api_disconnect ;; modify (with_pahoMqttClient None)
  | None => ret tt
  end ;;
  modify init4Disconnected.

Definition ws_subscribe : W unit :=
  modify (with_sub_btn processing4Btn) ;;
  f <- get ws_fields ;;
  o <- get pahoMqttClient ;;
  match o with
  | Some k =>
      call k (api_subscribe (Str (sub_topic_field f))
        [(js "qos", Number (to_Number (sub_qos_field f))); (js "timeout", Number (Num 10));
         (js "onSuccess", a_function); (js "onFailure", a_function)])
  | None => ret tt
  end.

(** The button of the row [i]. *)
Definition ws_unsubscribe (i : nat) : W unit :=
  rows <- get sub_table ;;
  o <- get pahoMqttClient ;;
  match rows !! i, o with
  | Some row, Some k =>
      call k (api_unsubscribe (Str (attr_text (si_topic row)))
        [(js "timeout", Number (Num 10)); (js "onSuccess", a_function); (js "onFailure", a_function)])
  | _, _ => ret tt
  end.

Definition ws_send_message : W unit :=
  modify (with_pub_btn processing4Btn) ;;
  f <- get ws_fields ;;
  o <- get pahoMqttClient ;;
  match o with
  | Some k =>
      call k (api_send [Str (pub_topic_field f); Str (pub_msg_field f);
                        Number (to_Number (pub_qos_field f)); Bool (msg_retain f)])
  | None => ret tt
  end ;;
  modify (with_pub_btn endProcessing4Btn).

Definition pubmsg_refresh (s : ws_page) : ws_page := pubMsgDataTalbe (with_globalPubMessages [] s).
Definition submsg_refresh (s : ws_page) : ws_page := subMsgDataTable (with_globalSubMessages [] s).
End Page.

(** ** Runs of the page *)

(** What loading the page gives; the client identifier is made from the time. *)
Definition initWsPage (time : Z) : ws_form :=
  mkWsForm (js "127.0.0.1") (js "8080") (js "/mqtt") (js "paho" ++ dec time) [] [] (js "60")
    true false (js "/stuart/#") (js "0") (js "/stuart/hello")
    ([123; 34] ++ js "test" ++ [34; 58; 34] ++ js "world" ++ [34; 125]) (js "0") false.

Definition ws_initial (f : ws_form) (localStorage : gmap jsstr StoredMessage) : ws_page :=
  mkWsPage f [] None localStorage false [] [] [] [] [] [] enabled_btn (mkWsButton true false)
    disabled_btn disabled_btn false [] false.

Inductive ws_event :=
  | Typed (f : ws_form)
  | ClickConnect
  | ClickDisconnect
  | ClickSubscribe
  | ClickUnsubscribe (row : nat)
  | ClickSend
  | ClickPubRefresh
  | ClickSubRefresh
  | ClientEvent (k : nat) (e : event).

(** What the browser, and not the page, does to a client. *)
Definition from_browser (e : event) : bool :=
  match e with
  | SocketOpened | SocketData _ | SocketErrored _ | SocketClosed | TimerFires _ => true
  | _ => false
  end.

Definition with_ws_fields (f : ws_form) (s : ws_page) : ws_page :=
  mkWsPage f (ws_clients s) (pahoMqttClient s) (ws_localStorage s)
    (globalCleanSession s) (globalSubscribes s) (globalPubMessages s) (globalSubMessages s)
    (sub_table s) (pubmsg_table s) (submsg_table s) (conn_btn s) (disconn_btn s)
    (sub_btn s) (pub_btn s) (status_connected s) (ws_notices s) (faulted s).

(** One event, at the time [now]; a click handler that throws stops there. *)
Definition run_ws (messages : page) (attr_text : jsstr -> jsstr) (now : date) (e : ws_event)
    (s : ws_page) : ws_page :=
  match e with
  | Typed f => with_ws_fields f s
  | ClickConnect => snd (ws_connect messages now s)
  | ClickDisconnect => snd (ws_disconnect messages now s)
  | ClickSubscribe => snd (ws_subscribe messages now s)
  | ClickUnsubscribe i => snd (ws_unsubscribe messages now attr_text i s)
  | ClickSend => snd (ws_send_message messages now s)
  | ClickPubRefresh => pubmsg_refresh s
  | ClickSubRefresh => submsg_refresh s
  | ClientEvent k e =>
      if from_browser e then snd (call messages now k (on_client (run_event e)) s) else s
  end.

(** The events of a visit of the page, each with its time. *)
Definition visit (messages : page) (attr_text : jsstr -> jsstr) (es : list (date * ws_event))
    (s : ws_page) : ws_page :=
  foldl (λ s e, run_ws messages attr_text e.1 e.2 s) s es.
