(* ===== verification/WebSocketFacts.v ===== *)
(** * What the MQTT client page does

    Its tables show what it knows, one row per topic subscribed to; what is
    typed into the connection form is what the CONNECT packet says; and a
    message typed on one page is the message another page shows. *)

From stdpp Require Import base tactics list strings gmap numbers.
From Stdlib Require Import ZArith Lia.
From S2P Require Import Prelude PahoBase Utf8 Wire WireFacts WireTheorems Client ClientKeeps.
From S2P Require Import Storage Identifiers Ready Delivery Api ApiFacts Language Dates Console WebSocket.
Local Open Scope Z_scope.
Local Open Scope st_scope.

(** ** The tables *)
Record consistent (s : ws_page) : Prop := {
  cs_topics : NoDup (si_topic <$> globalSubscribes s);
  cs_sub : sub_table s = globalSubscribes s;
  cs_pub : pubmsg_table s = globalPubMessages s;
  cs_submsg : submsg_table s = globalSubMessages s;
}.

(** The row of a topic. *)
Definition sub_of (topic : jsstr) (l : list sub_item) : option sub_item :=
  find (λ i, jseqb topic (si_topic i)) l.

Lemma update_sub_spec item l :
  let '(l', found) := update_sub item l in
  si_topic <$> l' = si_topic <$> l /\
  (found = true <-> si_topic item ∈ (si_topic <$> l)) /\
  (found = true -> sub_of (si_topic item) l' = Some item) /\
  forall t, t <> si_topic item -> sub_of t l' = sub_of t l.
Proof.
  induction l as [|x l IH]; cbn [update_sub].
  { split_and!; try done. cbn. by rewrite elem_of_nil. }
  destruct (jseqb_spec (si_topic item) (si_topic x)) as [E|Hne].
  - cbn [fmap list_fmap si_topic]. split_and!; [done| |intros _|].
    + split; [|done]. rewrite E. intros _. by left.
    + cbn. rewrite E. destruct (jseqb_spec (si_topic x) (si_topic x)); [|done].
      f_equal. destruct item; cbn in *. by subst.
    + intros t Ht. cbn. by destruct (jseqb_spec t (si_topic x)); [congruence|].
  - destruct (update_sub item l) as [r found]. destruct IH as (H1 & H2 & H3 & H4).
    cbn [fmap list_fmap]. split_and!.
    + by rewrite H1.
    + rewrite H2, elem_of_cons. split; [by right|intros [?|?]; [congruence|done]].
    + intros Hf. cbn. destruct (jseqb_spec (si_topic item) (si_topic x)); [congruence|]. by apply H3.
    + intros t Ht. cbn. case_match; [done|]. by apply H4.
Qed.

Section Visit.
Variable messages : page.
Variable attr_text : jsstr -> jsstr.

Lemma consistent_ext s s' :
  globalSubscribes s' = globalSubscribes s -> sub_table s' = sub_table s ->
  globalPubMessages s' = globalPubMessages s -> pubmsg_table s' = pubmsg_table s ->
  globalSubMessages s' = globalSubMessages s -> submsg_table s' = submsg_table s ->
  consistent s -> consistent s'.
Proof.
  intros E1 E2 E3 E4 E5 E6 [H1 H2 H3 H4]. constructor; by rewrite ?E1, ?E2, ?E3, ?E4, ?E5, ?E6.
Qed.

(** After a subscription, or the end of one. *)
Lemma consistent_subscribed now topic q s : consistent s -> consistent (on_subscribed messages now topic q s).
Proof.
  intros [H1 H2 H3 H4]. unfold on_subscribed. generalize (now_text now). intros time.
  pose proof (update_sub_spec (mkSubItem topic q time) (globalSubscribes s)) as H.
  destruct (update_sub _ _) as [l found]. destruct H as (E & Hf & _).
  constructor; [|done..]. cbn. destruct found; [by rewrite E|].
  rewrite fmap_app. apply list.NoDup_app. split_and!; [by rewrite E| |by apply NoDup_singleton].
  intros t Ht Ht'. apply list_elem_of_singleton in Ht' as ->. rewrite E in Ht. by apply Hf in Ht.
Qed.

Lemma NoDup_filter_topics (p : sub_item -> bool) l :
  NoDup (si_topic <$> l) -> NoDup (si_topic <$> List.filter p l).
Proof.
  induction l as [|x l IH]; [done|]. cbn [fmap list_fmap]. intros [Hx Hl]%list.NoDup_cons. cbn.
  destruct (p x); [|by apply IH]. cbn [fmap list_fmap]. apply list.NoDup_cons. split; [|by apply IH].
  intros (y & Ey & Hy)%list_elem_of_fmap. apply Hx. apply list_elem_of_fmap. exists y. split; [done|].
  apply list_elem_of_In, filter_In in Hy as [Hy _]. by apply list_elem_of_In.
Qed.

Lemma consistent_output now clean o s :
  consistent s -> consistent (on_output messages now clean o s).
Proof.
  intros Hs. destruct o as [| | | | | |[m|]|[m|]|ts q rc|ts rc|ts c e|ts|ts c e]; cbn [on_output];
    try (by apply (consistent_ext s)).
  - unfold on_arrived. destruct (message_row now m); [|by apply (consistent_ext s)].
    by destruct Hs.
  - unfold on_delivered. destruct (message_row now m); [|by apply (consistent_ext s)].
    by destruct Hs.
  - by apply consistent_subscribed.
  - destruct Hs. constructor; [|done..]. by apply NoDup_filter_topics.
Qed.

Lemma consistent_call now k method s :
  consistent s -> consistent (snd (call messages now k method s)).
Proof.
  intros Hs. unfold call. destruct (ws_clients s !! k) as [wc|]; [|done].
  destruct (method _) as [r a']. cbn [snd].
  assert (forall l s, consistent s ->
    consistent (foldl (λ s o, on_output messages now (wc_clean wc) o s) s l)) as Hfold.
  { induction l as [|o l IH]; intros s0 H0; [done|]. by apply IH, consistent_output. }
  apply Hfold. by apply (consistent_ext s).
Qed.

Definition winv (m : W unit) : Prop := forall s, consistent s -> consistent (snd (m s)).

Lemma winv_bind {A} (m : W A) (f : A -> W unit) :
  (forall s, consistent s -> consistent (snd (m s))) -> (forall a, winv (f a)) -> winv (bind m f).
Proof.
  intros Hm Hf s Hs. unfold bind. specialize (Hm s Hs). destruct (m s) as [[a|e] s']; [|done].
  by apply Hf.
Qed.

Lemma winv_modify f : (forall s, consistent s -> consistent (f s)) -> winv (modify f).
Proof. intros H s Hs. by apply H. Qed.

Ltac winv_step :=
  match goal with
  | |- winv (bind _ _) => apply winv_bind; [|intros]
  | |- winv (call _ _ _ _) => intros ? ?; by apply consistent_call
  | |- winv (modify _) => apply winv_modify; intros s ?; by apply (consistent_ext s)
  | |- winv (match ?x with _ => _ end) => destruct x
  | |- winv (when ?b _) => destruct b; cbn [when]
  | |- winv (ret _) => by intros ? ?
  | |- forall s, consistent s -> consistent (snd (call _ _ _ _ s)) => intros; by apply consistent_call
  | |- forall s, consistent s -> consistent (snd (modify _ s)) => intros s ?; by apply (consistent_ext s)
  | |- forall s, consistent s -> consistent (snd (_ s)) => by intros
  end.

Lemma consistent_run now e s : consistent s -> consistent (run_ws messages attr_text now e s).
Proof.
  destruct e as [f| | | |i| | | |k e]; cbn [run_ws]; intros Hs.
  - by apply (consistent_ext s).
  - revert s Hs. change (winv (ws_connect messages now)). unfold ws_connect. repeat winv_step.
  - revert s Hs. change (winv (ws_disconnect messages now)). unfold ws_disconnect.
    apply winv_bind; [by intros|intros clean]. apply winv_bind; [|intros _; repeat winv_step].
    + intros s [H1 H2 H3 H4]. destruct clean; [|by constructor]. constructor; [constructor|done..].
    + match goal with |- forall s, consistent s -> consistent (snd (?m s)) => change (winv m) end.
      repeat winv_step.
  - revert s Hs. change (winv (ws_subscribe messages now)). unfold ws_subscribe. repeat winv_step.
  - revert s Hs. change (winv (ws_unsubscribe messages now attr_text i)).
    unfold ws_unsubscribe. repeat winv_step.
  - revert s Hs. change (winv (ws_send_message messages now)). unfold ws_send_message.
    repeat winv_step.
    match goal with |- forall s, consistent s -> consistent (snd (?m s)) => change (winv m) end.
    repeat winv_step.
  - by destruct Hs.
  - by destruct Hs.
  - destruct (from_browser e); [by apply consistent_call|done].
Qed.
End Visit.

(** What a subscription and the end of one do to the rows. *)
Lemma sub_of_app t l i : sub_of t (l ++ [i]) = match sub_of t l with
  | Some x => Some x
  | None => if jseqb t (si_topic i) then Some i else None
  end.
Proof. induction l as [|x l IH]; [done|]. cbn. by destruct (jseqb t (si_topic x)). Qed.

Lemma sub_of_none t l : t ∉ (si_topic <$> l) -> sub_of t l = None.
Proof.
  induction l as [|x l IH]; [done|]. cbn [fmap list_fmap]. rewrite not_elem_of_cons. intros [H1 H2].
  cbn. destruct (jseqb_spec t (si_topic x)); [done|]. by apply IH.
Qed.

Lemma subscribed_rows messages now topic q s :
  let s' := on_subscribed messages now topic q s in
  sub_of topic (sub_table s') = Some (mkSubItem topic q (now_text now)) /\
  forall t, t <> topic -> sub_of t (sub_table s') = sub_of t (globalSubscribes s).
Proof.
  cbv zeta. unfold on_subscribed. generalize (now_text now). intros time.
  pose proof (update_sub_spec (mkSubItem topic q time) (globalSubscribes s)) as H.
  destruct (update_sub _ _) as [l found]. destruct H as (E & Hf & Hi & Ho). cbn -[sub_of] in *.
  destruct found; [by split; [apply Hi|]|]. rewrite sub_of_app.
  rewrite sub_of_none by (rewrite E; intros ?%Hf; done). split.
  - cbn [si_topic]. by destruct (jseqb_spec topic topic).
  - intros t Ht. rewrite sub_of_app, Ho by done. cbn. destruct (sub_of t _); [done|].
    by destruct (jseqb_spec t topic).
Qed.

Lemma unsubscribed_rows messages topic s :
  let s' := on_unsubscribed messages topic s in
  sub_of topic (sub_table s') = None /\
  forall t, t <> topic -> sub_of t (sub_table s') = sub_of t (globalSubscribes s).
Proof.
  cbn. induction (globalSubscribes s) as [|x l [IH1 IH2]]; [done|]. cbn.
  destruct (jseqb_spec topic (si_topic x)) as [->|Hne]; cbn.
  - split; [done|]. intros t Ht. rewrite IH2 by done. by destruct (jseqb_spec t (si_topic x)).
  - destruct (jseqb_spec topic (si_topic x)); [done|]. split; [done|]. intros t Ht.
    destruct (jseqb t (si_topic x)); [done|]. by apply IH2.
Qed.

(** The page of the MQTT client shows what it knows, after any visit,
    whatever its clients report and however many it has made: one row for each
    topic, the messages published and received in the order they came.  A
    subscription that succeeds puts the topic's row to the new qos and time, the
    end of one removes it, and neither touches another topic's row. *)
Theorem ws_tables_show_state messages attr_text f localStorage es :
  let s := visit messages attr_text es (ws_initial f localStorage) in
  NoDup (si_topic <$> globalSubscribes s) /\ sub_table s = globalSubscribes s /\
  pubmsg_table s = globalPubMessages s /\ submsg_table s = globalSubMessages s /\
  (forall now topic q, let s' := on_subscribed messages now topic q s in
     sub_of topic (sub_table s') = Some (mkSubItem topic q (now_text now)) /\
     forall t, t <> topic -> sub_of t (sub_table s') = sub_of t (sub_table s)) /\
  (forall topic, let s' := on_unsubscribed messages topic s in
     sub_of topic (sub_table s') = None /\
     forall t, t <> topic -> sub_of t (sub_table s') = sub_of t (sub_table s)).
Proof.
  intros s. assert (consistent s) as Hs.
  { assert (forall es s0, consistent s0 -> consistent (visit messages attr_text es s0)) as H.
    { induction es0 as [|e es0 IH]; intros s0 H0; [done|]. by apply IH, consistent_run. }
    apply H. by repeat constructor. }
  destruct Hs as [H1 H2 H3 H4]. split_and!; [done..| |].
  - intros now topic q s'. rewrite H2. by apply subscribed_rows.
  - intros topic s'. rewrite H2. by apply unsubscribed_rows.
Qed.

(** ** From the connection form to the wire *)
Lemma digit_not_space c : is_digit c = true -> is_space c = false.
Proof.
  intros H. assert (48 <= c < 58) as Hc by (unfold is_digit in H; zbool; lia).
  pose proof (bounded_forall (λ c, negb (is_digit c) || negb (is_space c)) 58 eq_refl c ltac:(lia)) as Hb.
  cbn beta in Hb. rewrite H in Hb. by destruct (is_space c).
Qed.

Lemma drop_while_digits s : Forall (λ c, is_digit c = true) s -> drop_while is_space s = s.
Proof. destruct 1 as [|c s Hc _]; [done|]. cbn. by rewrite digit_not_space. Qed.

Lemma trim_digits s : Forall (λ c, is_digit c = true) s -> trim s = s.
Proof.
  intros H. unfold trim. rewrite (drop_while_digits s H).
  rewrite drop_while_digits by (apply List.Forall_rev; exact H). apply rev_involutive.
Qed.

Lemma unsigned_digits s z : s <> [] -> Forall (λ c, is_digit c = true) s -> parseInt 10 s = Num z ->
  unsigned_number 10 s = Num z.
Proof.
  intros Hne Hs Hz. unfold unsigned_number.
  assert (forallb (λ c, match digit_val 10 c with Some _ => true | None => false end) s = true) as ->.
  { apply forallb_forall. intros c Hc. eapply List.Forall_forall in Hs; [|exact Hc].
    assert (48 <= c < 58) as Hr by (unfold is_digit in Hs; zbool; lia).
    pose proof (bounded_forall (λ c, negb (is_digit c) ||
      match digit_val 10 c with Some _ => true | None => false end) 58 eq_refl c ltac:(lia)) as Hb.
    cbn beta in Hb. by rewrite Hs in Hb. }
  by destruct s.
Qed.

(** A number typed in decimal. *)
Lemma to_Number_dec z : 0 <= z -> to_Number (dec z) = Num z.
Proof.
  intros Hz. destruct (dec_digits z Hz) as [Hne Hd].
  assert (unsigned_number 10 (dec z) = Num z) as Hu.
  { apply unsigned_digits; [done|done|]. apply (parseInt_to_base 10 z). lia. }
  unfold to_Number. rewrite trim_digits by done.
  destruct (dec z) as [|c s] eqn:E; [done|]. apply Forall_cons_1 in Hd as [Hc Hs].
  assert (48 <= c <= 57) as Hr by (unfold is_digit in Hc; zbool; lia).
  assert ((c =? 45) = false /\ (c =? 43) = false) as [-> ->] by lia.
  assert (match s with x :: _ => (x =? 120) || (x =? 88) | [] => false end = false) as ->;
    [|by rewrite andb_false_r].
  destruct s as [|x s]; [done|]. apply Forall_cons_1 in Hs as [Hx _].
  unfold is_digit in Hx. zbool. lia.
Qed.

(** A string has at most as many code points as bytes. *)
Lemma code_points_le s : code_points s <= UTF8Length s.
Proof.
  remember (length s) as n eqn:Hn. revert s Hn.
  induction (lt_wf n) as [n _ IH]. intros [|c s] ->; cbn [UTF8Length code_points]; [done|].
  assert (code_points s <= UTF8Length s) as H1 by (eapply IH; [|done]; cbn; lia).
  assert (match s with [] => 1 | _ :: s'' => 1 + code_points s'' end
          <= 1 + match s with [] => 0 | _ :: s' => UTF8Length s' end) as H2.
  { destruct s as [|d s]; [done|]. cbn [length] in IH.
    pose proof (IH (length s) ltac:(cbn; lia) s eq_refl). lia. }
  unfold is_high_surrogate. destruct ((0xD800 <=? c) && (c <=? 0xDBFF)) eqn:E.
  - assert ((c >? 0x7FF) = true) as -> by lia. lia.
  - destruct (c >? 0x7FF), (c >? 0x7F); lia.
Qed.

(** *** What one call of a client does to the page *)
Definition reports (messages : page) (now : date) (clean : bool) (os : list output) (s : ws_page) : ws_page :=
  foldl (λ s o, on_output messages now clean o s) s os.

Definition after_call (k : nat) (a : api) (clean : bool) (s : ws_page) : ws_page :=
  with_ws_localStorage (e_localStorage (a_client a))
    (with_ws_clients (<[k := mkWsClient a clean]> (ws_clients s)) s).

Definition in_browser (s : ws_page) (a : api) : api :=
  set_client (set_localStorage (ws_localStorage s) (a_client a)) a.

Lemma call_run messages now k method s wc r a' os :
  ws_clients s !! k = Some wc -> method (in_browser s (wc_api wc)) = (r, a') ->
  e_output (a_client a') = e_output (a_client (wc_api wc)) ++ os ->
  call messages now k method s = (r, reports messages now (wc_clean wc) os (after_call k a' (wc_clean wc) s)).
Proof.
  intros Hk Hm Ho. unfold call. rewrite Hk. fold (in_browser s (wc_api wc)). rewrite Hm, Ho.
  by rewrite drop_app_length.
Qed.

(** The options as they reach the client. *)
Definition ws_options (f : ws_form) (keepAlive : Z) : ConnectOptions :=
  mkConnectOptions (Some 10) (Some (conn_username f)) (Some (conn_password f)) None keepAlive
    (clean_session f) (ssl f) true true None 4 false.

Lemma ws_options_checked f h path u : to_Number (conn_heartbeat f) = Num h ->
  exists o, check_connect path (mkChecking (ws_connect_options f) u) = (Ret tt, mkChecking o u) /\
    read_options o = ws_options f h.
Proof.
  intros Hh. unfold ws_connect_options. rewrite Hh. destruct f as [? ? ? ? user pass hb clean s ? ? ? ? ? ?].
  eexists. split; [vm_compute; reflexivity|]. reflexivity.
Qed.

(** A connection just asked for: the socket is opening. *)
Record opening (c : client) (url protocols : jsstr) (o : ConnectOptions) (clientId : jsstr) : Prop := {
  op_socket : c_socket c = Some (mkSocket url protocols 0);
  op_options : c_connectOptions c = Some o;
  op_clientId : cf_clientId (c_cfg c) = clientId;
  op_pinger : exists p, c_sendPinger c = Some p /\ is_Some (e_pingers c !! p);
  op_output : e_output c = [OpenSocket url protocols];
}.

Definition ws_url_of (f : ws_form) (port : Z) : jsstr :=
  let uri := host_uri (add_brackets (conn_host f)) (Num port) (conn_path f) in
  if ssl f then to_wss uri else uri.

Lemma connect_opens c f h port :
  c_connected c = false -> c_socket c = None -> e_output c = [] ->
  cf_uri (c_cfg c) = host_uri (add_brackets (conn_host f)) (Num port) (conn_path f) ->
  exists c', connect (ws_options f h) c = (Ret tt, c') /\
    opening c' (ws_url_of f port) (js "mqtt") (ws_options f h) (cf_clientId (c_cfg c)).
Proof.
  intros Hc Hs Ho Hu. unfold connect, bind at 1, get. rewrite Hc. cbn [when].
  unfold bind at 1, ret at 1, bind at 1, get. rewrite Hs. cbn [when].
  unfold bind at 1, ret at 1, bind at 1, modify. unfold connect_first.
  cbn [co_uris ws_options]. unfold bind at 1, get. cbn [c_cfg set_connectOptions]. rewrite Hu.
  unfold _doConnect, bind, get, deref, ret. cbn [c_connectOptions set_connectOptions].
  unfold new_Pinger, new_Timeout, setTimeout, bind, get, emit, modify, ret.
  eexists. split; [reflexivity|]. constructor; cbn -[to_wss host_uri js].
  - by rewrite Hs || done.
  - done.
  - done.
  - eexists. split; [done|]. cbn. rewrite lookup_insert_ne by lia. rewrite lookup_insert_eq. by eexists.
  - by rewrite Ho.
Qed.

(** A client before its first connection. *)
Record unused (c : client) (cf : config) : Prop := {
  un_connected : c_connected c = false;
  un_socket : c_socket c = None;
  un_output : e_output c = [];
  un_cfg : c_cfg c = cf;
}.

(** What the calls of [connect] leave as it is. *)
Record same_page (s s' : ws_page) : Prop := {
  same_current : pahoMqttClient s' = pahoMqttClient s;
  same_button : conn_btn s' = conn_btn s;
  same_length : length (ws_clients s') = length (ws_clients s);
}.

Lemma same_page_trans s1 s2 s3 : same_page s1 s2 -> same_page s2 s3 -> same_page s1 s3.
Proof. intros [] []. constructor; congruence. Qed.

Lemma after_call_lookup k a clean s : is_Some (ws_clients s !! k) ->
  ws_clients (after_call k a clean s) !! k = Some (mkWsClient a clean).
Proof. intros H. cbn. by rewrite list_lookup_insert_eq by (by apply lookup_lt_is_Some). Qed.

Lemma after_call_same k a clean s : same_page s (after_call k a clean s).
Proof. constructor; [done|done|cbn; apply length_insert]. Qed.

Lemma callback_step messages now k cb s wc cf :
  ws_clients s !! k = Some wc -> unused (a_client (wc_api wc)) cf ->
  exists s' wc', call messages now k (set_callback cb a_function) s = (Ret tt, s') /\
    ws_clients s' !! k = Some wc' /\ unused (a_client (wc_api wc')) cf /\ same_page s s'.
Proof.
  intros Hk [H1 H2 H3 H4]. eexists _, _. split.
  - eapply (call_run messages now k _ s wc _ _ [] Hk); [reflexivity|].
    cbn. by rewrite app_nil_r.
  - split; [by apply after_call_lookup|]. split; [by constructor|]. apply after_call_same.
Qed.

Lemma connect_step messages now k s wc f h port cf :
  ws_clients s !! k = Some wc -> unused (a_client (wc_api wc)) cf ->
  to_Number (conn_heartbeat f) = Num h ->
  cf_uri cf = host_uri (add_brackets (conn_host f)) (Num port) (conn_path f) ->
  exists s' wc',
    call messages now k (λ a, (api_connect (ws_connect_options f) a).1) s = (Ret tt, s') /\
    ws_clients s' !! k = Some wc' /\ same_page s s' /\
    opening (a_client (wc_api wc')) (ws_url_of f port) (js "mqtt") (ws_options f h) (cf_clientId cf).
Proof.
  intros Hk [H1 H2 H3 H4] Hh Hu. set (a := in_browser s (wc_api wc)).
  destruct (ws_options_checked f h (a_path a) (a_uri a) Hh) as (o & Eo & Er).
  destruct (connect_opens (a_client a) f h port) as (c' & Ec & Hop); [done|done|done|by cbn; rewrite H4|].
  set (a' := set_client c' (mkApi (a_host a) (a_port a) (a_path a) (a_uri a) (a_client a))).
  exists (after_call k a' (wc_clean wc) s), (mkWsClient a' (wc_clean wc)).
  split; [|split; [by apply after_call_lookup|]; split; [apply after_call_same|]].
  - rewrite (call_run messages now k _ s wc (Ret tt) a' [OpenSocket (ws_url_of f port) (js "mqtt")] Hk);
      [done| |].
    + fold a. unfold api_connect. rewrite Eo. cbn [ck_uri ck_options]. unfold on_client.
      rewrite Er. change (a_client (mkApi _ _ _ _ (a_client a))) with (a_client a). by rewrite Ec.
    + rewrite H3. apply (op_output _ _ _ _ _ Hop).
  - cbn [wc_api a_client a' set_client].
    replace (cf_clientId cf) with (cf_clientId (c_cfg (a_client a))) by (cbn; by rewrite H4). exact Hop.
Qed.

(** The click on the connect button, with numbers in the fields for them. *)
Lemma ws_connect_run messages now s h port :
  let f := ws_fields s in
  to_Number (conn_heartbeat f) = Num h -> to_Number (conn_port f) = Num port -> 0 <= port ->
  encodable (conn_clientid f) ->
  storage_ok (localKey_of (conn_host f) (Num port) (conn_path f) (conn_clientid f)) (ws_localStorage s) ->
  exists s' wc, ws_connect messages now s = (Ret tt, s') /\
    let k := length (ws_clients s) in
    ws_clients s' !! k = Some wc /\ pahoMqttClient s' = Some k /\ conn_btn s' = processing4Btn /\
    opening (a_client (wc_api wc)) (ws_url_of f port) (js "mqtt") (ws_options f h) (conn_clientid f).
Proof.
  intros f Hh Hp Hport [Hwf Hlen] Hok.
  set (uri := host_uri (add_brackets (conn_host f)) (Num port) (conn_path f)).
  destruct (load_spec uri (conn_host f) (Num port) (conn_path f) (conn_clientid f) _ Hok)
    as (sm & rm & El & _). set (c0 := tables sm rm _) in El.
  set (a0 := mkApi (conn_host f) (Num port) (conn_path f) uri c0).
  assert (new_Client [Str (conn_host f); Number (to_Number (conn_port f)); Str (conn_path f);
                      Str (conn_clientid f)] (ws_localStorage s) = Ret a0) as Ea.
  { rewrite Hp. unfold new_Client, client_address. cbn [arg lookup list_lookup default length Nat.eqb]. unfold id.
    assert ((port <? 0) = false) as -> by lia. cbn [rbind clientIdLength].
    pose proof (code_points_le (conn_clientid f)) as Hc. rewrite UTF8Length_utf8 in Hc by done.
    assert ((code_points (conn_clientid f) >? 65535) = false) as -> by lia.
    unfold load in El. fold uri. by rewrite El. }
  unfold ws_connect, bind at 1, modify. unfold bind at 1, get. cbn [ws_fields with_conn_btn].
  fold f. unfold bind at 1, get. cbn [ws_localStorage with_conn_btn].
  unfold bind at 1, lift. rewrite Ea. unfold bind at 1, get. cbn [ws_clients with_conn_btn].
  set (k := length (ws_clients s)). unfold bind at 1, modify.
  set (s1 := with_pahoMqttClient _ _).
  assert (ws_clients s1 !! k = Some (mkWsClient a0 (clean_session f))) as K1
    by (cbn; by rewrite list_lookup_middle).
  assert (unused c0 (c_cfg c0)) as U1 by (by constructor).
  destruct (callback_step messages now k OnConnectionLostProp s1 _ _ K1 U1) as (s2 & w2 & E2 & K2 & U2 & P2).
  destruct (callback_step messages now k OnMessageDeliveredProp s2 _ _ K2 U2) as (s3 & w3 & E3 & K3 & U3 & P3).
  destruct (callback_step messages now k OnMessageArrivedProp s3 _ _ K3 U3) as (s4 & w4 & E4 & K4 & U4 & P4).
  destruct (connect_step messages now k s4 w4 f h port (c_cfg c0) K4 U4 Hh eq_refl)
    as (s5 & w5 & E5 & K5 & P5 & Hop).
  exists s5, w5. unfold bind. rewrite E2, E3, E4, E5. split; [done|]. cbv zeta.
  destruct (same_page_trans _ _ _ (same_page_trans _ _ _ (same_page_trans _ _ _ P2 P3) P4) P5) as [Q1 Q2 _].
  split_and!; [done|by rewrite Q1|by rewrite Q2|exact Hop].
Qed.

(** The URL of the socket. *)
Lemma join_split c s : join [c] (split_on (λ x, x =? c) s) = s /\ split_on (λ x, x =? c) s <> [].
Proof.
  induction s as [|a s [IH Hne]]; [done|]. cbn [split_on]. destruct (a =? c) eqn:E.
  - split; [|done]. zbool. subst a. destruct (split_on _ s) as [|w ws] eqn:Es; [done|].
    change (join [c] ([] :: w :: ws)) with ([] ++ [c] ++ join [c] (w :: ws)). by rewrite IH.
  - destruct (split_on _ s) as [|w ws] eqn:Es; [done|]. split; [|done].
    destruct ws as [|w' ws]; cbn in IH |- *; by rewrite IH.
Qed.

Lemma to_wss_ws rest : to_wss (js "ws:" ++ rest) = js "wss:" ++ rest.
Proof.
  unfold to_wss. change (js "ws:") with [119; 115; 58]. cbn [app split_on Z.eqb].
  change (chr ":") with 58. change (119 =? 58) with false. change (115 =? 58) with false.
  change (58 =? 58) with true. cbv iota. cbn [tail].
  destruct (join_split 58 rest) as [Hj Hne]. change (js ":") with [58]. revert Hj Hne.
  destruct (split_on _ rest) as [|w ws]; [done|]. intros Hj _.
  change (js "wss" ++ [58] ++ join [58] (w :: ws) = js "wss:" ++ rest). by rewrite Hj.
Qed.

Lemma ws_url_text f port : ws_url_of f port
  = (if ssl f then js "wss:" else js "ws:") ++ js "//" ++ add_brackets (conn_host f) ++ js ":"
    ++ dec port ++ conn_path f.
Proof.
  unfold ws_url_of, host_uri. change (js "ws://") with (js "ws:" ++ js "//"). rewrite <- app_assoc.
  destruct (ssl f); [|done]. by rewrite to_wss_ws.
Qed.

(** The socket opens and the CONNECT packet goes out. *)
Lemma socket_opens_run c url o clientId bs :
  opening c url (js "mqtt") o clientId ->
  encode (mkWireMessage MESSAGE_TYPE.CONNECT None None [] [] (Some o) clientId false
            NoReturnCode false None None false false false) = Ret bs ->
  exists c', run_event SocketOpened c = (Ret tt, c') /\
    e_output c' = e_output c ++ [SocketSend bs].
Proof.
  intros [Hs Ho Hc (p & Hp & Hpg) _] He. cbn [run_event]. unfold with_socket, bind at 1, get.
  rewrite Hs. unfold bind at 1, modify. cbn [default ws_url ws_protocols].
  set (c1 := set_socket _ c). unfold _on_socket_open, bind at 1, get, bind at 1, get.
  change (c_connectOptions c1) with (c_connectOptions c). rewrite Ho.
  change (cf_clientId (c_cfg c1)) with (cf_clientId (c_cfg c)). rewrite Hc.
  unfold _socket_send, bind at 1, get. change (c_socket c1) with (Some (mkSocket url (js "mqtt") 1)).
  unfold bind at 1, deref, ret at 1. unfold bind at 1, lift. rewrite He.
  unfold bind at 1, ws_send. cbn [ws_readyState]. change (1 =? 0) with false.
  change (1 =? 1) with true. cbv iota. unfold emit, modify.
  set (c2 := set_output _ c1).
  destruct (emits_pinger_reset c_sendPinger p c2) as (c3 & E3 & _ & _ & O3); [done|by apply elem_of_dom|].
  exists c3. rewrite E3. split; [done|]. by rewrite O3, app_nil_r.
Qed.

(** The CONNECT packet of the form. *)
Lemma connect_bytes f h :
  0 <= h < 65536 -> encodable (conn_clientid f) -> encodable (conn_username f) ->
  encodable (conn_password f) ->
  exists bs, bs = packet 0x10 (MqttProtoIdentifierv4 ++ [if clean_session f then 0xC2 else 0xC0]
                   ++ uint16_bytes h ++ string_field (conn_clientid f)
                   ++ string_field (conn_username f) ++ string_field (conn_password f)) /\
    encode (mkWireMessage MESSAGE_TYPE.CONNECT None None [] [] (Some (ws_options f h)) (conn_clientid f)
              false NoReturnCode false None None false false false) = Ret bs.
Proof.
  intros Hh H1 H2 H3. eexists. split; [reflexivity|]. set (o := ws_options f h).
  assert (connectable (conn_clientid f) o) as Hc by (constructor; cbn; auto).
  assert (connect_header o ++ connect_payload (conn_clientid f) o
    = MqttProtoIdentifierv4 ++ [if clean_session f then 0xC2 else 0xC0] ++ uint16_bytes h
      ++ string_field (conn_clientid f) ++ string_field (conn_username f)
      ++ string_field (conn_password f)) as Hb.
  { unfold connect_header, connect_payload, will_bytes. cbn [co_willMessage o ws_options].
    rewrite <- !app_assoc. do 2 f_equal. cbn [app opt_field co_userName co_password ws_options o].
    unfold flags_byte. cbn. by destruct (clean_session f). }
  rewrite <- Hb. apply encode_connect; [done..|]. rewrite Hb.
  rewrite !length_app, !Nat2Z.inj_add, !length_string_field by done.
  rewrite !UTF8Length_utf8 by (apply H1 || apply H2 || apply H3).
  destruct H1 as [_ H1], H2 as [_ H2], H3 as [_ H3].
  change (length MqttProtoIdentifierv4) with 7%nat. unfold uint16_bytes, max_length. cbn [length]. lia.
Qed.

(** What is typed into the connection form is what goes to the server.  The
    click opens one socket, to the host, port and path of the form, secured as
    the form says; once it is open, the client sends the CONNECT packet of MQTT
    3.1.1 with the keep-alive interval, the client identifier, the user name and
    the password of the form, and nothing else.  A user name or password left
    blank is sent as an empty one, with its flag, and not left out. *)
Theorem connection_form_on_the_wire messages attr_text now now' s h port :
  let f := ws_fields s in
  let k := length (ws_clients s) in
  conn_heartbeat f = dec h -> 0 <= h < 65536 -> conn_port f = dec port -> 0 <= port ->
  encodable (conn_clientid f) -> encodable (conn_username f) -> encodable (conn_password f) ->
  storage_ok (localKey_of (conn_host f) (Num port) (conn_path f) (conn_clientid f)) (ws_localStorage s) ->
  let s' := visit messages attr_text [(now, ClickConnect); (now', ClientEvent k SocketOpened)] s in
  pahoMqttClient s' = Some k /\ conn_btn s' = processing4Btn /\
  exists wc, ws_clients s' !! k = Some wc /\
    e_output (a_client (wc_api wc)) =
      [OpenSocket ((if ssl f then js "wss:" else js "ws:") ++ js "//" ++ add_brackets (conn_host f)
                   ++ js ":" ++ dec port ++ conn_path f) (js "mqtt");
       SocketSend (packet 0x10 (MqttProtoIdentifierv4 ++ [if clean_session f then 0xC2 else 0xC0]
                   ++ uint16_bytes h ++ string_field (conn_clientid f)
                   ++ string_field (conn_username f) ++ string_field (conn_password f)))].
Proof.
  intros f k Hh Hhr Hp Hpr Hid Hu Hpw Hok s'.
  destruct (ws_connect_run messages now s h port) as (s1 & wc & E1 & K1 & Hcur & Hbtn & Hop);
    [by fold f; rewrite Hh; apply to_Number_dec; lia|by fold f; rewrite Hp; apply to_Number_dec|
     done|done|done|].
  fold f in Hop. fold k in K1, Hcur.
  assert (s' = snd (call messages now' k (on_client (run_event SocketOpened)) s1)) as Es.
  { unfold s', visit. cbn [foldl fst snd run_ws from_browser]. by rewrite E1. }
  destruct (connect_bytes f h) as (bs & Hb & He); [done..|].
  destruct (socket_opens_run (set_localStorage (ws_localStorage s1) (a_client (wc_api wc)))
    _ _ _ bs ltac:(by destruct Hop) He) as (c' & E2 & O2).
  set (a' := set_client c' (wc_api wc)).
  assert (call messages now' k (on_client (run_event SocketOpened)) s1
    = (Ret tt, after_call k a' (wc_clean wc) s1)) as Ec.
  { apply (call_run messages now' k _ s1 wc (Ret tt) a' [SocketSend bs] K1); [|exact O2].
    unfold on_client. change (a_client (in_browser s1 (wc_api wc)))
      with (set_localStorage (ws_localStorage s1) (a_client (wc_api wc))). by rewrite E2. }
  rewrite Es, Ec. split; [exact Hcur|]. split; [exact Hbtn|].
  exists (mkWsClient a' (wc_clean wc)). split; [by apply after_call_lookup|].
  cbn [wc_api a' set_client a_client]. rewrite O2. cbn [e_output set_localStorage].
  by rewrite (op_output _ _ _ _ _ Hop), ws_url_text, Hb.
Qed.

(** ** From one page to another *)

(** The publication typed into the form: topic, text, qos and retained flag. *)
Definition typed_message (topic text : jsstr) (q : Z) (r : bool) : Message :=
  mkMessage (PString text) (Some topic) q r false.

(** The same once it has been on the wire. *)
Definition wired_message (topic text : jsstr) (q : Z) (r : bool) : Message :=
  mkMessage (PUint8Array (utf8 text)) (Some topic) q r false.

(** The packets that bring a message of qos [q] to a subscriber: with qos 2 its
    release follows. *)
Definition brings (n : Z) (m : Message) : list packet_in :=
  if qos m =? 0 then [Pub0 m] else if qos m =? 1 then [Pub1 n m] else [Pub2 n m; Rel n].

Definition first_packet (n : Z) (m : Message) : list Z :=
  bytes_of (if qos m =? 0 then Pub0 m else if qos m =? 1 then Pub1 n m else Pub2 n m).

Lemma qos_cases q : 0 <= q <= 2 -> q = 0 \/ q = 1 \/ q = 2.
Proof. lia. Qed.

(** *** Sending *)
Record typed_fields (f : ws_form) (topic text : jsstr) (q : Z) (r : bool) : Prop := {
  tf_topic : pub_topic_field f = topic;
  tf_text : pub_msg_field f = text;
  tf_qos : pub_qos_field f = dec q;
  tf_retain : msg_retain f = r;
  tf_range : 0 <= q <= 2;
  tf_encodable : encodable topic;
  tf_well_formed : wf_utf16 text = true;
  tf_length : Z.of_nat (length (string_field topic ++ utf8 text)) + 2 < max_length;
}.

Lemma typed_publishable f t m q r : typed_fields f t m q r -> publishable (typed_message t m q r) t.
Proof. intros []. by constructor. Qed.

(** A client that can give a new identifier. *)
Definition has_room (c : client) : Prop :=
  1 <= c_message_identifier c /\
  c_message_identifier c + Z.of_nat (size (c_sentMessages c)) < 65536 /\
  65536 <= cf_maxMessageIdentifier (c_cfg c).

Lemma send_qos0_run m d c : running c -> publishable m d -> qos m = 0 ->
  Z.of_nat (length (publish_body None d m)) < max_length ->
  exists c', send m c = (Ret tt, c') /\
    e_output c' = e_output c ++ [was_delivered m; SocketSend (packet (publish_first m) (publish_body None d m))].
Proof.
  intros [Hr [_ Hd]] Hp Hq Hl. unfold send, require_connected, bind at 1, bind at 1, get.
  assert (c_connected c = true) as -> by apply Hr. cbn [negb when]. unfold ret at 1.
  unfold bind at 1, get. rewrite Hq, Hd. change (0 >? 0) with false. cbv iota.
  unfold bind at 1, bind at 1, when, bind at 1, emit, modify at 1, modify at 1, ret at 1.
  set (c1 := set_notify_msg_sent _ _).
  set (w := set_payloadMessage m (new_WireMessage MESSAGE_TYPE.PUBLISH)).
  assert (encode w = Ret (packet (publish_first m) (publish_body (wm_messageIdentifier w) d m))) as He
    by exact (encode_publish w m d eq_refl eq_refl Hp I Hl).
  assert (ready c1) as Hr1.
  { destruct Hr as (H1 & H2 & H3 & _ & H5). split_and!; [exact H1|exact H2|exact H3|done|apply H5|apply H5]. }
  destruct (ready_schedule w c1 _ Hr1 He) as (c2 & E & _ & _ & O).
  exists c2. rewrite E, O. split; [done|]. cbn. by rewrite <- app_assoc.
Qed.

Lemma publish_sent f t m q r c ss : typed_fields f t m q r ->
  running c -> represents c ss -> has_room c ->
  exists c' n, send (typed_message t m q r) c = (Ret tt, c') /\ 1 <= n < 65536 /\
    e_output c' = e_output c ++ (if q =? 0 then [was_delivered (typed_message t m q r)] else [])
                  ++ [SocketSend (first_packet n (wired_message t m q r))].
Proof.
  intros Hf Hc Hs (H1 & H2 & H3). pose proof (typed_publishable _ _ _ _ _ Hf) as Hp.
  destruct Hf as [_ _ _ _ Hq He Hw Hl].
  destruct (next_identifier_least (c_sentMessages c) (c_message_identifier c)) as (Hn & Hfree & _).
  fold (requires_ack_id c) in Hn, Hfree. set (n := requires_ack_id c) in *.
  destruct (decide (q = 0)) as [->|Hq0].
  - destruct (send_qos0_run (typed_message t m 0 r) t c Hc Hp eq_refl) as (c' & E & O).
    { unfold publish_body, id_field. rewrite length_app in Hl |- *. cbn [app] in *. cbn in Hl |- *. lia. }
    exists c', 1. rewrite E, O. split_and!; [done|lia|lia|done].
  - destruct (send_run (typed_message t m q r) t c ss Hc Hs) as (c' & E & _ & _ & _ & O);
      [|lia|unfold id_range; fold n; lia|by apply eq_None_not_Some|].
    { constructor; [done| |cbn; lia|exact Hl]. split; [exact Hw|]. split; [by eexists|cbn; lia]. }
    exists c', n. cbn [run_event] in E. fold n in O. rewrite E, O. split_and!; [done|lia|lia|].
    destruct (qos_cases q Hq) as [->|[->| ->]]; [lia|done|done].
Qed.

(** *** Receiving *)
Lemma wired_row now t m q r : wf_utf16 m = true ->
  message_row now (wired_message t m q r) = Ret (mkMsgItem m (Some t) q (now_text now)).
Proof.
  intros Hm. unfold message_row, getPayloadString. cbn [msg_payload wired_message].
  pose proof (parseUTF8_utf8 m [] [] Hm) as H. rewrite app_nil_r in H. cbn [app length] in H.
  by rewrite H.
Qed.

Lemma brings_ok n t m q r f : typed_fields f t m q r -> 1 <= n < 65536 ->
  Forall packet_ok (brings n (wired_message t m q r)).
Proof.
  intros [_ _ _ _ Hq He Hw Hl] Hn. unfold brings. cbn [qos wired_message].
  assert (forall i, (i = None \/ exists k, i = Some (Num k)) -> wire_message q i (wired_message t m q r)) as Hm.
  { intros i Hid. constructor; [|by exists t|done|].
    - exists (utf8 m). split; [done|]. by apply utf8_range.
    - unfold publish_body, topic_of, id_field. cbn [destinationName wired_message msg_payload payload_bytes default].
      unfold id. rewrite !length_app in *. destruct Hid as [->|[k ->]]; cbn [length uint16_bytes]; lia. }
  assert (id_range n) as Hr by (unfold id_range; lia).
  destruct (qos_cases q Hq) as [->|[->| ->]]; cbn [Z.eqb].
  - apply Forall_singleton. apply Hm. by left.
  - apply Forall_singleton. split; [done|]. apply Hm. right. by exists n.
  - apply list.Forall_cons. split; [|by apply Forall_singleton]. split; [done|].
    apply Hm. right. by exists n.
Qed.

Lemma brings_outputs n m ss : 0 <= qos m <= 2 ->
  exists before after, snd (exchanges (brings n m) ss) = before ++ arrived m :: after /\
    Forall (λ o, exists bs, o = SocketSend bs) (before ++ after).
Proof.
  intros Hq. unfold brings. destruct (qos_cases _ Hq) as [->|[->| ->]]; cbn [Z.eqb].
  - by exists [], [].
  - exists [answer MESSAGE_TYPE.PUBACK n], []. split; [done|]. repeat constructor. by eexists.
  - exists [answer MESSAGE_TYPE.PUBREC n], [answer MESSAGE_TYPE.PUBCOMP n]. split.
    + cbn. by rewrite lookup_insert_eq.
    + repeat constructor; by eexists.
Qed.

Lemma reports_sends messages now clean os s :
  Forall (λ o, exists bs, o = SocketSend bs) os -> reports messages now clean os s = s.
Proof. induction 1 as [|o os [bs ->] _ IH]; [done|]. exact IH. Qed.

(** The client [k] of a page, in the page's browser. *)
Definition client_of (s : ws_page) (k : nat) : option client :=
  (λ wc, set_localStorage (ws_localStorage s) (a_client (wc_api wc))) <$> ws_clients s !! k.

Lemma client_of_lookup s k c : client_of s k = Some c ->
  exists wc, ws_clients s !! k = Some wc /\ c = a_client (in_browser s (wc_api wc)).
Proof.
  unfold client_of. destruct (ws_clients s !! k) as [wc|]; [|done]. intros [= <-]. by exists wc.
Qed.

Lemma ws_send_run messages now s k c t m q r ss :
  pahoMqttClient s = Some k -> client_of s k = Some c ->
  typed_fields (ws_fields s) t m q r -> running c -> represents c ss -> has_room c ->
  exists s' wc' n, ws_send_message messages now s = (Ret tt, s') /\
    ws_clients s' !! k = Some wc' /\ 1 <= n < 65536 /\ pub_btn s' = endProcessing4Btn /\
    e_output (a_client (wc_api wc')) = e_output c
      ++ (if q =? 0 then [was_delivered (typed_message t m q r)] else [])
      ++ [SocketSend (first_packet n (wired_message t m q r))].
Proof.
  intros Hk Hc Hf Hrun Hrep Hroom. destruct (client_of_lookup _ _ _ Hc) as (wc & Hwc & ->).
  destruct (publish_sent _ _ _ _ _ _ _ Hf Hrun Hrep Hroom) as (c' & n & E & Hn & O).
  set (s1 := with_pub_btn processing4Btn s). set (a' := set_client c' (wc_api wc)).
  set (os := (if q =? 0 then _ else _) ++ _) in O.
  assert (call messages now k (api_send [Str (pub_topic_field (ws_fields s)); Str (pub_msg_field (ws_fields s));
      Number (to_Number (pub_qos_field (ws_fields s))); Bool (msg_retain (ws_fields s))]) s1
    = (Ret tt, reports messages now (wc_clean wc) os (after_call k a' (wc_clean wc) s1))) as Ec.
  { apply (call_run messages now k _ s1 wc (Ret tt) a' os Hwc); [|exact O].
    destruct Hf as [-> -> -> -> Hq _ _ _]. rewrite to_Number_dec by lia.
    unfold api_send, bind at 1, lift, message_of. cbn [arg lookup list_lookup default]. unfold id.
    cbn [make_Message assign_destinationName rbind length Nat.leb assign_qos].
    rewrite setQos_ok by done. cbn [rbind assign_retained]. unfold on_client.
    change (in_browser s1 (wc_api wc)) with (in_browser s (wc_api wc)).
    change (setRetained r _) with (typed_message t m q r). by rewrite E. }
  assert (forall s0, ws_clients (reports messages now (wc_clean wc) os s0) = ws_clients s0) as Hrep'.
  { unfold os. intros s0. by destruct (q =? 0). }
  eexists _, (mkWsClient a' (wc_clean wc)), n. split.
  - unfold ws_send_message, bind at 1, modify at 1. unfold bind at 1, get. unfold bind at 1, get.
    fold s1. change (pahoMqttClient s1) with (pahoMqttClient s). rewrite Hk.
    change (ws_fields s1) with (ws_fields s). unfold bind. rewrite Ec. reflexivity.
  - split; [|split; [exact Hn|split; [done|exact O]]]. cbn [ws_clients with_pub_btn].
    rewrite Hrep'. by apply after_call_lookup.
Qed.

Lemma ws_receive_run messages now s k c t m q r ss n f :
  client_of s k = Some c -> running c -> c_receiveBuffer c = None -> represents c ss ->
  typed_fields f t m q r -> 1 <= n < 65536 ->
  let s' := snd (call messages now k
    (on_client (run_event (SocketData (concat (bytes_of <$> brings n (wired_message t m q r)))))) s) in
  globalSubMessages s' = globalSubMessages s ++ [mkMsgItem m (Some t) q (now_text now)] /\
  submsg_table s' = globalSubMessages s'.
Proof.
  intros Hc Hrun Hb Hrep Hf Hn s'. destruct (client_of_lookup _ _ _ Hc) as (wc & Hwc & ->).
  pose proof (brings_ok n t m q r f Hf Hn) as Hok. set (ps := brings n _) in *.
  destruct (data_chunks [concat (bytes_of <$> ps)] ps [] _ ss Hrun Hb (or_introl eq_refl) Hrep Hok)
    as (_ & _ & _ & HO); [|by cbn; rewrite app_nil_r|done|].
  { unfold ps, brings. cbn [qos wired_message]. by repeat case_match. }
  cbn [fmap list_fmap run_events] in HO.
  destruct (run_event (SocketData (concat (bytes_of <$> ps))) (a_client (in_browser s (wc_api wc))))
    as [res c'] eqn:E. cbn [snd] in HO.
  assert (s' = reports messages now (wc_clean wc) (snd (exchanges ps ss))
    (after_call k (set_client c' (wc_api wc)) (wc_clean wc) s)) as ->.
  { unfold s'. erewrite (call_run messages now k _ s wc res (set_client c' (wc_api wc)) _ Hwc);
      [reflexivity| |exact HO]. unfold on_client. by rewrite E. }
  set (s1 := after_call _ _ _ s).
  destruct (brings_outputs n (wired_message t m q r) ss (tf_range _ _ _ _ _ Hf)) as (before & after & Ho & Hall).
  apply Forall_app in Hall as [Hb1 Ha1]. unfold ps. rewrite Ho.
  unfold reports. rewrite foldl_app. cbn [foldl].
  fold (reports messages now (wc_clean wc) before s1). rewrite (reports_sends _ _ _ before) by done.
  fold (reports messages now (wc_clean wc) after (on_output messages now (wc_clean wc) (arrived (wired_message t m q r)) s1)).
  rewrite (reports_sends _ _ _ after) by done. cbn [on_output arrived]. unfold on_arrived.
  by rewrite (wired_row now t m q r (tf_well_formed _ _ _ _ _ Hf)).
Qed.

(** C22: a message typed on one page of the console is the message another page
    shows.  The click sends one PUBLISH packet; delivered as it is to the client
    of another page (with qos 2, followed by its release), whatever the qos, it
    adds one row to that page's table, with the same text, topic and qos, and
    the time it came.  Text outside the ASCII letters goes through unharmed. *)
Theorem message_from_page_to_page messages messages' attr_text now now' s1 k1 c1 ss1 s2 k2 c2 ss2 t m q r :
  typed_fields (ws_fields s1) t m q r ->
  pahoMqttClient s1 = Some k1 -> client_of s1 k1 = Some c1 ->
  running c1 -> represents c1 ss1 -> has_room c1 ->
  client_of s2 k2 = Some c2 -> running c2 -> c_receiveBuffer c2 = None -> represents c2 ss2 ->
  let s1' := run_ws messages attr_text now ClickSend s1 in
  exists wc n, ws_clients s1' !! k1 = Some wc /\
    e_output (a_client (wc_api wc)) = e_output c1
      ++ (if q =? 0 then [was_delivered (typed_message t m q r)] else [])
      ++ [SocketSend (first_packet n (wired_message t m q r))] /\
    let release := if q =? 2 then bytes_of (Rel n) else [] in
    let s2' := run_ws messages' attr_text now'
      (ClientEvent k2 (SocketData (first_packet n (wired_message t m q r) ++ release))) s2 in
    globalSubMessages s2' = globalSubMessages s2 ++ [mkMsgItem m (Some t) q (now_text now')] /\
    submsg_table s2' = globalSubMessages s2'.
Proof.
  intros Hf Hk1 Hc1 Hr1 Hs1 Hroom Hc2 Hr2 Hb2 Hs2 s1'.
  destruct (ws_send_run messages now s1 k1 c1 t m q r ss1 Hk1 Hc1 Hf Hr1 Hs1 Hroom)
    as (s' & wc & n & E & Hwc & Hn & _ & O).
  exists wc, n. unfold s1'. cbn [run_ws]. rewrite E. split; [exact Hwc|]. split; [exact O|].
  cbv zeta. cbn [run_ws from_browser].
  replace (first_packet n (wired_message t m q r) ++ (if q =? 2 then bytes_of (Rel n) else []))
    with (concat (bytes_of <$> brings n (wired_message t m q r))).
  - by apply (ws_receive_run messages' now' s2 k2 c2 t m q r ss2 n (ws_fields s1)).
  - unfold first_packet, brings. cbn [qos wired_message].
    destruct (qos_cases q (tf_range _ _ _ _ _ Hf)) as [->|[->| ->]]; [done|done|].
    change (bytes_of (Pub2 n (wired_message t m 2 r)) ++ bytes_of (Rel n) ++ []
            = bytes_of (Pub2 n (wired_message t m 2 r)) ++ bytes_of (Rel n)).
    by rewrite app_nil_r.
Qed.

(** A visit from the page as it is loaded, with a host and a user typed in. *)
Definition demo_form : ws_form :=
  mkWsForm (js "::1") (js "8080") (js "/mqtt") (js "a") (js "u") [] (js "60") true true
    (js "t") (js "1") (js "t") (js "hi") (js "1") false.

Definition demo_date : date := mkDate 2018 0 2 3 4 5 6.
Definition demo_page : page := mkPage [] ∅ None.

Lemma connection_form_on_the_wire_witness :
  let s := visit demo_page id [(demo_date, ClickConnect); (demo_date, ClientEvent 0 SocketOpened)]
             (ws_initial demo_form ∅) in
  exists wc, ws_clients s !! 0%nat = Some wc /\
    e_output (a_client (wc_api wc)) =
      [OpenSocket (js "wss://[::1]:8080/mqtt") (js "mqtt");
       SocketSend [0x10; 18; 0; 4; 77; 81; 84; 84; 4; 0xC2; 0; 60; 0; 1; 97; 0; 1; 117; 0; 0]].
Proof.
  assert (forall x, encodable [x] <-> wf_utf16 [x] = true) as Hone.
  { intros x. unfold encodable. split; [by intros []|]. intros H. split; [done|].
    rewrite <- UTF8Length_utf8 by done. cbn. repeat case_match; lia. }
  destruct (connection_form_on_the_wire demo_page id demo_date demo_date (ws_initial demo_form ∅) 60 8080)
    as (_ & _ & wc & Hk & Ho); [vm_compute; reflexivity|lia|vm_compute; reflexivity|lia|
    apply Hone; vm_compute; reflexivity|apply Hone; vm_compute; reflexivity|
    split; [reflexivity|vm_compute; reflexivity]| |].
  - intros b k x H. cbn [ws_localStorage ws_initial] in H. by rewrite lookup_empty in H.
  - exists wc. split; [exact Hk|]. rewrite Ho. vm_compute. reflexivity.
Defined.

(** Two pages, each with its client connected; a text with a character outside
    the basic plane. *)
Definition ws_demo_form (text : jsstr) : ws_form :=
  mkWsForm (js "h") (js "1") (js "/mqtt") (js "a") [] [] (js "60") false false
    (js "t") (js "1") (js "t") text (js "2") false.

Definition ws_connected (text : jsstr) : ws_page :=
  visit demo_page id [(demo_date, ClickConnect); (demo_date, ClientEvent 0 SocketOpened);
                      (demo_date, ClientEvent 0 (SocketData [0x20; 2; 0; 0]))]
    (ws_initial (ws_demo_form text) ∅).

Definition ws_demo_client : client :=
  default (initial_client [] [] (Num 0) [] [] ∅) (client_of (ws_connected (js "h𝄞i")) 0).

Lemma ws_demo_running : running ws_demo_client.
Proof.
  split; [|by vm_compute]. split_and!; [by vm_compute|eexists; split; by vm_compute|by vm_compute|
    by vm_compute|eexists; split; [by vm_compute|]|eexists; split; [by vm_compute|]];
    apply elem_of_dom; by vm_compute; eexists.
Qed.

Lemma ws_demo_represents : represents ws_demo_client (mkSession ∅ ∅).
Proof.
  assert (c_sentMessages ws_demo_client = ∅) as E1 by by vm_compute.
  assert (c_receivedMessages ws_demo_client = ∅) as E2 by by vm_compute.
  constructor; intros n; cbn [outstanding pending]; by rewrite ?E1, ?E2, !lookup_empty.
Qed.

Lemma message_from_page_to_page_witness :
  let s := ws_connected (js "h𝄞i") in
  exists data,
    globalSubMessages (run_ws demo_page id demo_date (ClientEvent 0 (SocketData data)) s)
    = [mkMsgItem (js "h𝄞i") (Some (js "t")) 2 (js "2018-01-02 03:04:05")].
Proof.
  intros s.
  assert (typed_fields (ws_fields s) (js "t") (js "h𝄞i") 2 false) as Hf.
  { constructor; try (vm_compute; reflexivity); [lia|split; vm_compute; reflexivity]. }
  assert (client_of s 0 = Some ws_demo_client) as Hc by (vm_compute; reflexivity).
  assert (has_room ws_demo_client) as Hroom by (vm_compute; repeat split; discriminate || reflexivity).
  destruct (message_from_page_to_page demo_page demo_page id demo_date demo_date
    s 0 ws_demo_client (mkSession ∅ ∅) s 0 ws_demo_client (mkSession ∅ ∅) (js "t") (js "h𝄞i") 2 false
    Hf eq_refl Hc ws_demo_running ws_demo_represents Hroom Hc ws_demo_running eq_refl ws_demo_represents)
    as (wc & n & _ & _ & Hrow & _).
  eexists. etransitivity; [exact Hrow|]. vm_compute. reflexivity.
Defined.

(** A click on the connect button of a connected page (its class does not stop
    the click) makes a second client and forgets the first, whose callbacks
    stay: when the server closes the first for having the same identifier, the
    page says disconnected and opens its connect button, over a connection that
    lives on. *)
Lemma former_client_hides_connection :
  let s := visit demo_page id
    [(demo_date, ClickConnect); (demo_date, ClientEvent 1 SocketOpened);
     (demo_date, ClientEvent 1 (SocketData [0x20; 2; 0; 0])); (demo_date, ClientEvent 0 SocketClosed)]
    (ws_connected (js "hi")) in
  pahoMqttClient s = Some 1%nat /\ c_connected <$> client_of s 1 = Some true /\
  status_connected s = false /\ conn_btn s = enabled_btn.
Proof. vm_compute. repeat split; reflexivity. Qed.
